(* ===== verification/_CoqProject ===== *)
-Q . S2P
Prelude.v
Types.v
Config.v
Storage.v
Pallet.v
Chain.v
Mock.v
Scenarios.v
Exec.v
Effects.v
Registry.v
Ballots.v
Schedule.v
Log.v
Invariants.v
Runs.v
Typing.v
Replay.v
Quorum.v
Lifecycle.v
Releases.v
Decisions.v
Isolation.v
Governance.v
Escrow.v
Specs.v
Genesis.v
Refinement.v
Power.v
Voting.v
Provenance.v
Surplus.v
Divergences.v
Runtime.v
Weights.v
Interaction.v
Build.v
Node.v
Service.v
Command.v
Apis.v
Tools.v
Disk.v
Client.v
Install.v
Builder.v
Reproducible.v
Supply.v
UnitTests.v
