(* ===== verification/Prelude.v ===== *)
(** * VeriGov: a verification of the release-governance pallet

    VeriGov is a Substrate chain on which the stakeholders of a software project decide which binaries
    are its official releases. This library models the chain's own code - the pallet, its mock runtime
    and unit tests, the configuration, genesis presets and APIs of the runtime, the node's command line
    and service - and proves what makes it correct. Paths below are relative to [src/].

    ** The program

    - [pallets/verigov/src/lib.rs]: the pallet. A project is created by root ([project_genesis]) with
      stakeholders, each with a role and an escrowed stake, and a release policy. A Core Developer
      proposes a release ([new_release]) with an attestation signed by a Build Service, under a bond.
      Stakeholders vote with their stake ([vote]). When every required role reaches its quorum of aye
      stake (Eq. 1 of the paper) the proposal is scheduled, and [on_initialize] of the scheduled block
      appends it to the project's Official Release Log. A stakeholder whose rebuild gives another
      binary reports it ([submit_counter_attestation]): the Build Service is slashed and the proposal
      rejected. [close_expired] closes what was not accepted in time.
    - [pallets/verigov/src/mock.rs], [tests.rs]: a small runtime around the pallet and its unit tests.
    - [runtime/], [node/]: the runtime that includes the pallet, and the node that runs it.
    - [tools/]: the off-chain tools - the build service that compiles and attests a release ([builder/]),
      the client that installs, on a user's machine, what the release log publishes ([client/]), and
      what they share ([lib/common.js]).

    ** The model

    - [Prelude]: results, saturating integers, sums over finite maps, ledgers.
    - [Types]: the pallet's data types, with the source's names (record fields carry a prefix where two
      records share a name), and [signing_payload]. An unsigned integer is a [Z] in a stated range.
    - [Config]: the class [Config] is the trait of the pallet with the FRAME code it calls (the
      currency's [hold], [release] and [burn_held], signature verification, [mul_floor], weights) as
      members; the class [ConfigLaws] is the documented behaviour of these members. Theorems are
      proved against the two classes; [Mock] gives instances of both.
    - [Storage]: the record [World] holds every storage item, the events, the block number and the
      currency; the monad [M] runs pallet code over it and keeps the writes made before an error; the
      class [StorageLayer] is FRAME's commit and rollback around a call.
    - [Pallet]: one definition per function of [lib.rs], statement by statement; [dispatch] runs a call
      in a storage layer.
    - [Chain]: the block loop [run_to_block] of [mock.rs], and the step relation of the chain: a new
      block, a dispatched call with arguments in the ranges of their types (successful or not), or any change the rest of
      the runtime makes to balances and events without touching the pallet's holds. [reachable]
      worlds are those some run leads to from empty storage.
    - [Mock], [Scenarios]: [mock.rs] with a concrete ledger, and [tests.rs] test by test as scripts,
      which [UnitTests] evaluates.
    - [Runs]: lists of actions on the mock runtime and the worlds they lead to, the concrete inputs
      of the theorems.
    - [Runtime], [Node], [Build]: constants, pallet composition and configuration, the types of the
      chain, genesis presets, chain specifications, the benchmark extrinsic and the build scripts.
    - [Interaction]: the node and the runtime APIs assemble library code, so they are programs that
      call into a signature of library functions ([prog E A], a finite tree) and are run against an
      environment that answers the calls. [Service] ([node/src/service.rs], [rpc.rs]), [Command]
      ([command.rs], [cli.rs], [main.rs]) and [Apis] ([runtime/src/apis.rs], [benchmarks.rs]) are
      such programs, with the arguments of every call, the branches and the early returns.
    - [Tools], [Client], [Builder]: [tools/lib/common.js], [client/client.js] and [builder/build.js] as
      programs whose environment is the chain, the disk with the artifact store, and the keyring. The
      recursion over directories has fuel for their depth ([independent_rebuilds_agree] asks for no
      more than the depth of the tree); the polling loop is given by its first turns. [Disk] is the
      disk under them: what the successful writes of a run have left.
    - [Governance]: the abstract process the pallet implements, as a step relation on members,
      ballots, proposals and logs, with Eq. 1 in rationals and none of the pallet's bookkeeping.

    ** The proofs

    - [Exec] inverts successful runs ([exec]); [Effects] turns every operation into an explicit world,
      so later files never unfold an operation.
    - [Registry], [Ballots], [Schedule], [Log]: one invariant each, stated on the storage maps it
      concerns, preserved by every effect on them: stakes, holds and role totals; proposals, votes,
      bonds and tallies; pending lists against statuses; log entries against enacted proposals.
    - [Invariants]: their conjunction [Inv], preserved by every step, hence true in every [live] world.
      A live world is reachable and has proposal identifiers left: [NextProposalId] saturates at
      [u32::MAX], after which proposals overwrite each other. Some theorems ask the same of
      [NextProjectId].
    - [Quorum]: [meets_quorums] decides Eq. 1, as rationals over the registry and the votes, provided
      the issuance times 10^9 fits [u128] ([Runtime]: both genesis presets do).
    - [Lifecycle], [Releases], [Decisions]: the status machine; soundness, append-only behaviour and
      completeness of the release log, termination of the block loop, what happens to an approved
      proposal at its block; an open proposal is approved exactly when Eq. 1 accepts it.
    - [Escrow], [Genesis], [Provenance]: stakes, bonds and the negligence slash; what genesis sets up;
      every published binary was attested and signed.
    - [Isolation]: what happens to a project is the doing of its own calls and of the blocks, up to the
      equivalence [agrees] of worlds that look the same to it.
    - [Power]: Eq. 1 as power - a willing quorum gets its release published, a blocking minority keeps
      one out; with equal stakes the test is m-of-n, as the paper says.
    - [Refinement]: every run of the chain through [regular] worlds is a run of the process of
      [Governance]. A regular world is live, has project identifiers left, has no project that
      requires the slashable role, and has an issuance for which the quorum test is exact.
    - [Specs]: each of the five calls equals a functional specification, errors and rollback included.
    - [Typing]: every reachable world is well typed - each value within its Rust type, each bounded
      vector within its bound - even after the identifiers have run out. [Weights]: hence the weight
      of the hook and of a block full of calls is within the limits of the runtime, against the
      interface [WeightModel].
    - [Replay]: a follower that applies the events one by one has, at the end of any run, exactly
      the part of storage that events announce: members, role totals, votes, tallies, challenges and
      logs in full, the names of projects, and the announced fields and the status of proposals.
    - [Service], [Command], [Apis]: what a node starts, who gets keys, what subcommands keep away
      from, and that every chain the node builds boots; each holds whatever the libraries answer.
    - [Client], [Install]: whatever disk and store answer, the client installs only binaries of enacted
      proposals that a Build Service signed for; and with the artifacts in the store and a disk that
      works, the disk it leaves has every release that no later one overwrites. [Disk] reads the state of
      the disk off the calls of a run. The proofs use small logics of programs - [safe] (every
      environment), [wp] (one environment, with its history) and [succeeds] - and the invariant that
      the log has no gaps.
    - [Reproducible], [Supply]: honest rebuilds agree, so that a counter-attestation means something; and
      what the builder attests and puts to the store is what the client accepts and installs.
    - [Voting]: re-voting replaces, votes commute.
    - [Surplus], [Divergences]: where the code does what its documentation does not say: the slashed part
      of an aye stays in the tally for good, an approval for a block that has begun is never enacted,
      votes are refused before enactment, a proposal that a slash has made acceptable can expire.

    ** Bounds and fuel

    [run_blocks] takes as fuel the number of blocks left, which [run_to_block_terminates] shows to
    be enough. All other recursion is structural; programs of [Interaction] are finite trees.
    Balances and block numbers are bounded by the configuration ([balance_max], [block_number_max]),
    identifiers by [u32], quorum products by [u128]; every addition the code saturates saturates in
    the model.

    ** Not modelled

    FRAME, Substrate and the codec (parameters, or calls of a signature, above); storage hashers and
    metadata. Of the JavaScript tools: the demonstration script, which drives the other tools against a
    live node, argument parsing, logging and the wrappers of the RPC library. The tallies of the
    slashable role [BuildService] are outside the theorems on Eq. 1: [Divergences] shows that they
    can be wrong after a slash. *)
From stdpp Require Import prelude gmap vector.
#[local] Open Scope Z_scope.

(** ** Results: Rust's [Result] *)

Inductive result (A E : Type) : Type :=
| Ok (a : A)
| Err (e : E).
Arguments Ok {A E} a.
Arguments Err {A E} e.

#[export] Instance result_eq_dec {A E} `{EqDecision A, EqDecision E} : EqDecision (result A E).
Proof. solve_decision. Defined.

(** ** Machine integers: unsigned values with saturating arithmetic

    A value of an unsigned type with maximum [hi] is a [Z] in [0, hi]. *)

Definition u32_max : Z := 2 ^ 32 - 1.
Definition u64_max : Z := 2 ^ 64 - 1.
Definition u128_max : Z := 2 ^ 128 - 1.

Definition in_width (hi x : Z) : Prop := 0 <= x <= hi.
#[export] Instance in_width_dec hi x : Decision (in_width hi x).
Proof. unfold in_width. apply _. Defined.

Definition saturating_add (hi x y : Z) : Z := Z.min hi (x + y).
Definition saturating_sub (x y : Z) : Z := Z.max 0 (x - y).
Definition saturating_mul (hi x y : Z) : Z := Z.min hi (x * y).

Create HintDb verigov.

Section Saturating.
Context (hi : Z).

Lemma saturating_add_exact x y : x + y <= hi -> saturating_add hi x y = x + y.
Proof. unfold saturating_add. lia. Qed.

Lemma saturating_add_in_width x y :
  0 <= hi -> 0 <= x -> 0 <= y -> in_width hi (saturating_add hi x y).
Proof. unfold saturating_add, in_width. lia. Qed.

Lemma saturating_sub_exact x y : y <= x -> saturating_sub x y = x - y.
Proof. unfold saturating_sub. lia. Qed.

Lemma saturating_mul_exact x y : x * y <= hi -> saturating_mul hi x y = x * y.
Proof. unfold saturating_mul. lia. Qed.
End Saturating.

#[export] Hint Resolve saturating_add_in_width : verigov.

(** ** Sums over finite maps

    The registry, the tallies and the escrow are all sums of stakes over a storage map. *)

Definition msum {K V} `{Countable K} (f : K -> V -> Z) (m : gmap K V) : Z :=
  map_fold (fun k v acc => f k v + acc) 0 m.

Section MSum.
Context {K V : Type} `{Countable K}.
Implicit Types (m : gmap K V) (f g : K -> V -> Z).

Lemma msum_empty f : msum f ∅ = 0.
Proof. apply map_fold_empty. Qed.

Lemma msum_insert f m k v :
  m !! k = None -> msum f (<[k := v]> m) = f k v + msum f m.
Proof. intros Hk. unfold msum. rewrite map_fold_insert_L; [done | lia | done]. Qed.

Lemma msum_delete f m k v :
  m !! k = Some v -> msum f m = f k v + msum f (delete k m).
Proof. intros Hk. unfold msum. rewrite (map_fold_delete_L _ _ k v m); [done | lia | done]. Qed.

(** Overwriting an entry replaces its contribution. *)
Lemma msum_update f m k old v :
  m !! k = Some old -> msum f (<[k := v]> m) = msum f m - f k old + f k v.
Proof.
  intros Hk. rewrite <- insert_delete_eq, msum_insert by apply lookup_delete_eq.
  rewrite (msum_delete f m k old Hk). lia.
Qed.

Lemma msum_ext f g m :
  (forall k v, m !! k = Some v -> f k v = g k v) -> msum f m = msum g m.
Proof.
  induction m as [|k v m Hk IH] using map_ind; intros Hfg; [by rewrite !msum_empty|].
  rewrite !msum_insert by done. rewrite (Hfg k v) by apply lookup_insert_eq.
  f_equal. apply IH. intros k' v' Hk'. apply Hfg. rewrite lookup_insert_ne; naive_solver.
Qed.

Lemma msum_le f g m :
  (forall k v, m !! k = Some v -> f k v <= g k v) -> msum f m <= msum g m.
Proof.
  induction m as [|k v m Hk IH] using map_ind; intros Hfg; [by rewrite !msum_empty|].
  rewrite !msum_insert by done. pose proof (Hfg k v (lookup_insert_eq _ _ _)).
  assert (msum f m <= msum g m); [|lia].
  apply IH. intros k' v' Hk'. apply Hfg. rewrite lookup_insert_ne; naive_solver.
Qed.

Lemma msum_add f g m : msum (fun k v => f k v + g k v) m = msum f m + msum g m.
Proof.
  induction m as [|k v m Hk IH] using map_ind; [by rewrite !msum_empty|].
  rewrite !msum_insert by done. lia.
Qed.

Lemma msum_scale c f m : msum (fun k v => c * f k v) m = c * msum f m.
Proof.
  induction m as [|k v m Hk IH] using map_ind; [rewrite !msum_empty; lia|].
  rewrite !msum_insert, IH by done. lia.
Qed.

Lemma msum_zero f m : (forall k v, m !! k = Some v -> f k v = 0) -> msum f m = 0.
Proof.
  intros Hf. rewrite (msum_ext f (fun _ _ => 0) m Hf).
  induction m as [|k v m Hk IH] using map_ind; [apply msum_empty|].
  rewrite msum_insert by done. rewrite IH; [done|].
  intros k' v' Hk'. apply Hf. rewrite lookup_insert_ne; naive_solver.
Qed.

Lemma msum_nonneg f m : (forall k v, m !! k = Some v -> 0 <= f k v) -> 0 <= msum f m.
Proof.
  intros Hf. rewrite <- (msum_zero (fun _ _ => 0) m) by done. by apply msum_le.
Qed.

(** Two weights that agree away from one key. *)
Lemma msum_change f g m k v :
  m !! k = Some v ->
  (forall k' v', m !! k' = Some v' -> k' <> k -> g k' v' = f k' v') ->
  msum g m = msum f m - f k v + g k v.
Proof.
  intros Hk Hfg. rewrite (msum_delete f m k v Hk), (msum_delete g m k v Hk).
  rewrite (msum_ext g f (delete k m)); [lia|].
  intros k' v' [Hne Hk']%lookup_delete_Some. by apply Hfg.
Qed.

(** Two maps whose entries contribute the same have the same sum. *)
Lemma msum_agree f m1 m2 :
  (forall k, from_option (f k) 0 (m1 !! k) = from_option (f k) 0 (m2 !! k)) -> msum f m1 = msum f m2.
Proof.
  revert m2. induction m1 as [|k v m Hk IH] using map_ind; intros m2 Hf.
  - rewrite msum_empty. symmetry. apply msum_zero. intros k v Hk. specialize (Hf k).
    by rewrite lookup_empty, Hk in Hf.
  - rewrite msum_insert by done. pose proof (Hf k) as Hkv. rewrite lookup_insert_eq in Hkv. cbn in Hkv.
    assert (Hm : forall k', k' <> k -> from_option (f k') 0 (m !! k') = from_option (f k') 0 (m2 !! k')).
    { intros k' Hne. rewrite <- Hf. by rewrite lookup_insert_ne. }
    destruct (m2 !! k) as [v2|] eqn:E; cbn in Hkv.
    + rewrite (msum_delete f m2 k v2 E), Hkv, (IH (delete k m2)); [done|]. intros k'.
      destruct (decide (k' = k)) as [->|Hne]; [by rewrite Hk, lookup_delete_eq|].
      rewrite lookup_delete_ne by done. by apply Hm.
    + rewrite Hkv, (IH m2); [done|]. intros k'.
      destruct (decide (k' = k)) as [->|Hne]; [by rewrite Hk, E | by apply Hm].
Qed.

(** A sum of weights of at most one counts at most the entries. *)
Lemma msum_size f m : (forall k v, m !! k = Some v -> f k v <= 1) -> msum f m <= Z.of_nat (size m).
Proof.
  induction m as [|k v m Hk IH] using map_ind; intros Hf; [by rewrite msum_empty|].
  rewrite msum_insert, map_size_insert_None by done.
  pose proof (Hf k v (lookup_insert_eq _ _ _)).
  assert (msum f m <= Z.of_nat (size m)); [|lia].
  apply IH. intros k' v' Hk'. apply (Hf k'). rewrite lookup_insert_ne; naive_solver.
Qed.

(** One entry contributes at most the whole sum. *)
Lemma msum_lookup_le f m k v :
  (forall k v, m !! k = Some v -> 0 <= f k v) -> m !! k = Some v -> f k v <= msum f m.
Proof.
  intros Hf Hk. rewrite (msum_delete f m k v Hk).
  assert (0 <= msum f (delete k m)); [|lia].
  apply msum_nonneg. intros k' v' [_ Hk']%lookup_delete_Some. by eapply Hf.
Qed.
End MSum.

Lemma omap_agree {A B} (f g : A -> option B) (l : list A) :
  (forall x, x ∈ l -> f x = g x) -> omap f l = omap g l.
Proof.
  induction l as [|x l IH]; intros H; [done|]. csimpl. rewrite (H x) by (by left).
  rewrite IH; [done|]. intros y Hy. apply H. by right.
Qed.

(** A map whose keys lie in [0, n) has at most [n] entries. *)
Lemma size_bounded {V} (m : gmap Z V) (n : Z) :
  0 <= n -> (forall k v, m !! k = Some v -> 0 <= k < n) -> Z.of_nat (size m) <= n.
Proof.
  intros Hn Hm. rewrite <- size_dom.
  assert (Hsub : dom m ⊆ (list_to_set (seqZ 0 n) : gset Z)).
  { intros k [v Hk]%elem_of_dom. apply elem_of_list_to_set, elem_of_seqZ.
    pose proof (Hm _ _ Hk). lia. }
  apply subseteq_size in Hsub. rewrite size_list_to_set in Hsub by apply NoDup_seqZ.
  rewrite length_seqZ in Hsub. lia.
Qed.

(** The sum of [f] over a list. *)
Definition sum_over {A} (f : A -> Z) (l : list A) : Z := foldr (fun a acc => f a + acc) 0 l.

Section SumOver.
Context {A : Type}.
Implicit Types (f g : A -> Z) (l : list A).

Lemma sum_over_cons f a l : sum_over f (a :: l) = f a + sum_over f l.
Proof. done. Qed.

Lemma sum_over_ext f g l : (forall a, a ∈ l -> f a = g a) -> sum_over f l = sum_over g l.
Proof.
  induction l as [|a l IH]; intros Hfg; [done|].
  rewrite !sum_over_cons, (Hfg a) by set_solver. f_equal. apply IH. set_solver.
Qed.

Lemma sum_over_le f g l : (forall a, a ∈ l -> f a <= g a) -> sum_over f l <= sum_over g l.
Proof.
  induction l as [|a l IH]; intros Hfg; [done|].
  rewrite !sum_over_cons. pose proof (Hfg a ltac:(set_solver)).
  assert (sum_over f l <= sum_over g l); [apply IH; set_solver | lia].
Qed.
End SumOver.

(** A sum over one row of a map with pairs of keys is bounded by a sum over distinct columns. *)
Lemma msum_row {K1 K2 V} `{Countable K1, Countable K2} (f : K1 * K2 -> V -> Z) (g : K2 -> Z)
    (p : K1) (m : gmap (K1 * K2) V) :
  (forall k v, m !! k = Some v -> k.1 <> p -> f k v = 0) ->
  (forall a v, m !! (p, a) = Some v -> f (p, a) v <= g a) ->
  exists l, NoDup l /\ (forall a, a ∈ l -> is_Some (m !! (p, a))) /\ msum f m <= sum_over g l.
Proof.
  induction m as [|[q a] v m Hk IH] using map_ind; intros Hrow Hle.
  { exists []. split; [constructor|]. split; [by intros a ?%not_elem_of_nil|]. by rewrite msum_empty. }
  destruct IH as (l & Hl & Hdom & Hsum).
  { intros k' v' Hk'. apply Hrow. rewrite lookup_insert_ne; naive_solver. }
  { intros b v' Hb. apply Hle. rewrite lookup_insert_ne; naive_solver. }
  rewrite msum_insert by done. destruct (decide (q = p)) as [->|Hne].
  - exists (a :: l). split; [|split].
    + constructor; [|done]. intros [x Hx]%Hdom. by simplify_eq.
    + intros b [->|Hb]%elem_of_cons; [by rewrite lookup_insert_eq|].
      apply lookup_insert_is_Some'. by right; apply Hdom.
    + rewrite sum_over_cons. pose proof (Hle a v (lookup_insert_eq _ _ _)). lia.
  - exists l. split; [done|]. split.
    + intros b Hb. apply lookup_insert_is_Some'. right. by apply Hdom.
    + rewrite (Hrow (q, a) v (lookup_insert_eq _ _ _) Hne). lia.
Qed.

(** ** Ledgers: maps from a key to an amount, an absent key holding nothing *)

Definition amount_at {K} `{Countable K} (m : gmap K Z) (k : K) : Z := default 0 (m !! k).
Definition credit {K} `{Countable K} (m : gmap K Z) (k : K) (x : Z) : gmap K Z :=
  <[k := amount_at m k + x]> m.
Definition total {K} `{Countable K} (m : gmap K Z) : Z := msum (fun _ x => x) m.
Definition amounts_nonneg {K} `{Countable K} (m : gmap K Z) : Prop :=
  map_Forall (fun _ x => 0 <= x) m.

Section Ledgers.
Context {K : Type} `{Countable K}.
Implicit Types m : gmap K Z.

Lemma amount_at_credit m k x k' :
  amount_at (credit m k x) k' = amount_at m k' + (if decide (k' = k) then x else 0).
Proof.
  unfold amount_at, credit. case_decide as E.
  - subst. by rewrite lookup_insert_eq.
  - rewrite lookup_insert_ne by done. lia.
Qed.

Lemma total_credit m k x : total (credit m k x) = total m + x.
Proof.
  unfold total, credit, amount_at. destruct (m !! k) as [y|] eqn:E; cbn.
  - rewrite (msum_update _ _ _ _ _ E). lia.
  - rewrite msum_insert by done. lia.
Qed.

Lemma amount_at_nonneg m k : amounts_nonneg m -> 0 <= amount_at m k.
Proof.
  intros Hm. unfold amount_at. destruct (m !! k) as [x|] eqn:E; [|done]. by apply (Hm k x).
Qed.

Lemma credit_nonneg m k x :
  amounts_nonneg m -> 0 <= amount_at m k + x -> amounts_nonneg (credit m k x).
Proof. intros Hm Hx. by apply map_Forall_insert_2. Qed.

(** Distinct keys account for at most the total. *)
Lemma sum_over_total {A} (key : A -> K) `{!Inj (=) (=) key} m (l : list A) :
  amounts_nonneg m -> NoDup l -> sum_over (fun a => amount_at m (key a)) l <= total m.
Proof.
  intros Hm Hl. revert m Hm. induction Hl as [|a l Ha Hl IH]; intros m Hm.
  { apply msum_nonneg. exact Hm. }
  rewrite sum_over_cons.
  rewrite (sum_over_ext _ (fun b => amount_at (delete (key a) m) (key b)) l).
  - pose proof (IH (delete (key a) m) (map_Forall_delete _ _ _ Hm)) as Hl'.
    unfold amount_at at 1. destruct (m !! key a) as [x|] eqn:E; cbn.
    + unfold total in *. rewrite (msum_delete _ _ _ _ E). lia.
    + rewrite delete_id in Hl' by done. rewrite delete_id by done. lia.
  - intros b Hb. unfold amount_at. rewrite lookup_delete_ne; [done|].
    intros E%(inj key). by subst.
Qed.
End Ledgers.
