(* ===== verification/Types.v ===== *)
(** * Data types of the VeriGov pallet

    The types declared at the top of [pallets/verigov/src/lib.rs]: identifiers and limits, roles
    and quorums, the release policy, stakeholders and projects, the build attestation with its
    signing payload, proposals and their status, tallies, release-log entries,
    counter-attestations and the hold reasons.

    Integers of the code are [Z] values with their width stated where it matters; a [BoundedVec]
    is a list whose bound is checked where the code checks it ([try_push], call decoding); a
    [[u8; 32]] is a vector of 32 bytes. *)
From stdpp Require Import prelude gmap vector.
From Stdlib Require Import Init.Byte Strings.Byte.
From S2P Require Import Prelude.
#[local] Open Scope Z_scope.

Definition ProjectId : Type := Z.
Definition ProposalId : Type := Z.

#[export] Instance byte_eq_dec : EqDecision byte.
Proof. intros x y. destruct (Byte.eqb x y) eqn:E; [left; by apply Byte.byte_dec_bl | right].
  intros ->. by rewrite (Byte.byte_dec_lb eq_refl) in E. Defined.

(** [Hash32 = [u8; 32]]. *)
Definition Hash32 : Type := vec byte 32.
#[export] Instance Hash32_eq_dec : EqDecision Hash32.
Proof. unfold Hash32. apply _. Defined.

Definition NameLimit : nat := 64.
Definition VersionLimit : nat := 32.
Definition MaxStakeholdersPerGenesis : nat := 64.
Definition MaxRequiredRoles : nat := 4.
Definition MaxEnactmentsPerBlock : nat := 32.

(** [Perbill]: a fraction in parts per billion, [Perbill::ACCURACY = 1_000_000_000]. *)
Definition Perbill : Type := Z.
Definition PERBILL_ACCURACY : Z := 1000000000.
Definition perbill_ok (p : Perbill) : Prop := 0 <= p <= PERBILL_ACCURACY.

(** ** Roles *)

Inductive Role : Set :=
| CoreDeveloper
| SecurityAuditor
| CommunityTrustee
| BuildService.

#[export] Instance Role_eq_dec : EqDecision Role.
Proof. solve_decision. Defined.

(** The discriminant, in declaration order (the derived [Ord] and the codec index). *)
Definition Role_index (r : Role) : nat :=
  match r with
  | CoreDeveloper => 0
  | SecurityAuditor => 1
  | CommunityTrustee => 2
  | BuildService => 3
  end.
Definition Role_of_index (n : nat) : option Role :=
  match n with
  | 0 => Some CoreDeveloper
  | 1 => Some SecurityAuditor
  | 2 => Some CommunityTrustee
  | 3 => Some BuildService
  | _ => None
  end%nat.
#[export] Instance Role_countable : Countable Role.
Proof. apply (inj_countable Role_index Role_of_index). by intros []. Defined.

(** ** Policies, stakeholders, projects *)

Record RoleQuorum := mkRoleQuorum {
  rq_role : Role;
  rq_quorum : Perbill;
}.

Record ReleasePolicy := mkReleasePolicy {
  required_roles : list RoleQuorum;
  voting_period : Z;
  enactment_delay : Z;
}.

Record SlashingParams := mkSlashingParams {
  sigma_neg : Perbill;
  sigma_mal : Perbill;
  delta_max : Z;
}.
#[export] Instance SlashingParams_eq_dec : EqDecision SlashingParams.
Proof. solve_decision. Defined.

Record StakeholderInit (AccountId : Type) := mkStakeholderInit {
  si_account : AccountId;
  si_role : Role;
  si_stake : Z;
}.
Arguments mkStakeholderInit {AccountId}.
Arguments si_account {AccountId}.
Arguments si_role {AccountId}.
Arguments si_stake {AccountId}.

Record Stakeholder := mkStakeholder {
  sh_role : Role;
  sh_stake : Z;
}.

Record ProjectInfo := mkProjectInfo {
  pi_name : list byte;
  pi_policy : ReleasePolicy;
  pi_slashing : SlashingParams;
  pi_proposal_bond : Z;
}.

(** ** The build attestation [A_build] *)

Record BuildAttestation (AccountId : Type) := mkBuildAttestation {
  source_commit_hash : Hash32;
  source_tree_hash : Hash32;
  build_environment_hash : Hash32;
  output_binary_hash : Hash32;
  builder : AccountId;
}.
Arguments mkBuildAttestation {AccountId}.
Arguments source_commit_hash {AccountId}.
Arguments source_tree_hash {AccountId}.
Arguments build_environment_hash {AccountId}.
Arguments output_binary_hash {AccountId}.
Arguments builder {AccountId}.

(** [out[i .. i + src.len()].copy_from_slice(src)] on a buffer held as a list. *)
Definition copy_from_slice (out : list byte) (i : nat) (src : list byte) : list byte :=
  take i out ++ src ++ drop (i + length src) out.

(** The 128 bytes the Build Service signs, written into a zeroed buffer as the code does. *)
Definition signing_payload {AccountId} (att : BuildAttestation AccountId) : list byte :=
  let out := replicate 128 x00 in
  let out := copy_from_slice out 0 (vec_to_list (source_commit_hash att)) in
  let out := copy_from_slice out 32 (vec_to_list (source_tree_hash att)) in
  let out := copy_from_slice out 64 (vec_to_list (build_environment_hash att)) in
  copy_from_slice out 96 (vec_to_list (output_binary_hash att)).

(** ** Proposals *)

Inductive ProposalStatus : Type :=
| Voting
| Approved (enact_at : Z)
| Enacted
| Rejected
| Expired.

#[export] Instance ProposalStatus_eq_dec : EqDecision ProposalStatus.
Proof. solve_decision. Defined.

Record Proposal (AccountId : Type) := mkProposal {
  p_project_id : ProjectId;
  p_proposer : AccountId;
  p_version : list byte;
  p_attestation : BuildAttestation AccountId;
  p_attestation_cid : Hash32;
  p_bond : Z;
  p_submitted_at : Z;
  p_voting_ends : Z;
  p_status : ProposalStatus;
}.
Arguments mkProposal {AccountId}.
Arguments p_project_id {AccountId}.
Arguments p_proposer {AccountId}.
Arguments p_version {AccountId}.
Arguments p_attestation {AccountId}.
Arguments p_attestation_cid {AccountId}.
Arguments p_bond {AccountId}.
Arguments p_submitted_at {AccountId}.
Arguments p_voting_ends {AccountId}.
Arguments p_status {AccountId}.

(** The field assignment [p.status = status]. *)
Definition with_status {AccountId} (p : Proposal AccountId) (s : ProposalStatus) : Proposal AccountId :=
  mkProposal (p_project_id p) (p_proposer p) (p_version p) (p_attestation p) (p_attestation_cid p)
    (p_bond p) (p_submitted_at p) (p_voting_ends p) s.

Record RoleTally := mkRoleTally {
  ayes : Z;
  nays : Z;
}.
Definition RoleTally_default : RoleTally := mkRoleTally 0 0.

Record ReleaseEntry := mkReleaseEntry {
  re_proposal_id : ProposalId;
  re_version : list byte;
  re_source_commit_hash : Hash32;
  re_output_binary_hash : Hash32;
  re_attestation_cid : Hash32;
  re_enacted_at : Z;
}.

Record CounterAttestation (AccountId : Type) := mkCounterAttestation {
  ca_challenger : AccountId;
  ca_attested_binary_hash : Hash32;
  ca_rebuilt_binary_hash : Hash32;
}.
Arguments mkCounterAttestation {AccountId}.
Arguments ca_challenger {AccountId}.
Arguments ca_attested_binary_hash {AccountId}.
Arguments ca_rebuilt_binary_hash {AccountId}.

(** ** Reasons for holding [VGOV] *)

Inductive HoldReason : Set :=
| Stake
| ProposalBond.
#[export] Instance HoldReason_eq_dec : EqDecision HoldReason.
Proof. solve_decision. Defined.

(** The declared [#[codec(index = _)]]. *)
Definition HoldReason_index (r : HoldReason) : Z :=
  match r with Stake => 0 | ProposalBond => 1 end.

Definition HoldReason_of_index (i : Z) : option HoldReason :=
  if i =? 0 then Some Stake else if i =? 1 then Some ProposalBond else None.
#[export] Instance HoldReason_countable : Countable HoldReason.
Proof. apply (inj_countable HoldReason_index HoldReason_of_index). by intros []. Defined.

(** ** Events and errors *)

Inductive Event (AccountId : Type) : Type :=
| ProjectCreated (project_id : ProjectId) (name : list byte)
| StakeholderRegistered (project_id : ProjectId) (account : AccountId) (role : Role) (stake : Z)
| ReleaseProposed (proposal_id : ProposalId) (project_id : ProjectId) (proposer : AccountId)
    (version : list byte) (source_commit output_binary attestation_cid : Hash32) (voting_ends : Z)
| Voted (proposal_id : ProposalId) (voter : AccountId) (role : Role) (aye : bool) (weight : Z)
| ProposalApproved (proposal_id : ProposalId) (enact_at : Z)
| ProposalApprovalRevoked (proposal_id : ProposalId)
| ReleaseEnacted (project_id : ProjectId) (proposal_id : ProposalId) (index : Z)
    (version : list byte) (output_binary : Hash32)
| CounterAttestationAccepted (proposal_id : ProposalId) (challenger : AccountId)
    (attested_binary_hash rebuilt_binary_hash : Hash32)
| BuildServiceSlashed (project_id : ProjectId) (builder : AccountId) (amount remaining_stake : Z)
| ProposalRejected (proposal_id : ProposalId)
| ProposalExpired (proposal_id : ProposalId).
Arguments ProjectCreated {AccountId}.
Arguments StakeholderRegistered {AccountId}.
Arguments ReleaseProposed {AccountId}.
Arguments Voted {AccountId}.
Arguments ProposalApproved {AccountId}.
Arguments ProposalApprovalRevoked {AccountId}.
Arguments ReleaseEnacted {AccountId}.
Arguments CounterAttestationAccepted {AccountId}.
Arguments BuildServiceSlashed {AccountId}.
Arguments ProposalRejected {AccountId}.
Arguments ProposalExpired {AccountId}.

Inductive Error : Set :=
| ProjectNotFound
| ProposalNotFound
| NotStakeholder
| NotCoreDeveloper
| NotBuildService
| DuplicateStakeholder
| NoRequiredRoles
| RequiredRoleHasNoStake
| InvalidBuilderSignature
| ProposalNotVoting
| VotingPeriodOver
| VotingPeriodNotOver
| ProposalNotChallengeable
| NoDiscrepancy
| BuilderCannotChallenge
| TooManyEnactments.
#[export] Instance Error_eq_dec : EqDecision Error.
Proof. solve_decision. Defined.

(** ** The signing payload *)

(** Writing a slice just after an already written prefix of a zeroed buffer. *)
Lemma copy_from_slice_zeros (pre src : list byte) (n : nat) (z : byte) :
  copy_from_slice (pre ++ replicate (length src + n) z) (length pre) src
  = (pre ++ src) ++ replicate n z.
Proof.
  unfold copy_from_slice. rewrite take_app_length, <- (assoc_L (++)). do 2 f_equal.
  rewrite drop_app_add, drop_replicate. f_equal. lia.
Qed.

(** Four digests written into a zeroed buffer one after the other are their concatenation. *)
Lemma copied_digests (la lb lc ld : list byte) :
  length la = 32%nat -> length lb = 32%nat -> length lc = 32%nat -> length ld = 32%nat ->
  copy_from_slice (copy_from_slice (copy_from_slice (copy_from_slice (replicate 128 x00) 0 la) 32 lb)
    64 lc) 96 ld = la ++ lb ++ lc ++ ld.
Proof.
  intros Ha Hb Hc Hd.
  pose proof (copy_from_slice_zeros [] la 96 x00) as E0.
  pose proof (copy_from_slice_zeros la lb 64 x00) as E1.
  pose proof (copy_from_slice_zeros (la ++ lb) lc 32 x00) as E2.
  pose proof (copy_from_slice_zeros ((la ++ lb) ++ lc) ld 0 x00) as E3.
  rewrite !length_app in *. rewrite Ha, Hb, Hc, Hd in *. cbn [Nat.add app length] in *.
  rewrite E0, E1, E2, E3. by rewrite app_nil_r, <- !(assoc_L (++)).
Qed.

Section SigningPayload.
Context {AccountId : Type}.
Implicit Types att : BuildAttestation AccountId.

(** The buffer writes amount to a plain concatenation of the four digests. *)
Lemma signing_payload_app att :
  signing_payload att =
    vec_to_list (source_commit_hash att) ++ vec_to_list (source_tree_hash att)
    ++ vec_to_list (build_environment_hash att) ++ vec_to_list (output_binary_hash att).
Proof. apply copied_digests; apply length_vec_to_list. Qed.

Lemma length_signing_payload att : length (signing_payload att) = 128%nat.
Proof. by rewrite signing_payload_app, !length_app, !length_vec_to_list. Qed.

(** The payload determines the four digests it was built from. *)
Lemma signing_payload_digests att1 att2 :
  signing_payload att1 = signing_payload att2 ->
  source_commit_hash att1 = source_commit_hash att2
  /\ source_tree_hash att1 = source_tree_hash att2
  /\ build_environment_hash att1 = build_environment_hash att2
  /\ output_binary_hash att1 = output_binary_hash att2.
Proof.
  rewrite !signing_payload_app. intros E.
  apply app_inj_1 in E as [E0 E]; [|by rewrite !length_vec_to_list].
  apply app_inj_1 in E as [E1 E]; [|by rewrite !length_vec_to_list].
  apply app_inj_1 in E as [E2 E3]; [|by rewrite !length_vec_to_list].
  by repeat split; apply vec_to_list_inj2.
Qed.
End SigningPayload.
