(* ===== verification/Config.v ===== *)
(** * The pallet's configuration and the code it calls

    [Config] is the trait of [pallets/verigov/src/lib.rs] the pallet is generic over, with the
    FRAME code the pallet calls and which is not part of the repository: the currency ([Inspect],
    [Mutate], [InspectHold], [MutateHold]), signature verification ([Verify]), [Perbill::mul_floor]
    and the weight arithmetic. Every member is a parameter of the model.

    [ConfigLaws] states the documented behaviour of these members that the theorems rely on. *)
From stdpp Require Import prelude gmap vector.
From Stdlib Require Import Init.Byte.
From S2P Require Import Prelude Types.
#[local] Open Scope Z_scope.

(** [frame_support::traits::tokens::{Precision, Fortitude}]. *)
Inductive Precision : Set := Exact | BestEffort.
Inductive Fortitude : Set := Polite | Force.

Class Config := {
  (** [frame_system::Config::AccountId] *)
  AccountId : Type;
  AccountId_eq_dec :: EqDecision AccountId;
  AccountId_countable :: Countable AccountId;
  (** the largest [Balance] and the largest [BlockNumber] *)
  balance_max : Z;
  block_number_max : Z;
  (** [type RuntimeHoldReason: From<HoldReason>] *)
  RuntimeHoldReason : Type;
  hold_reason_into : HoldReason -> RuntimeHoldReason;
  (** [type Currency], as a state with its operations; a failing operation also returns the state
      it leaves behind *)
  CurrencyState : Type;
  CurrencyError : Type;
  balance_on_hold : RuntimeHoldReason -> AccountId -> CurrencyState -> Z;
  total_issuance : CurrencyState -> Z;
  hold : RuntimeHoldReason -> AccountId -> Z -> CurrencyState ->
    result unit CurrencyError * CurrencyState;
  release : RuntimeHoldReason -> AccountId -> Z -> Precision -> CurrencyState ->
    result Z CurrencyError * CurrencyState;
  burn_held : RuntimeHoldReason -> AccountId -> Z -> Precision -> Fortitude -> CurrencyState ->
    result Z CurrencyError * CurrencyState;
  (** [type Signature: Verify] *)
  Signature : Type;
  verify : Signature -> list byte -> AccountId -> bool;
  (** [Perbill::mul_floor] *)
  mul_floor : Perbill -> Z -> Z;
  (** [Weight] and [T::DbWeight] *)
  Weight : Type;
  weight_from_parts : Z -> Z -> Weight;
  weight_saturating_add : Weight -> Weight -> Weight;
  reads_writes : Z -> Z -> Weight;
}.

Section HoldFrame.
Context {T : Config}.

(** [c'] differs from [c] on the hold of [a] for [r] at most. *)
Definition holds_frame (r : RuntimeHoldReason) (a : AccountId) (c c' : CurrencyState) : Prop :=
  forall r' a', (r', a') <> (r, a) -> balance_on_hold r' a' c' = balance_on_hold r' a' c.
End HoldFrame.

(** The documented behaviour of the members, for the currency states [currency_ok] admits (the
    ones whose books balance). *)
Class ConfigLaws (T : Config) := {
  currency_ok : CurrencyState -> Prop;
  balance_max_range : 0 < balance_max <= u128_max;
  block_number_max_pos : 0 < block_number_max;
  hold_reason_into_inj :: Inj (=) (=) hold_reason_into;
  (** [mul_floor]: multiply by the fraction, rounding down *)
  mul_floor_spec p x : perbill_ok p -> 0 <= x -> mul_floor p x = x * p / PERBILL_ACCURACY;
  (** the total issuance is a [Balance] and accounts for every hold *)
  total_issuance_max c : currency_ok c -> total_issuance c <= balance_max;
  balance_on_hold_nonneg r a c : currency_ok c -> 0 <= balance_on_hold r a c;
  holds_issued r l c : currency_ok c -> NoDup l ->
    sum_over (fun a => balance_on_hold r a c) l <= total_issuance c;
  (** [MutateHold::hold]: hold some funds of an account *)
  hold_spec r a amount c c' : currency_ok c -> 0 <= amount -> hold r a amount c = (Ok tt, c') ->
    currency_ok c' /\ total_issuance c' = total_issuance c /\ holds_frame r a c c'
    /\ balance_on_hold r a c' = balance_on_hold r a c + amount;
  (** [MutateHold::release] with [BestEffort]: release up to [amount]; the error it may return can
      be ignored by the caller, so what a failed call leaves behind matters *)
  release_spec r a amount res c c' : currency_ok c -> 0 <= amount ->
    release r a amount BestEffort c = (res, c') ->
    currency_ok c' /\ total_issuance c' = total_issuance c /\ holds_frame r a c c'
    /\ balance_on_hold r a c - amount <= balance_on_hold r a c' <= balance_on_hold r a c
    /\ (forall x, res = Ok x ->
        balance_on_hold r a c' = balance_on_hold r a c - Z.min amount (balance_on_hold r a c));
  (** [MutateHold::burn_held] with [BestEffort] and [Force]: burn up to [amount] of a hold *)
  burn_held_spec r a amount x c c' : currency_ok c -> 0 <= amount ->
    burn_held r a amount BestEffort Force c = (Ok x, c') ->
    currency_ok c' /\ holds_frame r a c c'
    /\ x = Z.min amount (balance_on_hold r a c)
    /\ balance_on_hold r a c' = balance_on_hold r a c - x
    /\ total_issuance c' = total_issuance c - x;
}.

(** The hold of an account for one of the pallet's own reasons. *)
Definition held {T : Config} (reason : HoldReason) (a : AccountId) (c : CurrencyState) : Z :=
  balance_on_hold (hold_reason_into reason) a c.

Section HeldLemmas.
Context {T : Config} {L : ConfigLaws T}.
Implicit Types (c : CurrencyState) (a : AccountId).

Lemma held_nonneg reason a c : currency_ok c -> 0 <= held reason a c.
Proof. apply balance_on_hold_nonneg. Qed.

Lemma held_frame reason a c c' reason' a' :
  holds_frame (hold_reason_into reason) a c c' ->
  (reason', a') <> (reason, a) -> held reason' a' c' = held reason' a' c.
Proof.
  intros Hf Hne. apply Hf. intros [= E ->]. apply Hne.
  by rewrite (inj hold_reason_into _ _ E).
Qed.

Lemma hold_held reason a amount c c' :
  currency_ok c -> 0 <= amount -> hold (hold_reason_into reason) a amount c = (Ok tt, c') ->
  forall reason' a', held reason' a' c' =
    held reason' a' c + (if decide ((reason', a') = (reason, a)) then amount else 0).
Proof.
  intros Hc Ha Hh reason' a'. destruct (hold_spec _ _ _ _ _ Hc Ha Hh) as (_ & _ & Hf & E).
  case_decide as Heq; [by simplify_eq|]. rewrite (held_frame _ _ _ _ _ _ Hf Heq). lia.
Qed.

Lemma release_other reason a amount res c c' reason' a' :
  currency_ok c -> 0 <= amount ->
  release (hold_reason_into reason) a amount BestEffort c = (res, c') ->
  (reason', a') <> (reason, a) -> held reason' a' c' = held reason' a' c.
Proof.
  intros Hc Ha Hr. destruct (release_spec _ _ _ _ _ _ Hc Ha Hr) as (_ & _ & Hf & _).
  by apply held_frame.
Qed.

(** A release lowers a hold by the amount asked for at most, whether it succeeds or not. *)
Lemma release_at_most reason a amount res c c' a' :
  currency_ok c -> 0 <= amount ->
  release (hold_reason_into reason) a amount BestEffort c = (res, c') ->
  held reason a' c - (if decide (a' = a) then amount else 0) <= held reason a' c'.
Proof.
  intros Hc Ha Hr. case_decide as Heq.
  - subst a'. destruct (release_spec _ _ _ _ _ _ Hc Ha Hr) as (_ & _ & _ & Hb & _).
    unfold held. lia.
  - rewrite (release_other _ _ _ _ _ _ reason a' Hc Ha Hr); [lia | naive_solver].
Qed.
End HeldLemmas.
