(* ===== verification/Storage.v ===== *)
(** * Storage, events and the state-and-error monad of the pallet

    The storage items declared in [pallets/verigov/src/lib.rs], the events the pallet deposits,
    the current block number and the currency's state make up a [World]. Pallet code is a
    computation [M A]: it reads and writes the world and returns a value or a [DispatchError]. An
    error keeps the writes made before it; undoing them is the business of the storage layer FRAME
    wraps around every dispatchable call ([StorageLayer]).

    An [Item] is one storage item with its getter and setter; the operations below are the ones of
    [StorageValue], [StorageMap] and [StorageDoubleMap] the pallet uses. A [ValueQuery] item reads
    an absent key as its default. *)
From stdpp Require Import prelude gmap vector.
From Stdlib Require Import Init.Byte.
From S2P Require Import Prelude Types Config.
#[local] Open Scope Z_scope.

Section World.
Context {T : Config}.

(** ** The world *)

Record World := mkWorld {
  w_NextProjectId : ProjectId;
  w_NextProposalId : ProposalId;
  w_Projects : gmap ProjectId ProjectInfo;
  w_Stakeholders : gmap (ProjectId * AccountId) Stakeholder;
  w_RoleStake : gmap (ProjectId * Role) Z;
  w_Proposals : gmap ProposalId (Proposal AccountId);
  w_Votes : gmap (ProposalId * AccountId) bool;
  w_Tallies : gmap (ProposalId * Role) RoleTally;
  w_ReleaseCount : gmap ProjectId Z;
  w_ReleaseLog : gmap (ProjectId * Z) ReleaseEntry;
  w_CounterAttestations : gmap ProposalId (CounterAttestation AccountId);
  w_PendingEnactments : gmap Z (list ProposalId);
  (** the events deposited by the pallet, oldest first *)
  w_events : list (Event AccountId);
  (** [frame_system::Pallet::<T>::block_number()] *)
  w_block_number : Z;
  (** the state of [T::Currency] *)
  w_currency : CurrencyState;
}.

Definition set_NextProjectId v w := mkWorld v (w_NextProposalId w) (w_Projects w)
  (w_Stakeholders w) (w_RoleStake w) (w_Proposals w) (w_Votes w) (w_Tallies w)
  (w_ReleaseCount w) (w_ReleaseLog w) (w_CounterAttestations w) (w_PendingEnactments w)
  (w_events w) (w_block_number w) (w_currency w).
Definition set_NextProposalId v w := mkWorld (w_NextProjectId w) v (w_Projects w)
  (w_Stakeholders w) (w_RoleStake w) (w_Proposals w) (w_Votes w) (w_Tallies w)
  (w_ReleaseCount w) (w_ReleaseLog w) (w_CounterAttestations w) (w_PendingEnactments w)
  (w_events w) (w_block_number w) (w_currency w).
Definition set_Projects v w := mkWorld (w_NextProjectId w) (w_NextProposalId w) v
  (w_Stakeholders w) (w_RoleStake w) (w_Proposals w) (w_Votes w) (w_Tallies w)
  (w_ReleaseCount w) (w_ReleaseLog w) (w_CounterAttestations w) (w_PendingEnactments w)
  (w_events w) (w_block_number w) (w_currency w).
Definition set_Stakeholders v w := mkWorld (w_NextProjectId w) (w_NextProposalId w)
  (w_Projects w) v (w_RoleStake w) (w_Proposals w) (w_Votes w) (w_Tallies w) (w_ReleaseCount
  w) (w_ReleaseLog w) (w_CounterAttestations w) (w_PendingEnactments w) (w_events w)
  (w_block_number w) (w_currency w).
Definition set_RoleStake v w := mkWorld (w_NextProjectId w) (w_NextProposalId w) (w_Projects
  w) (w_Stakeholders w) v (w_Proposals w) (w_Votes w) (w_Tallies w) (w_ReleaseCount w)
  (w_ReleaseLog w) (w_CounterAttestations w) (w_PendingEnactments w) (w_events w)
  (w_block_number w) (w_currency w).
Definition set_Proposals v w := mkWorld (w_NextProjectId w) (w_NextProposalId w) (w_Projects
  w) (w_Stakeholders w) (w_RoleStake w) v (w_Votes w) (w_Tallies w) (w_ReleaseCount w)
  (w_ReleaseLog w) (w_CounterAttestations w) (w_PendingEnactments w) (w_events w)
  (w_block_number w) (w_currency w).
Definition set_Votes v w := mkWorld (w_NextProjectId w) (w_NextProposalId w) (w_Projects w)
  (w_Stakeholders w) (w_RoleStake w) (w_Proposals w) v (w_Tallies w) (w_ReleaseCount w)
  (w_ReleaseLog w) (w_CounterAttestations w) (w_PendingEnactments w) (w_events w)
  (w_block_number w) (w_currency w).
Definition set_Tallies v w := mkWorld (w_NextProjectId w) (w_NextProposalId w) (w_Projects
  w) (w_Stakeholders w) (w_RoleStake w) (w_Proposals w) (w_Votes w) v (w_ReleaseCount w)
  (w_ReleaseLog w) (w_CounterAttestations w) (w_PendingEnactments w) (w_events w)
  (w_block_number w) (w_currency w).
Definition set_ReleaseCount v w := mkWorld (w_NextProjectId w) (w_NextProposalId w)
  (w_Projects w) (w_Stakeholders w) (w_RoleStake w) (w_Proposals w) (w_Votes w) (w_Tallies
  w) v (w_ReleaseLog w) (w_CounterAttestations w) (w_PendingEnactments w) (w_events w)
  (w_block_number w) (w_currency w).
Definition set_ReleaseLog v w := mkWorld (w_NextProjectId w) (w_NextProposalId w)
  (w_Projects w) (w_Stakeholders w) (w_RoleStake w) (w_Proposals w) (w_Votes w) (w_Tallies
  w) (w_ReleaseCount w) v (w_CounterAttestations w) (w_PendingEnactments w) (w_events w)
  (w_block_number w) (w_currency w).
Definition set_CounterAttestations v w := mkWorld (w_NextProjectId w) (w_NextProposalId w)
  (w_Projects w) (w_Stakeholders w) (w_RoleStake w) (w_Proposals w) (w_Votes w) (w_Tallies
  w) (w_ReleaseCount w) (w_ReleaseLog w) v (w_PendingEnactments w) (w_events w)
  (w_block_number w) (w_currency w).
Definition set_PendingEnactments v w := mkWorld (w_NextProjectId w) (w_NextProposalId w)
  (w_Projects w) (w_Stakeholders w) (w_RoleStake w) (w_Proposals w) (w_Votes w) (w_Tallies
  w) (w_ReleaseCount w) (w_ReleaseLog w) (w_CounterAttestations w) v (w_events w)
  (w_block_number w) (w_currency w).
Definition set_events v w := mkWorld (w_NextProjectId w) (w_NextProposalId w) (w_Projects w)
  (w_Stakeholders w) (w_RoleStake w) (w_Proposals w) (w_Votes w) (w_Tallies w)
  (w_ReleaseCount w) (w_ReleaseLog w) (w_CounterAttestations w) (w_PendingEnactments w) v
  (w_block_number w) (w_currency w).
Definition set_block_number v w := mkWorld (w_NextProjectId w) (w_NextProposalId w)
  (w_Projects w) (w_Stakeholders w) (w_RoleStake w) (w_Proposals w) (w_Votes w) (w_Tallies
  w) (w_ReleaseCount w) (w_ReleaseLog w) (w_CounterAttestations w) (w_PendingEnactments w)
  (w_events w) v (w_currency w).
Definition set_currency v w := mkWorld (w_NextProjectId w) (w_NextProposalId w) (w_Projects
  w) (w_Stakeholders w) (w_RoleStake w) (w_Proposals w) (w_Votes w) (w_Tallies w)
  (w_ReleaseCount w) (w_ReleaseLog w) (w_CounterAttestations w) (w_PendingEnactments w)
  (w_events w) (w_block_number w) v.

(** ** Storage items *)

Record Item (V : Type) := mkItem {
  item_get : World -> V;
  item_set : V -> World -> World;
}.
#[global] Arguments mkItem {V}.
#[global] Arguments item_get {V}.
#[global] Arguments item_set {V}.

Definition NextProjectId := mkItem w_NextProjectId set_NextProjectId.
Definition NextProposalId := mkItem w_NextProposalId set_NextProposalId.
Definition Projects := mkItem w_Projects set_Projects.
Definition Stakeholders := mkItem w_Stakeholders set_Stakeholders.
Definition RoleStake := mkItem w_RoleStake set_RoleStake.
Definition Proposals := mkItem w_Proposals set_Proposals.
Definition Votes := mkItem w_Votes set_Votes.
Definition Tallies := mkItem w_Tallies set_Tallies.
Definition ReleaseCount := mkItem w_ReleaseCount set_ReleaseCount.
Definition ReleaseLog := mkItem w_ReleaseLog set_ReleaseLog.
Definition CounterAttestations := mkItem w_CounterAttestations set_CounterAttestations.
Definition PendingEnactments := mkItem w_PendingEnactments set_PendingEnactments.

(** ** The monad *)

Inductive DispatchError : Type :=
| BadOrigin
| ModuleError (e : Error)
| TokenFailure (e : CurrencyError).

Definition M (A : Type) : Type := World -> result A DispatchError * World.

#[global] Instance M_ret : MRet M := fun A a w => (Ok a, w).
#[global] Instance M_bind : MBind M := fun A B f m w =>
  match m w with
  | (Ok a, w') => f a w'
  | (Err e, w') => (Err e, w')
  end.

Definition throw {A} (e : DispatchError) : M A := fun w => (Err e, w).
Definition gets {A} (f : World -> A) : M A := fun w => (Ok (f w), w).
Definition modify (f : World -> World) : M unit := fun w => (Ok tt, f w).

(** [ensure!(cond, Error::<T>::e)] *)
Definition ensure (cond : bool) (e : Error) : M unit :=
  if cond then mret tt else throw (ModuleError e).

(** [opt.ok_or(Error::<T>::e)?] *)
Definition ok_or {A} (o : option A) (e : Error) : M A :=
  match o with Some a => mret a | None => throw (ModuleError e) end.

(** [for x in l { f(x)?; }] *)
Fixpoint for_each {A} (f : A -> M unit) (l : list A) : M unit :=
  match l with
  | [] => mret tt
  | x :: l' => f x ;; for_each f l'
  end.

(** ** Storage operations *)

Definition value_get {V} (I : Item V) : M V := gets (item_get I).
Definition value_put {V} (I : Item V) (v : V) : M unit := modify (item_set I v).

Section Map.
Context {K V : Type} `{Countable K} (I : Item (gmap K V)).

Definition map_get (k : K) : M (option V) := gets (fun w => item_get I w !! k).
Definition map_contains_key (k : K) : M bool :=
  gets (fun w => bool_decide (is_Some (item_get I w !! k))).
Definition map_insert (k : K) (v : V) : M unit :=
  modify (fun w => item_set I (<[k := v]> (item_get I w)) w).
(** [mutate(k, |v| if let Some(v) = v { *v = f(v) })] on an [OptionQuery] map *)
Definition map_mutate_some (k : K) (f : V -> V) : M unit :=
  modify (fun w => item_set I (alter f k (item_get I w)) w).

(** The [ValueQuery] operations, for a map with default value [d]. *)
Definition value_at (d : V) (k : K) (w : World) : V := default d (item_get I w !! k).
Definition map_get_or (d : V) (k : K) : M V := gets (value_at d k).
Definition map_mutate (d : V) (k : K) (f : V -> V) : M unit :=
  modify (fun w => item_set I (<[k := f (value_at d k w)]> (item_get I w)) w).
(** [try_mutate]: nothing is written when the closure fails. *)
Definition map_try_mutate (d : V) (k : K) (f : V -> result V Error) : M unit :=
  fun w => match f (value_at d k w) with
           | Ok v => (Ok tt, item_set I (<[k := v]> (item_get I w)) w)
           | Err e => (Err (ModuleError e), w)
           end.
Definition map_take (d : V) (k : K) : M V :=
  fun w => (Ok (value_at d k w), item_set I (delete k (item_get I w)) w).
End Map.

(** [BoundedVec::try_push]: fails when the vector is full. *)
Definition try_push {A} (bound : nat) (l : list A) (x : A) : option (list A) :=
  if bool_decide (length l < bound)%nat then Some (l ++ [x]) else None.

(** [Self::deposit_event] *)
Definition deposit_event (e : Event AccountId) : M unit :=
  modify (fun w => set_events (w_events w ++ [e]) w).

(** [frame_system::Pallet::<T>::block_number()] *)
Definition block_number : M Z := gets w_block_number.

(** Calls into [T::Currency]; an error is a [DispatchError] of the currency. *)
Definition currency_call {A} (op : CurrencyState -> result A CurrencyError * CurrencyState) : M A :=
  fun w => match op (w_currency w) with
           | (Ok a, c) => (Ok a, set_currency c w)
           | (Err e, c) => (Err (TokenFailure e), set_currency c w)
           end.

(** [let _ = op;]: the outcome is dropped, the effects stay. *)
Definition ignore_result {A} (m : M A) : M unit := fun w => (Ok tt, snd (m w)).

(** ** Origins *)

Inductive Origin : Type :=
| Root
| Signed (who : AccountId)
| NoOrigin.

Definition ensure_root (o : Origin) : M unit :=
  match o with Root => mret tt | _ => throw BadOrigin end.
Definition ensure_signed (o : Origin) : M AccountId :=
  match o with Signed who => mret who | _ => throw BadOrigin end.
End World.

(** FRAME runs every [#[pallet::call]] function in a storage layer: committed when the function
    returns [Ok], discarded when it returns [Err]. *)
Class StorageLayer (T : Config) := {
  with_storage_layer : forall {A}, M A -> M A;
  storage_layer_commit : forall A (m : M A) w a w', m w = (Ok a, w') ->
    with_storage_layer m w = (Ok a, w');
  storage_layer_rollback : forall A (m : M A) w e w', m w = (Err e, w') ->
    with_storage_layer m w = (Err e, w);
}.
