(* ===== verification/Pallet.v ===== *)
(** * The VeriGov pallet

    The operations of [pallets/verigov/src/lib.rs]: the quorum test, vote recording, enactment, the
    [on_initialize] hook, the five dispatchable calls with their weights, and their dispatch
    through FRAME's storage layer. Each definition follows the statements of the function of the
    same name in order. *)
From stdpp Require Import prelude gmap vector.
From Stdlib Require Import Init.Byte.
From S2P Require Import Prelude Types Config Storage.
#[local] Open Scope Z_scope.

Section Pallet.
Context {T : Config}.

(** [u128::saturated_from(balance)] *)
Definition saturated_into_u128 (b : Z) : Z := Z.min b u128_max.

(** The [ValueQuery] reads of the maps with a default. *)
Definition role_stake (project_id : ProjectId) (r : Role) (w : World) : Z :=
  value_at RoleStake 0 (project_id, r) w.
Definition tally (proposal_id : ProposalId) (r : Role) (w : World) : RoleTally :=
  value_at Tallies RoleTally_default (proposal_id, r) w.
Definition pending (n : Z) (w : World) : list ProposalId :=
  value_at PendingEnactments [] n w.
Definition release_count (project_id : ProjectId) (w : World) : Z :=
  value_at ReleaseCount 0 project_id w.

(** ** Eq. 1 *)

(** The comparison of one required role: [ayes / total >= quorum] in [u128] arithmetic. *)
Definition quorum_met (ayes total : Z) (quorum : Perbill) : bool :=
  if total =? 0 then false
  else saturating_mul u128_max quorum total <=? saturating_mul u128_max ayes PERBILL_ACCURACY.

Definition meets_quorums (project_id : ProjectId) (project : ProjectInfo)
    (proposal_id : ProposalId) (w : World) : bool :=
  forallb (fun rq =>
    let total := saturated_into_u128 (role_stake project_id (rq_role rq) w) in
    let ayes := saturated_into_u128 (ayes (tally proposal_id (rq_role rq) w)) in
    quorum_met ayes total (rq_quorum rq))
    (required_roles (pi_policy project)).

Definition set_status (proposal_id : ProposalId) (status : ProposalStatus) : M unit :=
  map_mutate_some Proposals proposal_id (fun p => with_status p status).

(** [ids.retain(|id| *id != proposal_id)] *)
Definition retain_not (proposal_id : ProposalId) (ids : list ProposalId) : list ProposalId :=
  filter (fun id => id <> proposal_id) ids.

(** ** Voting *)

(** The closure of [Tallies::mutate] in [do_vote]. *)
Definition retally (prev : option bool) (stake : Z) (aye : bool) (t : RoleTally) : RoleTally :=
  let t := match prev with
           | Some true => mkRoleTally (saturating_sub (ayes t) stake) (nays t)
           | Some false => mkRoleTally (ayes t) (saturating_sub (nays t) stake)
           | None => t
           end in
  if aye then mkRoleTally (saturating_add balance_max (ayes t) stake) (nays t)
  else mkRoleTally (ayes t) (saturating_add balance_max (nays t) stake).

Definition do_vote (proposal_id : ProposalId) (project_id : ProjectId) (project : ProjectInfo)
    (who : AccountId) (voter : Stakeholder) (aye : bool) (now : Z) : M unit :=
  prev ← map_get Votes (proposal_id, who);
  map_mutate Tallies RoleTally_default (proposal_id, sh_role voter)
    (retally prev (sh_stake voter) aye);;
  map_insert Votes (proposal_id, who) aye;;
  deposit_event (Voted proposal_id who (sh_role voter) aye (sh_stake voter));;
  met ← gets (meets_quorums project_id project proposal_id);
  p ← map_get Proposals proposal_id;
  status ← ok_or (p_status <$> p) ProposalNotFound;
  match status, met with
  | Voting, true =>
      let enact_at := saturating_add block_number_max now (enactment_delay (pi_policy project)) in
      map_try_mutate PendingEnactments [] enact_at (fun ids =>
        match try_push MaxEnactmentsPerBlock ids proposal_id with
        | Some ids' => Ok ids'
        | None => Err TooManyEnactments
        end);;
      set_status proposal_id (Approved enact_at);;
      deposit_event (ProposalApproved proposal_id enact_at)
  | Approved enact_at, false =>
      map_mutate PendingEnactments [] enact_at (retain_not proposal_id);;
      set_status proposal_id Voting;;
      deposit_event (ProposalApprovalRevoked proposal_id)
  | _, _ => mret tt
  end.

(** ** Enactment *)

Definition enact (proposal_id : ProposalId) (now : Z) : M unit :=
  proposal ← map_get Proposals proposal_id;
  match proposal with
  | None => mret tt
  | Some proposal =>
    match p_status proposal with
    | Approved _ =>
      let project_id := p_project_id proposal in
      project ← map_get Projects project_id;
      match project with
      | None => mret tt
      | Some project =>
        met ← gets (meets_quorums project_id project proposal_id);
        if negb met then
          set_status proposal_id Voting;;
          deposit_event (ProposalApprovalRevoked proposal_id)
        else
          index ← map_get_or ReleaseCount 0 project_id;
          map_insert ReleaseLog (project_id, index)
            (mkReleaseEntry proposal_id (p_version proposal)
              (source_commit_hash (p_attestation proposal))
              (output_binary_hash (p_attestation proposal))
              (p_attestation_cid proposal) now);;
          map_insert ReleaseCount project_id (saturating_add u32_max index 1);;
          ignore_result (currency_call
            (release (hold_reason_into ProposalBond) (p_proposer proposal) (p_bond proposal)
              BestEffort));;
          map_insert Proposals proposal_id (with_status proposal Enacted);;
          deposit_event (ReleaseEnacted project_id proposal_id index (p_version proposal)
            (output_binary_hash (p_attestation proposal)))
      end
    | _ => mret tt
    end
  end.

(** The loop of [on_initialize]: enact every id, accumulating the weight. *)
Fixpoint enact_all (ids : list ProposalId) (now : Z) (weight : Weight) : M Weight :=
  match ids with
  | [] => mret weight
  | id :: ids' =>
      enact id now;;
      enact_all ids' now (weight_saturating_add weight (reads_writes 3 4))
  end.

Definition on_initialize (now : Z) : M Weight :=
  ids ← map_take PendingEnactments [] now;
  enact_all ids now (reads_writes 1 1).

(** ** Dispatchable calls *)

(** The body of the loop over the stakeholders in [project_genesis]. *)
Definition register_stakeholder (project_id : ProjectId) (s : StakeholderInit AccountId) : M unit :=
  known ← map_contains_key Stakeholders (project_id, si_account s);
  ensure (negb known) DuplicateStakeholder;;
  currency_call (hold (hold_reason_into Stake) (si_account s) (si_stake s));;
  map_insert Stakeholders (project_id, si_account s) (mkStakeholder (si_role s) (si_stake s));;
  map_mutate RoleStake 0 (project_id, si_role s)
    (fun t => saturating_add balance_max t (si_stake s));;
  deposit_event (StakeholderRegistered project_id (si_account s) (si_role s) (si_stake s)).

(** The body of the loop over the required roles. *)
Definition check_required_role (project_id : ProjectId) (rq : RoleQuorum) : M unit :=
  total ← map_get_or RoleStake 0 (project_id, rq_role rq);
  ensure (negb (total =? 0)) RequiredRoleHasNoStake.

Definition project_genesis (origin : Origin) (name : list byte)
    (stakeholders : list (StakeholderInit AccountId)) (policy : ReleasePolicy)
    (slashing : SlashingParams) (proposal_bond : Z) : M unit :=
  ensure_root origin;;
  ensure (negb (bool_decide (required_roles policy = []))) NoRequiredRoles;;
  project_id ← value_get NextProjectId;
  for_each (register_stakeholder project_id) stakeholders;;
  for_each (check_required_role project_id) (required_roles policy);;
  map_insert Projects project_id (mkProjectInfo name policy slashing proposal_bond);;
  value_put NextProjectId (saturating_add u32_max project_id 1);;
  deposit_event (ProjectCreated project_id name).

Definition new_release (origin : Origin) (project_id : ProjectId) (version : list byte)
    (attestation : BuildAttestation AccountId) (attestation_cid : Hash32)
    (builder_signature : Signature) : M unit :=
  who ← ensure_signed origin;
  project ← map_get Projects project_id;
  project ← ok_or project ProjectNotFound;
  proposer ← map_get Stakeholders (project_id, who);
  proposer ← ok_or proposer NotStakeholder;
  ensure (bool_decide (sh_role proposer = CoreDeveloper)) NotCoreDeveloper;;
  build_service ← map_get Stakeholders (project_id, builder attestation);
  build_service ← ok_or build_service NotBuildService;
  ensure (bool_decide (sh_role build_service = BuildService)) NotBuildService;;
  ensure (verify builder_signature (signing_payload attestation) (builder attestation))
    InvalidBuilderSignature;;
  currency_call (hold (hold_reason_into ProposalBond) who (pi_proposal_bond project));;
  now ← block_number;
  let voting_ends := saturating_add block_number_max now (voting_period (pi_policy project)) in
  proposal_id ← value_get NextProposalId;
  value_put NextProposalId (saturating_add u32_max proposal_id 1);;
  map_insert Proposals proposal_id
    (mkProposal project_id who version attestation attestation_cid (pi_proposal_bond project)
      now voting_ends Voting);;
  deposit_event (ReleaseProposed proposal_id project_id who version
    (source_commit_hash attestation) (output_binary_hash attestation) attestation_cid
    voting_ends);;
  do_vote proposal_id project_id project who proposer true now.

(** [matches!(status, Voting | Approved { .. })] *)
Definition is_open (s : ProposalStatus) : bool :=
  match s with Voting | Approved _ => true | _ => false end.

Definition vote (origin : Origin) (proposal_id : ProposalId) (aye : bool) : M unit :=
  who ← ensure_signed origin;
  proposal ← map_get Proposals proposal_id;
  proposal ← ok_or proposal ProposalNotFound;
  ensure (is_open (p_status proposal)) ProposalNotVoting;;
  now ← block_number;
  ensure (now <=? p_voting_ends proposal) VotingPeriodOver;;
  project ← map_get Projects (p_project_id proposal);
  project ← ok_or project ProjectNotFound;
  voter ← map_get Stakeholders (p_project_id proposal, who);
  voter ← ok_or voter NotStakeholder;
  do_vote proposal_id (p_project_id proposal) project who voter aye now.

Definition submit_counter_attestation (origin : Origin) (proposal_id : ProposalId)
    (rebuilt_binary_hash : Hash32) : M unit :=
  who ← ensure_signed origin;
  proposal ← map_get Proposals proposal_id;
  proposal ← ok_or proposal ProposalNotFound;
  let project_id := p_project_id proposal in
  project ← map_get Projects project_id;
  project ← ok_or project ProjectNotFound;
  known ← map_contains_key Stakeholders (project_id, who);
  ensure known NotStakeholder;;
  let builder_acct := builder (p_attestation proposal) in
  ensure (bool_decide (who <> builder_acct)) BuilderCannotChallenge;;
  ensure (bool_decide (rebuilt_binary_hash <> output_binary_hash (p_attestation proposal)))
    NoDiscrepancy;;
  match p_status proposal with
  | Voting => mret tt
  | Approved enact_at => map_mutate PendingEnactments [] enact_at (retain_not proposal_id)
  | _ => throw (ModuleError ProposalNotChallengeable)
  end;;
  build_service ← map_get Stakeholders (project_id, builder_acct);
  build_service ← ok_or build_service NotBuildService;
  let to_slash := mul_floor (sigma_neg (pi_slashing project)) (sh_stake build_service) in
  slashed ← currency_call
    (burn_held (hold_reason_into Stake) builder_acct to_slash BestEffort Force);
  let remaining := saturating_sub (sh_stake build_service) slashed in
  map_insert Stakeholders (project_id, builder_acct)
    (mkStakeholder (sh_role build_service) remaining);;
  map_mutate RoleStake 0 (project_id, BuildService) (fun t => saturating_sub t slashed);;
  currency_call
    (release (hold_reason_into ProposalBond) (p_proposer proposal) (p_bond proposal) BestEffort);;
  map_insert Proposals proposal_id (with_status proposal Rejected);;
  map_insert CounterAttestations proposal_id
    (mkCounterAttestation who (output_binary_hash (p_attestation proposal)) rebuilt_binary_hash);;
  deposit_event (CounterAttestationAccepted proposal_id who
    (output_binary_hash (p_attestation proposal)) rebuilt_binary_hash);;
  deposit_event (BuildServiceSlashed project_id builder_acct slashed remaining);;
  deposit_event (ProposalRejected proposal_id).

Definition close_expired (origin : Origin) (proposal_id : ProposalId) : M unit :=
  ensure_signed origin;;
  proposal ← map_get Proposals proposal_id;
  proposal ← ok_or proposal ProposalNotFound;
  ensure (bool_decide (p_status proposal = Voting)) ProposalNotVoting;;
  now ← block_number;
  ensure (p_voting_ends proposal <? now) VotingPeriodNotOver;;
  currency_call
    (release (hold_reason_into ProposalBond) (p_proposer proposal) (p_bond proposal) BestEffort);;
  map_insert Proposals proposal_id (with_status proposal Expired);;
  deposit_event (ProposalExpired proposal_id).

(** ** The call enum, its weights and its dispatch *)

Inductive Call : Type :=
| project_genesis_call (name : list byte) (stakeholders : list (StakeholderInit AccountId))
    (policy : ReleasePolicy) (slashing : SlashingParams) (proposal_bond : Z)
| new_release_call (project_id : ProjectId) (version : list byte)
    (attestation : BuildAttestation AccountId) (attestation_cid : Hash32)
    (builder_signature : Signature)
| vote_call (proposal_id : ProposalId) (aye : bool)
| submit_counter_attestation_call (proposal_id : ProposalId) (rebuilt_binary_hash : Hash32)
| close_expired_call (proposal_id : ProposalId).

(** The declared [#[pallet::call_index(_)]]. *)
Definition call_index (c : Call) : Z :=
  match c with
  | project_genesis_call _ _ _ _ _ => 0
  | new_release_call _ _ _ _ _ => 1
  | vote_call _ _ => 2
  | submit_counter_attestation_call _ _ => 3
  | close_expired_call _ => 4
  end.

(** The declared [#[pallet::weight(_)]]. *)
Definition call_weight (c : Call) : Weight :=
  match c with
  | project_genesis_call _ stakeholders _ _ _ =>
      weight_saturating_add (weight_from_parts 80000000 0)
        (reads_writes (2 + 2 * Z.of_nat (length stakeholders))
          (3 + 3 * Z.of_nat (length stakeholders)))
  | new_release_call _ _ _ _ _ =>
      weight_saturating_add (weight_from_parts 120000000 0) (reads_writes 6 6)
  | vote_call _ _ =>
      weight_saturating_add (weight_from_parts 80000000 0) (reads_writes 6 4)
  | submit_counter_attestation_call _ _ =>
      weight_saturating_add (weight_from_parts 120000000 0) (reads_writes 6 7)
  | close_expired_call _ =>
      weight_saturating_add (weight_from_parts 50000000 0) (reads_writes 2 2)
  end.

Definition call_body (origin : Origin) (c : Call) : M unit :=
  match c with
  | project_genesis_call name stakeholders policy slashing bond =>
      project_genesis origin name stakeholders policy slashing bond
  | new_release_call project_id version attestation cid signature =>
      new_release origin project_id version attestation cid signature
  | vote_call proposal_id aye => vote origin proposal_id aye
  | submit_counter_attestation_call proposal_id rebuilt =>
      submit_counter_attestation origin proposal_id rebuilt
  | close_expired_call proposal_id => close_expired origin proposal_id
  end.

Definition dispatch {S : StorageLayer T} (origin : Origin) (c : Call) : M unit :=
  with_storage_layer (call_body origin c).
End Pallet.
