(* ===== verification/Chain.v ===== *)
(** * The chain around the pallet

    Blocks, calls and everything else that can happen to the state the pallet sees, as a step
    relation: a new block (the number advances and [on_initialize] runs), a dispatched call, or a
    step of the rest of the runtime, which may move balances but not the holds made for the pallet's
    reasons. [run_to_block] is the block loop of [pallets/verigov/src/mock.rs]. *)
From stdpp Require Import prelude gmap vector.
From Stdlib Require Import Init.Byte.
From S2P Require Import Prelude Types Config Storage Pallet.
#[local] Open Scope Z_scope.

Section Chain.
Context {T : Config}.

(** ** Blocks *)

(** [System::set_block_number(next); Verigov::on_initialize(next)] with [next] the number after
    the current one. *)
Definition next_block : M Weight :=
  n ← block_number;
  modify (set_block_number (n + 1));;
  on_initialize (n + 1).

(** The loop [while System::block_number() < n { .. }], with fuel for its iterations. *)
Fixpoint run_blocks (fuel : nat) (n : Z) (w : World) : option World :=
  if w_block_number w <? n then
    match fuel with
    | O => None
    | S fuel' => run_blocks fuel' n (snd (next_block w))
    end
  else Some w.

(** As many iterations as there are blocks left. *)
Definition run_to_block (n : Z) (w : World) : option World :=
  run_blocks (Z.to_nat (n - w_block_number w)) n w.

(** ** Well-typed calls

    The ranges of the types of the arguments. Decoding an extrinsic enforces all but one: a [Perbill] is
    documented to hold at most 10^9 parts, which its derived decoder does not check. *)

Definition policy_ok (p : ReleasePolicy) : Prop :=
  (length (required_roles p) <= MaxRequiredRoles)%nat
  /\ Forall (fun rq => perbill_ok (rq_quorum rq)) (required_roles p)
  /\ in_width block_number_max (voting_period p)
  /\ in_width block_number_max (enactment_delay p).

Definition slashing_ok (s : SlashingParams) : Prop :=
  perbill_ok (sigma_neg s) /\ perbill_ok (sigma_mal s)
  /\ in_width block_number_max (delta_max s).

Definition call_ok (c : Call) : Prop :=
  match c with
  | project_genesis_call name stakeholders policy slashing bond =>
      (length name <= NameLimit)%nat
      /\ (length stakeholders <= MaxStakeholdersPerGenesis)%nat
      /\ Forall (fun s => in_width balance_max (si_stake s)) stakeholders
      /\ policy_ok policy /\ slashing_ok slashing /\ in_width balance_max bond
  | new_release_call project_id version _ _ _ =>
      in_width u32_max project_id /\ (length version <= VersionLimit)%nat
  | vote_call id _ | submit_counter_attestation_call id _ | close_expired_call id =>
      in_width u32_max id
  end.

(** ** Steps and reachable worlds *)

Context {L : ConfigLaws T} {S : StorageLayer T}.

Inductive step : World -> World -> Prop :=
| step_block w weight w' :
    w_block_number w < block_number_max ->
    next_block w = (Ok weight, w') ->
    step w w'
| step_call w origin c res w' :
    call_ok c ->
    dispatch origin c w = (res, w') ->
    step w w'
| step_runtime w events c :
    currency_ok c ->
    (forall reason a, held reason a c = held reason a (w_currency w)) ->
    step w (set_currency c (set_events events w)).

(** The state before the pallet's first call. *)
Definition initial (w : World) : Prop :=
  w_NextProjectId w = 0 /\ w_NextProposalId w = 0 /\ w_Projects w = ∅ /\ w_Stakeholders w = ∅
  /\ w_RoleStake w = ∅ /\ w_Proposals w = ∅ /\ w_Votes w = ∅ /\ w_Tallies w = ∅
  /\ w_ReleaseCount w = ∅ /\ w_ReleaseLog w = ∅ /\ w_CounterAttestations w = ∅
  /\ w_PendingEnactments w = ∅ /\ in_width block_number_max (w_block_number w)
  /\ currency_ok (w_currency w) /\ forall reason a, held reason a (w_currency w) = 0.

Definition reachable (w : World) : Prop := exists w0, initial w0 /\ rtc step w0 w.
End Chain.
