(* ===== verification/Mock.v ===== *)
(** * The mock runtime

    [pallets/verigov/src/mock.rs]: the cast, the initial balances, the test signature and the block
    loop, and the pallet configuration [Test] they make. The members [mock.rs] takes from FRAME
    (the balances pallet, [Perbill::mul_floor], the weights, the storage layer) are filled in with
    plain concrete functions: a ledger of free and held amounts, exact arithmetic, weights as pairs,
    and rollback on error. The ledger has no existential deposit (the balances pallet of [mock.rs] keeps
    one unit free in an account with a hold). They satisfy the laws of [Config.v], so every theorem of the development
    applies to [Test], and every definition of the pallet can be evaluated at it. *)
From stdpp Require Import prelude gmap vector.
From Stdlib Require Import Init.Byte.
From S2P Require Import Prelude Types Config Storage Pallet.
#[local] Open Scope Z_scope.

(** ** A concrete currency *)

Module Ledger.
Record ledger := mkLedger {
  free : gmap Z Z;
  on_hold : gmap (HoldReason * Z) Z;
  issuance : Z;
}.

Inductive ledger_error : Set := FundsUnavailable.

Definition held_at (r : HoldReason) (a : Z) (l : ledger) : Z := amount_at (on_hold l) (r, a).

(** Move [x] from the free balance of [a] to its hold for [r] (from the hold when negative). *)
Definition move (r : HoldReason) (a x : Z) (l : ledger) : ledger :=
  mkLedger (credit (free l) a (- x)) (credit (on_hold l) (r, a) x) (issuance l).

Definition hold (r : HoldReason) (a amount : Z) (l : ledger) : result unit ledger_error * ledger :=
  if amount <=? amount_at (free l) a then (Ok tt, move r a amount l)
  else (Err FundsUnavailable, l).

Definition release (r : HoldReason) (a amount : Z) (p : Precision) (l : ledger) :
    result Z ledger_error * ledger :=
  let x := Z.min amount (held_at r a l) in
  match p with
  | Exact => if x <? amount then (Err FundsUnavailable, l) else (Ok x, move r a (- x) l)
  | BestEffort => (Ok x, move r a (- x) l)
  end.

Definition burn_held (r : HoldReason) (a amount : Z) (p : Precision) (f : Fortitude)
    (l : ledger) : result Z ledger_error * ledger :=
  let x := Z.min amount (held_at r a l) in
  let l' := mkLedger (free l) (credit (on_hold l) (r, a) (- x)) (issuance l - x) in
  match p with
  | Exact => if x <? amount then (Err FundsUnavailable, l) else (Ok x, l')
  | BestEffort => (Ok x, l')
  end.

(** The books balance. *)
Definition ledger_ok (l : ledger) : Prop :=
  amounts_nonneg (free l) /\ amounts_nonneg (on_hold l)
  /\ total (free l) + total (on_hold l) = issuance l /\ issuance l <= u64_max.

Lemma move_ok r a x l :
  ledger_ok l -> 0 <= amount_at (free l) a - x -> 0 <= held_at r a l + x ->
  ledger_ok (move r a x l).
Proof.
  intros (Hf & Hh & Ht & Hm) Hx Hy. unfold held_at in *. split_and!; cbn.
  - apply credit_nonneg; [done | lia].
  - apply credit_nonneg; [done | lia].
  - rewrite !total_credit. lia.
  - done.
Qed.

Lemma held_at_nonneg r a l : ledger_ok l -> 0 <= held_at r a l.
Proof. intros (_ & Hh & _). by apply amount_at_nonneg. Qed.

Lemma free_nonneg a l : ledger_ok l -> 0 <= amount_at (free l) a.
Proof. intros (Hf & _). by apply amount_at_nonneg. Qed.

Lemma held_at_credit r a x r' a' f h i :
  held_at r' a' (mkLedger f (credit h (r, a) x) i)
  = amount_at h (r', a') + (if decide ((r', a') = (r, a)) then x else 0).
Proof. unfold held_at. cbn. apply amount_at_credit. Qed.

Lemma burn_ok r a x l :
  ledger_ok l -> 0 <= x -> 0 <= held_at r a l - x ->
  ledger_ok (mkLedger (free l) (credit (on_hold l) (r, a) (- x)) (issuance l - x)).
Proof.
  intros (Hf & Hh & Ht & Hm) Hx Hy. unfold held_at in *. split_and!; cbn; [done | | | lia].
  - apply credit_nonneg; [done | lia].
  - rewrite total_credit. lia.
Qed.

Lemma held_at_move r a x l r' a' :
  held_at r' a' (move r a x l)
  = held_at r' a' l + (if decide ((r', a') = (r, a)) then x else 0).
Proof. apply held_at_credit. Qed.
End Ledger.

(** ** The test signature *)

(** [MockSignature(pub AccountId, pub Vec<u8>)]: valid iff made by [signer] over exactly [msg]. *)
Record MockSignature := mkMockSignature {
  ms_signer : Z;
  ms_payload : list byte;
}.
Definition mock_verify (s : MockSignature) (msg : list byte) (signer : Z) : bool :=
  bool_decide (signer = ms_signer s) && bool_decide (msg = ms_payload s).

(** ** The configuration [Test]: [u64] accounts, balances and block numbers *)

#[export] Instance Test : Config := {|
  AccountId := Z;
  balance_max := u64_max;
  block_number_max := u64_max;
  RuntimeHoldReason := HoldReason;
  hold_reason_into := fun r => r;
  CurrencyState := Ledger.ledger;
  CurrencyError := Ledger.ledger_error;
  balance_on_hold := Ledger.held_at;
  total_issuance := Ledger.issuance;
  hold := Ledger.hold;
  release := Ledger.release;
  burn_held := Ledger.burn_held;
  Signature := MockSignature;
  verify := mock_verify;
  mul_floor := fun p x => x * p / PERBILL_ACCURACY;
  Weight := Z * Z;
  weight_from_parts := fun t s => (t, s);
  weight_saturating_add := fun x y =>
    (saturating_add u64_max x.1 y.1, saturating_add u64_max x.2 y.2);
  reads_writes := fun r w => (25000000 * r + 100000000 * w, 0);
|}.

#[export] Instance Test_laws : ConfigLaws Test.
Proof.
  refine {| currency_ok := Ledger.ledger_ok : @CurrencyState Test -> Prop |}; cbn.
  - unfold u64_max, u128_max. lia.
  - unfold u64_max. lia.
  - by intros p x _ _.
  - by intros c (_ & _ & _ & ?).
  - intros r a c. apply Ledger.held_at_nonneg.
  - intros r l c (Hf & Hh & Ht & _) Hl.
    pose proof (sum_over_total (fun a => (r, a)) (Ledger.on_hold c) l Hh Hl).
    pose proof (msum_nonneg (fun _ x => x) (Ledger.free c) Hf). unfold total in *.
    unfold Ledger.held_at. lia.
  - intros r a x c c' Hc Hx. unfold Ledger.hold. case_match eqn:E; [|done]. intros [= <-].
    apply Z.leb_le in E. pose proof (Ledger.held_at_nonneg r a c Hc).
    split_and!; [apply Ledger.move_ok; [done | lia | lia] | done | |].
    + intros r' a' Hne. cbn. rewrite Ledger.held_at_move, decide_False by done. lia.
    + by rewrite Ledger.held_at_move, decide_True by done.
  - intros r a x res c c' Hc Hx [= <- <-]. pose proof (Ledger.held_at_nonneg r a c Hc).
    pose proof (Ledger.free_nonneg a c Hc).
    assert (E : Ledger.held_at r a (Ledger.move r a (- Z.min x (Ledger.held_at r a c)) c)
                = Ledger.held_at r a c - Z.min x (Ledger.held_at r a c)).
    { rewrite Ledger.held_at_move, decide_True by done. lia. }
    split_and!; [apply Ledger.move_ok; [done | lia | lia] | done | | lia | lia | intros y _; lia].
    intros r' a' Hne. cbn. rewrite Ledger.held_at_move, decide_False by done. lia.
  - intros r a x y c c' Hc Hx [= <- <-]. pose proof (Ledger.held_at_nonneg r a c Hc).
    split_and!; [apply Ledger.burn_ok; [done | lia | lia] | | done | | done].
    + intros r' a' Hne. cbn. rewrite Ledger.held_at_credit, decide_False by done.
      unfold Ledger.held_at. lia.
    + rewrite Ledger.held_at_credit, decide_True by done. unfold Ledger.held_at in *. lia.
Defined.

(** Rollback on error. *)
#[export] Instance Test_layer : StorageLayer Test.
Proof.
  refine {| with_storage_layer A m w :=
    match m w with (Ok a, w') => (Ok a, w') | (Err e, _) => (Err e, w) end |}.
  - by intros A m w a w' ->.
  - by intros A m w e w' ->.
Defined.

(** ** The cast (paper, Section 5.6) and the test externalities *)

Definition ALICE : Z := 1.
Definition BOB : Z := 2.
Definition CAROL : Z := 3.
Definition DAN : Z := 4.
Definition EVE : Z := 5.
Definition FOO_AUDIT : Z := 6.
Definition FUZZ_IO : Z := 7.
Definition BUILD_SERVICE : Z := 8.
Definition OUTSIDER : Z := 9.

Definition INITIAL_BALANCE : Z := 100000.

(** [balances: (1..=OUTSIDER).map(|a| (a, INITIAL_BALANCE))] *)
Definition endowed : gmap Z Z :=
  list_to_map ((fun a => (a, INITIAL_BALANCE)) <$> seqZ 1 OUTSIDER).

Definition new_test_ext : @World Test :=
  mkWorld 0 0 ∅ ∅ ∅ ∅ ∅ ∅ ∅ ∅ ∅ ∅ [] 1 (Ledger.mkLedger endowed ∅ (total endowed)).
