(* ===== verification/Scenarios.v ===== *)
(** * The unit tests of the pallet, run on the model

    [pallets/verigov/src/tests.rs], translated test by test: each test is a script of calls,
    block advances and assertions, run from [new_test_ext] on the configuration [Test]. [UnitTests]
    evaluates the scripts. The fixtures (the acme-utils project of the paper's worked
    example) also serve the other files as concrete inputs. *)
From stdpp Require Import prelude gmap vector.
From Stdlib Require Import Init.Byte.
From S2P Require Import Prelude Types Config Storage Pallet Chain Mock.
#[local] Open Scope Z_scope.

(** ** Fixtures *)

Definition STAKE : Z := 1000.
Definition BUILD_STAKE : Z := 5000.
Definition BOND : Z := 1000.
Definition VOTING_PERIOD : Z := 100.
Definition ENACTMENT_DELAY : Z := 10.

(** [h(byte) = [byte; 32]] *)
Definition h (b : byte) : Hash32 := vreplicate 32 b.

(** ["acme-utils"], ["whale-utils"] and ["1.2.3"] as bytes *)
Definition acme_utils : list byte := [x61; x63; x6d; x65; x2d; x75; x74; x69; x6c; x73].
Definition whale_utils : list byte := [x77; x68; x61; x6c; x65; x2d; x75; x74; x69; x6c; x73].
Definition v1_2_3 : list byte := [x31; x2e; x32; x2e; x33].

Definition acme_policy : ReleasePolicy :=
  mkReleasePolicy
    [mkRoleQuorum CoreDeveloper 600000000; mkRoleQuorum SecurityAuditor 500000000]
    VOTING_PERIOD ENACTMENT_DELAY.

Definition acme_slashing : SlashingParams := mkSlashingParams 500000000 1000000000 1000.

Definition acme_stakeholders : list (StakeholderInit Z) :=
  [mkStakeholderInit ALICE CoreDeveloper STAKE;
   mkStakeholderInit BOB CoreDeveloper STAKE;
   mkStakeholderInit CAROL CoreDeveloper STAKE;
   mkStakeholderInit DAN CoreDeveloper STAKE;
   mkStakeholderInit EVE CoreDeveloper STAKE;
   mkStakeholderInit FOO_AUDIT SecurityAuditor STAKE;
   mkStakeholderInit FUZZ_IO SecurityAuditor STAKE;
   mkStakeholderInit BUILD_SERVICE BuildService BUILD_STAKE].

Abbreviation W := (@World Test).
Abbreviation TestCall := (@Call Test).
Abbreviation TestOrigin := (@Origin Test).

Definition acme_genesis : TestCall :=
  project_genesis_call (acme_utils) (acme_stakeholders : list (StakeholderInit (@AccountId Test)))
    acme_policy acme_slashing BOND.

Definition attestation (binary : Hash32) : BuildAttestation (@AccountId Test) :=
  mkBuildAttestation (h xc0) (h x51) (h xde) binary (BUILD_SERVICE : @AccountId Test).

Definition sign (att : BuildAttestation (@AccountId Test)) : @Signature Test :=
  mkMockSignature BUILD_SERVICE (signing_payload att).

Definition release_call (project : ProjectId) (att : BuildAttestation (@AccountId Test))
    (sig : @Signature Test) : TestCall :=
  new_release_call project v1_2_3 att (h x42) sig.

Definition signed (who : Z) : TestOrigin := Signed (who : @AccountId Test).

(** ** Test scripts *)

(** A step of a test either goes on with a new state or fails. *)
Definition script : Type := list (W -> option W).

Fixpoint run (s : script) (w : W) : option W :=
  match s with
  | [] => Some w
  | f :: s' => match f w with Some w' => run s' w' | None => None end
  end.

Definition check (p : W -> bool) : W -> option W := fun w => if p w then Some w else None.

Definition assert_ok (o : TestOrigin) (c : TestCall) : W -> option W := fun w =>
  match dispatch o c w with (Ok _, w') => Some w' | _ => None end.

(** [assert_noop!]: the call fails with [e]; the storage layer has undone its writes. *)
Definition assert_noop (o : TestOrigin) (c : TestCall) (e : Error) : W -> option W := fun w =>
  match dispatch o c w with
  | (Err (ModuleError e'), w') => if bool_decide (e = e') then Some w' else None
  | _ => None
  end.

Definition assert_bad_origin (o : TestOrigin) (c : TestCall) : W -> option W := fun w =>
  match dispatch o c w with (Err BadOrigin, w') => Some w' | _ => None end.

Definition assert_is_err (o : TestOrigin) (c : TestCall) : W -> option W := fun w =>
  match dispatch o c w with (Err _, w') => Some w' | _ => None end.

Definition blocks_until (n : Z) : W -> option W := run_to_block n.

Definition setup_acme : W -> option W := assert_ok Root acme_genesis.

Definition propose (project : ProjectId) (binary : Hash32) : W -> option W :=
  assert_ok (signed ALICE) (release_call project (attestation binary) (sign (attestation binary))).

Definition aye (who : Z) (id : ProposalId) : W -> option W :=
  assert_ok (signed who) (vote_call id true).
Definition nay (who : Z) (id : ProposalId) : W -> option W :=
  assert_ok (signed who) (vote_call id false).
Definition counter (who : Z) (id : ProposalId) (rebuilt : Hash32) : W -> option W :=
  assert_ok (signed who) (submit_counter_attestation_call id rebuilt).

Definition status_is (id : ProposalId) (s : ProposalStatus) : W -> option W :=
  check (fun w => bool_decide (p_status <$> w_Proposals w !! id = Some s)).
Definition held_is (r : HoldReason) (who x : Z) : W -> option W :=
  check (fun w => held (T := Test) r who (w_currency w) =? x).
Definition free_is (who x : Z) : W -> option W :=
  check (fun w => amount_at (Ledger.free (w_currency w : Ledger.ledger)) who =? x).
Definition stake_is (p : ProjectId) (who : Z) (r : Role) (x : Z) : W -> option W :=
  check (fun w => match w_Stakeholders w !! (p, who : @AccountId Test) with
                  | Some s => bool_decide (sh_role s = r) && (sh_stake s =? x)
                  | None => false
                  end).
Definition role_stake_is (p : ProjectId) (r : Role) (x : Z) : W -> option W :=
  check (fun w => role_stake p r w =? x).
Definition ayes_are (id : ProposalId) (r : Role) (x : Z) : W -> option W :=
  check (fun w => ayes (tally id r w) =? x).
Definition nays_are (id : ProposalId) (r : Role) (x : Z) : W -> option W :=
  check (fun w => nays (tally id r w) =? x).
Definition releases_are (p : ProjectId) (x : Z) : W -> option W :=
  check (fun w => release_count p w =? x).
Definition pending_is (n : Z) (l : list ProposalId) : W -> option W :=
  check (fun w => bool_decide (pending n w = l)).

#[local] Instance Event_eq_dec : EqDecision (Event Z).
Proof. solve_decision. Defined.
Definition has_event (e : Event Z) : W -> option W :=
  check (fun w => bool_decide (e ∈ (w_events w : list (Event Z)))).

(** ** Genesis *)

Definition genesis_registers_stakeholders_and_escrows_stake : script :=
  [setup_acme;
   check (fun w => match w_Projects w !! 0 with
                   | Some p => bool_decide (pi_name p = acme_utils) && (pi_proposal_bond p =? BOND)
                               && bool_decide (pi_slashing p = acme_slashing)
                   | None => false
                   end);
   check (fun w => w_NextProjectId w =? 1);
   stake_is 0 ALICE CoreDeveloper STAKE;
   stake_is 0 BUILD_SERVICE BuildService BUILD_STAKE;
   role_stake_is 0 CoreDeveloper (5 * STAKE);
   role_stake_is 0 SecurityAuditor (2 * STAKE);
   role_stake_is 0 BuildService BUILD_STAKE;
   role_stake_is 0 CommunityTrustee 0;
   held_is Stake ALICE STAKE;
   held_is Stake BUILD_SERVICE BUILD_STAKE;
   free_is ALICE (INITIAL_BALANCE - STAKE);
   has_event (ProjectCreated 0 acme_utils);
   has_event (StakeholderRegistered 0 BUILD_SERVICE BuildService BUILD_STAKE)].

Definition genesis_requires_root : script :=
  [assert_bad_origin (signed ALICE) acme_genesis].

Definition genesis_with (l : list (StakeholderInit Z)) (policy : ReleasePolicy) : TestCall :=
  project_genesis_call acme_utils (l : list (StakeholderInit (@AccountId Test))) policy
    acme_slashing BOND.

Definition genesis_rejects_unreachable_quorum_and_duplicates : script :=
  [assert_noop Root
     (genesis_with acme_stakeholders
       (mkReleasePolicy (required_roles acme_policy ++ [mkRoleQuorum CommunityTrustee 500000000])
         VOTING_PERIOD ENACTMENT_DELAY))
     RequiredRoleHasNoStake;
   assert_noop Root
     (genesis_with acme_stakeholders (mkReleasePolicy [] VOTING_PERIOD ENACTMENT_DELAY))
     NoRequiredRoles;
   assert_noop Root
     (genesis_with (acme_stakeholders ++ [mkStakeholderInit ALICE SecurityAuditor STAKE])
       acme_policy)
     DuplicateStakeholder].

Definition genesis_fails_when_a_stakeholder_cannot_cover_its_stake : script :=
  [assert_is_err Root
     (genesis_with (mkStakeholderInit ALICE CoreDeveloper (INITIAL_BALANCE + 1)
       :: tail acme_stakeholders) acme_policy)].

(** ** Proposal submission *)

Definition new_release_holds_bond_and_records_proposer_aye : script :=
  [setup_acme; propose 0 (h xa1);
   check (fun w => match w_Proposals w !! 0 with
     | Some p => bool_decide (p_proposer p = ALICE) && bool_decide (p_version p = v1_2_3)
         && bool_decide (output_binary_hash (p_attestation p) = h xa1)
         && bool_decide (p_attestation_cid p = h x42) && (p_bond p =? BOND)
         && (p_voting_ends p =? 1 + VOTING_PERIOD) && bool_decide (p_status p = Voting)
     | None => false
     end);
   held_is ProposalBond ALICE BOND;
   free_is ALICE (INITIAL_BALANCE - STAKE - BOND);
   check (fun w => bool_decide (w_Votes w !! (0, ALICE : @AccountId Test) = Some true));
   ayes_are 0 CoreDeveloper STAKE;
   check (fun w => w_NextProposalId w =? 1)].

Definition only_core_developers_of_the_project_can_propose : script :=
  let att := attestation (h xa1) in
  [setup_acme;
   assert_noop (signed FOO_AUDIT) (release_call 0 att (sign att)) NotCoreDeveloper;
   assert_noop (signed OUTSIDER) (release_call 0 att (sign att)) NotStakeholder;
   assert_noop (signed ALICE) (release_call 7 att (sign att)) ProjectNotFound].

Definition attestation_must_be_signed_by_a_registered_build_service : script :=
  let att := attestation (h xa1) in
  let bad_builder := mkBuildAttestation (h xc0) (h x51) (h xde) (h xa1) (BOB : @AccountId Test) in
  [setup_acme;
   assert_noop (signed ALICE) (release_call 0 att (mkMockSignature BOB (signing_payload att)))
     InvalidBuilderSignature;
   assert_noop (signed ALICE) (release_call 0 att (sign (attestation (h xbb))))
     InvalidBuilderSignature;
   assert_noop (signed ALICE)
     (release_call 0 bad_builder (mkMockSignature BOB (signing_payload bad_builder)))
     NotBuildService].

(** ** Voting and enactment (paper, Section 5.6, Steps 4-6) *)

Definition worked_example_release_is_accepted_and_enacted : script :=
  let enact_at := 1 + ENACTMENT_DELAY in
  [setup_acme; propose 0 (h xa1);
   aye BOB 0; aye CAROL 0; status_is 0 Voting; aye DAN 0; status_is 0 Voting;
   aye FOO_AUDIT 0; status_is 0 (Approved enact_at); pending_is enact_at [0];
   has_event (ProposalApproved 0 enact_at);
   aye FUZZ_IO 0; ayes_are 0 CoreDeveloper (4 * STAKE); ayes_are 0 SecurityAuditor (2 * STAKE);
   status_is 0 (Approved enact_at);
   blocks_until (enact_at - 1); releases_are 0 0; held_is ProposalBond ALICE BOND;
   blocks_until enact_at; status_is 0 Enacted; releases_are 0 1;
   check (fun w => match w_ReleaseLog w !! (0, 0) with
     | Some e => (re_proposal_id e =? 0) && bool_decide (re_version e = v1_2_3)
         && bool_decide (re_output_binary_hash e = h xa1)
         && bool_decide (re_attestation_cid e = h x42)
         && bool_decide (re_source_commit_hash e = h xc0) && (re_enacted_at e =? enact_at)
     | None => false
     end);
   pending_is enact_at [];
   held_is ProposalBond ALICE 0; held_is Stake ALICE STAKE; free_is ALICE (INITIAL_BALANCE - STAKE);
   has_event (ReleaseEnacted 0 0 0 v1_2_3 (h xa1))].

Definition every_required_role_must_meet_its_quorum : script :=
  [setup_acme; propose 0 (h xa1);
   aye FOO_AUDIT 0; aye FUZZ_IO 0; aye BOB 0; status_is 0 Voting;
   nay EVE 0; nays_are 0 CoreDeveloper STAKE; status_is 0 Voting;
   aye CAROL 0; status_is 0 (Approved (1 + ENACTMENT_DELAY))].

Definition revoting_can_break_quorum_before_enactment : script :=
  let enact_at := 1 + ENACTMENT_DELAY in
  [setup_acme; propose 0 (h xa1); aye BOB 0; aye CAROL 0; aye FOO_AUDIT 0;
   status_is 0 (Approved enact_at);
   nay CAROL 0; ayes_are 0 CoreDeveloper (2 * STAKE); nays_are 0 CoreDeveloper STAKE;
   status_is 0 Voting; pending_is enact_at []; has_event (ProposalApprovalRevoked 0);
   blocks_until (enact_at + 1); releases_are 0 0; status_is 0 Voting].

Definition stake_weighting_within_a_role : script :=
  [assert_ok Root (project_genesis_call whale_utils
     ([mkStakeholderInit ALICE CoreDeveloper 6000;
       mkStakeholderInit BOB CoreDeveloper 2000;
       mkStakeholderInit CAROL CoreDeveloper 2000;
       mkStakeholderInit FOO_AUDIT SecurityAuditor 1000;
       mkStakeholderInit BUILD_SERVICE BuildService BUILD_STAKE]
       : list (StakeholderInit (@AccountId Test)))
     acme_policy acme_slashing BOND);
   propose 0 (h xa1); ayes_are 0 CoreDeveloper 6000; status_is 0 Voting;
   aye FOO_AUDIT 0; status_is 0 (Approved (1 + ENACTMENT_DELAY))].

Definition only_project_stakeholders_can_vote : script :=
  [setup_acme; propose 0 (h xa1);
   assert_noop (signed OUTSIDER) (vote_call 0 true) NotStakeholder;
   assert_noop (signed BOB) (vote_call 99 true) ProposalNotFound].

Definition voting_closes_after_period_and_expired_proposal_returns_bond : script :=
  let ends := 1 + VOTING_PERIOD in
  [setup_acme; propose 0 (h xa1);
   assert_noop (signed BOB) (close_expired_call 0) VotingPeriodNotOver;
   blocks_until ends; aye BOB 0; blocks_until (ends + 1);
   assert_noop (signed CAROL) (vote_call 0 true) VotingPeriodOver;
   assert_ok (signed BOB) (close_expired_call 0);
   status_is 0 Expired; held_is ProposalBond ALICE 0; releases_are 0 0;
   assert_noop (signed BOB) (close_expired_call 0) ProposalNotVoting].

(** ** Counter-attestation and negligence slashing (paper, Section 5.6) *)

Definition issuance_is (x : Z) : W -> option W :=
  check (fun w => total_issuance (Config := Test) (w_currency w) =? x).

Definition counter_attestation_slashes_build_service_and_rejects_proposal : script :=
  let slashed := BUILD_STAKE / 2 in
  [setup_acme; propose 0 (h xbd); issuance_is (9 * INITIAL_BALANCE);
   counter BOB 0 (h xa1);
   stake_is 0 BUILD_SERVICE BuildService (BUILD_STAKE - slashed);
   role_stake_is 0 BuildService (BUILD_STAKE - slashed);
   held_is Stake BUILD_SERVICE (BUILD_STAKE - slashed);
   free_is BUILD_SERVICE (INITIAL_BALANCE - BUILD_STAKE);
   issuance_is (9 * INITIAL_BALANCE - slashed);
   status_is 0 Rejected; held_is ProposalBond ALICE 0;
   check (fun w => match w_CounterAttestations w !! 0 with
     | Some c => bool_decide (ca_challenger c = BOB)
         && bool_decide (ca_attested_binary_hash c = h xbd)
         && bool_decide (ca_rebuilt_binary_hash c = h xa1)
     | None => false
     end);
   has_event (CounterAttestationAccepted 0 BOB (h xbd) (h xa1));
   has_event (BuildServiceSlashed 0 BUILD_SERVICE slashed (BUILD_STAKE - slashed));
   has_event (ProposalRejected 0);
   assert_noop (signed CAROL) (vote_call 0 true) ProposalNotVoting;
   blocks_until 50; releases_are 0 0].

Definition counter_attestation_cancels_a_scheduled_enactment : script :=
  let enact_at := 1 + ENACTMENT_DELAY in
  [setup_acme; propose 0 (h xbd); aye CAROL 0; aye DAN 0; aye FUZZ_IO 0;
   status_is 0 (Approved enact_at);
   counter FOO_AUDIT 0 (h xa1); status_is 0 Rejected; pending_is enact_at [];
   blocks_until (enact_at + 1); releases_are 0 0; status_is 0 Rejected].

Definition counter_attestation_requires_a_real_discrepancy_from_another_stakeholder : script :=
  [setup_acme; propose 0 (h xa1);
   assert_noop (signed BOB) (submit_counter_attestation_call 0 (h xa1)) NoDiscrepancy;
   assert_noop (signed BUILD_SERVICE) (submit_counter_attestation_call 0 (h xbb))
     BuilderCannotChallenge;
   assert_noop (signed OUTSIDER) (submit_counter_attestation_call 0 (h xbb)) NotStakeholder;
   assert_noop (signed BOB) (submit_counter_attestation_call 99 (h xbb)) ProposalNotFound;
   held_is Stake BUILD_SERVICE BUILD_STAKE].

Definition enacted_releases_are_outside_the_negligence_track : script :=
  [setup_acme; propose 0 (h xa1); aye BOB 0; aye CAROL 0; aye FOO_AUDIT 0;
   blocks_until (1 + ENACTMENT_DELAY); status_is 0 Enacted;
   assert_noop (signed BOB) (submit_counter_attestation_call 0 (h xbb)) ProposalNotChallengeable;
   releases_are 0 1].

Definition repeated_negligence_keeps_halving_the_stake : script :=
  [setup_acme; propose 0 (h xb1); counter BOB 0 (h xa1);
   propose 0 (h xb2); counter CAROL 1 (h xa1);
   stake_is 0 BUILD_SERVICE BuildService (BUILD_STAKE / 4);
   held_is Stake BUILD_SERVICE (BUILD_STAKE / 4)].

(** ** The test suite *)

Definition unit_tests : list script :=
  [genesis_registers_stakeholders_and_escrows_stake;
   genesis_requires_root;
   genesis_rejects_unreachable_quorum_and_duplicates;
   genesis_fails_when_a_stakeholder_cannot_cover_its_stake;
   new_release_holds_bond_and_records_proposer_aye;
   only_core_developers_of_the_project_can_propose;
   attestation_must_be_signed_by_a_registered_build_service;
   worked_example_release_is_accepted_and_enacted;
   every_required_role_must_meet_its_quorum;
   revoting_can_break_quorum_before_enactment;
   stake_weighting_within_a_role;
   only_project_stakeholders_can_vote;
   voting_closes_after_period_and_expired_proposal_returns_bond;
   counter_attestation_slashes_build_service_and_rejects_proposal;
   counter_attestation_cancels_a_scheduled_enactment;
   counter_attestation_requires_a_real_discrepancy_from_another_stakeholder;
   enacted_releases_are_outside_the_negligence_track;
   repeated_negligence_keeps_halving_the_stake].

Definition passes (s : script) : bool := bool_decide (is_Some (run s new_test_ext)).
