(* ===== verification/Exec.v ===== *)
(** * Running pallet code

    Inversion of successful computations ([exec]): what a run of each operation of the monad that
    returned [Ok] did, and the equations that run a sequence step by step. *)
From stdpp Require Import prelude gmap vector.
From Stdlib Require Import Init.Byte.
From S2P Require Import Prelude Types Config Storage Pallet Chain.
#[local] Open Scope Z_scope.

Section Inversion.
Context {T : Config}.

Lemma bind_Ok {A B} (m : M A) (k : A -> M B) w b w' :
  (m ≫= k) w = (Ok b, w') -> exists a w1, m w = (Ok a, w1) /\ k a w1 = (Ok b, w').
Proof.
  unfold mbind, M_bind. destruct (m w) as [[a|e] w1] eqn:E; [|done]. by exists a, w1.
Qed.

Lemma bind_run {A B} (m : M A) (k : A -> M B) w a w1 :
  m w = (Ok a, w1) -> (m ≫= k) w = k a w1.
Proof. unfold mbind, M_bind. by intros ->. Qed.

Lemma bind_run_err {A B} (m : M A) (k : A -> M B) w e w1 :
  m w = (Err e, w1) -> (m ≫= k) w = (Err e, w1).
Proof. unfold mbind, M_bind. by intros ->. Qed.

Lemma mret_Ok {A} (a b : A) w w' : mret (M := M) a w = (Ok b, w') -> b = a /\ w' = w.
Proof. by intros [= -> ->]. Qed.

Lemma gets_Ok {A} (f : World -> A) w a w' : gets f w = (Ok a, w') -> a = f w /\ w' = w.
Proof. by intros [= -> ->]. Qed.

Lemma modify_Ok f w u w' : modify f w = (Ok u, w') -> w' = f w.
Proof. by intros [= _ ->]. Qed.

Lemma ensure_Ok c e w u w' : ensure c e w = (Ok u, w') -> c = true /\ w' = w.
Proof. destruct c; [by intros [= _ ->] | done]. Qed.

Lemma ok_or_Ok {A} (o : option A) e w a w' : ok_or o e w = (Ok a, w') -> o = Some a /\ w' = w.
Proof. destruct o; [by intros [= -> ->] | done]. Qed.

Lemma ensure_signed_Ok o w who w' : ensure_signed o w = (Ok who, w') -> o = Signed who /\ w' = w.
Proof. destruct o; try done. by intros [= -> ->]. Qed.

Lemma ensure_root_Ok o w u w' : ensure_root o w = (Ok u, w') -> o = Root /\ w' = w.
Proof. destruct o; try done. by intros [= _ ->]. Qed.

Lemma currency_call_Ok {A} (op : CurrencyState -> result A CurrencyError * CurrencyState) w a w' :
  currency_call op w = (Ok a, w') ->
  exists c, op (w_currency w) = (Ok a, c) /\ w' = set_currency c w.
Proof.
  unfold currency_call. destruct (op (w_currency w)) as [[x|e] c]; [|done].
  intros [= <- <-]. by exists c.
Qed.

Lemma currency_call_run {A} (op : CurrencyState -> result A CurrencyError * CurrencyState) w a c :
  op (w_currency w) = (Ok a, c) -> currency_call op w = (Ok a, set_currency c w).
Proof. unfold currency_call. by intros ->. Qed.

Lemma currency_call_err {A} (op : CurrencyState -> result A CurrencyError * CurrencyState) w e c :
  op (w_currency w) = (Err e, c) -> currency_call op w = (Err (TokenFailure e), set_currency c w).
Proof. unfold currency_call. by intros ->. Qed.

(** A failed dispatch leaves the world as it was; a successful one is the body's run. *)
Lemma dispatch_Err {S : StorageLayer T} o c w e w' : dispatch o c w = (Err e, w') -> w' = w.
Proof.
  unfold dispatch. destruct (call_body o c w) as [[u|e'] w1] eqn:E.
  - rewrite (storage_layer_commit _ _ _ _ _ E). done.
  - rewrite (storage_layer_rollback _ _ _ _ _ E). by intros [= _ ->].
Qed.

Lemma dispatch_Ok {S : StorageLayer T} o c w u w' :
  dispatch o c w = (Ok u, w') -> call_body o c w = (Ok u, w').
Proof.
  unfold dispatch. destruct (call_body o c w) as [[u'|e'] w1] eqn:E.
  - by rewrite (storage_layer_commit _ _ _ _ _ E).
  - by rewrite (storage_layer_rollback _ _ _ _ _ E).
Qed.

Lemma dispatch_commit {S : StorageLayer T} o c w u w' :
  call_body o c w = (Ok u, w') -> dispatch o c w = (Ok u, w').
Proof. apply storage_layer_commit. Qed.

Lemma dispatch_rollback {S : StorageLayer T} o c w e w' :
  call_body o c w = (Err e, w') -> dispatch o c w = (Err e, w).
Proof. apply storage_layer_rollback. Qed.
End Inversion.

(** [exec H] turns [H : m w = (Ok a, w')] into the conditions under which the steps of [m]
    succeeded and the world they lead to; [to_prop] restates a boolean test as a proposition. *)
Ltac to_prop H :=
  rewrite ?negb_true_iff, ?bool_decide_eq_true, ?bool_decide_eq_false, ?Z.eqb_neq, ?Z.leb_le,
    ?Z.ltb_lt in H.
Ltac exec_step H :=
  lazymatch type of H with
  | (_ ≫= _) _ = (Ok _, _) =>
      let a := fresh "a" in let w := fresh "w" in let H1 := fresh "H" in
      apply bind_Ok in H as (a & w & H1 & H); exec_step H1
  | mret _ _ = (Ok _, _) => apply mret_Ok in H as [? ->]; try subst
  | ensure _ _ _ = (Ok _, _) =>
      let H2 := fresh "Hens" in
      apply ensure_Ok in H as [H2 ->]; to_prop H2
  | ok_or _ _ _ = (Ok _, _) =>
      let H2 := fresh "Hsome" in apply ok_or_Ok in H as [H2 ->]
  | ensure_signed _ _ = (Ok _, _) => apply ensure_signed_Ok in H as [-> ->]
  | ensure_root _ _ = (Ok _, _) => apply ensure_root_Ok in H as [-> ->]
  | currency_call _ _ = (Ok _, _) =>
      let c := fresh "c" in let H2 := fresh "Hcur" in
      apply currency_call_Ok in H as (c & H2 & ->)
  | map_get _ _ _ = (Ok _, _) => apply gets_Ok in H as [-> ->]
  | map_contains_key _ _ _ = (Ok _, _) => apply gets_Ok in H as [-> ->]
  | map_get_or _ _ _ _ = (Ok _, _) => apply gets_Ok in H as [-> ->]
  | value_get _ _ = (Ok _, _) => apply gets_Ok in H as [-> ->]
  | block_number _ = (Ok _, _) => apply gets_Ok in H as [-> ->]
  | gets _ _ = (Ok _, _) => apply gets_Ok in H as [-> ->]
  | map_insert _ _ _ _ = (Ok _, _) => apply modify_Ok in H as ->
  | map_mutate _ _ _ _ _ = (Ok _, _) => apply modify_Ok in H as ->
  | value_put _ _ _ = (Ok _, _) => apply modify_Ok in H as ->
  | deposit_event _ _ = (Ok _, _) => apply modify_Ok in H as ->
  | modify _ _ = (Ok _, _) => apply modify_Ok in H as ->
  | _ => idtac
  end.
Ltac exec H :=
  repeat progress exec_step H; repeat match goal with x : () |- _ => destruct x end.

(** Equality of two worlds built from the variable [w] by storage operations: both are evaluated to
    their fields before they are compared. *)
Ltac world_eq w :=
  destruct w;
  cbv [item_set item_get NextProjectId NextProposalId Projects Stakeholders RoleStake Proposals
    Votes Tallies ReleaseCount ReleaseLog CounterAttestations PendingEnactments
    set_NextProjectId set_NextProposalId set_Projects set_Stakeholders set_RoleStake set_Proposals
    set_Votes set_Tallies set_ReleaseCount set_ReleaseLog set_CounterAttestations
    set_PendingEnactments set_events set_block_number set_currency
    w_NextProjectId w_NextProposalId w_Projects w_Stakeholders w_RoleStake w_Proposals w_Votes
    w_Tallies w_ReleaseCount w_ReleaseLog w_CounterAttestations w_PendingEnactments w_events
    w_block_number w_currency value_at role_stake tally pending release_count].
