(* ===== verification/Effects.v ===== *)
(** * What each operation does to the world

    The effect of every operation of the pallet as an explicit world, with the conditions under
    which it happens: [do_vote_run] and [enact_run] give the outcome of the two shared routines on
    every branch, errors included; the [*_Ok] lemmas say exactly which world a successful call
    leaves. *)
From stdpp Require Import prelude gmap vector.
From Stdlib Require Import Init.Byte.
From S2P Require Import Prelude Types Config Storage Pallet Chain Exec.
#[local] Open Scope Z_scope.

Section Effects.
Context {T : Config}.
Implicit Types (w : World) (p : Proposal AccountId).

Definition emit (l : list (Event AccountId)) (w : World) : World :=
  set_events (w_events w ++ l) w.

Definition put_proposal (id : ProposalId) (p : Proposal AccountId) (w : World) : World :=
  set_Proposals (<[id := p]> (w_Proposals w)) w.

(** ** Voting *)

Definition record_vote (id : ProposalId) (who : AccountId) (sh : Stakeholder) (aye : bool)
    (w : World) : World :=
  emit [Voted id who (sh_role sh) aye (sh_stake sh)]
    (set_Votes (<[(id, who) := aye]> (w_Votes w))
      (set_Tallies
        (<[(id, sh_role sh) :=
           retally (w_Votes w !! (id, who)) (sh_stake sh) aye (tally id (sh_role sh) w)]>
          (w_Tallies w)) w)).

Definition schedule (id : ProposalId) (p : Proposal AccountId) (enact_at : Z) (w : World) : World :=
  emit [ProposalApproved id enact_at]
    (put_proposal id (with_status p (Approved enact_at))
      (set_PendingEnactments
        (<[enact_at := pending enact_at w ++ [id]]> (w_PendingEnactments w)) w)).

Definition unlist (id : ProposalId) (enact_at : Z) (w : World) : World :=
  set_PendingEnactments
    (<[enact_at := retain_not id (pending enact_at w)]> (w_PendingEnactments w)) w.

Definition revoke (id : ProposalId) (p : Proposal AccountId) (w : World) : World :=
  emit [ProposalApprovalRevoked id] (put_proposal id (with_status p Voting) w).

Lemma alter_insert_eq {K V} `{Countable K} (f : V -> V) (m : gmap K V) k v :
  m !! k = Some v -> alter f k m = <[k := f v]> m.
Proof.
  intros Hk. apply map_eq. intros i. rewrite lookup_alter, lookup_insert.
  case_decide; [by subst; rewrite Hk | done].
Qed.

Lemma set_status_run id s p w :
  w_Proposals w !! id = Some p ->
  set_status id s w = (Ok tt, put_proposal id (with_status p s) w).
Proof.
  intros Hp. unfold set_status, map_mutate_some, modify, put_proposal. cbn.
  by rewrite (alter_insert_eq _ _ _ _ Hp).
Qed.

(** The outcome of [do_vote] on a stored proposal: the vote is recorded, and then the proposal is
    scheduled, unscheduled, left alone, or the call fails because the block is full. *)
Lemma do_vote_run id pid info who sh aye now p w (w1 := record_vote id who sh aye w)
    (at_ := saturating_add block_number_max now (enactment_delay (pi_policy info))) :
  w_Proposals w !! id = Some p ->
  do_vote id pid info who sh aye now w =
    match p_status p, meets_quorums pid info id w1 with
    | Voting, true =>
        if decide (length (pending at_ w1) < MaxEnactmentsPerBlock)%nat
        then (Ok tt, schedule id p at_ w1)
        else (Err (ModuleError TooManyEnactments), w1)
    | Approved n, false => (Ok tt, revoke id p (unlist id n w1))
    | _, _ => (Ok tt, w1)
    end.
Proof.
  intros Hp. unfold do_vote, mbind, M_bind.
  cbn -[record_vote schedule revoke unlist meets_quorums try_push set_status value_at
    saturating_add retain_not retally].
  change (set_events _ _) with w1. rewrite Hp. cbn -[record_vote schedule revoke unlist
    meets_quorums try_push set_status value_at saturating_add retain_not retally].
  assert (Hst : forall s w2, w_Proposals w2 = w_Proposals w1 ->
    set_status id s w2 = (Ok tt, put_proposal id (with_status p s) w2)).
  { intros s w2 E. apply set_status_run. by rewrite E. }
  destruct (p_status p), (meets_quorums pid info id w1); try reflexivity.
  - unfold map_try_mutate, try_push. fold at_. fold (pending at_ w1).
    destruct (decide (length (pending at_ w1) < MaxEnactmentsPerBlock)%nat).
    + rewrite bool_decide_eq_true_2 by done. by rewrite Hst by reflexivity.
    + by rewrite bool_decide_eq_false_2 by done.
  - by rewrite Hst by reflexivity.
Qed.

(** A successful [do_vote], as the world it leaves. *)
Lemma do_vote_Ok id pid info who sh aye now p w w' (w1 := record_vote id who sh aye w) :
  w_Proposals w !! id = Some p ->
  do_vote id pid info who sh aye now w = (Ok tt, w') ->
  (w' = w1 /\ (p_status p = Voting -> meets_quorums pid info id w1 = false)
           /\ (forall n, p_status p = Approved n -> meets_quorums pid info id w1 = true))
  \/ (exists n, n = saturating_add block_number_max now (enactment_delay (pi_policy info))
       /\ p_status p = Voting /\ meets_quorums pid info id w1 = true
       /\ (length (pending n w1) < MaxEnactmentsPerBlock)%nat /\ w' = schedule id p n w1)
  \/ (exists n, p_status p = Approved n /\ meets_quorums pid info id w1 = false
       /\ w' = revoke id p (unlist id n w1)).
Proof.
  intros Hp. rewrite (do_vote_run _ _ _ _ _ _ _ _ _ Hp). fold w1.
  destruct (p_status p) eqn:Es, (meets_quorums pid info id w1) eqn:Em; intros H;
    try case_decide; simplify_eq; naive_solver.
Qed.

(** ** Enactment *)

Definition release_entry (id : ProposalId) (p : Proposal AccountId) (now : Z) : ReleaseEntry :=
  mkReleaseEntry id (p_version p) (source_commit_hash (p_attestation p))
    (output_binary_hash (p_attestation p)) (p_attestation_cid p) now.

Definition bond_released (p : Proposal AccountId) (c : CurrencyState) : CurrencyState :=
  snd (release (hold_reason_into ProposalBond) (p_proposer p) (p_bond p) BestEffort c).

Definition publish (id : ProposalId) (p : Proposal AccountId) (now : Z) (w : World) : World :=
  let pid := p_project_id p in
  let index := release_count pid w in
  emit [ReleaseEnacted pid id index (p_version p) (output_binary_hash (p_attestation p))]
    (put_proposal id (with_status p Enacted)
      (set_currency (bond_released p (w_currency w))
        (set_ReleaseCount (<[pid := saturating_add u32_max index 1]> (w_ReleaseCount w))
          (set_ReleaseLog (<[(pid, index) := release_entry id p now]> (w_ReleaseLog w)) w)))).

(** The world [enact] leaves. *)
Definition enacted (id : ProposalId) (now : Z) (w : World) : World :=
  match w_Proposals w !! id with
  | Some p =>
      match p_status p, w_Projects w !! p_project_id p with
      | Approved _, Some info =>
          if meets_quorums (p_project_id p) info id w then publish id p now w else revoke id p w
      | _, _ => w
      end
  | None => w
  end.

Lemma ignore_currency_call {A} (op : CurrencyState -> result A CurrencyError * CurrencyState) w :
  ignore_result (currency_call op) w = (Ok tt, set_currency (snd (op (w_currency w))) w).
Proof. unfold ignore_result, currency_call. by destruct (op (w_currency w)) as [[?|?] ?]. Qed.

(** [enact] never fails. *)
Lemma enact_run id now w : enact id now w = (Ok tt, enacted id now w).
Proof.
  unfold enact, enacted. erewrite bind_run by reflexivity. cbn [item_get Proposals].
  destruct (w_Proposals w !! id) as [p|] eqn:Hp; [|done].
  destruct (p_status p) eqn:Es; try done.
  erewrite bind_run by reflexivity. cbn [item_get Projects].
  destruct (w_Projects w !! p_project_id p) as [info|]; [|done].
  erewrite bind_run by reflexivity.
  destruct (meets_quorums (p_project_id p) info id w); cbn [negb].
  - do 3 (erewrite bind_run by reflexivity).
    erewrite bind_run by apply ignore_currency_call. reflexivity.
  - erewrite bind_run by (by apply set_status_run). reflexivity.
Qed.

Definition enacted_all (ids : list ProposalId) (now : Z) (w : World) : World :=
  foldl (fun w id => enacted id now w) w ids.

(** The weight of [n] enactments on top of [weight]. *)
Fixpoint enactments_weight (n : nat) (weight : Weight) : Weight :=
  match n with
  | O => weight
  | S n' => enactments_weight n' (weight_saturating_add weight (reads_writes 3 4))
  end.

Lemma enact_all_run ids now weight w :
  enact_all ids now weight w
  = (Ok (enactments_weight (length ids) weight), enacted_all ids now w).
Proof.
  revert weight w. induction ids as [|id ids IH]; intros weight w; [done|].
  cbn [enact_all]. erewrite bind_run by apply enact_run. apply IH.
Qed.

(** [on_initialize] never fails: it enacts what is pending for the block, in order. *)
Lemma on_initialize_run now w :
  on_initialize now w
  = (Ok (enactments_weight (length (pending now w)) (reads_writes 1 1)),
     enacted_all (pending now w) now
       (set_PendingEnactments (delete now (w_PendingEnactments w)) w)).
Proof.
  unfold on_initialize. erewrite bind_run by reflexivity. apply enact_all_run.
Qed.

(** The state a new block finds before its enactments. *)
Definition opened (w : World) : World :=
  let n := w_block_number w + 1 in
  set_PendingEnactments (delete n (w_PendingEnactments w)) (set_block_number n w).

Definition blocked (w : World) : World :=
  enacted_all (pending (w_block_number w + 1) w) (w_block_number w + 1) (opened w).

Lemma next_block_run w :
  next_block w
  = (Ok (enactments_weight (length (pending (w_block_number w + 1) w)) (reads_writes 1 1)),
     blocked w).
Proof.
  unfold next_block. erewrite bind_run by reflexivity. erewrite bind_run by reflexivity.
  apply on_initialize_run.
Qed.

(** ** Project genesis *)

Definition registered (pid : ProjectId) (s : StakeholderInit AccountId) (c : CurrencyState)
    (w : World) : World :=
  emit [StakeholderRegistered pid (si_account s) (si_role s) (si_stake s)]
    (set_RoleStake
      (<[(pid, si_role s) := saturating_add balance_max (role_stake pid (si_role s) w) (si_stake s)]>
        (w_RoleStake w))
      (set_Stakeholders
        (<[(pid, si_account s) := mkStakeholder (si_role s) (si_stake s)]> (w_Stakeholders w))
        (set_currency c w))).

Lemma register_stakeholder_Ok pid s w w' :
  register_stakeholder pid s w = (Ok tt, w') ->
  w_Stakeholders w !! (pid, si_account s) = None
  /\ exists c, hold (hold_reason_into Stake) (si_account s) (si_stake s) (w_currency w) = (Ok tt, c)
  /\ w' = registered pid s c w.
Proof.
  unfold register_stakeholder. intros H. exec H.
  split; [by apply eq_None_not_Some | by eexists].
Qed.

Lemma check_required_role_Ok pid rq w w' :
  check_required_role pid rq w = (Ok tt, w') ->
  w' = w /\ role_stake pid (rq_role rq) w <> 0.
Proof.
  unfold check_required_role. intros H. by exec H.
Qed.

(** A loop that succeeds preserves what each of its iterations preserves. *)
Lemma for_each_Ok {A} (f : A -> M unit) (P : World -> Prop) l w w' :
  (forall x w1 w2, x ∈ l -> P w1 -> f x w1 = (Ok tt, w2) -> P w2) ->
  P w -> for_each f l w = (Ok tt, w') -> P w'.
Proof.
  revert w. induction l as [|x l IH]; intros w Hf Hw H; cbn in H; exec H; [done|].
  apply (IH w0); [| |done].
  - intros y w1 w2 Hy. apply Hf. by right.
  - by apply (Hf x w); [left|..].
Qed.

Lemma for_each_check_Ok pid l w w' :
  for_each (check_required_role pid) l w = (Ok tt, w') ->
  w' = w /\ Forall (fun rq => role_stake pid (rq_role rq) w <> 0) l.
Proof.
  revert w. induction l as [|rq l IH]; intros w H; cbn in H; exec H.
  - by split; [|constructor].
  - apply check_required_role_Ok in H0 as [-> Hr]. apply IH in H as [-> Hl].
    split; [done | by constructor].
Qed.

Definition created (pid : ProjectId) (info : ProjectInfo) (w : World) : World :=
  emit [ProjectCreated pid (pi_name info)]
    (set_NextProjectId (saturating_add u32_max pid 1)
      (set_Projects (<[pid := info]> (w_Projects w)) w)).

Lemma project_genesis_Ok o name l policy slashing bond w w' :
  project_genesis o name l policy slashing bond w = (Ok tt, w') ->
  let pid := w_NextProjectId w in
  let info := mkProjectInfo name policy slashing bond in
  o = Root /\ required_roles policy <> []
  /\ exists w1, for_each (register_stakeholder pid) l w = (Ok tt, w1)
  /\ Forall (fun rq => role_stake pid (rq_role rq) w1 <> 0) (required_roles policy)
  /\ w' = created pid info w1.
Proof.
  unfold project_genesis. intros H. exec H. cbn [item_get NextProjectId] in *.
  apply for_each_check_Ok in H1 as [-> Hr]. by do 2 (split; [done|]); eexists.
Qed.

(** ** New release *)

Definition new_proposal (info : ProjectInfo) (pid : ProjectId) (who : AccountId)
    (version : list byte) (att : BuildAttestation AccountId) (cid : Hash32) (now : Z) :
    Proposal AccountId :=
  mkProposal pid who version att cid (pi_proposal_bond info) now
    (saturating_add block_number_max now (voting_period (pi_policy info))) Voting.

Definition submitted (p : Proposal AccountId) (c : CurrencyState) (w : World) : World :=
  let id := w_NextProposalId w in
  emit [ReleaseProposed id (p_project_id p) (p_proposer p) (p_version p)
          (source_commit_hash (p_attestation p)) (output_binary_hash (p_attestation p))
          (p_attestation_cid p) (p_voting_ends p)]
    (put_proposal id p (set_NextProposalId (saturating_add u32_max id 1) (set_currency c w))).

Lemma new_release_Ok o pid version att cid sig w w' :
  new_release o pid version att cid sig w = (Ok tt, w') ->
  exists who info sh bs c,
    o = Signed who /\ w_Projects w !! pid = Some info
    /\ w_Stakeholders w !! (pid, who) = Some sh /\ sh_role sh = CoreDeveloper
    /\ w_Stakeholders w !! (pid, builder att) = Some bs /\ sh_role bs = BuildService
    /\ verify sig (signing_payload att) (builder att) = true
    /\ hold (hold_reason_into ProposalBond) who (pi_proposal_bond info) (w_currency w) = (Ok tt, c)
    /\ do_vote (w_NextProposalId w) pid info who sh true (w_block_number w)
         (submitted (new_proposal info pid who version att cid (w_block_number w)) c w)
       = (Ok tt, w').
Proof.
  unfold new_release. intros H. exec H.
  cbn [item_get Projects Stakeholders] in *. by do 5 eexists; split_and!.
Qed.

(** ** Vote *)

Lemma vote_Ok o id aye w w' :
  vote o id aye w = (Ok tt, w') ->
  exists who p info sh,
    o = Signed who /\ w_Proposals w !! id = Some p /\ is_open (p_status p) = true
    /\ w_block_number w <= p_voting_ends p /\ w_Projects w !! p_project_id p = Some info
    /\ w_Stakeholders w !! (p_project_id p, who) = Some sh
    /\ do_vote id (p_project_id p) info who sh aye (w_block_number w) w = (Ok tt, w').
Proof.
  unfold vote. intros H. exec H. cbn [item_get Projects Stakeholders Proposals] in *.
  do 4 eexists; by split_and!.
Qed.

(** ** Counter-attestation *)

(** Cancel the enactment the proposal was scheduled for, if any. *)
Definition unscheduled (id : ProposalId) (p : Proposal AccountId) (w : World) : World :=
  match p_status p with Approved n => unlist id n w | _ => w end.

Lemma unscheduled_frame id p w :
  exists Pend, unscheduled id p w = set_PendingEnactments Pend w.
Proof.
  unfold unscheduled, unlist.
  destruct (p_status p); try by exists (w_PendingEnactments w); destruct w.
  by eexists.
Qed.

Definition slashed_stake (pid : ProjectId) (who : AccountId) (sh : Stakeholder) (x : Z)
    (c : CurrencyState) (w : World) : World :=
  set_RoleStake
    (<[(pid, BuildService) := saturating_sub (role_stake pid BuildService w) x]> (w_RoleStake w))
    (set_Stakeholders
      (<[(pid, who) := mkStakeholder (sh_role sh) (saturating_sub (sh_stake sh) x)]>
        (w_Stakeholders w))
      (set_currency c w)).

Definition rejected (id : ProposalId) (p : Proposal AccountId) (who : AccountId)
    (rebuilt : Hash32) (x remaining : Z) (c : CurrencyState) (w : World) : World :=
  emit [ProposalRejected id]
    (emit [BuildServiceSlashed (p_project_id p) (builder (p_attestation p)) x remaining]
      (emit [CounterAttestationAccepted id who (output_binary_hash (p_attestation p)) rebuilt]
        (set_CounterAttestations
          (<[id := mkCounterAttestation who (output_binary_hash (p_attestation p)) rebuilt]>
            (w_CounterAttestations w))
          (put_proposal id (with_status p Rejected) (set_currency c w))))).

Lemma submit_counter_attestation_Ok o id rebuilt w w' :
  submit_counter_attestation o id rebuilt w = (Ok tt, w') ->
  exists who p info sh x c1 y c2,
    o = Signed who /\ w_Proposals w !! id = Some p
    /\ w_Projects w !! p_project_id p = Some info
    /\ is_Some (w_Stakeholders w !! (p_project_id p, who))
    /\ who <> builder (p_attestation p)
    /\ rebuilt <> output_binary_hash (p_attestation p)
    /\ is_open (p_status p) = true
    /\ w_Stakeholders w !! (p_project_id p, builder (p_attestation p)) = Some sh
    /\ burn_held (hold_reason_into Stake) (builder (p_attestation p))
         (mul_floor (sigma_neg (pi_slashing info)) (sh_stake sh)) BestEffort Force (w_currency w)
       = (Ok x, c1)
    /\ release (hold_reason_into ProposalBond) (p_proposer p) (p_bond p) BestEffort c1 = (Ok y, c2)
    /\ w' = rejected id p who rebuilt x (saturating_sub (sh_stake sh) x) c2
              (slashed_stake (p_project_id p) (builder (p_attestation p)) sh x c1
                (unscheduled id p w)).
Proof.
  unfold submit_counter_attestation. intros H. exec H.
  cbn [item_get Projects Stakeholders Proposals] in *. rename a0 into p.
  assert (Hw : w0 = unscheduled id p w /\ is_open (p_status p) = true).
  { unfold unscheduled.
    match goal with Hm : _ w = (Ok tt, w0) |- _ => destruct (p_status p); by exec Hm end. }
  destruct Hw as [-> Hopen].
  assert (Hc : w_currency (unscheduled id p w) = w_currency w
    /\ w_Stakeholders (unscheduled id p w) = w_Stakeholders w)
    by (unfold unscheduled; by destruct (p_status p)).
  destruct Hc as [Hc Hs]. rewrite Hc, Hs in *.
  do 8 eexists. split_and!; try eassumption; [reflexivity|].
  generalize (unscheduled id p w). intros w1. unfold rejected, slashed_stake, emit, put_proposal.
  world_eq w1. reflexivity.
Qed.

(** ** Closing an expired proposal *)

Definition expired (id : ProposalId) (p : Proposal AccountId) (c : CurrencyState) (w : World) :
    World :=
  emit [ProposalExpired id] (put_proposal id (with_status p Expired) (set_currency c w)).

Lemma close_expired_Ok o id w w' :
  close_expired o id w = (Ok tt, w') ->
  exists who p y c,
    o = Signed who /\ w_Proposals w !! id = Some p /\ p_status p = Voting
    /\ p_voting_ends p < w_block_number w
    /\ release (hold_reason_into ProposalBond) (p_proposer p) (p_bond p) BestEffort (w_currency w)
       = (Ok y, c)
    /\ w' = expired id p c w.
Proof.
  unfold close_expired. intros H. exec H. cbn [item_get Proposals] in *.
  do 4 eexists; by split_and!.
Qed.
End Effects.
