(* ===== verification/Registry.v ===== *)
(** * The Stakeholder Registry and its escrow

    The registry of stakeholders with their stakes, the stake total per role, and the currency that
    backs them: sums of stakes over the registry, the invariant that ties the three together, and
    its preservation by every effect of the pallet on them. *)
From stdpp Require Import prelude gmap vector.
From Stdlib Require Import Init.Byte.
From S2P Require Import Prelude Types Config Storage Pallet Chain Exec Effects.
#[local] Open Scope Z_scope.

Section Registry.
Context {T : Config} {L : ConfigLaws T}.
Implicit Types (S : gmap (ProjectId * AccountId) Stakeholder) (R : gmap (ProjectId * Role) Z)
  (P : gmap ProjectId ProjectInfo) (c : CurrencyState).

(** ** Stake sums *)

(** The stake of the stakeholders of role [r] in project [pid]: the denominator of Eq. 1. *)
Definition role_part (pid : ProjectId) (r : Role) (k : ProjectId * AccountId) (sh : Stakeholder) : Z :=
  if decide (k.1 = pid /\ sh_role sh = r) then sh_stake sh else 0.
Definition total_stake (pid : ProjectId) (r : Role) S : Z := msum (role_part pid r) S.

(** What account [a] has at stake, over all projects. *)
Definition escrow_part (a : AccountId) (k : ProjectId * AccountId) (sh : Stakeholder) : Z :=
  if decide (k.2 = a) then sh_stake sh else 0.
Definition escrow (a : AccountId) S : Z := msum (escrow_part a) S.

Definition info_ok (info : ProjectInfo) : Prop :=
  policy_ok (pi_policy info) /\ slashing_ok (pi_slashing info) /\ 0 <= pi_proposal_bond info.

(** ** The invariant *)

Record registry_inv c S R P : Prop := {
  ri_currency : currency_ok c;
  ri_stake k sh : S !! k = Some sh -> 0 <= sh_stake sh;
  ri_escrow a : held Stake a c = escrow a S;
  ri_role_stake pid r : default 0 (R !! (pid, r)) = total_stake pid r S;
  ri_project pid info : P !! pid = Some info -> info_ok info;
  ri_required pid info rq : P !! pid = Some info -> rq ∈ required_roles (pi_policy info) ->
    rq_role rq <> BuildService -> 0 < total_stake pid (rq_role rq) S;
}.

Lemma role_part_nonneg pid r k sh : 0 <= sh_stake sh -> 0 <= role_part pid r k sh.
Proof. unfold role_part. case_decide; lia. Qed.

Lemma escrow_part_nonneg a k sh : 0 <= sh_stake sh -> 0 <= escrow_part a k sh.
Proof. unfold escrow_part. case_decide; lia. Qed.

Lemma total_stake_nonneg pid r S :
  (forall k sh, S !! k = Some sh -> 0 <= sh_stake sh) -> 0 <= total_stake pid r S.
Proof. intros HS. apply msum_nonneg. intros k sh Hk. by eapply role_part_nonneg, HS. Qed.

(** A single stake is backed by the hold of its owner. *)
Lemma stake_le_held c S R P pid a sh :
  registry_inv c S R P -> S !! (pid, a) = Some sh -> sh_stake sh <= held Stake a c.
Proof.
  intros HI Hk. rewrite (ri_escrow _ _ _ _ HI). unfold escrow.
  replace (sh_stake sh) with (escrow_part a (pid, a) sh)
    by (unfold escrow_part; by rewrite decide_True).
  apply msum_lookup_le; [|done]. intros k sh' Hk'. eapply escrow_part_nonneg, ri_stake; done.
Qed.

(** The stake of a role never exceeds the total issuance. *)
Lemma stakes_issued c S pid r :
  currency_ok c -> (forall k sh, S !! k = Some sh -> 0 <= sh_stake sh) ->
  (forall a, escrow a S <= held Stake a c) -> total_stake pid r S <= total_issuance c.
Proof.
  intros Hc HS He.
  destruct (msum_row (role_part pid r) (fun a => held Stake a c) pid S) as (l & Hl & _ & Hsum).
  - intros k sh _ Hne. unfold role_part. case_decide as E; [by destruct E | done].
  - intros a sh Hk. etrans; [|apply He]. etrans; [|apply (msum_lookup_le _ _ _ _
      (fun k sh Hk => escrow_part_nonneg _ _ _ (HS _ _ Hk)) Hk)].
    unfold role_part, escrow_part. rewrite (decide_True (P := (pid, a).2 = a)) by done.
    pose proof (HS _ _ Hk). case_decide; lia.
  - etrans; [apply Hsum|]. by apply holds_issued.
Qed.

Lemma total_stake_issued c S R P pid r :
  registry_inv c S R P -> total_stake pid r S <= total_issuance c.
Proof.
  intros HI. apply stakes_issued; [by eapply ri_currency | by eapply ri_stake |].
  intros a. by rewrite (ri_escrow _ _ _ _ HI).
Qed.

Lemma total_stake_max c S R P pid r : registry_inv c S R P -> total_stake pid r S <= balance_max.
Proof.
  intros HI. etrans; [by eapply total_stake_issued|]. by eapply total_issuance_max, ri_currency.
Qed.

(** ** Sums after a change of one entry *)

Lemma total_stake_insert pid r k sh S :
  S !! k = None -> total_stake pid r (<[k := sh]> S) = role_part pid r k sh + total_stake pid r S.
Proof. apply msum_insert. Qed.

Lemma total_stake_update pid r k old sh S :
  S !! k = Some old ->
  total_stake pid r (<[k := sh]> S) = total_stake pid r S - role_part pid r k old + role_part pid r k sh.
Proof. apply msum_update. Qed.

(** ** Preservation *)

Lemma registry_initial c :
  currency_ok c -> (forall reason a, held reason a c = 0) -> registry_inv c ∅ ∅ ∅.
Proof.
  intros Hc Hh. by split.
Qed.

(** A change of the currency that keeps the holds for [Stake]. *)
Lemma registry_currency c c' S R P :
  currency_ok c' -> (forall a, held Stake a c' = held Stake a c) ->
  registry_inv c S R P -> registry_inv c' S R P.
Proof. intros Hc Hh []. split; try done. intros a. by rewrite Hh. Qed.

Lemma registry_hold_bond who b c c' S R P :
  0 <= b -> hold (hold_reason_into ProposalBond) who b c = (Ok tt, c') ->
  registry_inv c S R P -> registry_inv c' S R P.
Proof.
  intros Hb Hh HI. pose proof (ri_currency _ _ _ _ HI) as Hc.
  apply registry_currency with c; [by eapply hold_spec| |done].
  intros a. rewrite (hold_held _ _ _ _ _ Hc Hb Hh), decide_False by naive_solver. lia.
Qed.

Lemma registry_release who b res c c' S R P :
  0 <= b -> release (hold_reason_into ProposalBond) who b BestEffort c = (res, c') ->
  registry_inv c S R P -> registry_inv c' S R P.
Proof.
  intros Hb Hr HI. pose proof (ri_currency _ _ _ _ HI) as Hc.
  apply registry_currency with c; [by eapply release_spec| |done].
  intros a. eapply release_other; [done | done | exact Hr | naive_solver].
Qed.

Lemma registry_project c S R P pid info :
  info_ok info ->
  Forall (fun rq => default 0 (R !! (pid, rq_role rq)) <> 0) (required_roles (pi_policy info)) ->
  registry_inv c S R P -> registry_inv c S R (<[pid := info]> P).
Proof.
  intros Hi Hreq [Hc HS He HR HP Hr]. split; try done.
  - intros pid' info' [[<- <-]|[_ ?]]%lookup_insert_Some; [done | by eapply HP].
  - intros pid' info' rq [[<- <-]|[_ ?]]%lookup_insert_Some Hrq Hb; [|by eapply Hr].
    rewrite Forall_forall in Hreq. specialize (Hreq _ Hrq). rewrite HR in Hreq.
    pose proof (total_stake_nonneg pid (rq_role rq) S HS). lia.
Qed.

(** The role total after [mutate], given that it tracks the registry. *)
Lemma role_stake_tracks S S' R pid r x :
  (forall pid' r', default 0 (R !! (pid', r')) = total_stake pid' r' S) ->
  (forall pid' r', (pid', r') <> (pid, r) -> total_stake pid' r' S' = total_stake pid' r' S) ->
  x = total_stake pid r S' ->
  forall pid' r', default 0 (<[(pid, r) := x]> R !! (pid', r')) = total_stake pid' r' S'.
Proof.
  intros HR HS -> pid' r'. rewrite lookup_insert. case_decide as E.
  - by simplify_eq.
  - rewrite HS by naive_solver. apply HR.
Qed.

Lemma role_part_other pid r pid' r' a sh :
  (pid', r') <> (pid, sh_role sh) -> r = sh_role sh -> role_part pid' r' (pid, a) sh = 0.
Proof. intros Hne ->. unfold role_part. case_decide as E; [|done]. destruct E as [E1 E2]; cbn in E1; congruence. Qed.

Lemma role_part_own pid a sh : role_part pid (sh_role sh) (pid, a) sh = sh_stake sh.
Proof. unfold role_part. by rewrite decide_True. Qed.

(** Registering a stakeholder: the stake is held, entered, and added to its role without
    saturating. *)
Lemma registry_registered pid s c c' S R P :
  S !! (pid, si_account s) = None -> 0 <= si_stake s ->
  hold (hold_reason_into Stake) (si_account s) (si_stake s) c = (Ok tt, c') ->
  registry_inv c S R P ->
  registry_inv c' (<[(pid, si_account s) := mkStakeholder (si_role s) (si_stake s)]> S)
    (<[(pid, si_role s) :=
         saturating_add balance_max (default 0 (R !! (pid, si_role s))) (si_stake s)]> R) P.
Proof.
  intros Hnew Hs Hh HI. pose proof HI as [Hc HS He HR HP Hreq].
  set (sh := mkStakeholder (si_role s) (si_stake s)) in *.
  set (S' := <[(pid, si_account s) := sh]> S).
  assert (Hc' : currency_ok c') by (by eapply hold_spec).
  assert (HS' : forall k sh', S' !! k = Some sh' -> 0 <= sh_stake sh').
  { intros k sh'. unfold S'. rewrite lookup_insert. case_decide; naive_solver. }
  assert (He' : forall a, held Stake a c' = escrow a S').
  { intros a. rewrite (hold_held _ _ _ _ _ Hc Hs Hh), He. unfold escrow, S'.
    rewrite msum_insert by done. unfold escrow_part at 2. cbn.
    repeat case_decide; naive_solver lia. }
  split; try done; [apply (role_stake_tracks S)|].
  - done.
  - intros pid' r' Hne. unfold S'. rewrite total_stake_insert by done.
    rewrite role_part_other with (r := si_role s); [lia | naive_solver | done].
  - assert (E : total_stake pid (si_role s) S' = si_stake s + total_stake pid (si_role s) S).
    { unfold S'. rewrite total_stake_insert by done. f_equal. apply (role_part_own pid _ sh). }
    assert (total_stake pid (si_role s) S' <= balance_max).
    { etrans; [|by apply (total_issuance_max c')]. apply stakes_issued; [done | done |].
      intros a. by rewrite He'. }
    rewrite HR, saturating_add_exact; lia.
  - intros pid' info rq Hinfo Hrq Hb. unfold S'. rewrite total_stake_insert by done.
    pose proof (Hreq _ _ _ Hinfo Hrq Hb).
    pose proof (role_part_nonneg pid' (rq_role rq) (pid, si_account s) sh Hs). lia.
Qed.

Lemma stake_le_total pid a sh S :
  (forall k sh, S !! k = Some sh -> 0 <= sh_stake sh) -> S !! (pid, a) = Some sh ->
  sh_stake sh <= total_stake pid (sh_role sh) S.
Proof.
  intros HS Hk. rewrite <- (role_part_own pid a sh). apply msum_lookup_le; [|done].
  intros k sh' Hk'. by eapply role_part_nonneg, HS.
Qed.

(** The fraction [sigma_neg] of a stake. *)
Lemma slash_amount info stake :
  slashing_ok (pi_slashing info) -> 0 <= stake ->
  mul_floor (sigma_neg (pi_slashing info)) stake
    = stake * sigma_neg (pi_slashing info) / PERBILL_ACCURACY
  /\ 0 <= mul_floor (sigma_neg (pi_slashing info)) stake <= stake.
Proof.
  intros [Hsig _] Hst. rewrite mul_floor_spec by done. split; [done|].
  destruct Hsig as [? ?]. unfold PERBILL_ACCURACY in *. split.
  - apply Z.div_pos; [nia | done].
  - apply Z.div_le_upper_bound; [done | nia].
Qed.

(** The slash of [sigma_neg] of a stake burns exactly that fraction of it. *)
Lemma slash_exact info pid a sh x c c' S R P :
  slashing_ok (pi_slashing info) -> S !! (pid, a) = Some sh -> registry_inv c S R P ->
  burn_held (hold_reason_into Stake) a (mul_floor (sigma_neg (pi_slashing info)) (sh_stake sh))
    BestEffort Force c = (Ok x, c') ->
  x = mul_floor (sigma_neg (pi_slashing info)) (sh_stake sh).
Proof.
  intros Hsl Hk HI Hb. pose proof (ri_stake _ _ _ _ HI _ _ Hk) as Hst.
  pose proof (stake_le_held _ _ _ _ _ _ _ HI Hk) as Hle.
  destruct (slash_amount _ _ Hsl Hst) as [_ Ham].
  destruct (burn_held_spec _ _ _ _ _ _ (ri_currency _ _ _ _ HI) (proj1 Ham) Hb)
    as (_ & _ & -> & _). unfold held in Hle. lia.
Qed.

(** Slashing a stakeholder: its entry, its role total and its hold all drop by the amount
    burned. *)
Lemma registry_slashed pid a sh x amount c c' S R P :
  S !! (pid, a) = Some sh -> sh_role sh = BuildService -> 0 <= amount -> 0 <= x <= sh_stake sh ->
  burn_held (hold_reason_into Stake) a amount BestEffort Force c = (Ok x, c') ->
  registry_inv c S R P ->
  registry_inv c' (<[(pid, a) := mkStakeholder (sh_role sh) (saturating_sub (sh_stake sh) x)]> S)
    (<[(pid, sh_role sh) := saturating_sub (default 0 (R !! (pid, sh_role sh))) x]> R) P.
Proof.
  intros Hk Hrole Ham Hx Hb HI. pose proof HI as [Hc HS He HR HP Hreq].
  destruct (burn_held_spec _ _ _ _ _ _ Hc Ham Hb) as (Hc' & Hf & _ & Hh & _).
  rewrite (saturating_sub_exact (sh_stake sh)) by lia.
  set (sh' := mkStakeholder (sh_role sh) (sh_stake sh - x)).
  assert (Hpart : forall pid' r', role_part pid' r' (pid, a) sh' =
    role_part pid' r' (pid, a) sh - (if decide (pid = pid' /\ sh_role sh = r') then x else 0)).
  { intros pid' r'. unfold role_part. cbn. case_decide; lia. }
  split; try done.
  - intros k sh''. rewrite lookup_insert. case_decide; [intros [= <-]; cbn; lia | apply HS].
  - intros a'. unfold escrow. rewrite (msum_update _ _ _ _ _ Hk). fold (escrow a' S).
    rewrite <- He. unfold escrow_part. cbn. case_decide as E.
    + subst a'. unfold held in *. lia.
    + rewrite (held_frame _ _ _ _ Stake a' Hf) by congruence. lia.
  - pose proof (stake_le_total _ _ _ _ HS Hk) as Hle.
    rewrite HR, saturating_sub_exact by lia. apply (role_stake_tracks S); [done | |].
    + intros pid' r' Hne. rewrite (total_stake_update _ _ _ _ _ _ Hk), Hpart, decide_False;
        [lia | by intros [<- <-]].
    + rewrite (total_stake_update _ _ _ _ _ _ Hk), Hpart, decide_True by done. lia.
  - intros pid' info rq Hinfo Hrq Hne. rewrite (total_stake_update _ _ _ _ _ _ Hk), Hpart.
    rewrite decide_False by (intros [_ E]; congruence). pose proof (Hreq _ _ _ Hinfo Hrq Hne). lia.
Qed.
End Registry.
