(* ===== verification/Ballots.v ===== *)
(** * Proposals, votes and tallies

    The bonds of the open proposals, the recorded votes and the tallies. [proposals_inv] is the
    well-formedness of the proposal store; [tallies_inv] says that a tally is the stake of the
    recorded votes, for every role whose stakes do not change after genesis (every role but
    [BuildService]). Both are preserved by every effect of the pallet. *)
From stdpp Require Import prelude gmap vector.
From Stdlib Require Import Init.Byte.
From S2P Require Import Prelude Types Config Storage Pallet Chain Exec Effects Registry.
#[local] Open Scope Z_scope.

Section Ballots.
Context {T : Config} {L : ConfigLaws T}.
Implicit Types (S : gmap (ProjectId * AccountId) Stakeholder) (c : CurrencyState)
  (P : gmap ProjectId ProjectInfo) (Ps : gmap ProposalId (Proposal AccountId))
  (V : gmap (ProposalId * AccountId) bool) (Tl : gmap (ProposalId * Role) RoleTally)
  (C : gmap ProposalId (CounterAttestation AccountId)).

(** ** Bonds *)

Definition bond_part (a : AccountId) (id : ProposalId) (p : Proposal AccountId) : Z :=
  if decide (p_proposer p = a /\ is_open (p_status p) = true) then p_bond p else 0.

(** The bonds of the open proposals of [a]. *)
Definition open_bonds (a : AccountId) Ps : Z := msum (bond_part a) Ps.

(** ** The proposal store *)

Record proposals_inv c S P Ps (next : ProposalId) V Tl C : Prop := {
  pi_next : 0 <= next <= u32_max;
  pi_id id p : Ps !! id = Some p -> 0 <= id < next;
  pi_info id p : Ps !! id = Some p -> is_Some (P !! p_project_id p);
  pi_bond id p : Ps !! id = Some p -> 0 <= p_bond p;
  pi_builder id p : Ps !! id = Some p ->
    exists sh, S !! (p_project_id p, builder (p_attestation p)) = Some sh
      /\ sh_role sh = BuildService;
  pi_vote id a b : V !! (id, a) = Some b ->
    exists p, Ps !! id = Some p /\ is_Some (S !! (p_project_id p, a));
  pi_tally id r t : Tl !! (id, r) = Some t -> is_Some (Ps !! id);
  pi_counter id : is_Some (C !! id) <-> exists p, Ps !! id = Some p /\ p_status p = Rejected;
  pi_bonds a : open_bonds a Ps <= held ProposalBond a c;
}.

(** ** Tallies *)

(** The stake of the stakeholders of role [r] of project [pid] whose vote on [id] is [b]: the
    numerator of Eq. 1 for [b = true]. *)
Definition voted_part (b : bool) (id : ProposalId) (pid : ProjectId) (r : Role) V
    (k : ProjectId * AccountId) (sh : Stakeholder) : Z :=
  if decide (k.1 = pid /\ sh_role sh = r /\ V !! (id, k.2) = Some b) then sh_stake sh else 0.
Definition voted_stake (b : bool) (id : ProposalId) (pid : ProjectId) (r : Role) S V : Z :=
  msum (voted_part b id pid r V) S.

Definition tally_in Tl (id : ProposalId) (r : Role) : RoleTally :=
  default RoleTally_default (Tl !! (id, r)).
Definition side (b : bool) (t : RoleTally) : Z := if b then ayes t else nays t.

Definition tallies_inv S Ps V Tl : Prop :=
  forall id p r b, Ps !! id = Some p -> r <> BuildService ->
    side b (tally_in Tl id r) = voted_stake b id (p_project_id p) r S V.

Lemma voted_part_le b id pid r V k sh :
  0 <= sh_stake sh -> 0 <= voted_part b id pid r V k sh <= role_part pid r k sh.
Proof. unfold voted_part, role_part. repeat case_decide; first [lia | tauto]. Qed.

Lemma voted_stake_le b id pid r S V :
  (forall k sh, S !! k = Some sh -> 0 <= sh_stake sh) ->
  0 <= voted_stake b id pid r S V <= total_stake pid r S.
Proof.
  intros HS. split.
  - apply msum_nonneg. intros k sh Hk. apply voted_part_le. by eapply HS.
  - apply msum_le. intros k sh Hk. apply voted_part_le. by eapply HS.
Qed.

(** Aye and nay stake together are at most the stake of the role. *)
Lemma voted_stake_split id pid r S V :
  (forall k sh, S !! k = Some sh -> 0 <= sh_stake sh) ->
  voted_stake true id pid r S V + voted_stake false id pid r S V <= total_stake pid r S.
Proof.
  intros HS. unfold voted_stake. rewrite <- msum_add. apply msum_le. intros k sh Hk.
  pose proof (HS _ _ Hk). unfold voted_part, role_part.
  repeat case_decide; destruct_and?; simplify_eq; first [lia | tauto | congruence].
Qed.

Lemma voted_stake_none b id pid r S V :
  (forall a, V !! (id, a) = None) -> voted_stake b id pid r S V = 0.
Proof.
  intros HV. apply msum_zero. intros k sh _. unfold voted_part. rewrite HV.
  case_decide as E; [by destruct E as (_ & _ & [=]) | done].
Qed.

(** [retally] on one side of the tally: without saturation, the previous vote's stake goes out of
    its side and the new one's comes in. *)
Lemma side_retally b prev stake v t :
  0 <= stake -> (prev = Some b -> stake <= side b t) ->
  (v = b -> side b t - (if decide (prev = Some b) then stake else 0) + stake <= balance_max) ->
  side b (retally prev stake v t) =
    side b t - (if decide (prev = Some b) then stake else 0) + (if decide (v = b) then stake else 0).
Proof.
  intros Hs Hp Hmax. unfold retally.
  destruct b, v, prev as [[]|]; cbn in *; unfold saturating_sub, saturating_add;
    repeat case_decide; simplify_eq; try (specialize (Hp eq_refl)); try (specialize (Hmax eq_refl)); lia.
Qed.

(** ** Preservation of the tallies *)

(** A stakeholder registered now has not voted on anything. *)
Lemma tallies_register c S P Ps next V Tl C k sh :
  S !! k = None -> proposals_inv c S P Ps next V Tl C ->
  tallies_inv S Ps V Tl -> tallies_inv (<[k := sh]> S) Ps V Tl.
Proof.
  intros Hk HP HT id p r b Hp Hr. rewrite (HT _ _ _ _ Hp Hr). unfold voted_stake.
  rewrite msum_insert by done. unfold voted_part at 2. case_decide as E; [|done].
  destruct E as (E & _ & Hv). exfalso.
  destruct (pi_vote _ _ _ _ _ _ _ _ HP _ _ _ Hv) as (p' & Hp' & [sh' Hsh']).
  simplify_eq. destruct k as [pid a]. cbn in *. congruence.
Qed.

Lemma tallies_submit S Ps V Tl id p :
  (forall a, V !! (id, a) = None) -> (forall r, Tl !! (id, r) = None) ->
  tallies_inv S Ps V Tl -> tallies_inv S (<[id := p]> Ps) V Tl.
Proof.
  intros HV HTl HT id' p' r b Hp' Hr. destruct (decide (id' = id)) as [->|Hne].
  - unfold tally_in. rewrite HTl, voted_stake_none by done. by destruct b.
  - rewrite lookup_insert_ne in Hp' by done. by apply HT.
Qed.

Lemma tallies_status S Ps V Tl id p s :
  Ps !! id = Some p -> tallies_inv S Ps V Tl -> tallies_inv S (<[id := with_status p s]> Ps) V Tl.
Proof.
  intros Hp HT id' p' r b Hp' Hr. destruct (decide (id' = id)) as [->|Hne].
  - rewrite lookup_insert_eq in Hp'. simplify_eq. by apply (HT id p).
  - rewrite lookup_insert_ne in Hp' by done. by apply HT.
Qed.

Lemma voted_part_role b id pid r V k sh :
  sh_role sh <> r -> voted_part b id pid r V k sh = 0.
Proof. intros Hr. unfold voted_part. rewrite decide_False; [done | tauto]. Qed.

(** Only a Build Service is ever slashed. *)
Lemma tallies_slash S Ps V Tl k sh x :
  S !! k = Some sh -> sh_role sh = BuildService ->
  tallies_inv S Ps V Tl -> tallies_inv (<[k := mkStakeholder (sh_role sh) x]> S) Ps V Tl.
Proof.
  intros Hk Hrole HT id p r b Hp Hr. rewrite (HT _ _ _ _ Hp Hr). unfold voted_stake.
  rewrite (msum_update _ _ _ _ _ Hk), !voted_part_role by (cbn; congruence). lia.
Qed.

Lemma voted_part_vote b id pid r V who v id' k sh :
  (id', k.2) <> (id, who) ->
  voted_part b id' pid r (<[(id, who) := v]> V) k sh = voted_part b id' pid r V k sh.
Proof. intros Hne. unfold voted_part. by rewrite lookup_insert_ne by congruence. Qed.

(** The stake voted on a proposal after one more vote. *)
Lemma voted_stake_vote b id pid S V who sh v :
  S !! (pid, who) = Some sh ->
  voted_stake b id pid (sh_role sh) S (<[(id, who) := v]> V) =
    voted_stake b id pid (sh_role sh) S V
    - (if decide (V !! (id, who) = Some b) then sh_stake sh else 0)
    + (if decide (v = b) then sh_stake sh else 0).
Proof.
  intros Hk. unfold voted_stake.
  rewrite (msum_change (voted_part b id pid (sh_role sh) V) _ S (pid, who) sh Hk).
  - unfold voted_part. cbn. rewrite lookup_insert_eq. repeat case_decide; destruct_and?; simplify_eq; first [lia | tauto].
  - intros [pid' a] sh' _ Hne. destruct (decide (pid' = pid)) as [->|Hne'].
    + apply voted_part_vote. cbn. congruence.
    + unfold voted_part. cbn. by rewrite !decide_False by tauto.
Qed.

(** The tally of the voter's role follows the vote. *)
Lemma tallies_vote c S R P Ps V Tl id p who sh v :
  registry_inv c S R P -> Ps !! id = Some p -> S !! (p_project_id p, who) = Some sh ->
  tallies_inv S Ps V Tl ->
  tallies_inv S Ps (<[(id, who) := v]> V)
    (<[(id, sh_role sh) := retally (V !! (id, who)) (sh_stake sh) v (tally_in Tl id (sh_role sh))]> Tl).
Proof.
  intros HI Hp Hk HT id' p' r b Hp' Hr. pose proof (ri_stake _ _ _ _ HI) as HS.
  destruct (decide ((id', r) = (id, sh_role sh))) as [[= -> ->]|Hne].
  - simplify_eq. unfold tally_in at 1. rewrite lookup_insert_eq. cbn.
    pose proof (voted_stake_vote b id (p_project_id p) S V who sh v Hk) as E.
    pose proof (HT _ _ _ b Hp Hr) as Ht.
    assert (Hmax : voted_stake b id (p_project_id p) (sh_role sh) S (<[(id, who) := v]> V)
                   <= balance_max).
    { etrans; [|by eapply total_stake_max]. by apply voted_stake_le. }
    rewrite side_retally, Ht; [lia | by eapply HS | |].
    + intros Hv. rewrite Ht. unfold voted_stake.
      replace (sh_stake sh) with (voted_part b id (p_project_id p) (sh_role sh) V (p_project_id p, who) sh)
        by (unfold voted_part; by rewrite decide_True).
      apply msum_lookup_le; [|done]. intros k' sh' Hk'. apply voted_part_le. by eapply HS.
    + intros ->. rewrite (decide_True (P := b = b)) in E by done. lia.
  - unfold tally_in. rewrite lookup_insert_ne by congruence. fold (tally_in Tl id' r).
    rewrite (HT _ _ _ _ Hp' Hr). apply msum_ext. intros [pid a] sh' Hk'.
    destruct (decide ((id', a) = (id, who))) as [[= -> ->]|Hne'];
      [|symmetry; by apply voted_part_vote].
    unfold voted_part. cbn. rewrite !decide_False; [done | |];
      intros (-> & <- & _); simplify_eq; congruence.
Qed.

(** ** Preservation of the proposal store *)

Lemma proposals_initial c P :
  currency_ok c -> (forall reason a, held reason a c = 0) ->
  proposals_inv c ∅ P ∅ 0 ∅ ∅ ∅.
Proof.
  intros Hc Hh. split; try done.
  - split; [by intros [? ?] | by intros (? & ? & ?)].
  - intros a. unfold open_bonds. by rewrite msum_empty, Hh.
Qed.

(** A change of the currency that does not lower a hold for [ProposalBond]. *)
Lemma proposals_currency c c' S P Ps next V Tl C :
  (forall a, held ProposalBond a c <= held ProposalBond a c') ->
  proposals_inv c S P Ps next V Tl C -> proposals_inv c' S P Ps next V Tl C.
Proof. intros Hh []. split; try done. intros a. specialize (pi_bonds0 a). specialize (Hh a). lia. Qed.

(** The registry may grow and its stakes may change; keys and roles stay. *)
Lemma proposals_registry c S S' P Ps next V Tl C :
  (forall k sh, S !! k = Some sh -> exists sh', S' !! k = Some sh' /\ sh_role sh' = sh_role sh) ->
  proposals_inv c S P Ps next V Tl C -> proposals_inv c S' P Ps next V Tl C.
Proof.
  intros HS []. split; try done.
  - intros id p Hp. destruct (pi_builder0 id p Hp) as (sh & Hk & Hr).
    destruct (HS _ _ Hk) as (sh' & ? & ?). exists sh'. split; [done | congruence].
  - intros id a b Hv. destruct (pi_vote0 _ _ _ Hv) as (p & Hp & sh & Hk).
    destruct (HS _ _ Hk) as (sh' & ? & _). by exists p.
Qed.

Lemma proposals_project c S P Ps next V Tl C pid info :
  proposals_inv c S P Ps next V Tl C -> proposals_inv c S (<[pid := info]> P) Ps next V Tl C.
Proof.
  intros []. split; try done. intros id p Hp. apply lookup_insert_is_Some'. right.
  by eapply pi_info0.
Qed.

Lemma fresh_id c S P Ps next V Tl C (id : ProposalId) :
  proposals_inv c S P Ps next V Tl C -> next <= id ->
  Ps !! id = None /\ (forall a, V !! (id, a) = None) /\ (forall r, Tl !! (id, r) = None)
  /\ C !! id = None.
Proof.
  intros HP Hid.
  assert (E : Ps !! id = None).
  { apply eq_None_not_Some. intros [p Hp]. pose proof (pi_id _ _ _ _ _ _ _ _ HP _ _ Hp). lia. }
  split_and!; [done | | |].
  - intros a. apply eq_None_not_Some. intros [b Hb].
    destruct (pi_vote _ _ _ _ _ _ _ _ HP _ _ _ Hb) as (? & Hp & _). by rewrite E in Hp.
  - intros r. apply eq_None_not_Some. intros [t Ht].
    destruct (pi_tally _ _ _ _ _ _ _ _ HP _ _ _ Ht) as [? Hp]. by rewrite E in Hp.
  - apply eq_None_not_Some. intros Hc.
    apply (pi_counter _ _ _ _ _ _ _ _ HP) in Hc as (? & Hp & _). by rewrite E in Hp.
Qed.

Lemma proposals_submit c c' S P Ps next V Tl C who bond p sh :
  next < u32_max -> currency_ok c -> 0 <= bond ->
  hold (hold_reason_into ProposalBond) who bond c = (Ok tt, c') ->
  is_Some (P !! p_project_id p) -> p_bond p = bond -> p_proposer p = who ->
  S !! (p_project_id p, builder (p_attestation p)) = Some sh -> sh_role sh = BuildService ->
  p_status p = Voting ->
  proposals_inv c S P Ps next V Tl C ->
  proposals_inv c' S P (<[next := p]> Ps) (saturating_add u32_max next 1) V Tl C.
Proof.
  intros Hnext Hc Hbond Hh Hinfo Hb Hwho Hk Hrole Hst HP.
  destruct (fresh_id _ _ _ _ _ _ _ _ next HP) as (Hnew & _ & _ & HC); [lia|].
  pose proof HP as []. rewrite saturating_add_exact by lia. split; try done; try lia.
  - intros id p' [[-> ->]|[? Hp']]%lookup_insert_Some; [lia|]. pose proof (pi_id0 _ _ Hp'). lia.
  - intros id p' [[-> ->]|[? Hp']]%lookup_insert_Some; [done | by eapply pi_info0].
  - intros id p' [[-> ->]|[? Hp']]%lookup_insert_Some; [lia | by eapply pi_bond0].
  - intros id p' [[-> ->]|[? Hp']]%lookup_insert_Some; [by exists sh | by eapply pi_builder0].
  - intros id a b Hv. destruct (pi_vote0 _ _ _ Hv) as (p' & Hp' & ?). exists p'.
    rewrite lookup_insert_ne by congruence. done.
  - intros id r t Ht. apply lookup_insert_is_Some'. right. by eapply pi_tally0.
  - intros id. rewrite pi_counter0. split; intros (p' & Hp' & Hs); exists p'; split; try done.
    + rewrite lookup_insert_ne by congruence. done.
    + apply lookup_insert_Some in Hp' as [[-> ->]|[? ?]]; [congruence | done].
  - intros a. unfold open_bonds. rewrite msum_insert by done.
    rewrite (hold_held _ _ _ _ _ Hc Hbond Hh). pose proof (pi_bonds0 a).
    unfold bond_part at 1. fold (open_bonds a Ps). repeat case_decide; naive_solver lia.
Qed.

Lemma proposals_vote c S P Ps next V Tl C id who v r t :
  (exists p, Ps !! id = Some p /\ is_Some (S !! (p_project_id p, who))) ->
  proposals_inv c S P Ps next V Tl C ->
  proposals_inv c S P Ps next (<[(id, who) := v]> V) (<[(id, r) := t]> Tl) C.
Proof.
  intros (p & Hp & Hs) []. split; try done.
  - intros id' a b [[[= -> ->] ->]|[? Hv]]%lookup_insert_Some; [by exists p | by eapply pi_vote0].
  - intros id' r' t' [[[= -> ->] ->]|[? Ht]]%lookup_insert_Some; [done | by eapply pi_tally0].
Qed.

Lemma open_bonds_update a Ps id p p' :
  Ps !! id = Some p ->
  open_bonds a (<[id := p']> Ps) = open_bonds a Ps - bond_part a id p + bond_part a id p'.
Proof. apply msum_update. Qed.

(** A new status for an open proposal, paid for by [bond_released]: what a proposal that closes
    may take out of its proposer's hold. *)
Lemma proposals_status c c' S P Ps next V Tl C C' id p s :
  Ps !! id = Some p -> is_open (p_status p) = true ->
  (forall a, held ProposalBond a c
     - (if decide (p_proposer p = a /\ is_open s = false) then p_bond p else 0)
     <= held ProposalBond a c') ->
  (forall id', is_Some (C' !! id') <-> is_Some (C !! id') \/ (id' = id /\ s = Rejected)) ->
  proposals_inv c S P Ps next V Tl C ->
  proposals_inv c' S P (<[id := with_status p s]> Ps) next V Tl C'.
Proof.
  intros Hp Hopen Hheld HC []. split; try done.
  - intros id' p' [[-> <-]|[? Hp']]%lookup_insert_Some; by eapply pi_id0.
  - intros id' p' [[-> <-]|[? Hp']]%lookup_insert_Some; [by apply (pi_info0 id' p) | by eapply pi_info0].
  - intros id' p' [[-> <-]|[? Hp']]%lookup_insert_Some; [by apply (pi_bond0 id' p) | by eapply pi_bond0].
  - intros id' p' [[-> <-]|[? Hp']]%lookup_insert_Some;
      [by apply (pi_builder0 id' p) | by eapply pi_builder0].
  - intros id' a b Hv. destruct (pi_vote0 _ _ _ Hv) as (p' & Hp' & ?).
    destruct (decide (id' = id)) as [->|Hne].
    + simplify_eq. exists (with_status p s). by rewrite lookup_insert_eq.
    + exists p'. by rewrite lookup_insert_ne.
  - intros id' r t Ht. apply lookup_insert_is_Some'. right. by eapply pi_tally0.
  - intros id'. rewrite HC, pi_counter0. destruct (decide (id' = id)) as [->|Hne].
    + rewrite lookup_insert_eq. split.
      * intros [(p' & Hp' & Hs)|[_ ->]]; [|by eexists]. simplify_eq. by rewrite Hs in Hopen.
      * intros (p' & [= <-] & Hs). by right.
    + rewrite lookup_insert_ne by done. naive_solver.
  - intros a. rewrite (open_bonds_update _ _ _ _ _ Hp).
    pose proof (pi_bonds0 a). pose proof (Hheld a). pose proof (pi_bond0 _ _ Hp).
    unfold bond_part. cbn. repeat case_decide; destruct_and?;
      destruct (is_open s); first [lia | exfalso; naive_solver].
Qed.
End Ballots.
