(* ===== verification/Schedule.v ===== *)
(** * The enactment schedule

    [PendingEnactments] against the statuses: a proposal is listed for block [n] exactly when it is
    [Approved] for [n], once, and no block lists more than [MaxEnactmentsPerBlock] proposals. The
    lemmas are stated on the two maps, so that the list [on_initialize] has taken out of the map and
    is still working through is covered by the same invariant (the map with the rest of the list put
    back). *)
From stdpp Require Import prelude gmap vector.
From Stdlib Require Import Init.Byte.
From S2P Require Import Prelude Types Config Storage Pallet Chain Exec Effects.
#[local] Open Scope Z_scope.

Section Schedule.
Context {T : Config}.
Implicit Types (Ps : gmap ProposalId (Proposal AccountId)) (Pend : gmap Z (list ProposalId))
  (id : ProposalId) (p : Proposal AccountId).

Definition approved_at Ps (id : ProposalId) (n : Z) : Prop :=
  exists p, Ps !! id = Some p /\ p_status p = Approved n.

Definition listed Pend (n : Z) : list ProposalId := default [] (Pend !! n).

Record schedule_inv Ps Pend : Prop := {
  sc_listed id n : id ∈ listed Pend n <-> approved_at Ps id n;
  sc_nodup n : NoDup (listed Pend n);
  sc_bound n : (length (listed Pend n) <= MaxEnactmentsPerBlock)%nat;
}.

Lemma approved_at_put Ps id p s id' n :
  approved_at (<[id := with_status p s]> Ps) id' n
  <-> (id' = id /\ s = Approved n) \/ (id' <> id /\ approved_at Ps id' n).
Proof.
  unfold approved_at. destruct (decide (id' = id)) as [->|Hne].
  - rewrite lookup_insert_eq. naive_solver.
  - rewrite lookup_insert_ne by done. naive_solver.
Qed.

Lemma listed_insert Pend n l n' :
  listed (<[n := l]> Pend) n' = if decide (n' = n) then l else listed Pend n'.
Proof.
  unfold listed. rewrite lookup_insert. repeat case_decide; by subst.
Qed.

(** Putting back a list that has been taken changes nothing. *)
Lemma listed_taken Pend n n' :
  listed (<[n := listed Pend n]> (delete n Pend)) n' = listed Pend n'.
Proof.
  rewrite listed_insert. case_decide; [by subst|]. unfold listed. by rewrite lookup_delete_ne.
Qed.

Lemma elem_of_retain_not id id' (l : list ProposalId) :
  id' ∈ retain_not id l <-> id' <> id /\ id' ∈ l.
Proof. unfold retain_not. by rewrite list_elem_of_filter. Qed.

Lemma length_retain_not id (l : list ProposalId) : (length (retain_not id l) <= length l)%nat.
Proof. unfold retain_not. apply length_filter. Qed.

(** Only the lists matter, not which empty lists are stored. *)
Lemma schedule_ext Ps Pend Pend' :
  (forall n, listed Pend' n = listed Pend n) -> schedule_inv Ps Pend -> schedule_inv Ps Pend'.
Proof. intros E []. split; intros *; rewrite E; naive_solver. Qed.

Lemma schedule_initial : schedule_inv ∅ ∅.
Proof.
  assert (E : forall n, listed ∅ n = []) by (intros n; unfold listed; by rewrite lookup_empty).
  split; intros *; rewrite E; [|constructor | cbn; lia].
  split; [by intros ?%not_elem_of_nil | by intros (? & ? & ?)].
Qed.

Lemma schedule_submit Ps Pend id p :
  Ps !! id = None -> p_status p = Voting ->
  schedule_inv Ps Pend -> schedule_inv (<[id := p]> Ps) Pend.
Proof.
  intros Hid Hp []. split; try done. intros id' n. rewrite sc_listed0. unfold approved_at.
  destruct (decide (id' = id)) as [->|Hne].
  - rewrite lookup_insert_eq, Hid. split; [by intros (? & ? & _)|].
    intros (? & [= <-] & E). by rewrite Hp in E.
  - by rewrite lookup_insert_ne.
Qed.

(** A change between two statuses that are not [Approved]. *)
Lemma schedule_status Ps Pend id p s :
  Ps !! id = Some p -> (forall n, p_status p <> Approved n) -> (forall n, s <> Approved n) ->
  schedule_inv Ps Pend -> schedule_inv (<[id := with_status p s]> Ps) Pend.
Proof.
  intros Hp Hold Hs []. split; try done. intros id' n. rewrite sc_listed0, approved_at_put.
  destruct (decide (id' = id)) as [->|Hne]; [|tauto].
  split; [|intros [[_ ->]|[? _]]; [by destruct (Hs n) | done]]. intros (p' & Hp' & Hs'). rewrite Hp in Hp'.
    injection Hp' as <-.
  by apply Hold in Hs'.
Qed.

Lemma schedule_approve Ps Pend id p n :
  Ps !! id = Some p -> p_status p = Voting ->
  (length (listed Pend n) < MaxEnactmentsPerBlock)%nat ->
  schedule_inv Ps Pend ->
  schedule_inv (<[id := with_status p (Approved n)]> Ps) (<[n := listed Pend n ++ [id]]> Pend).
Proof.
  intros Hp Hs Hlen [Hl Hd Hb].
  assert (Hno : forall m, id ∉ listed Pend m).
  { intros m (p' & ? & ?)%Hl. simplify_eq. congruence. }
  split.
  - intros id' m. rewrite listed_insert, approved_at_put. pose proof (Hl id' m) as Hm.
    case_decide as E; [subst m; rewrite elem_of_app, list_elem_of_singleton|];
      destruct (decide (id' = id)) as [->|?]; naive_solver.
  - intros m. rewrite listed_insert. case_decide; [|apply Hd].
    apply NoDup_app. split_and!; [apply Hd | | apply NoDup_singleton].
    intros x Hx ->%list_elem_of_singleton. by apply Hno in Hx.
  - intros m. rewrite listed_insert. case_decide; [|apply Hb]. rewrite length_app. cbn. lia.
Qed.

(** An approved proposal gets another status and leaves its list, by whichever of the two ways the
    code takes it out: [retain], or the loop of [on_initialize] reaching it. *)
Lemma schedule_close Ps Pend id p n s l :
  Ps !! id = Some p -> p_status p = Approved n -> (forall m, s <> Approved m) ->
  (forall id', id' ∈ l <-> id' <> id /\ id' ∈ listed Pend n) -> NoDup l ->
  (length l <= length (listed Pend n))%nat ->
  schedule_inv Ps Pend -> schedule_inv (<[id := with_status p s]> Ps) (<[n := l]> Pend).
Proof.
  intros Hp Hst Hs Hin Hnd Hle [Hl Hd Hb]. split.
  - intros id' m. rewrite listed_insert, approved_at_put. pose proof (Hl id' m) as Hm.
    case_decide as E; [subst m; rewrite Hin; naive_solver|].
    destruct (decide (id' = id)) as [->|?]; [|naive_solver].
    split; [|naive_solver]. intros (p' & ? & ?)%Hm. simplify_eq. congruence.
  - intros m. rewrite listed_insert. case_decide; [done | apply Hd].
  - intros m. rewrite listed_insert. case_decide; [|apply Hb]. etrans; [done | apply Hb].
Qed.

Lemma schedule_unlist Ps Pend id p n s :
  Ps !! id = Some p -> p_status p = Approved n -> (forall m, s <> Approved m) ->
  schedule_inv Ps Pend ->
  schedule_inv (<[id := with_status p s]> Ps) (<[n := retain_not id (listed Pend n)]> Pend).
Proof.
  intros Hp Hst Hs HI. apply schedule_close; auto using elem_of_retain_not, length_retain_not.
  apply NoDup_filter, HI.
Qed.

Lemma schedule_next Ps Pend id p n s l :
  Ps !! id = Some p -> p_status p = Approved n -> (forall m, s <> Approved m) ->
  schedule_inv Ps (<[n := id :: l]> Pend) ->
  schedule_inv (<[id := with_status p s]> Ps) (<[n := l]> Pend).
Proof.
  intros Hp Hst Hs HI. pose proof (sc_nodup _ _ HI n) as Hnd.
  rewrite <- (insert_insert_eq Pend n l (id :: l)).
  rewrite listed_insert, decide_True in Hnd by done. apply NoDup_cons in Hnd as [Hni Hnd].
  apply schedule_close; rewrite ?listed_insert, ?decide_True by done; try done; cbn; [|lia].
  intros id'. rewrite elem_of_cons. naive_solver.
Qed.

(** The list of a block, taken out and put back. *)
Lemma schedule_take Ps Pend n :
  schedule_inv Ps Pend -> schedule_inv Ps (<[n := listed Pend n]> (delete n Pend)).
Proof. apply schedule_ext. intros m. apply listed_taken. Qed.

Lemma schedule_done Ps Pend n :
  Pend !! n = None -> schedule_inv Ps (<[n := []]> Pend) -> schedule_inv Ps Pend.
Proof.
  intros Hn. apply schedule_ext. intros m. rewrite listed_insert. case_decide; [|done].
  subst. unfold listed. by rewrite Hn.
Qed.
End Schedule.
