(* ===== verification/Log.v ===== *)
(** * The Official Release Log

    [log_inv]: the entries of a project's log are numbered from 0 without gaps, every entry is the
    record of one enacted proposal, every enacted proposal has exactly one entry, and the stored
    count is the number of enacted proposals. *)
From stdpp Require Import prelude gmap vector.
From Stdlib Require Import Init.Byte.
From S2P Require Import Prelude Types Config Storage Pallet Chain Exec Effects.
#[local] Open Scope Z_scope.

Section Log.
Context {T : Config}.
Implicit Types (Ps : gmap ProposalId (Proposal AccountId)) (id : ProposalId)
  (p : Proposal AccountId) (pid : ProjectId) (i : Z) (e : ReleaseEntry)
  (RC : gmap ProjectId Z) (RL : gmap (ProjectId * Z) ReleaseEntry).

Definition count_in RC pid : Z := default 0 (RC !! pid).

(** One for every enacted proposal of [pid]. *)
Definition enacted_part pid (id : ProposalId) p : Z :=
  if decide (p_project_id p = pid /\ p_status p = Enacted) then 1 else 0.
Definition enacted_count pid Ps : Z := msum (enacted_part pid) Ps.

Record log_inv Ps RC RL : Prop := {
  lg_range pid i e : RL !! (pid, i) = Some e -> 0 <= i < count_in RC pid;
  lg_dense pid i : 0 <= i < count_in RC pid -> is_Some (RL !! (pid, i));
  lg_entry pid i e : RL !! (pid, i) = Some e ->
    exists p, Ps !! re_proposal_id e = Some p /\ p_status p = Enacted /\ p_project_id p = pid
      /\ e = release_entry (re_proposal_id e) p (re_enacted_at e);
  lg_enacted id p : Ps !! id = Some p -> p_status p = Enacted ->
    exists i e, RL !! (p_project_id p, i) = Some e /\ re_proposal_id e = id;
  lg_inj k k' e e' : RL !! k = Some e -> RL !! k' = Some e' ->
    re_proposal_id e = re_proposal_id e' -> k = k';
  lg_count pid : count_in RC pid = enacted_count pid Ps;
}.

Lemma enacted_part_range pid id p : 0 <= enacted_part pid id p <= 1.
Proof. unfold enacted_part. case_decide; lia. Qed.

Lemma enacted_part_open pid id p s : s <> Enacted -> enacted_part pid id (with_status p s) = 0.
Proof. intros Hs. unfold enacted_part. cbn. by rewrite decide_False by tauto. Qed.

(** While some proposal is not enacted, the log is shorter than the number of proposals. *)
Lemma count_lt_size Ps RC RL id p pid :
  log_inv Ps RC RL -> Ps !! id = Some p -> p_status p <> Enacted ->
  0 <= count_in RC pid < Z.of_nat (size Ps).
Proof.
  intros HI Hp Hs. rewrite (lg_count _ _ _ HI). unfold enacted_count. split.
  - apply msum_nonneg. intros k q _. apply enacted_part_range.
  - rewrite (msum_delete _ _ _ _ Hp).
    assert (enacted_part pid id p = 0) as ->.
    { unfold enacted_part. by rewrite decide_False by tauto. }
    pose proof (msum_size (enacted_part pid) (delete id Ps)
      (fun k q _ => proj2 (enacted_part_range pid k q))).
    pose proof (map_size_insert_None id p (delete id Ps) (lookup_delete_eq _ _)) as E.
    rewrite insert_delete_id in E by done. lia.
Qed.

Lemma log_initial : log_inv ∅ ∅ ∅.
Proof.
  split; intros *; unfold count_in, enacted_count; rewrite ?lookup_empty; try done.
  cbn. lia.
Qed.

Lemma log_submit Ps RC RL id p :
  Ps !! id = None -> p_status p = Voting -> log_inv Ps RC RL -> log_inv (<[id := p]> Ps) RC RL.
Proof.
  intros Hid Hp []. split; try done.
  - intros pid i e (q & Hq & ?)%lg_entry0. exists q.
    rewrite lookup_insert_ne; [done|]. intros E. by rewrite <- E, Hid in Hq.
  - intros id' q [[-> ->]|[? Hq]]%lookup_insert_Some Hs; [congruence | by eapply lg_enacted0].
  - intros pid. rewrite lg_count0. unfold enacted_count. rewrite msum_insert by done.
    unfold enacted_part at 2. rewrite decide_False by (rewrite Hp; by intros [_ ?]). lia.
Qed.

(** A change between two statuses that are not [Enacted]. *)
Lemma log_status Ps RC RL id p s :
  Ps !! id = Some p -> p_status p <> Enacted -> s <> Enacted ->
  log_inv Ps RC RL -> log_inv (<[id := with_status p s]> Ps) RC RL.
Proof.
  intros Hp Hold Hs []. split; try done.
  - intros pid i e (q & Hq & Hst & ?)%lg_entry0. exists q. rewrite lookup_insert_ne; [done|].
    intros E. rewrite <- E, Hp in Hq. by injection Hq as <-.
  - intros id' q [[-> <-]|[? Hq]]%lookup_insert_Some Hst; [done | by eapply lg_enacted0].
  - intros pid. rewrite lg_count0. unfold enacted_count. rewrite (msum_update _ _ _ _ _ Hp).
    rewrite enacted_part_open by done. unfold enacted_part at 3. rewrite decide_False by tauto. lia.
Qed.

Lemma count_in_insert RC pid x pid' :
  count_in (<[pid := x]> RC) pid' = if decide (pid' = pid) then x else count_in RC pid'.
Proof. unfold count_in. rewrite lookup_insert. repeat case_decide; by subst. Qed.

(** Publishing an entry at the end of the log. *)
Lemma log_publish Ps RC RL id p now :
  Ps !! id = Some p -> p_status p <> Enacted -> Z.of_nat (size Ps) <= u32_max ->
  log_inv Ps RC RL ->
  log_inv (<[id := with_status p Enacted]> Ps)
    (<[p_project_id p := saturating_add u32_max (count_in RC (p_project_id p)) 1]> RC)
    (<[(p_project_id p, count_in RC (p_project_id p)) := release_entry id p now]> RL).
Proof.
  intros Hp Hs Hsize HI. set (pid := p_project_id p).
  pose proof (count_lt_size _ _ _ _ _ pid HI Hp Hs) as Hc.
  rewrite saturating_add_exact by lia.
  assert (Hnew : forall k e, RL !! k = Some e -> re_proposal_id e <> id).
  { intros [pid' i] e (q & Hq & Hst & _)%(lg_entry _ _ _ HI) E. rewrite E, Hp in Hq.
    by injection Hq as <-. }
  destruct HI as [Hrange Hdense Hentry Henacted Hinj Hcount]. split.
  - intros pid' i e. rewrite count_in_insert.
    intros [[[= <- <-] _]|[Hne He]]%lookup_insert_Some; [rewrite decide_True by done; lia|].
    pose proof (Hrange _ _ _ He). case_decide; [subst pid'; lia | done].
  - intros pid' i Hi. apply lookup_insert_is_Some'. rewrite count_in_insert in Hi.
    case_decide; [subst pid' | right; by apply Hdense].
    destruct (decide (i = count_in RC pid)) as [->|]; [by left|]. right. apply Hdense. lia.
  - intros pid' i e [[[= <- <-] <-]|[Hne He]]%lookup_insert_Some.
    + exists (with_status p Enacted). cbn. by rewrite lookup_insert_eq.
    + destruct (Hentry _ _ _ He) as (q & Hq & ?). exists q.
      rewrite lookup_insert_ne; [done | symmetry; by eapply Hnew].
  - intros id' q [[-> <-]|[? Hq]]%lookup_insert_Some Hst; cbn.
    + exists (count_in RC pid), (release_entry id' p now). by rewrite lookup_insert_eq.
    + destruct (Henacted _ _ Hq Hst) as (i & e & He & Hid). exists i, e. split; [|done].
      rewrite lookup_insert_ne; [done|]. intros [= E1 E2].
      pose proof (Hrange _ _ _ He). unfold pid in *. rewrite <- E1 in *. lia.
  - intros k k' e e' [[<- <-]|[? He]]%lookup_insert_Some [[<- <-]|[? He']]%lookup_insert_Some E;
      cbn in E; [done | by destruct (Hnew _ _ He') | by destruct (Hnew _ _ He) | by eapply Hinj].
  - intros pid'. rewrite count_in_insert. unfold enacted_count.
    rewrite (msum_update _ _ _ _ _ Hp). fold (enacted_count pid' Ps). rewrite <- Hcount.
    unfold enacted_part. cbn. fold pid. repeat case_decide; subst; naive_solver lia.
Qed.
End Log.
