(* ===== verification/Invariants.v ===== *)
(** * The invariant of the pallet's state

    [Inv] joins the invariants of the registry, the ballots, the schedule and the log. It holds
    initially, every step of the chain preserves it, and so it holds in every reachable world that
    has not run out of proposal identifiers ([NextProposalId] saturates at [u32::MAX]; from then on
    new proposals overwrite the last one). *)
From stdpp Require Import prelude gmap vector.
From Stdlib Require Import Init.Byte.
From S2P Require Import Prelude Types Config Storage Pallet Chain Exec Effects Registry Ballots.
From S2P Require Import Schedule Log.
#[local] Open Scope Z_scope.

Section Invariants.
Context {T : Config} {L : ConfigLaws T}.
Implicit Types (w : World) (p : Proposal AccountId) (id : ProposalId).

Record Inv w : Prop := {
  inv_registry : registry_inv (w_currency w) (w_Stakeholders w) (w_RoleStake w) (w_Projects w);
  inv_proposals : proposals_inv (w_currency w) (w_Stakeholders w) (w_Projects w) (w_Proposals w)
    (w_NextProposalId w) (w_Votes w) (w_Tallies w) (w_CounterAttestations w);
  inv_tallies : tallies_inv (w_Stakeholders w) (w_Proposals w) (w_Votes w) (w_Tallies w);
  inv_schedule : schedule_inv (w_Proposals w) (w_PendingEnactments w);
  inv_log : log_inv (w_Proposals w) (w_ReleaseCount w) (w_ReleaseLog w);
}.

Lemma inv_initial w : initial w -> Inv w.
Proof.
  intros (_ & E2 & E3 & E4 & E5 & E6 & E7 & E8 & E9 & E10 & E11 & E12 & _ & Hc & Hh).
  split; rewrite ?E2, ?E3, ?E4, ?E5, ?E6, ?E7, ?E8, ?E9, ?E10, ?E11, ?E12.
  - by apply registry_initial.
  - by apply proposals_initial.
  - by intros ? ? ? ? ?.
  - apply schedule_initial.
  - apply log_initial.
Qed.

Lemma inv_currency_ok w : Inv w -> currency_ok (w_currency w).
Proof. intros HI. eapply ri_currency, inv_registry, HI. Qed.

Lemma inv_bond w id p : Inv w -> w_Proposals w !! id = Some p -> 0 <= p_bond p.
Proof. intros HI Hp. by eapply pi_bond in Hp; [|apply inv_proposals, HI]. Qed.

Lemma inv_project w id p :
  Inv w -> w_Proposals w !! id = Some p -> is_Some (w_Projects w !! p_project_id p).
Proof. intros HI Hp. by eapply pi_info in Hp; [|apply inv_proposals, HI]. Qed.

Lemma inv_info w pid info : Inv w -> w_Projects w !! pid = Some info -> info_ok info.
Proof. intros HI. eapply ri_project, inv_registry, HI. Qed.

(** Every proposal has an identifier below the next one, so there are at most that many. *)
Lemma inv_size w : Inv w -> Z.of_nat (size (w_Proposals w)) <= u32_max.
Proof.
  intros [_ HP _ _ _]. pose proof (pi_next _ _ _ _ _ _ _ _ HP).
  transitivity (w_NextProposalId w); [|lia].
  apply size_bounded; [lia | apply (pi_id _ _ _ _ _ _ _ _ HP)].
Qed.

(** ** Effects that preserve the invariant *)

Lemma inv_emit w l : Inv w -> Inv (emit l w).
Proof. by intros []. Qed.

Lemma inv_record_vote w id p who sh aye :
  Inv w -> w_Proposals w !! id = Some p -> w_Stakeholders w !! (p_project_id p, who) = Some sh ->
  Inv (record_vote id who sh aye w).
Proof.
  intros [HR HP HT HS HL] Hp Hk. split; try done.
  - apply proposals_vote; [|done]. by exists p.
  - by eapply tallies_vote.
Qed.

(** A proposal that stays open: no bond moves. *)
Lemma proposals_open_status w id p s :
  Inv w -> w_Proposals w !! id = Some p -> is_open (p_status p) = true -> is_open s = true ->
  proposals_inv (w_currency w) (w_Stakeholders w) (w_Projects w)
    (<[id := with_status p s]> (w_Proposals w))
    (w_NextProposalId w) (w_Votes w) (w_Tallies w) (w_CounterAttestations w).
Proof.
  intros [_ HP _ _ _] Hp Ho Hs. eapply proposals_status; [done | done | | | exact HP].
  - intros a. rewrite decide_False; [lia|]. intros [_ E]. congruence.
  - intros id'. split; [by left|]. intros [?|[_ ->]]; [done|]. by cbn in Hs.
Qed.

Lemma inv_schedule_proposal w id p n :
  Inv w -> w_Proposals w !! id = Some p -> p_status p = Voting ->
  (length (pending n w) < MaxEnactmentsPerBlock)%nat -> Inv (schedule id p n w).
Proof.
  intros HI Hp Hs Hlen. pose proof HI as [HR HP HT HS HL]. split; try done.
  - apply (proposals_open_status w); [done | done | by rewrite Hs | done].
  - exact (tallies_status _ _ _ _ _ _ _ Hp HT).
  - exact (schedule_approve _ _ _ _ _ Hp Hs Hlen HS).
  - apply (log_status _ _ _ _ _ _ Hp); [by rewrite Hs | done | done].
Qed.

Lemma inv_revoke_unlist w id p n :
  Inv w -> w_Proposals w !! id = Some p -> p_status p = Approved n ->
  Inv (revoke id p (unlist id n w)).
Proof.
  intros HI Hp Hs. pose proof HI as [HR HP HT HS HL]. split; try done.
  - apply (proposals_open_status w); [done | done | by rewrite Hs | done].
  - exact (tallies_status _ _ _ _ _ _ _ Hp HT).
  - by refine (schedule_unlist _ _ _ _ _ _ Hp Hs _ HS).
  - apply (log_status _ _ _ _ _ _ Hp); [by rewrite Hs | done | done].
Qed.

Lemma inv_do_vote w w' id pid info who sh aye now p :
  Inv w -> w_Proposals w !! id = Some p -> w_Stakeholders w !! (p_project_id p, who) = Some sh ->
  do_vote id pid info who sh aye now w = (Ok tt, w') -> Inv w'.
Proof.
  intros HI Hp Hk H. pose proof (inv_record_vote _ _ _ _ _ aye HI Hp Hk) as HI1.
  destruct (do_vote_Ok _ _ _ _ _ _ _ _ _ _ Hp H)
    as [(-> & _)|[(n & _ & Hs & _ & Hlen & ->)|(n & Hs & _ & ->)]].
  - done.
  - by apply inv_schedule_proposal.
  - by apply inv_revoke_unlist.
Qed.

(** ** Enactment *)

(** The world with list [l] pending for block [n]. *)
Definition relisted (n : Z) (l : list ProposalId) w : World :=
  set_PendingEnactments (<[n := l]> (w_PendingEnactments w)) w.

(** The bond of an open proposal that closes is taken from its proposer's hold. *)
Lemma bond_out (c c' : CurrencyState) p res s :
  currency_ok c -> 0 <= p_bond p -> is_open s = false ->
  release (hold_reason_into ProposalBond) (p_proposer p) (p_bond p) BestEffort c = (res, c') ->
  forall a, held ProposalBond a c
    - (if decide (p_proposer p = a /\ is_open s = false) then p_bond p else 0)
  <= held ProposalBond a c'.
Proof.
  intros Hc Hb Hs Hr a. pose proof (release_at_most _ _ _ _ _ _ a Hc Hb Hr) as H.
  destruct (decide (a = p_proposer p)) as [->|]; [rewrite decide_True by done; lia|].
  rewrite decide_False by (intros [? _]; congruence). lia.
Qed.

Lemma inv_publish w id p n l :
  Inv (relisted n (id :: l) w) -> w_Proposals w !! id = Some p -> p_status p = Approved n ->
  Inv (relisted n l (publish id p n w)).
Proof.
  intros HI Hp Hs. pose proof HI as [HR HP HT HS HL].
  destruct (release (hold_reason_into ProposalBond) (p_proposer p) (p_bond p) BestEffort
    (w_currency w)) as [res c] eqn:E.
  assert (Ec : bond_released p (w_currency w) = c) by (unfold bond_released; by rewrite E).
  split; cbn; rewrite ?Ec.
  - eapply registry_release; [by eapply inv_bond | exact E | exact HR].
  - eapply proposals_status; [done | by rewrite Hs | | | exact HP].
    + eapply bond_out; [by eapply inv_currency_ok | by eapply inv_bond | done | exact E].
    + intros id'. split; [by left|]. by intros [?|[_ ?]].
  - exact (tallies_status _ _ _ _ _ _ _ Hp HT).
  - eapply schedule_next; [done | exact Hs | done | exact HS].
  - apply log_publish; [done | by rewrite Hs | apply (inv_size _ HI) | exact HL].
Qed.

Lemma inv_enacted w id n l :
  Inv (relisted n (id :: l) w) -> Inv (relisted n l (enacted id n w)).
Proof.
  intros HI. pose proof HI as [HR HP HT HS HL].
  destruct (sc_listed _ _ HS id n) as [(p & Hp & Hs) _].
  { cbn. rewrite listed_insert, decide_True by done. by left. }
  destruct (inv_project _ _ _ HI Hp) as [info Hinfo]. cbn in Hp, Hinfo.
  unfold enacted. rewrite Hp, Hs, Hinfo. case_match.
  - by apply inv_publish.
  - split; try done.
    + refine (proposals_open_status _ _ _ Voting HI Hp _ eq_refl). by rewrite Hs.
    + exact (tallies_status _ _ _ _ _ _ _ Hp HT).
    + eapply schedule_next; [done | exact Hs | done | exact HS].
    + apply (log_status _ _ _ _ _ _ Hp); [by rewrite Hs | done | done].
Qed.

Lemma enacted_pending id n w : w_PendingEnactments (enacted id n w) = w_PendingEnactments w.
Proof. unfold enacted. repeat case_match; done. Qed.

Lemma inv_enacted_all l n w :
  w_PendingEnactments w !! n = None -> Inv (relisted n l w) -> Inv (enacted_all l n w).
Proof.
  revert w. induction l as [|id l IH]; intros w Hn HI; cbn.
  - destruct HI as [HR HP HT HS HL]. split; try done. by apply (schedule_done _ _ n).
  - apply IH; [by rewrite enacted_pending | by apply inv_enacted].
Qed.

Lemma inv_blocked w : Inv w -> Inv (blocked w).
Proof.
  intros [HR HP HT HS HL]. apply inv_enacted_all; [apply lookup_delete_eq|].
  split; try done. by apply schedule_take.
Qed.

(** ** Calls *)

Lemma inv_registered pid s c w :
  w_Stakeholders w !! (pid, si_account s) = None -> 0 <= si_stake s ->
  hold (hold_reason_into Stake) (si_account s) (si_stake s) (w_currency w) = (Ok tt, c) ->
  Inv w -> Inv (registered pid s c w).
Proof.
  intros Hk Hs Hh HI. pose proof HI as [HR HP HT HS HL]. split; try done.
  - by apply registry_registered with (w_currency w).
  - eapply proposals_currency, proposals_registry; [| |exact HP].
    + intros a. rewrite (hold_held _ _ _ _ _ (inv_currency_ok _ HI) Hs Hh). case_decide; lia.
    + intros k sh Hsh. exists sh. split; [|done]. cbn. rewrite lookup_insert_ne; [done|].
      intros <-. by rewrite Hk in Hsh.
  - by eapply tallies_register.
Qed.

Lemma inv_project_genesis o name l policy slashing bond w w' :
  Forall (fun s => 0 <= si_stake s) l -> policy_ok policy -> slashing_ok slashing -> 0 <= bond ->
  project_genesis o name l policy slashing bond w = (Ok tt, w') -> Inv w -> Inv w'.
Proof.
  intros Hl Hpol Hsl Hb H HI.
  apply project_genesis_Ok in H as (_ & _ & w1 & H1 & Hreq & ->).
  apply (for_each_Ok _ Inv) in H1 as [HR HP HT HS HL]; [|clear H1|done].
  - split; try done; [by apply registry_project | by apply proposals_project].
  - intros s w2 w3 Hs HI2 H. apply register_stakeholder_Ok in H as (Hk & c & Hh & ->).
    rewrite Forall_forall in Hl. apply inv_registered; auto.
Qed.

Lemma inv_submitted c p bs w :
  w_NextProposalId w < u32_max -> 0 <= p_bond p ->
  hold (hold_reason_into ProposalBond) (p_proposer p) (p_bond p) (w_currency w) = (Ok tt, c) ->
  is_Some (w_Projects w !! p_project_id p) ->
  w_Stakeholders w !! (p_project_id p, builder (p_attestation p)) = Some bs ->
  sh_role bs = BuildService -> p_status p = Voting ->
  Inv w -> Inv (submitted p c w).
Proof.
  intros Hnext Hb Hh Hinfo Hbs Hrole Hst HI. pose proof HI as [HR HP HT HS HL].
  destruct (fresh_id _ _ _ _ _ _ _ _ (w_NextProposalId w) HP) as (Hid & HV & HTl & _); [done|].
  split.
  - by eapply registry_hold_bond.
  - by eapply proposals_submit; eauto using inv_currency_ok.
  - by apply tallies_submit.
  - by apply schedule_submit.
  - by apply log_submit.
Qed.

Lemma inv_new_release o pid version att cid sig w w' :
  w_NextProposalId w < u32_max ->
  new_release o pid version att cid sig w = (Ok tt, w') -> Inv w -> Inv w'.
Proof.
  intros Hnext H HI.
  apply new_release_Ok in H as (who & info & sh & bs & c & _ & Hinfo & Hsh & _ & Hbs & Hr & _ & Hh & H).
  pose proof (inv_info _ _ _ HI Hinfo) as (_ & _ & Hb).
  refine (inv_do_vote _ _ _ _ _ _ _ _ _ _ _ _ _ H); [|by apply lookup_insert_eq | exact Hsh].
  by eapply inv_submitted.
Qed.

Lemma inv_vote o id aye w w' : vote o id aye w = (Ok tt, w') -> Inv w -> Inv w'.
Proof.
  intros H HI. apply vote_Ok in H as (who & p & info & sh & _ & Hp & _ & _ & _ & Hsh & H).
  by eapply inv_do_vote.
Qed.

Lemma inv_unscheduled w id p s :
  w_Proposals w !! id = Some p -> is_open (p_status p) = true -> (forall n, s <> Approved n) ->
  schedule_inv (w_Proposals w) (w_PendingEnactments w) ->
  schedule_inv (<[id := with_status p s]> (w_Proposals w))
    (w_PendingEnactments (unscheduled id p w)).
Proof.
  intros Hp Ho Hs HS. unfold unscheduled. destruct (p_status p) eqn:E; try done.
  - apply schedule_status; [done | by rewrite E | done | done].
  - by refine (schedule_unlist _ _ _ _ _ _ Hp E Hs HS).
Qed.

Lemma inv_submit_counter_attestation o id rebuilt w w' :
  submit_counter_attestation o id rebuilt w = (Ok tt, w') -> Inv w -> Inv w'.
Proof.
  intros H HI. apply submit_counter_attestation_Ok in H
    as (who & p & info & sh & x & c1 & y & c2 & _ & Hp & Hinfo & _ & _ & _ & Ho & Hsh & Hb & Hr & ->).
  pose proof HI as [HR HP HT HS HL].
  destruct (inv_info _ _ _ HI Hinfo) as (_ & Hslash & _).
  assert (Hrole : sh_role sh = BuildService).
  { destruct (pi_builder _ _ _ _ _ _ _ _ HP _ _ Hp) as (sh' & Hsh' & <-). congruence. }
  pose proof (slash_exact _ _ _ _ _ _ _ _ _ _ Hslash Hsh HR Hb) as Hx.
  destruct (slash_amount _ (sh_stake sh) Hslash) as [_ Ham]; [by eapply ri_stake|].
  pose proof (inv_currency_ok _ HI) as Hc0. pose proof (inv_bond _ _ _ HI Hp) as Hb0.
  destruct (burn_held_spec _ _ _ _ _ _ Hc0 (proj1 Ham) Hb) as (Hc1 & Hf & _).
  pose proof (inv_unscheduled _ _ _ Rejected Hp Ho (fun n => ltac:(done)) HS) as HS'.
  destruct (unscheduled_frame id p w) as [Pend Hun]. rewrite Hun in *. clear Hun. cbn in HS'.
  split; cbn.
  - eapply registry_release; [exact Hb0 | exact Hr |]. rewrite <- Hrole at 1 2.
    by eapply registry_slashed; [| |apply Ham|subst x; apply Ham | |].
  - eapply proposals_status with (c := c1) (C := w_CounterAttestations w); [done | done | by eapply bond_out | |].
    + intros id'. rewrite lookup_insert_is_Some'. split; [intros [->|?] | intros [?|[-> _]]]; auto.
    + eapply proposals_currency, proposals_registry; [| |exact HP].
      * intros a. by rewrite (held_frame _ _ _ _ ProposalBond a Hf).
      * intros k sh' Hk. rewrite lookup_insert. case_decide as E; [|by exists sh'].
        subst k. eexists. split; [done|]. cbn. congruence.
  - apply tallies_status; [done|]. by apply tallies_slash.
  - done.
  - apply (log_status _ _ _ _ _ _ Hp); [by destruct (p_status p) | done | done].
Qed.

Lemma inv_close_expired o id w w' : close_expired o id w = (Ok tt, w') -> Inv w -> Inv w'.
Proof.
  intros H HI. apply close_expired_Ok in H as (who & p & y & c & _ & Hp & Hs & _ & Hr & ->).
  pose proof HI as [HR HP HT HS HL]. split; cbn.
  - eapply registry_release; [by eapply inv_bond | exact Hr | done].
  - eapply proposals_status; [done | by rewrite Hs | | | exact HP].
    + eapply bond_out; [by eapply inv_currency_ok | by eapply inv_bond | done | exact Hr].
    + intros id'. split; [by left | by intros [?|[_ ?]]].
  - exact (tallies_status _ _ _ _ _ _ _ Hp HT).
  - apply schedule_status; [done | by rewrite Hs | done | done].
  - apply (log_status _ _ _ _ _ _ Hp); [by rewrite Hs | done | done].
Qed.

(** ** Steps *)

Lemma inv_call o c w w' :
  call_ok c -> w_NextProposalId w < u32_max -> call_body o c w = (Ok tt, w') -> Inv w -> Inv w'.
Proof.
  intros Hc Hnext. destruct c; cbn in *.
  - destruct Hc as (_ & _ & Hl & Hpol & Hsl & Hb).
    apply inv_project_genesis; [|done | done | apply Hb].
    eapply Forall_impl; [exact Hl|]. by intros s [? _].
  - by apply inv_new_release.
  - apply inv_vote.
  - apply inv_submit_counter_attestation.
  - apply inv_close_expired.
Qed.

Context {S : StorageLayer T}.

Lemma inv_step w w' : w_NextProposalId w < u32_max -> step w w' -> Inv w -> Inv w'.
Proof.
  intros Hnext Hstep HI. destruct Hstep as [w weight w' _ H|w o c [[]|e] w' Hc H|w evs c Hc Hh].
  - rewrite next_block_run in H. injection H as _ <-. by apply inv_blocked.
  - apply dispatch_Ok in H. exact (inv_call _ _ _ _ Hc Hnext H HI).
  - by apply dispatch_Err in H as ->.
  - destruct HI as [HR HP HT HS HL]. split; try done.
    + eapply registry_currency; [done | intros a; apply Hh | exact HR].
    + eapply proposals_currency; [|exact HP]. intros a. by rewrite Hh.
Qed.

(** ** Proposal identifiers *)

Definition next_id_step w w' : Prop :=
  w_NextProposalId w' = w_NextProposalId w
  \/ w_NextProposalId w' = saturating_add u32_max (w_NextProposalId w) 1.

Lemma enacted_next id n w : w_NextProposalId (enacted id n w) = w_NextProposalId w.
Proof. unfold enacted. by repeat case_match. Qed.

Lemma enacted_all_next l n w : w_NextProposalId (enacted_all l n w) = w_NextProposalId w.
Proof.
  revert w. induction l as [|id l IH]; intros w; [done|]. cbn. unfold enacted_all in IH.
  by rewrite IH, enacted_next.
Qed.

Lemma do_vote_next id pid info who sh aye now p w w' :
  w_Proposals w !! id = Some p -> do_vote id pid info who sh aye now w = (Ok tt, w') ->
  w_NextProposalId w' = w_NextProposalId w.
Proof.
  intros Hp H. by destruct (do_vote_Ok _ _ _ _ _ _ _ _ _ _ Hp H)
    as [(-> & _)|[(n & _ & _ & _ & _ & ->)|(n & _ & _ & ->)]].
Qed.

Lemma next_id_call o c w w' : call_body o c w = (Ok tt, w') -> next_id_step w w'.
Proof.
  destruct c; cbn; intros H.
  - left. apply project_genesis_Ok in H as (_ & _ & w1 & H & _ & ->). cbn.
    apply (for_each_Ok _ (fun w1 => w_NextProposalId w1 = w_NextProposalId w)) in H; [done | | done].
    intros s w2 w3 _ <- H3. by apply register_stakeholder_Ok in H3 as (_ & c & _ & ->).
  - right. apply new_release_Ok in H as (who & info & sh & bs & c & _ & _ & _ & _ & _ & _ & _ & _ & H).
    apply do_vote_next with (p := new_proposal info project_id who version attestation
      attestation_cid (w_block_number w)) in H; [done | by apply lookup_insert_eq].
  - left. apply vote_Ok in H as (who & p & info & sh & _ & Hp & _ & _ & _ & _ & H).
    by eapply do_vote_next.
  - left. apply submit_counter_attestation_Ok in H
      as (who & p & info & sh & x & c1 & y & c2 & H). destruct_and! H.
    destruct (unscheduled_frame proposal_id p w) as [Pend E]. subst w'. by rewrite E.
  - left. by apply close_expired_Ok in H as (who & p & y & c & _ & _ & _ & _ & _ & ->).
Qed.

Lemma next_id_of_step w w' : step w w' -> next_id_step w w'.
Proof.
  intros [w1 weight w2 _ H|w1 o c [[]|e] w2 Hc H|w1 evs c Hc Hh].
  - rewrite next_block_run in H. injection H as _ <-. left. exact (enacted_all_next _ _ (opened w1)).
  - apply dispatch_Ok in H. exact (next_id_call _ _ _ _ H).
  - apply dispatch_Err in H as ->. by left.
  - by left.
Qed.

(** Either the identifiers have run out, or the invariant holds. *)
Lemma reachable_inv_or w : reachable w -> w_NextProposalId w = u32_max \/ Inv w.
Proof.
  intros (w0 & H0 & Hsteps).
  apply (rtc_ind_r (R := step) (fun w => w_NextProposalId w = u32_max \/ Inv w) w0); [| |done].
  - right. by apply inv_initial.
  - intros w1 w2 _ Hstep [E|HI].
    + left. destruct (next_id_of_step _ _ Hstep) as [->| ->]; [done|].
      rewrite E. unfold saturating_add, u32_max. lia.
    + destruct (decide (w_NextProposalId w1 = u32_max)) as [E|Hne].
      * left. destruct (next_id_of_step _ _ Hstep) as [->| ->]; [done|].
        rewrite E. unfold saturating_add, u32_max. lia.
      * right. eapply inv_step; [|done|done].
        pose proof (pi_next _ _ _ _ _ _ _ _ (inv_proposals _ HI)). lia.
Qed.

(** A world some run of the chain leads to, with proposal identifiers left. *)
Definition live w : Prop := reachable w /\ w_NextProposalId w < u32_max.

Lemma live_inv w : live w -> Inv w.
Proof. intros [Hr Hn]. destruct (reachable_inv_or w Hr) as [E|HI]; [lia | done]. Qed.

Lemma live_step w w' : live w -> step w w' -> w_NextProposalId w' < u32_max -> live w'.
Proof.
  intros [(w0 & H0 & Hs) _] Hstep Hn. split; [|done]. exists w0. split; [done|]. by eapply rtc_r.
Qed.
End Invariants.
