(* ===== verification/Runs.v ===== *)
(** * Concrete runs

    Runs of the chain on the configuration [Test], as lists of actions: [world_of l] is the world
    the actions lead to, and it is live whenever they all go through ([world_of_live]). The named
    runs at the end (the acme-utils project of the unit tests at several moments of a release) are
    the inputs at which the theorems of the development are applied. *)
From stdpp Require Import prelude gmap vector.
From Stdlib Require Import Init.Byte.
From S2P Require Import Prelude Types Config Storage Pallet Chain Mock Scenarios Exec Effects.
From S2P Require Import Registry Ballots Schedule Log Invariants.
#[local] Open Scope Z_scope.

Inductive action : Type :=
| Do (o : TestOrigin) (c : TestCall)
| NextBlock.

#[local] Instance perbill_ok_dec p : Decision (perbill_ok p).
Proof. unfold perbill_ok. apply _. Defined.
#[local] Instance policy_ok_dec p : Decision (policy_ok (T := Test) p).
Proof. unfold policy_ok. apply _. Defined.
#[local] Instance slashing_ok_dec s : Decision (slashing_ok (T := Test) s).
Proof. unfold slashing_ok. apply _. Defined.
#[export] Instance call_ok_dec (c : TestCall) : Decision (call_ok c).
Proof. destruct c; cbn; apply _. Defined.

(** Perform an action, provided it is one the chain allows and it succeeds. *)
Definition act (a : action) (w : W) : option W :=
  match a with
  | Do o c =>
      if bool_decide (call_ok c) then
        match dispatch o c w with (Ok _, w') => Some w' | _ => None end
      else None
  | NextBlock =>
      if w_block_number w <? block_number_max then Some (snd (next_block w)) else None
  end.

Fixpoint play (l : list action) (w : W) : option W :=
  match l with
  | [] => Some w
  | a :: l' => match act a w with Some w' => play l' w' | None => None end
  end.

Lemma act_step a w w' : act a w = Some w' -> step w w'.
Proof.
  destruct a as [o c|]; cbn -[dispatch next_block].
  - destruct (bool_decide (call_ok c)) eqn:E; [|done].
    destruct (dispatch o c w) as [[u|e] w1] eqn:Ed; [|done]. intros [= <-].
    refine (step_call _ _ _ _ _ _ Ed). by apply bool_decide_eq_true in E.
  - destruct (w_block_number w <? u64_max) eqn:E; [|done]. intros [= <-]. apply Z.ltb_lt in E.
    eapply step_block; [done|]. by rewrite next_block_run.
Qed.

Lemma play_steps l w w' : play l w = Some w' -> rtc step w w'.
Proof.
  revert w. induction l as [|a l IH]; intros w; cbn; [intros [= <-]; constructor|].
  destruct (act a w) as [w1|] eqn:E; [|done]. intros H. eapply rtc_l; [by eapply act_step|].
  by apply IH.
Qed.

Lemma new_test_ext_initial : initial new_test_ext.
Proof.
  do 12 (split; [reflexivity|]). split; [by vm_compute|]. split; [|done].
  split_and!; cbn.
  - apply (bool_decide_unpack _). by vm_compute.
  - apply map_Forall_empty.
  - unfold total at 2. rewrite msum_empty. lia.
  - by vm_compute.
Qed.

Definition world_of (l : list action) : W := default new_test_ext (play l new_test_ext).

Definition playable (l : list action) : bool :=
  match play l new_test_ext with
  | Some w => w_NextProposalId w <? u32_max
  | None => false
  end.

Lemma world_of_live l : playable l = true -> live (world_of l).
Proof.
  unfold playable, world_of. destruct (play l new_test_ext) as [w|] eqn:E; [|done].
  intros H. apply Z.ltb_lt in H. split; [|done].
  exists new_test_ext. split; [apply new_test_ext_initial | by eapply play_steps].
Qed.

Lemma play_app l1 l2 w : play (l1 ++ l2) w = match play l1 w with Some w' => play l2 w' | None => None end.
Proof.
  revert w. induction l1 as [|a l1 IH]; intros w; [done|]. cbn. destruct (act a w); [apply IH | done].
Qed.

Lemma playable_app l1 l2 :
  playable (l1 ++ l2) = true ->
  play l1 new_test_ext = Some (world_of l1) /\ play l2 (world_of l1) = Some (world_of (l1 ++ l2))
  /\ w_NextProposalId (world_of (l1 ++ l2)) < u32_max.
Proof.
  unfold playable, world_of. rewrite play_app. destruct (play l1 new_test_ext) as [w|]; [|done].
  cbn. destruct (play l2 w) as [w'|] eqn:E; [|done]. intros H%Z.ltb_lt. by split_and!.
Qed.

Lemma world_of_run l1 l2 :
  playable (l1 ++ l2) = true -> rtc step (world_of l1) (world_of (l1 ++ l2)).
Proof. intros (_ & H & _)%playable_app. by eapply play_steps. Qed.

Lemma world_of_step l a : playable (l ++ [a]) = true -> step (world_of l) (world_of (l ++ [a])).
Proof.
  intros (_ & H & _)%playable_app. cbn in H. destruct (act a (world_of l)) eqn:E; [|done].
  injection H as <-. by apply act_step in E.
Qed.

Lemma world_of_dispatch l o c :
  playable (l ++ [Do o c]) = true -> dispatch o c (world_of l) = (Ok tt, world_of (l ++ [Do o c])).
Proof.
  intros (_ & H & _)%playable_app. cbn -[dispatch] in H.
  destruct (bool_decide (call_ok c)); [|done].
  destruct (dispatch o c (world_of l)) as [[[]|e] w']; [|done]. by injection H as <-.
Qed.

(** ** The acme-utils release, step by step *)

Definition votes (who : Z) (id : ProposalId) (aye : bool) : action :=
  Do (signed who) (vote_call id aye).
Definition proposes (who : Z) (binary : Hash32) : action :=
  Do (signed who) (release_call 0 (attestation binary) (sign (attestation binary))).
Definition blocks (n : nat) : list action := repeat NextBlock n.

(** The proposal ALICE makes at block 1, at a given stage of its life. *)
Definition acme_release (s : ProposalStatus) : Proposal (@AccountId Test) :=
  mkProposal 0 (ALICE : @AccountId Test) v1_2_3 (attestation (h xa1)) (h x42) BOND 1
    (1 + VOTING_PERIOD) s.

Definition acme_info : ProjectInfo := mkProjectInfo acme_utils acme_policy acme_slashing BOND.

Definition founded : list action := [Do Root acme_genesis].
(** ALICE has proposed a release at block 1. *)
Definition proposed : list action := founded ++ [proposes ALICE (h xa1)].
(** One vote short of both quorums, and then over them: enactment is due at block 11. *)
Definition contested : list action :=
  proposed ++ [votes BOB 0 true; votes CAROL 0 true; votes EVE 0 false].
Definition approved : list action := contested ++ [votes FOO_AUDIT 0 true].
Definition released : list action := approved ++ blocks 10.
Definition challenged : list action :=
  proposed ++ [Do (signed BOB) (submit_counter_attestation_call 0 (h xbb))].
(** The voting period of a proposal at block 1 is over at block 102. *)
Definition overdue : list action := contested ++ blocks 101.

Lemma founded_live : live (world_of founded).
Proof. apply world_of_live. vm_compute. reflexivity. Defined.
Lemma proposed_live : live (world_of proposed).
Proof. apply world_of_live. vm_compute. reflexivity. Defined.
Lemma contested_live : live (world_of contested).
Proof. apply world_of_live. vm_compute. reflexivity. Defined.
Lemma approved_live : live (world_of approved).
Proof. apply world_of_live. vm_compute. reflexivity. Defined.
Lemma released_live : live (world_of released).
Proof. apply world_of_live. vm_compute. reflexivity. Defined.
Lemma challenged_live : live (world_of challenged).
Proof. apply world_of_live. vm_compute. reflexivity. Defined.
Lemma overdue_live : live (world_of overdue).
Proof. apply world_of_live. vm_compute. reflexivity. Defined.
