(* ===== verification/Typing.v ===== *)
(** * Typing: every stored value fits its Rust type

    The model holds unsigned integers as [Z] and bounded vectors as lists. [well_typed] says of a
    world that each of its storage items holds a value of the type [lib.rs] declares for it:
    identifiers and indices are [u32], stakes, bonds and tallies are balances, block numbers are
    block numbers, fractions are at most one, names, versions, policies and pending lists respect
    their bounds. Every step of the chain preserves it, without any assumption on the identifiers
    left, so no operation of the pallet can overflow a stored value. *)
From stdpp Require Import prelude gmap vector.
From Stdlib Require Import Init.Byte.
From S2P Require Import Prelude Types Config Storage Pallet Chain Mock Scenarios Exec Effects.
From S2P Require Import Runs.
#[local] Open Scope Z_scope.

Section Typing.
Context {T : Config} {L : ConfigLaws T}.
Implicit Types (w : World) (p : Proposal AccountId) (id : ProposalId) (pid : ProjectId).

(** ** The types *)

Definition is_u32 (x : Z) : Prop := in_width u32_max x.
Definition is_balance (x : Z) : Prop := in_width balance_max x.
Definition is_block_number (x : Z) : Prop := in_width block_number_max x.

Definition stakeholder_typed (s : Stakeholder) : Prop := is_balance (sh_stake s).
Definition project_typed (i : ProjectInfo) : Prop :=
  (length (pi_name i) <= NameLimit)%nat /\ policy_ok (pi_policy i)
  /\ slashing_ok (pi_slashing i) /\ is_balance (pi_proposal_bond i).
Definition status_typed (s : ProposalStatus) : Prop :=
  match s with Approved n => is_block_number n | _ => True end.
Definition proposal_typed p : Prop :=
  is_u32 (p_project_id p) /\ (length (p_version p) <= VersionLimit)%nat /\ is_balance (p_bond p)
  /\ is_block_number (p_submitted_at p) /\ is_block_number (p_voting_ends p)
  /\ status_typed (p_status p).
Definition tally_typed (t : RoleTally) : Prop := is_balance (ayes t) /\ is_balance (nays t).
Definition entry_typed (e : ReleaseEntry) : Prop :=
  is_u32 (re_proposal_id e) /\ (length (re_version e) <= VersionLimit)%nat
  /\ is_block_number (re_enacted_at e).
Definition pending_typed (l : list ProposalId) : Prop :=
  (length l <= MaxEnactmentsPerBlock)%nat /\ Forall is_u32 l.

(** Keys of type [A] and values of type [B]. *)
Definition map_typed {K V} `{Countable K} (A : K -> Prop) (B : V -> Prop) (m : gmap K V) : Prop :=
  map_Forall (fun k v => A k /\ B v) m.

Definition any {A} (x : A) : Prop := True.
Definition pair_typed {A B} (P : A -> Prop) (Q : B -> Prop) (x : A * B) : Prop := P x.1 /\ Q x.2.

Record well_typed w : Prop := {
  wt_next_project : is_u32 (w_NextProjectId w);
  wt_next_proposal : is_u32 (w_NextProposalId w);
  wt_projects : map_typed is_u32 project_typed (w_Projects w);
  wt_stakeholders : map_typed (pair_typed is_u32 any) stakeholder_typed (w_Stakeholders w);
  wt_role_stake : map_typed (pair_typed is_u32 any) is_balance (w_RoleStake w);
  wt_proposals : map_typed is_u32 proposal_typed (w_Proposals w);
  wt_votes : map_typed (pair_typed is_u32 any) any (w_Votes w);
  wt_tallies : map_typed (pair_typed is_u32 any) tally_typed (w_Tallies w);
  wt_count : map_typed is_u32 is_u32 (w_ReleaseCount w);
  wt_log : map_typed (pair_typed is_u32 is_u32) entry_typed (w_ReleaseLog w);
  wt_counter : map_typed is_u32 any (w_CounterAttestations w);
  wt_pending : map_typed is_block_number pending_typed (w_PendingEnactments w);
  wt_block : is_block_number (w_block_number w);
  wt_currency : currency_ok (w_currency w);
}.

(** ** Reading and writing typed maps *)

Section Maps.
Context {K V : Type} `{Countable K} (A : K -> Prop) (B : V -> Prop).

Lemma map_typed_empty : map_typed A B ∅.
Proof. apply map_Forall_empty. Qed.

Lemma map_typed_insert k v m : A k -> B v -> map_typed A B m -> map_typed A B (<[k := v]> m).
Proof. intros Hk Hv. by apply map_Forall_insert_2. Qed.

Lemma map_typed_delete k m : map_typed A B m -> map_typed A B (delete k m).
Proof. apply map_Forall_delete. Qed.

Lemma map_typed_lookup k v m : map_typed A B m -> m !! k = Some v -> A k /\ B v.
Proof. intros Hm. apply Hm. Qed.

(** A [ValueQuery] read of a typed map with a typed default is typed. *)
Lemma map_typed_default d k m : B d -> map_typed A B m -> B (default d (m !! k)).
Proof. intros Hd Hm. destruct (m !! k) eqn:E; [by eapply Hm | done]. Qed.
End Maps.

Lemma u32_0 : is_u32 0.
Proof. by vm_compute. Qed.
Lemma balance_0 : is_balance 0.
Proof. pose proof balance_max_range. unfold is_balance, in_width. lia. Qed.
Lemma tally_typed_default : tally_typed RoleTally_default.
Proof. split; apply balance_0. Qed.
Lemma pending_typed_nil : pending_typed [].
Proof. split; [cbn; lia | constructor]. Qed.

Lemma u32_next x : is_u32 x -> is_u32 (saturating_add u32_max x 1).
Proof. unfold is_u32, in_width, saturating_add, u32_max. lia. Qed.
Lemma balance_add x y : is_balance x -> is_balance y -> is_balance (saturating_add balance_max x y).
Proof. unfold is_balance, in_width, saturating_add. lia. Qed.
Lemma balance_sub x y : is_balance x -> 0 <= y -> is_balance (saturating_sub x y).
Proof. unfold is_balance, in_width, saturating_sub. lia. Qed.
Lemma block_number_add x y :
  is_block_number x -> is_block_number y -> is_block_number (saturating_add block_number_max x y).
Proof. unfold is_block_number, in_width, saturating_add. lia. Qed.

Lemma retally_typed prev stake aye t :
  is_balance stake -> tally_typed t -> tally_typed (retally prev stake aye t).
Proof.
  intros Hs [Ha Hn]. assert (0 <= stake) by apply Hs.
  unfold retally. destruct prev as [[]|], aye; split; cbn; auto using balance_add, balance_sub.
Qed.

Lemma pending_typed_push l id :
  is_u32 id -> (length l < MaxEnactmentsPerBlock)%nat -> pending_typed l -> pending_typed (l ++ [id]).
Proof.
  intros Hid Hlen [_ Hl]. split; [rewrite length_app; cbn; lia|].
  apply Forall_app. by split; [|apply Forall_singleton].
Qed.

Lemma pending_typed_retain l id : pending_typed l -> pending_typed (retain_not id l).
Proof.
  intros [Hlen Hl]. unfold retain_not. split.
  - etrans; [apply length_filter | done].
  - apply Forall_forall. intros x [_ Hx]%list_elem_of_filter. by eapply Forall_forall in Hl.
Qed.

Lemma with_status_typed p s : status_typed s -> proposal_typed p -> proposal_typed (with_status p s).
Proof. intros Hs (? & ? & ? & ? & ? & _). by split_and!. Qed.
End Typing.

Create HintDb typing.
#[export] Hint Resolve map_typed_insert map_typed_delete map_typed_empty u32_0 balance_0
  tally_typed_default pending_typed_nil u32_next balance_add balance_sub block_number_add
  retally_typed pending_typed_push pending_typed_retain with_status_typed : typing.

Section Preservation.
Context {T : Config} {L : ConfigLaws T}.
Implicit Types (w : World) (p : Proposal AccountId) (id : ProposalId) (pid : ProjectId).

Lemma typed_project w pid info :
  well_typed w -> w_Projects w !! pid = Some info -> is_u32 pid /\ project_typed info.
Proof. intros Hw. apply (wt_projects _ Hw). Qed.
Lemma typed_stakeholder w k sh :
  well_typed w -> w_Stakeholders w !! k = Some sh -> is_u32 k.1 /\ is_balance (sh_stake sh).
Proof. intros Hw Hk. by destruct (wt_stakeholders _ Hw _ _ Hk) as [[? _] ?]. Qed.
Lemma typed_proposal w id p :
  well_typed w -> w_Proposals w !! id = Some p -> is_u32 id /\ proposal_typed p.
Proof. intros Hw. apply (wt_proposals _ Hw). Qed.
Lemma typed_role_stake w pid r : well_typed w -> is_balance (role_stake pid r w).
Proof. intros Hw. exact (map_typed_default _ _ _ _ _ balance_0 (wt_role_stake _ Hw)). Qed.
Lemma typed_tally w id r : well_typed w -> tally_typed (tally id r w).
Proof. intros Hw. exact (map_typed_default _ _ _ _ _ tally_typed_default (wt_tallies _ Hw)). Qed.
Lemma typed_pending w n : well_typed w -> pending_typed (pending n w).
Proof. intros Hw. exact (map_typed_default _ _ _ _ _ pending_typed_nil (wt_pending _ Hw)). Qed.
Lemma typed_count w pid : well_typed w -> is_u32 (release_count pid w).
Proof. intros Hw. exact (map_typed_default _ _ _ _ _ u32_0 (wt_count _ Hw)). Qed.

(** Close a typing goal about an updated world: split it into its items, most of which are the old
    ones. *)
Ltac typing :=
  lazymatch goal with Hw : well_typed _ |- _ => pose proof Hw as []; split; cbn; try done end;
  try (apply map_typed_insert; [try done; try (by split) | try exact I | done]).

Lemma typed_emit w l : well_typed w -> well_typed (emit l w).
Proof. by intros []. Qed.

Lemma typed_put w id p : is_u32 id -> proposal_typed p -> well_typed w -> well_typed (put_proposal id p w).
Proof. intros Hid Hp Hw. by typing. Qed.

Lemma typed_set_currency w c : currency_ok c -> well_typed w -> well_typed (set_currency c w).
Proof. intros Hc Hw. by typing. Qed.

Lemma typed_set_pending w n l :
  is_block_number n -> pending_typed l -> well_typed w ->
  well_typed (set_PendingEnactments (<[n := l]> (w_PendingEnactments w)) w).
Proof. intros Hn Hl Hw. by typing. Qed.

(** ** Votes *)

Lemma typed_record_vote w id who sh aye :
  is_u32 id -> is_balance (sh_stake sh) -> well_typed w -> well_typed (record_vote id who sh aye w).
Proof.
  intros Hid Hs Hw. pose proof (typed_tally w id (sh_role sh) Hw). typing.
  by apply retally_typed.
Qed.

Lemma typed_do_vote w w' id pid info who sh aye now p :
  project_typed info -> is_balance (sh_stake sh) -> is_block_number now ->
  w_Proposals w !! id = Some p -> do_vote id pid info who sh aye now w = (Ok tt, w') ->
  well_typed w -> well_typed w'.
Proof.
  intros (_ & Hpol & _) Hs Hnow Hp H Hw. destruct (typed_proposal _ _ _ Hw Hp) as [Hid Ht].
  pose proof (typed_record_vote w id who sh aye Hid Hs Hw) as Hw1.
  destruct (do_vote_Ok _ _ _ _ _ _ _ _ _ _ Hp H)
    as [(-> & _)|[(n & Hn & _ & _ & Hlen & ->)|(n & Hst & _ & ->)]]; [done | |].
  - assert (is_block_number n) by (subst n; apply block_number_add; [done | apply Hpol]).
    apply typed_emit, typed_put; [done | by apply with_status_typed |].
    apply typed_set_pending; [done | | done]. apply pending_typed_push; [done | done |].
    by apply typed_pending.
  - assert (is_block_number n) by (destruct Ht as (_ & _ & _ & _ & _ & Ht); by rewrite Hst in Ht).
    apply typed_emit, typed_put; [done | by apply with_status_typed |].
    apply typed_set_pending; [done | | done]. apply pending_typed_retain. by apply typed_pending.
Qed.

(** ** Blocks *)

Lemma typed_release w reason p res c :
  release reason (p_proposer p) (p_bond p) BestEffort (w_currency w) = (res, c) ->
  proposal_typed p -> well_typed w -> currency_ok c.
Proof.
  intros Hr (_ & _ & [Hb _] & _) Hw. by destruct (release_spec _ _ _ _ _ _ (wt_currency _ Hw) Hb Hr).
Qed.

Lemma typed_enacted w id n : is_block_number n -> well_typed w -> well_typed (enacted id n w).
Proof.
  intros Hn Hw. unfold enacted. destruct (w_Proposals w !! id) as [p|] eqn:Hp; [|done].
  destruct (typed_proposal _ _ _ Hw Hp) as [Hid Ht]. destruct (p_status p) eqn:Hst; try done.
  destruct (w_Projects w !! p_project_id p) as [info|]; [|done]. case_match.
  - apply typed_emit, typed_put; [done | by apply with_status_typed |].
    assert (Hc : currency_ok (bond_released p (w_currency w))).
    { unfold bond_released.
      destruct (release _ _ _ _ (w_currency w)) as [res c] eqn:E. by eapply typed_release. }
    pose proof (typed_count w (p_project_id p) Hw) as Hk. destruct Ht as (Hpid & Hv & _).
    typing; [by apply u32_next | by split_and!].
  - apply typed_emit, typed_put; [done | by apply with_status_typed | done].
Qed.

Lemma typed_enacted_all w l n : is_block_number n -> well_typed w -> well_typed (enacted_all l n w).
Proof.
  intros Hn. revert w. induction l as [|id l IH]; intros w Hw; [done|].
  by apply (IH (enacted id n w)), typed_enacted.
Qed.

Lemma typed_blocked w : w_block_number w < block_number_max -> well_typed w -> well_typed (blocked w).
Proof.
  intros Hlt Hw. pose proof (wt_block _ Hw) as Hb.
  assert (is_block_number (w_block_number w + 1)) by (unfold is_block_number, in_width in *; lia).
  apply typed_enacted_all; [done|]. typing. by apply map_typed_delete.
Qed.

(** ** Calls *)

Lemma typed_project_genesis o name l policy slashing bond w w' :
  call_ok (project_genesis_call name l policy slashing bond) ->
  project_genesis o name l policy slashing bond w = (Ok tt, w') -> well_typed w -> well_typed w'.
Proof.
  intros (Hname & _ & Hl & Hpol & Hsl & Hb) H Hw.
  apply project_genesis_Ok in H as (_ & _ & w1 & H & _ & ->).
  pose proof (wt_next_project _ Hw) as Hid.
  apply (for_each_Ok _ well_typed) in H as Hw1; [|clear H|done].
  - apply typed_emit. typing; [by apply u32_next | by split_and!].
  - intros s w2 w3 Hs Hw2 H. apply register_stakeholder_Ok in H as (_ & c & Hh & ->).
    rewrite Forall_forall in Hl. pose proof (Hl _ Hs) as Hst.
    destruct (hold_spec _ _ _ _ _ (wt_currency _ Hw2) (proj1 Hst) Hh) as [Hc _].
    pose proof (typed_role_stake w2 (w_NextProjectId w) (si_role s) Hw2).
    apply typed_emit. clear Hw. typing; [exact Hst | by apply balance_add].
Qed.

Lemma typed_new_release o pid version att cid sig w w' :
  call_ok (new_release_call pid version att cid sig) ->
  new_release o pid version att cid sig w = (Ok tt, w') -> well_typed w -> well_typed w'.
Proof.
  intros [Hpid Hv] H Hw.
  apply new_release_Ok in H as (who & info & sh & bs & c & _ & Hinfo & Hsh & _ & _ & _ & _ & Hh & H).
  destruct (typed_project _ _ _ Hw Hinfo) as [_ Hi]. destruct (typed_stakeholder _ _ _ Hw Hsh) as [_ Hs].
  pose proof Hi as (_ & Hpol & _ & Hb). pose proof (wt_block _ Hw) as Hn.
  destruct (hold_spec _ _ _ _ _ (wt_currency _ Hw) (proj1 Hb) Hh) as [Hc _].
  refine (typed_do_vote _ _ _ _ _ _ _ _ _ _ Hi Hs Hn _ H _); [apply lookup_insert_eq|].
  pose proof (wt_next_proposal _ Hw) as Hid. apply typed_emit, typed_put; [done | |].
  - split_and!; try done. apply block_number_add; [done | apply Hpol].
  - typing. by apply u32_next.
Qed.

Lemma typed_submit_counter_attestation o id rebuilt w w' :
  submit_counter_attestation o id rebuilt w = (Ok tt, w') -> well_typed w -> well_typed w'.
Proof.
  intros H Hw. apply submit_counter_attestation_Ok in H
    as (who & p & info & sh & x & c1 & y & c2 & _ & Hp & Hinfo & _ & _ & _ & _ & Hsh & Hb & Hr & ->).
  destruct (typed_project _ _ _ Hw Hinfo) as [_ (_ & _ & (Hsn & _) & _)].
  destruct (typed_stakeholder _ _ _ Hw Hsh) as [Hpid Hs].
  destruct (typed_proposal _ _ _ Hw Hp) as [Hid Ht]. pose proof (wt_currency _ Hw) as Hc.
  assert (Ha : 0 <= mul_floor (sigma_neg (pi_slashing info)) (sh_stake sh)).
  { rewrite mul_floor_spec by (done || apply Hs). destruct Hsn, Hs. unfold PERBILL_ACCURACY.
    apply Z.div_pos; nia. }
  destruct (burn_held_spec _ _ _ _ _ _ Hc Ha Hb) as (Hc1 & _ & Hx & _).
  pose proof (balance_on_hold_nonneg (hold_reason_into Stake) (builder (p_attestation p)) _ Hc).
  assert (Hx0 : 0 <= x) by lia.
  assert (Hc2 : currency_ok c2).
  { destruct Ht as (_ & _ & [Hbd _] & _). by destruct (release_spec _ _ _ _ _ _ Hc1 Hbd Hr). }
  assert (Hu : well_typed (unscheduled id p w)).
  { unfold unscheduled. destruct (p_status p) eqn:E; try done.
    apply typed_set_pending; [|by apply pending_typed_retain, typed_pending | done].
    destruct Ht as (_ & _ & _ & _ & _ & Ht). by rewrite E in Ht. }
  clear Hw. pose proof (typed_role_stake _ (p_project_id p) BuildService Hu).
  do 3 apply typed_emit.
  assert (Hw1 : well_typed (slashed_stake (p_project_id p) (builder (p_attestation p)) sh x c1
    (unscheduled id p w))).
  { typing; by apply balance_sub. }
  clear Hu. assert (Hw2 : well_typed (put_proposal id (with_status p Rejected) (set_currency c2
    (slashed_stake (p_project_id p) (builder (p_attestation p)) sh x c1 (unscheduled id p w))))).
  { apply typed_put; [done | by apply with_status_typed | by apply typed_set_currency]. }
  clear Hw1. by typing.
Qed.

Lemma typed_close_expired o id w w' :
  close_expired o id w = (Ok tt, w') -> well_typed w -> well_typed w'.
Proof.
  intros H Hw. apply close_expired_Ok in H as (who & p & y & c & _ & Hp & _ & _ & Hr & ->).
  destruct (typed_proposal _ _ _ Hw Hp) as [Hid Ht].
  apply typed_emit, typed_put; [done | by apply with_status_typed |].
  apply typed_set_currency; [by eapply typed_release | done].
Qed.

Lemma typed_call o c w w' :
  call_ok c -> call_body o c w = (Ok tt, w') -> well_typed w -> well_typed w'.
Proof.
  intros Hc. destruct c; cbn [call_body].
  - by apply typed_project_genesis.
  - by apply typed_new_release.
  - intros H Hw. apply vote_Ok in H as (who & p & info & sh & _ & Hp & _ & _ & Hinfo & Hsh & H).
    eapply typed_do_vote; [by eapply typed_project | by eapply typed_stakeholder | by apply wt_block
      | done | done | done].
  - apply typed_submit_counter_attestation.
  - apply typed_close_expired.
Qed.

Context {S : StorageLayer T}.

Lemma typed_step w w' : step w w' -> well_typed w -> well_typed w'.
Proof.
  intros Hstep Hw. destruct Hstep as [w weight w' Hlt H|w o c [[]|e] w' Hc H|w evs c Hc Hh].
  - rewrite next_block_run in H. injection H as _ <-. by apply typed_blocked.
  - apply dispatch_Ok in H. by eapply typed_call.
  - by apply dispatch_Err in H as ->.
  - by typing.
Qed.

Lemma typed_initial w : initial w -> well_typed w.
Proof.
  intros (E1 & E2 & E3 & E4 & E5 & E6 & E7 & E8 & E9 & E10 & E11 & E12 & Hb & Hc & _).
  split; rewrite ?E1, ?E2, ?E3, ?E4, ?E5, ?E6, ?E7, ?E8, ?E9, ?E10, ?E11, ?E12;
    auto with typing.
Qed.

Lemma reachable_typed w : reachable w -> well_typed w.
Proof.
  intros (w0 & H0 & Hs). pose proof (typed_initial _ H0) as Hw. clear H0.
  induction Hs as [w|w1 w2 w3 H12 _ IH]; [done|]. by apply IH, (typed_step w1).
Qed.

(** C22: the storage is always well typed. In every reachable world, whatever the calls and even after
    the identifiers have run out, every storage item holds a value of its Rust type: [u32]
    identifiers, indices and counts, stakes, bonds and both sides of every tally within [Balance],
    scheduled blocks within [BlockNumber], fractions of at most one, and bounded vectors within
    their bounds. *)
Theorem reachable_well_typed w : reachable w -> well_typed w.
Proof. apply reachable_typed. Qed.
End Preservation.

Lemma reachable_well_typed_witness :
  tally_typed (tally 0 CoreDeveloper (world_of approved)) /\ pending_typed (pending 11 (world_of approved)).
Proof.
  pose proof (reachable_well_typed (world_of approved) (proj1 approved_live)) as Hw.
  split; [by apply typed_tally | by apply typed_pending].
Defined.
