(* ===== verification/Replay.v ===== *)
(** * Replay: what the events tell

    The tools that follow the chain (explorers, registries of releases) see the pallet through the
    events it deposits. [Index] is the state such a follower keeps, and [apply_event] its
    reaction to each event of [lib.rs]; [view] is the same information read from storage. Whatever
    the pallet does, the events it deposits on the way, replayed over the view of the old storage,
    give the view of the new one: registry, role totals, the announced fields and the status of
    proposals, votes, tallies, counter-attestations and the Official Release Log are functions of the
    events. Not everything is: policies, bonds and the other fields of an attestation are in no event. *)
From stdpp Require Import prelude gmap vector.
From Stdlib Require Import Init.Byte.
From S2P Require Import Prelude Types Config Storage Pallet Chain Mock Scenarios Exec Effects.
From S2P Require Import Runs.
#[local] Open Scope Z_scope.

Section Replay.
Context {T : Config}.
Implicit Types (w : World) (p : Proposal AccountId) (id : ProposalId) (pid : ProjectId).

(** ** The follower *)

(** What the events say of a proposal. *)
Record Release := mkRelease {
  rv_project : ProjectId;
  rv_proposer : AccountId;
  rv_version : list byte;
  rv_source_commit : Hash32;
  rv_output_binary : Hash32;
  rv_attestation_cid : Hash32;
  rv_voting_ends : Z;
  rv_status : ProposalStatus;
}.

Record Index := mkIndex {
  ix_projects : gmap ProjectId (list byte);
  ix_next_project : ProjectId;
  ix_stakeholders : gmap (ProjectId * AccountId) Stakeholder;
  ix_role_stake : gmap (ProjectId * Role) Z;
  ix_releases : gmap ProposalId Release;
  ix_next_proposal : ProposalId;
  ix_votes : gmap (ProposalId * AccountId) bool;
  ix_tallies : gmap (ProposalId * Role) RoleTally;
  ix_count : gmap ProjectId Z;
  ix_log : gmap (ProjectId * Z) ReleaseEntry;
  ix_counter : gmap ProposalId (CounterAttestation AccountId);
}.

Definition empty_index : Index := mkIndex ∅ 0 ∅ ∅ ∅ 0 ∅ ∅ ∅ ∅ ∅.

Definition set_release_status (s : ProposalStatus) (r : Release) : Release :=
  mkRelease (rv_project r) (rv_proposer r) (rv_version r) (rv_source_commit r)
    (rv_output_binary r) (rv_attestation_cid r) (rv_voting_ends r) s.

Definition with_releases (f : gmap ProposalId Release -> gmap ProposalId Release) (x : Index) : Index :=
  mkIndex (ix_projects x) (ix_next_project x) (ix_stakeholders x) (ix_role_stake x)
    (f (ix_releases x)) (ix_next_proposal x) (ix_votes x) (ix_tallies x) (ix_count x) (ix_log x)
    (ix_counter x).

Definition with_registry (f : gmap (ProjectId * AccountId) Stakeholder -> gmap (ProjectId * AccountId) Stakeholder)
    (g : gmap (ProjectId * Role) Z -> gmap (ProjectId * Role) Z) (x : Index) : Index :=
  mkIndex (ix_projects x) (ix_next_project x) (f (ix_stakeholders x)) (g (ix_role_stake x))
    (ix_releases x) (ix_next_proposal x) (ix_votes x) (ix_tallies x) (ix_count x) (ix_log x)
    (ix_counter x).

(** The reaction to one event of block [now]. *)
Definition apply_event (now : Z) (x : Index) (e : Event AccountId) : Index :=
  match e with
  | ProjectCreated pid name =>
      mkIndex (<[pid := name]> (ix_projects x)) (saturating_add u32_max pid 1) (ix_stakeholders x)
        (ix_role_stake x) (ix_releases x) (ix_next_proposal x) (ix_votes x) (ix_tallies x)
        (ix_count x) (ix_log x) (ix_counter x)
  | StakeholderRegistered pid a r stake =>
      with_registry (<[(pid, a) := mkStakeholder r stake]>)
        (fun m => <[(pid, r) := saturating_add balance_max (default 0 (m !! (pid, r))) stake]> m) x
  | ReleaseProposed id pid who version source output cid ends =>
      mkIndex (ix_projects x) (ix_next_project x) (ix_stakeholders x) (ix_role_stake x)
        (<[id := mkRelease pid who version source output cid ends Voting]> (ix_releases x))
        (saturating_add u32_max id 1) (ix_votes x) (ix_tallies x) (ix_count x) (ix_log x)
        (ix_counter x)
  | Voted id who r aye weight =>
      mkIndex (ix_projects x) (ix_next_project x) (ix_stakeholders x) (ix_role_stake x)
        (ix_releases x) (ix_next_proposal x) (<[(id, who) := aye]> (ix_votes x))
        (<[(id, r) := retally (ix_votes x !! (id, who)) weight aye
             (default RoleTally_default (ix_tallies x !! (id, r)))]> (ix_tallies x))
        (ix_count x) (ix_log x) (ix_counter x)
  | ProposalApproved id n => with_releases (alter (set_release_status (Approved n)) id) x
  | ProposalApprovalRevoked id => with_releases (alter (set_release_status Voting) id) x
  | ReleaseEnacted pid id index version output =>
      match ix_releases x !! id with
      | Some r =>
          mkIndex (ix_projects x) (ix_next_project x) (ix_stakeholders x) (ix_role_stake x)
            (<[id := set_release_status Enacted r]> (ix_releases x)) (ix_next_proposal x)
            (ix_votes x) (ix_tallies x) (<[pid := saturating_add u32_max index 1]> (ix_count x))
            (<[(pid, index) := mkReleaseEntry id version (rv_source_commit r) output
                 (rv_attestation_cid r) now]> (ix_log x)) (ix_counter x)
      | None => x
      end
  | CounterAttestationAccepted id who attested rebuilt =>
      mkIndex (ix_projects x) (ix_next_project x) (ix_stakeholders x) (ix_role_stake x)
        (ix_releases x) (ix_next_proposal x) (ix_votes x) (ix_tallies x) (ix_count x) (ix_log x)
        (<[id := mkCounterAttestation who attested rebuilt]> (ix_counter x))
  | BuildServiceSlashed pid a amount remaining =>
      with_registry (alter (fun sh => mkStakeholder (sh_role sh) remaining) (pid, a))
        (fun m => <[(pid, BuildService) :=
           saturating_sub (default 0 (m !! (pid, BuildService))) amount]> m) x
  | ProposalRejected id => with_releases (alter (set_release_status Rejected) id) x
  | ProposalExpired id => with_releases (alter (set_release_status Expired) id) x
  end.

Definition replay_block (now : Z) (l : list (Event AccountId)) (x : Index) : Index :=
  foldl (apply_event now) x l.

(** A history: events with the block they were deposited in, oldest first. *)
Definition replay (l : list (Z * Event AccountId)) (x : Index) : Index :=
  foldl (fun x ne => apply_event ne.1 x ne.2) x l.

(** ** The same information in storage *)

Definition release_of p : Release :=
  mkRelease (p_project_id p) (p_proposer p) (p_version p) (source_commit_hash (p_attestation p))
    (output_binary_hash (p_attestation p)) (p_attestation_cid p) (p_voting_ends p) (p_status p).

Definition view w : Index :=
  mkIndex (pi_name <$> w_Projects w) (w_NextProjectId w) (w_Stakeholders w) (w_RoleStake w)
    (release_of <$> w_Proposals w) (w_NextProposalId w) (w_Votes w) (w_Tallies w)
    (w_ReleaseCount w) (w_ReleaseLog w) (w_CounterAttestations w).

Lemma release_of_status p s : release_of (with_status p s) = set_release_status s (release_of p).
Proof. done. Qed.

(** Changing the status of a stored proposal is altering its release. *)
Lemma view_status w id p s :
  w_Proposals w !! id = Some p ->
  release_of <$> <[id := with_status p s]> (w_Proposals w)
  = alter (set_release_status s) id (release_of <$> w_Proposals w).
Proof.
  intros Hp. rewrite fmap_insert, release_of_status.
  rewrite (alter_insert_eq _ _ _ (release_of p)); [done|]. by rewrite lookup_fmap, Hp.
Qed.

(** ** Steps that deposit what they do *)

(** From [w] to [w'] within a block, the pallet deposits [l] and [l] tells the change. *)
Definition told (l : list (Event AccountId)) w w' : Prop :=
  w_block_number w' = w_block_number w /\ w_events w' = w_events w ++ l
  /\ view w' = replay_block (w_block_number w) l (view w).

Lemma told_nil w w' :
  w_block_number w' = w_block_number w -> w_events w' = w_events w -> view w' = view w -> told [] w w'.
Proof. intros H1 H2 H3. split_and!; [done | by rewrite app_nil_r | done]. Qed.

Lemma told_app l1 l2 w1 w2 w3 : told l1 w1 w2 -> told l2 w2 w3 -> told (l1 ++ l2) w1 w3.
Proof.
  intros (E1 & E2 & E3) (F1 & F2 & F3). split_and!.
  - by rewrite F1.
  - by rewrite F2, E2, app_assoc.
  - unfold replay_block. rewrite foldl_app. by rewrite F3, E1, E3.
Qed.

(** One event for one change. *)
Lemma told_emit e w w1 :
  w_block_number w1 = w_block_number w -> w_events w1 = w_events w ->
  view w1 = apply_event (w_block_number w) (view w) e -> told [e] w (emit [e] w1).
Proof. intros H1 H2 H3. split_and!; [done | by cbn; rewrite H2 | exact H3]. Qed.

Lemma told_record_vote id who sh aye w :
  told [Voted id who (sh_role sh) aye (sh_stake sh)] w (record_vote id who sh aye w).
Proof. by apply told_emit. Qed.

(** A change of status, with the event that announces it. *)
Lemma told_status e s id p w w1 :
  w_Proposals w !! id = Some p ->
  w_block_number w1 = w_block_number w -> w_events w1 = w_events w -> view w1 = view w ->
  (forall x, apply_event (w_block_number w) x e = with_releases (alter (set_release_status s) id) x) ->
  w_Proposals w1 = w_Proposals w ->
  told [e] w (emit [e] (put_proposal id (with_status p s) w1)).
Proof.
  intros Hp Hb He Hv Ha Hps. apply told_emit; [done | done |]. rewrite Ha, <- Hv.
  unfold view, with_releases. cbn. rewrite Hps. by rewrite (view_status w id p s Hp).
Qed.

Lemma told_do_vote id pid info who sh aye now p w w' :
  w_Proposals w !! id = Some p -> do_vote id pid info who sh aye now w = (Ok tt, w') ->
  exists l, told l w w'.
Proof.
  intros Hp H. pose proof (told_record_vote id who sh aye w) as H1.
  destruct (do_vote_Ok _ _ _ _ _ _ _ _ _ _ Hp H)
    as [(-> & _)|[(n & _ & _ & _ & _ & ->)|(n & _ & _ & ->)]]; [by eexists| |].
  - eexists. eapply told_app; [exact H1|].
    by apply (told_status (ProposalApproved id n) (Approved n)).
  - eexists. eapply told_app; [exact H1|].
    by apply (told_status (ProposalApprovalRevoked id) Voting).
Qed.

Lemma told_enacted id w : exists l, told l w (enacted id (w_block_number w) w).
Proof.
  unfold enacted. destruct (w_Proposals w !! id) as [p|] eqn:Hp; [|by exists []; apply told_nil].
  destruct (p_status p); try (by exists []; apply told_nil); [].
  destruct (w_Projects w !! p_project_id p) as [info|]; [|by exists []; apply told_nil].
  case_match; [|by eexists; apply (told_status (ProposalApprovalRevoked id) Voting)].
  eexists. apply told_emit; [done | done |]. cbn -[release_count].
  rewrite lookup_fmap, Hp. cbn -[release_count]. unfold view. cbn -[release_count].
  by rewrite fmap_insert.
Qed.

Lemma told_enacted_all ids w : exists l, told l w (enacted_all ids (w_block_number w) w).
Proof.
  revert w. induction ids as [|id ids IH]; intros w; [by exists []; apply told_nil|].
  destruct (told_enacted id w) as [l1 H1], (IH (enacted id (w_block_number w) w)) as [l2 H2].
  rewrite (proj1 H1) in H2. exists (l1 ++ l2). by eapply told_app.
Qed.

Lemma told_registrations pid l w w' :
  for_each (register_stakeholder pid) l w = (Ok tt, w') -> exists evs, told evs w w'.
Proof.
  apply (for_each_Ok _ (fun w' => exists evs, told evs w w')); [|by exists []; apply told_nil].
  intros s w1 w2 _ [evs H1] H. apply register_stakeholder_Ok in H as (_ & c & _ & ->).
  eexists. eapply told_app; [exact H1|]. by apply told_emit.
Qed.

Lemma told_call o c w w' : call_body o c w = (Ok tt, w') -> exists l, told l w w'.
Proof.
  destruct c; cbn [call_body]; intros H.
  - apply project_genesis_Ok in H as (_ & _ & w1 & H & _ & ->).
    destruct (told_registrations _ _ _ _ H) as [l Hl]. eexists. eapply told_app; [exact Hl|].
    apply told_emit; [done | done |]. unfold view. cbn. by rewrite fmap_insert.
  - apply new_release_Ok in H as (who & info & sh & bs & c & _ & _ & _ & _ & _ & _ & _ & _ & H).
    apply told_do_vote with (p := new_proposal info project_id who version attestation
      attestation_cid (w_block_number w)) in H as [l Hl]; [|apply lookup_insert_eq].
    eexists. eapply told_app; [|exact Hl]. apply told_emit; [done | done |].
    unfold view. cbn. by rewrite fmap_insert.
  - apply vote_Ok in H as (who & p & info & sh & _ & Hp & _ & _ & _ & _ & H).
    by eapply told_do_vote.
  - apply submit_counter_attestation_Ok in H as (who & p & info & sh & x & c1 & y & c2 & _ & Hp
      & _ & _ & _ & _ & _ & Hsh & _ & _ & ->).
    destruct (unscheduled_frame proposal_id p w) as [Pend ->].
    set (a := builder (p_attestation p)) in *.
    exists [CounterAttestationAccepted proposal_id who (output_binary_hash (p_attestation p))
              rebuilt_binary_hash;
            BuildServiceSlashed (p_project_id p) a x (saturating_sub (sh_stake sh) x);
            ProposalRejected proposal_id].
    split_and!; [done | cbn; by rewrite <- !app_assoc |].
    unfold view. cbn. unfold with_registry, with_releases. cbn.
    rewrite (view_status w _ p Rejected Hp).
    rewrite (alter_insert_eq _ _ _ sh Hsh). reflexivity.
  - apply close_expired_Ok in H as (who & p & y & c & _ & Hp & _ & _ & _ & ->).
    eexists. by apply (told_status (ProposalExpired proposal_id) Expired).
Qed.

Lemma told_block w :
  exists l, w_events (blocked w) = w_events w ++ l
    /\ view (blocked w) = replay_block (w_block_number (blocked w)) l (view w).
Proof.
  destruct (told_enacted_all (pending (w_block_number w + 1) w) (opened w)) as (l & H1 & H2 & H3).
  exists l. change (blocked w) with (enacted_all (pending (w_block_number w + 1) w)
    (w_block_number (opened w)) (opened w)). by rewrite H1.
Qed.

Context {L : ConfigLaws T} {S : StorageLayer T}.

(** ** Histories *)

(** The events of a block are tagged with the number of that block. *)
Definition at_block (n : Z) (l : list (Event AccountId)) : list (Z * Event AccountId) :=
  (fun e => (n, e)) <$> l.

(** A run of the chain with the events the pallet deposits along it; what the rest of the runtime
    does to the events is not part of the history. *)
Inductive history : World -> list (Z * Event AccountId) -> World -> Prop :=
| history_start w : history w [] w
| history_block w l w1 weight w2 evs :
    history w l w1 -> w_block_number w1 < block_number_max ->
    next_block w1 = (Ok weight, w2) -> w_events w2 = w_events w1 ++ evs ->
    history w (l ++ at_block (w_block_number w2) evs) w2
| history_call w l w1 o c res w2 evs :
    history w l w1 -> call_ok c ->
    dispatch o c w1 = (res, w2) -> w_events w2 = w_events w1 ++ evs ->
    history w (l ++ at_block (w_block_number w2) evs) w2
| history_runtime w l w1 evs c :
    history w l w1 -> currency_ok c ->
    (forall reason a, held reason a c = held reason a (w_currency w1)) ->
    history w l (set_currency c (set_events evs w1)).

Lemma replay_app l1 l2 x : replay (l1 ++ l2) x = replay l2 (replay l1 x).
Proof. apply foldl_app. Qed.

Lemma replay_at_block n l x : replay (at_block n l) x = replay_block n l x.
Proof. revert x. induction l as [|e l IH]; intros x; [done | apply IH]. Qed.

(** What a call deposits, whether it succeeds or not. *)
Lemma told_dispatch o c w res w' : dispatch o c w = (res, w') -> exists l, told l w w'.
Proof.
  destruct res as [[]|e]; intros H.
  - apply dispatch_Ok in H. by eapply told_call.
  - apply dispatch_Err in H as ->. exists []. by apply told_nil.
Qed.

Lemma history_exists w w' : rtc step w w' -> exists l, history w l w'.
Proof.
  apply (rtc_ind_r (R := step) (fun w' => exists l, history w l w') w); [by exists []; constructor|].
  intros w1 w2 _ Hs [l Hl]. destruct Hs as [w1 weight w2 Hn H|w1 o c res w2 Hc H|w1 evs c Hc Hh].
  - destruct (told_block w1) as (evs & He & _).
    assert (w2 = blocked w1) as -> by (rewrite next_block_run in H; congruence).
    eexists. eapply history_block; [exact Hl | done | exact H | exact He].
  - destruct (told_dispatch _ _ _ _ _ H) as (evs & _ & He & _).
    eexists. eapply history_call; [exact Hl | done | exact H | exact He].
  - exists l. by apply history_runtime.
Qed.

Lemma history_view w l w' : history w l w' -> view w' = replay l (view w).
Proof.
  intros Hh. induction Hh as [w|w l w1 weight w2 evs _ IH _ H He|w l w1 o c res w2 evs _ IH _ H He|
    w l w1 evs c _ IH _ _]; [done | | | exact IH]; rewrite replay_app, <- IH, replay_at_block.
  - destruct (told_block w1) as (evs' & He' & Hv).
    assert (w2 = blocked w1) as -> by (rewrite next_block_run in H; congruence).
    rewrite He' in He. apply (inj _) in He as ->. exact Hv.
  - destruct (told_dispatch _ _ _ _ _ H) as (evs' & Hb & He' & Hv).
    rewrite He' in He. apply (inj _) in He as ->. by rewrite Hb.
Qed.

Lemma view_initial w : initial w -> view w = empty_index.
Proof.
  intros (E1 & E2 & E3 & E4 & E5 & E6 & E7 & E8 & E9 & E10 & E11 & _). unfold view, empty_index.
  by rewrite E1, E2, E3, E4, E5, E6, E7, E8, E9, E10, E11, !fmap_empty.
Qed.

(** C20: the events determine what they announce. Every run of the chain has a history, and replaying the
    events of the history from nothing gives exactly the [view] of the storage at its end: the registry
    with roles and stakes, the role totals, the votes, tallies, counter-attestations, release counts and
    release logs and both identifier counters in full; of each project the name; of each proposal its
    project, proposer, version, commit hash, binary hash, attestation identifier, end of voting and
    status. (No event carries the policy of a project, or the bond, builder, submission block, tree and
    environment hashes of a proposal.) *)
Theorem events_determine_state w0 w :
  initial w0 ->
  (rtc step w0 w -> exists l, history w0 l w)
  /\ (forall l, history w0 l w -> view w = replay l empty_index).
Proof.
  intros H0. split; [apply history_exists|]. intros l Hl.
  by rewrite (history_view _ _ _ Hl), view_initial.
Qed.
End Replay.

(** The life of the released proposal, as an outsider reads it. *)
Lemma events_determine_state_witness :
  exists l, history new_test_ext l (world_of released)
    /\ ix_log (replay l empty_index) = w_ReleaseLog (world_of released)
    /\ size (w_ReleaseLog (world_of released)) = 1%nat.
Proof.
  destruct (events_determine_state new_test_ext (world_of released) new_test_ext_initial)
    as [Hrun Hview].
  destruct Hrun as [l Hl]; [apply (world_of_run []); vm_compute; reflexivity|].
  exists l. split_and!; [exact Hl | by rewrite <- (Hview l Hl) | vm_compute; reflexivity].
Defined.
