(* ===== verification/Quorum.v ===== *)
(** * Eq. 1: the quorum test

    [accepted] is the acceptance rule of the paper (Eq. 1), in rational numbers over the registry
    and the recorded votes. [meets_quorums], which the code computes from the stored role totals and
    tallies in [u128] arithmetic, decides it; the two part ways where the multiplication saturates. *)
From stdpp Require Import prelude gmap vector.
From Stdlib Require Import Init.Byte QArith Lqa.
From S2P Require Import Prelude Types Config Storage Pallet Chain Mock Scenarios Exec Effects.
From S2P Require Import Registry Ballots Schedule Log Invariants Runs.
#[local] Open Scope Z_scope.

Section Quorum.
Context {T : Config} {L : ConfigLaws T}.
Implicit Types (w : World) (id : ProposalId) (pid : ProjectId).

(** The share of the stake of role [r] whose holders voted aye. *)
Definition aye_share w id pid (r : Role) : Q :=
  (inject_Z (voted_stake true id pid r (w_Stakeholders w) (w_Votes w))
    / inject_Z (total_stake pid r (w_Stakeholders w)))%Q.

Definition tau (rq : RoleQuorum) : Q := (rq_quorum rq # 1000000000)%Q.

(** Eq. 1: every required role has its quorum of aye stake. *)
Definition accepted w id pid (info : ProjectInfo) : Prop :=
  Forall (fun rq => tau rq <= aye_share w id pid (rq_role rq))%Q (required_roles (pi_policy info)).

(** No required role is the one whose stakes can be slashed. *)
Definition slashable_excluded (info : ProjectInfo) : Prop :=
  Forall (fun rq => rq_role rq <> BuildService) (required_roles (pi_policy info)).

Lemma quorum_met_exact a t q :
  0 < t -> 0 <= a -> 0 <= q -> a * PERBILL_ACCURACY <= u128_max -> q * t <= u128_max ->
  quorum_met a t q = true <-> q * t <= a * PERBILL_ACCURACY.
Proof.
  intros Ht Ha Hq H1 H2. unfold quorum_met. destruct (Z.eqb_spec t 0) as [|_]; [lia|].
  rewrite !saturating_mul_exact by done. apply Z.leb_le.
Qed.

Lemma share_le a t q :
  0 < t -> (q # 1000000000 <= inject_Z a / inject_Z t)%Q <-> q * t <= a * PERBILL_ACCURACY.
Proof.
  intros Ht. destruct t as [|t|]; [done | | done].
  assert (E : (inject_Z a / inject_Z (Z.pos t) == a # t)%Q).
  { unfold Qeq, Qdiv, Qmult, Qinv, inject_Z. cbn. lia. }
  rewrite E. unfold Qle, PERBILL_ACCURACY. cbn. lia.
Qed.

Lemma meets_quorums_iff w id p info :
  Inv w -> w_Proposals w !! id = Some p -> w_Projects w !! p_project_id p = Some info ->
  slashable_excluded info -> total_issuance (w_currency w) * PERBILL_ACCURACY <= u128_max ->
  meets_quorums (p_project_id p) info id w = true <-> accepted w id (p_project_id p) info.
Proof.
  intros HI Hp Hinfo Hsl Hmax. pose proof HI as [HR HP HT _ _].
  destruct (ri_project _ _ _ _ HR _ _ Hinfo) as ((_ & Hq & _) & _).
  unfold meets_quorums, accepted. rewrite forallb_forall, Forall_forall.
  setoid_rewrite <- list_elem_of_In. apply forall_proper. intros rq.
  unfold slashable_excluded in Hsl. rewrite Forall_forall in Hsl, Hq.
  apply forall_proper. intros Hrq. specialize (Hsl _ Hrq). destruct (Hq _ Hrq) as [Hq0 Hq1].
  pose proof (ri_required _ _ _ _ HR _ _ _ Hinfo Hrq Hsl) as Ht.
  pose proof (total_stake_issued _ _ _ _ (p_project_id p) (rq_role rq) HR) as Hti.
  pose proof (voted_stake_le true id (p_project_id p) (rq_role rq) (w_Stakeholders w)
    (w_Votes w) (ri_stake _ _ _ _ HR)) as Hv.
  change (ayes (tally id (rq_role rq) w)) with (side true (tally_in (w_Tallies w) id (rq_role rq))).
  change (role_stake (p_project_id p) (rq_role rq) w)
    with (default 0 (w_RoleStake w !! (p_project_id p, rq_role rq))).
  rewrite (HT _ _ _ true Hp Hsl), (ri_role_stake _ _ _ _ HR).
  unfold saturated_into_u128, PERBILL_ACCURACY in *. rewrite !Z.min_l by lia.
  unfold tau, aye_share. rewrite share_le by done. apply quorum_met_exact; unfold PERBILL_ACCURACY; nia.
Qed.

(** More aye stake, or less stake in the role, never breaks a quorum. *)
Lemma quorum_met_mono a a' t q :
  0 <= a <= a' -> quorum_met a t q = true -> quorum_met a' t q = true.
Proof.
  unfold quorum_met, saturating_mul, PERBILL_ACCURACY. intros Ha. destruct (t =? 0); [done|].
  rewrite !Z.leb_le. lia.
Qed.

Context {S : StorageLayer T}.

(** C1: the quorum test of the code decides Eq. 1. In every live world, for a stored proposal of a
    registered project none of whose required roles is the slashable one, and as long as the total
    issuance times 10^9 (the [Perbill] accuracy) is at most [u128::MAX], [meets_quorums] holds iff for every
    required role the aye stake divided by the total stake of the role (as rationals, over the
    registry and the recorded votes) is at least the quorum. *)
Theorem meets_quorums_eq1 w id p info :
  live w -> w_Proposals w !! id = Some p -> w_Projects w !! p_project_id p = Some info ->
  slashable_excluded info -> total_issuance (w_currency w) * PERBILL_ACCURACY <= u128_max ->
  meets_quorums (p_project_id p) info id w = true <-> accepted w id (p_project_id p) info.
Proof. intros Hw. apply meets_quorums_iff, live_inv, Hw. Qed.

(** Where the multiplication saturates, the quorum test accepts whatever the quorum is: once
    the aye stake times the [Perbill] accuracy reaches [u128::MAX], a role with any stake passes. *)
Theorem quorum_met_saturated ayes total quorum :
  total <> 0 -> u128_max <= ayes * PERBILL_ACCURACY -> quorum_met ayes total quorum = true.
Proof.
  intros Ht Ha. unfold quorum_met. destruct (Z.eqb_spec total 0) as [|_]; [done|].
  unfold saturating_mul. apply Z.leb_le. lia.
Qed.
End Quorum.

(** A thousandth of the stake meets a quorum of 100%. *)
Lemma quorum_met_saturated_witness :
  quorum_met (u128_max / 1000) u128_max PERBILL_ACCURACY = true
  /\ ~ PERBILL_ACCURACY * u128_max <= u128_max / 1000 * PERBILL_ACCURACY.
Proof.
  split; [apply quorum_met_saturated; by vm_compute | by vm_compute].
Defined.

Lemma meets_quorums_eq1_witness :
  exists p info, w_Proposals (world_of approved) !! 0 = Some p
    /\ w_Projects (world_of approved) !! p_project_id p = Some info
    /\ (meets_quorums (p_project_id p) info 0 (world_of approved) = true
        <-> accepted (world_of approved) 0 (p_project_id p) info).
Proof.
  do 2 eexists. split; [vm_compute; reflexivity|]. split; [vm_compute; reflexivity|].
  apply meets_quorums_eq1; [apply approved_live | by vm_compute | by vm_compute | | by vm_compute].
  repeat constructor; by vm_compute.
Defined.
