(* ===== verification/Lifecycle.v ===== *)
(** * The life of a proposal

    The statuses of a proposal as a state machine: [status_step] lists the transitions, every step of
    the chain moves each proposal along at most one of them and changes nothing else of it, and the
    three final statuses are left by none. *)
From stdpp Require Import prelude gmap vector.
From Stdlib Require Import Init.Byte.
From S2P Require Import Prelude Types Config Storage Pallet Chain Mock Scenarios Exec Effects.
From S2P Require Import Registry Ballots Schedule Log Invariants Runs.
#[local] Open Scope Z_scope.

Inductive status_step : ProposalStatus -> ProposalStatus -> Prop :=
| status_approve n : status_step Voting (Approved n)
| status_revoke n : status_step (Approved n) Voting
| status_enact n : status_step (Approved n) Enacted
| status_reject s : is_open s = true -> status_step s Rejected
| status_expire : status_step Voting Expired.

(** At most one transition. *)
Definition status_next (s s' : ProposalStatus) : Prop := s' = s \/ status_step s s'.

Section Lifecycle.
Context {T : Config}.
Implicit Types (w : World) (p : Proposal AccountId) (id : ProposalId)
  (Ps : gmap ProposalId (Proposal AccountId)).

(** Every proposal of [Ps] is still in [Ps'], with the same contents but perhaps another status. *)
Definition evolves Ps Ps' : Prop :=
  forall id p, Ps !! id = Some p ->
    exists s, Ps' !! id = Some (with_status p s) /\ status_next (p_status p) s.

Lemma with_status_id p : with_status p (p_status p) = p.
Proof. by destruct p. Qed.

Lemma evolves_refl Ps : evolves Ps Ps.
Proof. intros id p Hp. exists (p_status p). rewrite with_status_id. by split; [|left]. Qed.

Lemma evolves_put Ps id p s :
  Ps !! id = Some p -> status_step (p_status p) s -> evolves Ps (<[id := with_status p s]> Ps).
Proof.
  intros Hp Hs id' p' Hp'. destruct (decide (id' = id)) as [->|Hne].
  - rewrite Hp in Hp'. injection Hp' as <-. exists s. rewrite lookup_insert_eq.
    by split; [|right].
  - rewrite lookup_insert_ne by done. by apply evolves_refl.
Qed.

Lemma evolves_new Ps Ps' id p :
  Ps !! id = None -> evolves (<[id := p]> Ps) Ps' -> evolves Ps Ps'.
Proof.
  intros Hid H id' p' Hp'. apply H. rewrite lookup_insert_ne; [done|].
  intros ->. by rewrite Hid in Hp'.
Qed.

(** ** Enactment *)

(** The status [enact] leaves a proposal in. *)
Definition verdict w id p : ProposalStatus :=
  match p_status p, w_Projects w !! p_project_id p with
  | Approved _, Some info => if meets_quorums (p_project_id p) info id w then Enacted else Voting
  | s, _ => s
  end.

Lemma enacted_proposals id n w :
  w_Proposals (enacted id n w)
  = match w_Proposals w !! id with
    | Some p => <[id := with_status p (verdict w id p)]> (w_Proposals w)
    | None => w_Proposals w
    end.
Proof.
  unfold enacted, verdict. destruct (w_Proposals w !! id) as [p|] eqn:Hp; [|done].
  assert (E : <[id := with_status p (p_status p)]> (w_Proposals w) = w_Proposals w).
  { rewrite with_status_id. by apply insert_id. }
  destruct (p_status p); try (by rewrite E); [].
  destruct (w_Projects w !! p_project_id p); [by case_match | by rewrite E].
Qed.

Lemma enacted_lookup_ne id id' n w :
  id' <> id -> w_Proposals (enacted id n w) !! id' = w_Proposals w !! id'.
Proof.
  intros Hne. rewrite enacted_proposals. case_match; [|done]. by rewrite lookup_insert_ne.
Qed.

Lemma enacted_lookup_eq id n w :
  w_Proposals (enacted id n w) !! id = (fun p => with_status p (verdict w id p)) <$> w_Proposals w !! id.
Proof.
  rewrite enacted_proposals. destruct (w_Proposals w !! id) eqn:E; [|by rewrite E].
  by rewrite lookup_insert_eq.
Qed.

(** What [enact] reads besides the proposal it leaves as it was. *)
Lemma enacted_frame id n w :
  w_Projects (enacted id n w) = w_Projects w /\ w_Stakeholders (enacted id n w) = w_Stakeholders w
  /\ w_RoleStake (enacted id n w) = w_RoleStake w /\ w_Tallies (enacted id n w) = w_Tallies w
  /\ w_Votes (enacted id n w) = w_Votes w
  /\ w_CounterAttestations (enacted id n w) = w_CounterAttestations w
  /\ w_block_number (enacted id n w) = w_block_number w.
Proof. unfold enacted. by repeat case_match. Qed.

Lemma enacted_all_frame l n w :
  w_Projects (enacted_all l n w) = w_Projects w
  /\ w_Stakeholders (enacted_all l n w) = w_Stakeholders w
  /\ w_RoleStake (enacted_all l n w) = w_RoleStake w
  /\ w_Tallies (enacted_all l n w) = w_Tallies w /\ w_Votes (enacted_all l n w) = w_Votes w
  /\ w_CounterAttestations (enacted_all l n w) = w_CounterAttestations w
  /\ w_block_number (enacted_all l n w) = w_block_number w.
Proof.
  revert w. induction l as [|id l IH]; intros w; [done|].
  change (enacted_all (id :: l) n w) with (enacted_all l n (enacted id n w)).
  destruct (IH (enacted id n w)) as (-> & -> & -> & -> & -> & -> & ->). apply enacted_frame.
Qed.

Lemma meets_quorums_frame pid info id w w' :
  w_RoleStake w' = w_RoleStake w -> w_Tallies w' = w_Tallies w ->
  meets_quorums pid info id w' = meets_quorums pid info id w.
Proof. intros E1 E2. unfold meets_quorums, role_stake, tally, value_at. cbn. by rewrite E1, E2. Qed.

Lemma verdict_frame id p w w' :
  w_Projects w' = w_Projects w -> w_RoleStake w' = w_RoleStake w ->
  w_Tallies w' = w_Tallies w -> verdict w' id p = verdict w id p.
Proof.
  intros E1 E2 E3. unfold verdict. rewrite E1. repeat case_match; try done;
    rewrite (meets_quorums_frame _ _ _ _ _ E2 E3) in *; congruence.
Qed.

(** A loop over distinct proposals gives each its verdict, whatever the order. *)
Lemma enacted_all_lookup l n w id :
  NoDup l ->
  w_Proposals (enacted_all l n w) !! id
  = if decide (id ∈ l) then (fun p => with_status p (verdict w id p)) <$> w_Proposals w !! id
    else w_Proposals w !! id.
Proof.
  intros Hl. revert w. induction Hl as [|id0 l Hni Hl IH]; intros w.
  { by rewrite decide_False by apply not_elem_of_nil. }
  change (enacted_all (id0 :: l) n w) with (enacted_all l n (enacted id0 n w)). rewrite IH.
  destruct (enacted_frame id0 n w) as (E1 & _ & E2 & E3 & _).
  destruct (decide (id = id0)) as [->|Hne].
  - rewrite decide_False by done. rewrite decide_True by (by left). apply enacted_lookup_eq.
  - rewrite enacted_lookup_ne by done. destruct (decide (id ∈ l)) as [Hin|Hnin].
    + rewrite decide_True by (by right). destruct (w_Proposals w !! id) as [p|]; [|done].
      cbn. by rewrite (verdict_frame id p w).
    + by rewrite decide_False by (by intros [?|?]%elem_of_cons).
Qed.

Lemma verdict_step w id p : status_next (p_status p) (verdict w id p).
Proof.
  unfold verdict. destruct (p_status p) as [|n| | |]; try by left.
  repeat case_match; [right; constructor | right; constructor | by left].
Qed.

Lemma evolves_enacted_all l n w :
  NoDup l -> evolves (w_Proposals w) (w_Proposals (enacted_all l n w)).
Proof.
  intros Hl id p Hp. rewrite enacted_all_lookup, Hp by done. case_decide; cbn.
  - eexists. split; [done | apply verdict_step].
  - exists (p_status p). rewrite with_status_id. by split; [|left].
Qed.

(** ** Calls *)

Lemma do_vote_evolves id pid info who sh aye now p w w' :
  w_Proposals w !! id = Some p -> do_vote id pid info who sh aye now w = (Ok tt, w') ->
  evolves (w_Proposals w) (w_Proposals w').
Proof.
  intros Hp H. destruct (do_vote_Ok _ _ _ _ _ _ _ _ _ _ Hp H)
    as [(-> & _)|[(n & _ & Hs & _ & _ & ->)|(n & Hs & _ & ->)]].
  - apply evolves_refl.
  - apply (evolves_put _ _ _ _ Hp). rewrite Hs. constructor.
  - apply (evolves_put _ _ _ _ Hp). rewrite Hs. constructor.
Qed.

Context {L : ConfigLaws T}.

Lemma evolves_call o c w w' :
  Inv w -> call_body o c w = (Ok tt, w') -> evolves (w_Proposals w) (w_Proposals w').
Proof.
  intros HI H. destruct c; cbn in H.
  - apply project_genesis_Ok in H as (_ & _ & w1 & H & _ & ->).
    apply (for_each_Ok _ (fun w1 => w_Proposals w1 = w_Proposals w)) in H; [|clear H|done].
    + cbn. rewrite H. apply evolves_refl.
    + intros s w2 w3 _ <- H3. by apply register_stakeholder_Ok in H3 as (_ & c & _ & ->).
  - apply new_release_Ok in H as (who & info & sh & bs & c & _ & _ & _ & _ & _ & _ & _ & _ & H).
    destruct (fresh_id _ _ _ _ _ _ _ _ (w_NextProposalId w) (inv_proposals _ HI)) as (Hid & _);
      [done|].
    eapply do_vote_evolves in H; [|apply lookup_insert_eq]. exact (evolves_new _ _ _ _ Hid H).
  - apply vote_Ok in H as (who & p & info & sh & _ & Hp & _ & _ & _ & _ & H).
    by eapply do_vote_evolves.
  - apply submit_counter_attestation_Ok in H
      as (who & p & info & sh & x & c1 & y & c2 & H). destruct_and! H.
    destruct (unscheduled_frame proposal_id p w) as [Pend E]. subst w'. rewrite E.
    apply evolves_put; [done | by constructor].
  - apply close_expired_Ok in H as (who & p & y & c & _ & Hp & Hs & _ & _ & ->).
    apply evolves_put; [done|]. rewrite Hs. constructor.
Qed.

Context {S : StorageLayer T}.

Lemma evolves_step w w' : Inv w -> step w w' -> evolves (w_Proposals w) (w_Proposals w').
Proof.
  intros HI Hstep. destruct Hstep as [w weight w' _ H|w o c [[]|e] w' _ H|w evs c _ _].
  - rewrite next_block_run in H. injection H as _ <-.
    apply (evolves_enacted_all _ _ (opened w)), (sc_nodup _ _ (inv_schedule _ HI)).
  - apply dispatch_Ok in H. by eapply evolves_call.
  - apply dispatch_Err in H as ->. apply evolves_refl.
  - apply evolves_refl.
Qed.

(** A run between live worlds is one of live worlds. *)
Lemma live_back w w' : reachable w -> rtc step w w' -> w_NextProposalId w' < u32_max -> live w.
Proof.
  intros Hw Hs Hn. split; [done|]. revert Hw Hn. induction Hs as [w|w1 w2 w3 H12 H23 IH]; [done|].
  intros Hw Hn.
  assert (Hw2 : reachable w2).
  { destruct Hw as (w0 & ? & ?). exists w0. split; [done | by eapply rtc_r]. }
  specialize (IH Hw2 Hn).
  destruct (reachable_inv_or _ Hw) as [E|HI].
  - destruct (next_id_of_step _ _ H12) as [E2|E2]; rewrite E2, ?E in IH; [done|].
    revert IH. unfold saturating_add, u32_max. lia.
  - pose proof (pi_next _ _ _ _ _ _ _ _ (inv_proposals _ HI)).
    destruct (next_id_of_step _ _ H12) as [E2|E2]; rewrite E2 in IH; [done|].
    revert IH. unfold saturating_add. lia.
Qed.

(** Induction along a run of live worlds. *)
Lemma live_run_ind (R : World -> World -> Prop) :
  (forall w, R w w) -> (forall w1 w2 w3, R w1 w2 -> R w2 w3 -> R w1 w3) ->
  (forall w1 w2, Inv w1 -> Inv w2 -> step w1 w2 -> R w1 w2) ->
  forall w w', reachable w -> rtc step w w' -> w_NextProposalId w' < u32_max -> R w w'.
Proof.
  intros Hrefl Htrans Hstep w w' Hw Hs Hn.
  induction Hs as [w|w1 w2 w3 H12 H23 IH]; [apply Hrefl|].
  assert (Hw2 : reachable w2).
  { destruct Hw as (w0 & ? & ?). exists w0. split; [done | by eapply rtc_r]. }
  apply Htrans with w2; [|by apply IH].
  apply Hstep; [| |done]; apply live_inv; eapply live_back; eauto using rtc_l.
Qed.

(** C21: the life of a proposal. Whatever step the chain takes from a live world, every stored
    proposal is still stored, with every field but the status unchanged, and the status is the
    same or has made one of the transitions of [status_step]: approval, revocation, enactment,
    rejection of an open proposal, expiry. *)
Theorem proposal_transitions w w' id p :
  live w -> step w w' -> w_Proposals w !! id = Some p ->
  exists s, w_Proposals w' !! id = Some (with_status p s) /\ status_next (p_status p) s.
Proof. intros Hw Hs. apply evolves_step; [by apply live_inv | done]. Qed.

(** A proposal in a final status stays exactly as it is. *)
Lemma closed_forever w w' :
  reachable w -> rtc step w w' -> w_NextProposalId w' < u32_max ->
  forall id p, w_Proposals w !! id = Some p -> is_open (p_status p) = false ->
    w_Proposals w' !! id = Some p.
Proof.
  apply (live_run_ind (fun w w' => forall id p, w_Proposals w !! id = Some p ->
    is_open (p_status p) = false -> w_Proposals w' !! id = Some p)); [done | naive_solver |].
  intros w1 w2 HI _ H12 id p Hp Ho. destruct (evolves_step _ _ HI H12 _ _ Hp) as (s & Hp' & Hs).
  destruct Hs as [->|Hs]; [by rewrite with_status_id in Hp'|].
  exfalso. by destruct Hs; rewrite ?H in Ho.
Qed.

End Lifecycle.

Lemma proposal_transitions_witness :
  exists p s, w_Proposals (world_of contested) !! 0 = Some p
    /\ w_Proposals (world_of approved) !! 0 = Some (with_status p s)
    /\ status_next (p_status p) s.
Proof.
  eexists. edestruct (proposal_transitions (world_of contested) (world_of approved) 0) as (s & H1 & H2).
  - apply contested_live.
  - apply world_of_step. vm_compute. reflexivity.
  - vm_compute. reflexivity.
  - exists s. split; [vm_compute; reflexivity|]. by split.
Defined.
