(* ===== verification/Releases.v ===== *)
(** * The Official Release Log: what gets in, when, and that it stays

    Soundness of the log (an entry appears only for an approved proposal whose quorums hold at the
    enactment block), append-only behaviour along runs, the correspondence between entries and
    enacted proposals, and the liveness of an approved proposal under the block loop. *)
From stdpp Require Import prelude gmap vector.
From Stdlib Require Import Init.Byte.
From S2P Require Import Prelude Types Config Storage Pallet Chain Mock Scenarios Exec Effects.
From S2P Require Import Registry Ballots Schedule Log Invariants Runs Lifecycle.
#[local] Open Scope Z_scope.

Section Releases.
Context {T : Config}.
Implicit Types (w : World) (p : Proposal AccountId) (id : ProposalId) (pid : ProjectId)
  (e : ReleaseEntry).

(** The entry the enactment of [id] at block [n] from [w] adds. *)
Definition enters w (n : Z) id pid (i : Z) e : Prop :=
  exists p info, w_Proposals w !! id = Some p /\ (exists m, p_status p = Approved m)
    /\ p_project_id p = pid /\ w_Projects w !! pid = Some info
    /\ meets_quorums pid info id w = true
    /\ release_count pid w <= i /\ e = release_entry id p n.

Lemma enacted_log id n w pid i e :
  w_ReleaseLog (enacted id n w) !! (pid, i) = Some e ->
  w_ReleaseLog w !! (pid, i) = Some e \/ enters w n id pid i e.
Proof.
  unfold enacted. destruct (w_Proposals w !! id) as [p|] eqn:Hp; [|by left].
  destruct (p_status p) as [|m| | |] eqn:Hs; try by left.
  destruct (w_Projects w !! p_project_id p) as [info|] eqn:Hi; [|by left].
  destruct (meets_quorums (p_project_id p) info id w) eqn:Hm; [|by left].
  intros He. cbn in He. apply lookup_insert_Some in He as [[[= <- <-] <-]|[_ He]]; [right | by left].
  exists p, info. split_and!; try done. by exists m.
Qed.

Lemma count_mono id n w pid :
  release_count pid w <= u32_max -> release_count pid w <= release_count pid (enacted id n w).
Proof.
  intros Hc. unfold enacted. repeat case_match; try done; [].
  unfold publish, release_count, value_at in *. cbn in *. rewrite lookup_insert.
  case_decide; [|done]. subst. cbn. unfold saturating_add. lia.
Qed.

Lemma enters_next id0 id n w pid i e :
  id <> id0 -> release_count pid w <= u32_max ->
  enters (enacted id0 n w) n id pid i e -> enters w n id pid i e.
Proof.
  intros Hne Hc (p & info & Hp & Hs & Hpid & Hi & Hm & Hle & ->).
  destruct (enacted_frame id0 n w) as (E1 & _ & E2 & E3 & _).
  rewrite enacted_lookup_ne in Hp by done. rewrite E1 in Hi.
  rewrite (meets_quorums_frame _ _ _ w) in Hm by done.
  exists p, info. split_and!; try done. etrans; [by apply count_mono | exact Hle].
Qed.

Context {L : ConfigLaws T}.

Lemma inv_count w pid :
  Inv w -> count_in (w_ReleaseCount w) pid <= u32_max.
Proof.
  intros HI. rewrite (lg_count _ _ _ (inv_log _ HI)).
  etrans; [|by apply inv_size]. apply msum_size. intros k q _. apply enacted_part_range.
Qed.

Lemma enacted_all_log l n w pid i e :
  NoDup l -> Inv (relisted n l w) ->
  w_ReleaseLog (enacted_all l n w) !! (pid, i) = Some e ->
  w_ReleaseLog w !! (pid, i) = Some e \/ exists id, id ∈ l /\ enters w n id pid i e.
Proof.
  intros Hl. revert w. induction Hl as [|id0 l Hni Hl IH]; intros w HI He; [by left|].
  change (enacted_all (id0 :: l) n w) with (enacted_all l n (enacted id0 n w)) in He.
  destruct (IH _ (inv_enacted _ _ _ _ HI) He) as [He'|(id & Hin & Hen)].
  - destruct (enacted_log _ _ _ _ _ _ He') as [?|?]; [by left|]. right. exists id0.
    split; [by left | done].
  - right. exists id. split; [by right|].
    assert (Hne : id <> id0) by (intros ->; done).
    exact (enters_next _ _ _ w _ _ _ Hne (inv_count _ pid HI) Hen).
Qed.

(** Entries are never overwritten. *)
Lemma enacted_log_keeps id n l w k e :
  Inv (relisted n (id :: l) w) -> w_ReleaseLog w !! k = Some e ->
  w_ReleaseLog (enacted id n w) !! k = Some e.
Proof.
  intros HI He. unfold enacted. repeat case_match; try done; []. cbn.
  rewrite lookup_insert_ne; [done|]. intros <-.
  pose proof (lg_range _ _ _ (inv_log _ HI) _ _ _ He) as Hr. cbn in Hr.
  unfold count_in, release_count, value_at in *. cbn in *. lia.
Qed.

Lemma enacted_all_log_keeps l n w k e :
  Inv (relisted n l w) -> w_ReleaseLog w !! k = Some e ->
  w_ReleaseLog (enacted_all l n w) !! k = Some e.
Proof.
  revert w. induction l as [|id l IH]; intros w HI He; [done|].
  apply IH; [by apply inv_enacted | by eapply enacted_log_keeps].
Qed.

Lemma inv_opened w n :
  Inv w -> n = w_block_number w + 1 -> Inv (relisted n (pending n w) (opened w)).
Proof. intros [HR HP HT HS HL] ->. split; try done. by apply schedule_take. Qed.

(** ** Calls do not touch the log *)

Lemma do_vote_log id pid info who sh aye now p w w' :
  w_Proposals w !! id = Some p -> do_vote id pid info who sh aye now w = (Ok tt, w') ->
  w_ReleaseLog w' = w_ReleaseLog w.
Proof.
  intros Hp H. by destruct (do_vote_Ok _ _ _ _ _ _ _ _ _ _ Hp H)
    as [(-> & _)|[(n & _ & _ & _ & _ & ->)|(n & _ & _ & ->)]].
Qed.

Lemma call_log o c w w' : call_body o c w = (Ok tt, w') -> w_ReleaseLog w' = w_ReleaseLog w.
Proof.
  intros H. destruct c; cbn in H.
  - apply project_genesis_Ok in H as (_ & _ & w1 & H & _ & ->).
    apply (for_each_Ok _ (fun w1 => w_ReleaseLog w1 = w_ReleaseLog w)) in H; [done | clear H|done].
    intros s w2 w3 _ <- H3. by apply register_stakeholder_Ok in H3 as (_ & c & _ & ->).
  - apply new_release_Ok in H as (who & info & sh & bs & c & _ & _ & _ & _ & _ & _ & _ & _ & H).
    eapply do_vote_log in H; [exact H | apply lookup_insert_eq].
  - apply vote_Ok in H as (who & p & info & sh & _ & Hp & _ & _ & _ & _ & H).
    by eapply do_vote_log.
  - apply submit_counter_attestation_Ok in H
      as (who & p & info & sh & x & c1 & y & c2 & H). destruct_and! H.
    destruct (unscheduled_frame proposal_id p w) as [Pend E]. subst w'. by rewrite E.
  - by apply close_expired_Ok in H as (who & p & y & c & _ & _ & _ & _ & _ & ->).
Qed.

Context {S : StorageLayer T}.

Lemma log_keeps_step w w' : Inv w -> step w w' ->
  forall k e, w_ReleaseLog w !! k = Some e -> w_ReleaseLog w' !! k = Some e.
Proof.
  intros HI Hstep k e He. destruct Hstep as [w weight w' _ H|w o c [[]|x] w' _ H|w evs c _ _].
  - rewrite next_block_run in H. injection H as _ <-.
    apply enacted_all_log_keeps; [by apply inv_opened | done].
  - apply dispatch_Ok in H. by rewrite (call_log _ _ _ _ H).
  - by apply dispatch_Err in H as ->.
  - done.
Qed.

(** What a new entry of the log tells. *)
Lemma log_step_sound w w' pid i e :
  live w -> step w w' ->
  w_ReleaseLog w !! (pid, i) = None -> w_ReleaseLog w' !! (pid, i) = Some e ->
  exists id p info, w_Proposals w !! id = Some p
    /\ p_status p = Approved (w_block_number w + 1) /\ w_block_number w' = w_block_number w + 1
    /\ p_project_id p = pid /\ w_Projects w !! pid = Some info
    /\ meets_quorums pid info id w = true
    /\ release_count pid w <= i /\ e = release_entry id p (w_block_number w')
    /\ w_Proposals w' !! id = Some (with_status p Enacted).
Proof.
  intros Hw Hstep Hnone He. apply live_inv in Hw as HI.
  destruct Hstep as [w weight w' _ H|w o c [[]|x] w' _ H|w evs c _ _].
  - rewrite next_block_run in H. injection H as _ <-. set (n := w_block_number w + 1).
    pose proof (sc_nodup _ _ (inv_schedule _ HI) n) as Hnd.
    destruct (enacted_all_log _ _ _ _ _ _ Hnd (inv_opened _ n HI eq_refl) He)
      as [He'|(id & Hin & p & info & Hp & _ & Hpid & Hinfo & Hm & Hi & ->)].
    { exfalso. cbn in He'. congruence. }
    apply (sc_listed _ _ (inv_schedule _ HI)) in Hin as Hap.
    destruct Hap as (p' & Hp' & Hst). assert (p' = p) as -> by (cbn in Hp; congruence).
    destruct (enacted_all_frame (pending n w) n (opened w)) as (_ & _ & _ & _ & _ & _ & Hb).
    assert (Hn : w_block_number (blocked w) = n) by exact Hb.
    exists id, p, info. split_and!; try done; [by rewrite Hn|]. unfold blocked.
    rewrite enacted_all_lookup by done. rewrite decide_True by done.
    cbn in Hp, Hinfo. cbn -[verdict]. rewrite Hp. cbn -[verdict]. unfold verdict. rewrite Hst.
    cbn. rewrite Hpid, Hinfo.
    by rewrite Hm.
  - apply dispatch_Ok in H. rewrite (call_log _ _ _ _ H) in He. congruence.
  - apply dispatch_Err in H as ->. congruence.
  - cbn in He. congruence.
Qed.

(** C3: soundness of the release log. When a step of the chain from a live world makes an entry
    appear in the log of a project, the step is a new block, and the entry records a proposal of
    that project which was approved for exactly this block and whose quorums are met on the
    standing tallies; the entry carries the version, the commit hash and the binary hash that were
    attested, the content address of the attestation and the number of the block, and the proposal
    is [Enacted]. *)
Theorem release_log_sound w w' pid i e :
  live w -> step w w' ->
  w_ReleaseLog w !! (pid, i) = None -> w_ReleaseLog w' !! (pid, i) = Some e ->
  exists id p info, w_Proposals w !! id = Some p
    /\ p_status p = Approved (w_block_number w + 1) /\ w_block_number w' = w_block_number w + 1
    /\ p_project_id p = pid /\ w_Projects w !! pid = Some info
    /\ meets_quorums pid info id w = true
    /\ release_count pid w <= i /\ e = release_entry id p (w_block_number w')
    /\ w_Proposals w' !! id = Some (with_status p Enacted).
Proof. apply log_step_sound. Qed.

Lemma log_keeps_run w w' k e :
  reachable w -> rtc step w w' -> w_NextProposalId w' < u32_max ->
  w_ReleaseLog w !! k = Some e -> w_ReleaseLog w' !! k = Some e.
Proof.
  intros Hw Hs Hn. revert k e. revert w w' Hw Hs Hn.
  apply (live_run_ind (fun w w' => forall k e, w_ReleaseLog w !! k = Some e ->
    w_ReleaseLog w' !! k = Some e)); [done | auto |].
  intros w1 w2 HI _. by apply log_keeps_step.
Qed.

(** C9: the release log is append-only. Along any run of the chain every entry keeps its project,
    its index and its contents. *)
Theorem release_log_append_only w w' k e :
  reachable w -> rtc step w w' -> w_NextProposalId w' < u32_max ->
  w_ReleaseLog w !! k = Some e -> w_ReleaseLog w' !! k = Some e.
Proof. apply log_keeps_run. Qed.

(** C10: the release log is the enacted proposals. In every live world the log of a project has
    entries exactly at the indices from 0 to [ReleaseCount] - 1, each records an enacted proposal
    of the project, every enacted proposal of the project is recorded, and no proposal is recorded
    twice in any log. *)
Theorem release_log_correspondence w pid :
  live w ->
  (forall i, is_Some (w_ReleaseLog w !! (pid, i)) <-> 0 <= i < release_count pid w)
  /\ (forall i e, w_ReleaseLog w !! (pid, i) = Some e ->
       exists p, w_Proposals w !! re_proposal_id e = Some p /\ p_status p = Enacted
         /\ p_project_id p = pid /\ e = release_entry (re_proposal_id e) p (re_enacted_at e))
  /\ (forall id p, w_Proposals w !! id = Some p -> p_status p = Enacted -> p_project_id p = pid ->
       exists i e, w_ReleaseLog w !! (pid, i) = Some e /\ re_proposal_id e = id)
  /\ (forall k i e e', w_ReleaseLog w !! (pid, i) = Some e -> w_ReleaseLog w !! k = Some e' ->
       re_proposal_id e = re_proposal_id e' -> k = (pid, i)).
Proof.
  intros Hw. destruct (inv_log _ (live_inv _ Hw)) as [Hr Hd He Hen Hinj _]. split_and!.
  - intros i. split; [intros [e Hi]; by eapply Hr | apply Hd].
  - apply He.
  - intros id p Hp Hs <-. by apply Hen.
  - intros k i e e' H1 H2 E. by eapply Hinj.
Qed.

(** C16: a challenged release is never published. Once a counter-attestation against a proposal is
    on record, no run of the chain leads to a log entry for that proposal. *)
Theorem challenged_never_released w w' id pid i e :
  reachable w -> rtc step w w' -> w_NextProposalId w' < u32_max ->
  is_Some (w_CounterAttestations w !! id) -> w_ReleaseLog w' !! (pid, i) = Some e ->
  re_proposal_id e <> id.
Proof.
  intros Hw Hs Hn Hc He <-.
  pose proof (live_inv _ (live_back _ _ Hw Hs Hn)) as HI.
  apply (pi_counter _ _ _ _ _ _ _ _ (inv_proposals _ HI)) in Hc as (p & Hp & Hst).
  assert (Hp' : w_Proposals w' !! re_proposal_id e = Some p).
  { eapply closed_forever; [exact Hw | done | done | done | by rewrite Hst]. }
  assert (Hw' : live w').
  { split; [|done]. destruct Hw as (w0 & ? & ?). exists w0. split; [done | by etrans]. }
  destruct (lg_entry _ _ _ (inv_log _ (live_inv _ Hw')) _ _ _ He) as (q & Hq & Hqs & _).
  congruence.
Qed.

(** ** The block loop *)

Lemma blocked_number w : w_block_number (blocked w) = w_block_number w + 1.
Proof.
  unfold blocked.
  by destruct (enacted_all_frame (pending (w_block_number w + 1) w) (w_block_number w + 1) (opened w))
    as (_ & _ & _ & _ & _ & _ & ->).
Qed.

Lemma next_block_blocked w : snd (next_block w) = blocked w.
Proof. by rewrite next_block_run. Qed.

Lemma run_blocks_total fuel n w :
  n - w_block_number w <= Z.of_nat fuel ->
  exists w', run_blocks fuel n w = Some w' /\ w_block_number w' = Z.max n (w_block_number w)
    /\ (n <= block_number_max -> rtc step w w').
Proof.
  revert w. induction fuel as [|fuel IH]; intros w Hf; cbn; destruct (Z.ltb_spec (w_block_number w) n).
  - lia.
  - exists w. split_and!; [done | lia | constructor].
  - rewrite next_block_blocked. destruct (IH (blocked w)) as (w' & -> & Hn & Hs).
    { rewrite blocked_number. lia. }
    exists w'. split_and!; [done | rewrite Hn, blocked_number; lia |].
    intros Hmax. eapply rtc_l; [|by apply Hs]. eapply step_block; [lia | apply next_block_run].
  - exists w. split_and!; [done | lia | constructor].
Qed.

(** C29: the block loop ends. From every world and for every target block, [run_to_block] returns a
    world, at the target block (or where it started, when the target is past), and the blocks it
    runs are steps of the chain. *)
Theorem run_to_block_terminates n w :
  exists w', run_to_block n w = Some w' /\ w_block_number w' = Z.max n (w_block_number w)
    /\ (n <= block_number_max -> rtc step w w').
Proof. apply run_blocks_total. lia. Qed.

Lemma blocked_lookup w id :
  Inv w ->
  w_Proposals (blocked w) !! id
  = if decide (id ∈ pending (w_block_number w + 1) w)
    then (fun p => with_status p (verdict w id p)) <$> w_Proposals w !! id
    else w_Proposals w !! id.
Proof.
  intros HI. unfold blocked. rewrite enacted_all_lookup; [done|].
  apply (sc_nodup _ _ (inv_schedule _ HI)).
Qed.

Lemma blocked_verdict w id p : verdict (blocked w) id p = verdict w id p.
Proof.
  apply verdict_frame; unfold blocked;
    by destruct (enacted_all_frame (pending (w_block_number w + 1) w) (w_block_number w + 1)
      (opened w)) as (? & ? & ? & ? & ? & ? & ?).
Qed.

(** The block a proposal is due at gives it its verdict, and its entry if it is enacted. *)
Lemma blocked_due w id p :
  Inv w -> w_Proposals w !! id = Some p -> p_status p = Approved (w_block_number w + 1) ->
  w_Proposals (blocked w) !! id = Some (with_status p (verdict w id p))
  /\ (verdict w id p = Enacted -> exists i,
      w_ReleaseLog (blocked w) !! (p_project_id p, i) = Some (release_entry id p (w_block_number w + 1))).
Proof.
  intros HI Hp Hs. set (n := w_block_number w + 1) in *.
  assert (Hin : id ∈ pending n w).
  { apply (sc_listed _ _ (inv_schedule _ HI)). by exists p. }
  assert (Hp' : w_Proposals (blocked w) !! id = Some (with_status p (verdict w id p))).
  { rewrite blocked_lookup by done. fold n. by rewrite decide_True, Hp by done. }
  split; [done|]. intros Hv. rewrite Hv in Hp'.
  destruct (lg_enacted _ _ _ (inv_log _ (inv_blocked _ HI)) _ _ Hp' eq_refl) as (i & e & He & Hid).
  exists i. cbn in He. rewrite He. f_equal.
  pose proof (sc_nodup _ _ (inv_schedule _ HI) n) as Hnd.
  destruct (enacted_all_log _ _ _ _ _ _ Hnd (inv_opened _ n HI eq_refl) He)
    as [He'|(id' & _ & q & info & Hq & _ & _ & _ & _ & _ & ->)].
  - exfalso. destruct (lg_entry _ _ _ (inv_log _ HI) _ _ _ He') as (q & Hq & Hqs & _).
    rewrite Hid, Hp in Hq. injection Hq as <-. congruence.
  - cbn in Hid, Hq. subst id'. congruence.
Qed.

Lemma run_blocks_due fuel n w w' id p :
  Inv w -> w_Proposals w !! id = Some p -> p_status p = Approved n -> w_block_number w < n ->
  run_blocks fuel n w = Some w' ->
  w_Proposals w' !! id = Some (with_status p (verdict w id p))
  /\ (verdict w id p = Enacted -> exists i,
      w_ReleaseLog w' !! (p_project_id p, i) = Some (release_entry id p n)).
Proof.
  revert w. induction fuel as [|fuel IH]; intros w HI Hp Hs Hn; cbn;
    (destruct (Z.ltb_spec (w_block_number w) n); [|lia]); [done|]. rewrite next_block_blocked.
  destruct (decide (w_block_number w + 1 = n)) as [<-|Hne]; intros H'.
  - assert (Hw' : w' = blocked w).
    { destruct fuel; cbn in H'; rewrite blocked_number, Z.ltb_irrefl in H'; congruence. }
    subst w'. by apply blocked_due.
  - rewrite <- (blocked_verdict w). apply IH; [by apply inv_blocked | | done | | done].
    + rewrite blocked_lookup by done. rewrite decide_False; [done|]. intros Hin.
      apply (sc_listed _ _ (inv_schedule _ HI)) in Hin as (q & Hq & Hqs). congruence.
    + rewrite blocked_number. lia.
Qed.

(** An approved proposal is decided at its block. From a live world in which a proposal is
    approved for a later block [n], the block loop to [n] enacts it if the quorums hold on the
    standing tallies - with an entry in the release log dated [n] - and puts it back to voting
    otherwise. *)
Theorem approved_is_decided w w' id p n :
  live w -> w_Proposals w !! id = Some p -> p_status p = Approved n -> w_block_number w < n ->
  run_to_block n w = Some w' ->
  w_Proposals w' !! id = Some (with_status p (verdict w id p))
  /\ (verdict w id p = Enacted -> exists i,
      w_ReleaseLog w' !! (p_project_id p, i) = Some (release_entry id p n)).
Proof. intros Hw. apply run_blocks_due, live_inv, Hw. Qed.

(** A block never enacts more than [MaxEnactmentsPerBlock] proposals. In every live world,
    [on_initialize] for any block succeeds, its weight is the base weight plus the weight of one
    enactment for each pending proposal, and there are at most 32 of them, all different. *)
Lemma on_initialize_bounded w n :
  live w ->
  exists w', on_initialize n w
    = (Ok (enactments_weight (length (pending n w)) (reads_writes 1 1)), w')
  /\ (length (pending n w) <= MaxEnactmentsPerBlock)%nat /\ NoDup (pending n w).
Proof.
  intros Hw. rewrite on_initialize_run. eexists. split; [done|].
  destruct (inv_schedule _ (live_inv _ Hw)) as [_ Hd Hb]. split; [apply Hb | apply Hd].
Qed.

(** The schedule is the approved proposals. In every live world a proposal is pending for a
    block exactly when it is stored as approved for that block. *)
Lemma pending_iff_approved w n id :
  live w ->
  id ∈ pending n w <-> exists p, w_Proposals w !! id = Some p /\ p_status p = Approved n.
Proof. intros Hw. apply (sc_listed _ _ (inv_schedule _ (live_inv _ Hw))). Qed.
End Releases.

Lemma release_log_sound_witness :
  exists e id p info, w_Proposals (world_of (approved ++ blocks 9)) !! id = Some p
    /\ p_status p = Approved 11 /\ w_block_number (world_of released) = 11
    /\ p_project_id p = 0 /\ w_Projects (world_of (approved ++ blocks 9)) !! 0 = Some info
    /\ meets_quorums 0 info id (world_of (approved ++ blocks 9)) = true
    /\ release_count 0 (world_of (approved ++ blocks 9)) <= 0
    /\ e = release_entry id p (w_block_number (world_of released))
    /\ w_Proposals (world_of released) !! id = Some (with_status p Enacted).
Proof.
  eexists. apply (release_log_sound (world_of (approved ++ blocks 9)) (world_of released) 0 0).
  - apply world_of_live. vm_compute. reflexivity.
  - apply (world_of_step (approved ++ blocks 9) NextBlock). vm_compute. reflexivity.
  - vm_compute. reflexivity.
  - vm_compute. reflexivity.
Defined.

Lemma release_log_append_only_witness :
  exists e, w_ReleaseLog (world_of (released ++ blocks 3)) !! (0, 0) = Some e.
Proof.
  eexists. apply (release_log_append_only (world_of released) (world_of (released ++ blocks 3)) (0, 0)).
  - apply released_live.
  - apply world_of_run. vm_compute. reflexivity.
  - vm_compute. reflexivity.
  - vm_compute. reflexivity.
Defined.

Lemma release_log_correspondence_witness :
  is_Some (w_ReleaseLog (world_of released) !! (0, 0))
  /\ ~ is_Some (w_ReleaseLog (world_of released) !! (0, 1)).
Proof.
  destruct (release_log_correspondence (world_of released) 0 released_live) as (H & _).
  assert (E : release_count 0 (world_of released) = 1) by (vm_compute; reflexivity).
  rewrite E in H. split; [apply (H 0) | rewrite (H 1)]; lia.
Defined.

(** A second proposal is enacted after the first one was rejected. *)
Definition recovered : list action :=
  challenged ++ [proposes ALICE (h xa2); votes BOB 1 true; votes CAROL 1 true; votes FUZZ_IO 1 true]
  ++ blocks 10.

Lemma challenged_never_released_witness :
  exists e, w_ReleaseLog (world_of recovered) !! (0, 0) = Some e /\ re_proposal_id e <> 0.
Proof.
  eexists. split; [vm_compute; reflexivity|].
  eapply (challenged_never_released (world_of challenged) (world_of recovered) 0 0 0).
  - apply challenged_live.
  - apply world_of_run. vm_compute. reflexivity.
  - vm_compute. reflexivity.
  - eexists. vm_compute. reflexivity.
  - vm_compute. reflexivity.
Defined.

Lemma approved_is_decided_witness :
  exists w', run_to_block 11 (world_of approved) = Some w'
  /\ w_Proposals w' !! 0 = Some (acme_release Enacted)
  /\ exists i, w_ReleaseLog w' !! (0, i) = Some (release_entry 0 (acme_release (Approved 11)) 11).
Proof.
  destruct (run_blocks_total 10 11 (world_of approved)) as (w' & Hw' & _); [by vm_compute|].
  destruct (approved_is_decided (world_of approved) w' 0 (acme_release (Approved 11)) 11)
    as [H1 H2].
  - apply approved_live.
  - vm_compute. reflexivity.
  - reflexivity.
  - by vm_compute.
  - exact Hw'.
  - exists w'. split; [exact Hw'|]. split; [exact H1|]. apply H2. vm_compute. reflexivity.
Defined.
