(* ===== verification/Decisions.v ===== *)
(** * Approval is Eq. 1

    [decided_inv]: an open proposal is [Approved] exactly when its quorums are met. Every step of the
    chain preserves it as long as project identifiers are left (at [u32::MAX] a new project would
    share the registry of the last one), for the projects that do not make the slashable role a
    required one. *)
From stdpp Require Import prelude gmap vector.
From Stdlib Require Import Init.Byte.
From S2P Require Import Prelude Types Config Storage Pallet Chain Mock Scenarios Exec Effects.
From S2P Require Import Registry Ballots Schedule Log Invariants Runs Quorum Lifecycle Releases.
#[local] Open Scope Z_scope.

Definition is_approved (s : ProposalStatus) : bool :=
  match s with Approved _ => true | _ => false end.

Section Decisions.
Context {T : Config}.
Implicit Types (w : World) (p : Proposal AccountId) (id : ProposalId) (pid : ProjectId).

(** Proposal [id] has the status its tallies call for. *)
Definition decided w id : Prop :=
  forall p info, w_Proposals w !! id = Some p -> w_Projects w !! p_project_id p = Some info ->
    slashable_excluded info -> is_open (p_status p) = true ->
    meets_quorums (p_project_id p) info id w = is_approved (p_status p).

Record decided_inv w : Prop := {
  di_next : 0 <= w_NextProjectId w <= u32_max;
  di_project pid : is_Some (w_Projects w !! pid) -> 0 <= pid < w_NextProjectId w;
  di_status id : decided w id;
}.

(** The test reads the totals of the required roles and the tallies of the proposal. *)
Lemma meets_quorums_local pid info id w w' :
  slashable_excluded info ->
  (forall r, r <> BuildService -> role_stake pid r w' = role_stake pid r w) ->
  (forall r, tally id r w' = tally id r w) ->
  meets_quorums pid info id w' = meets_quorums pid info id w.
Proof.
  unfold slashable_excluded, meets_quorums. intros Hsl Hr Ht.
  induction Hsl as [|rq l Hrq _ IH]; [done|]. cbn. by rewrite IH, Hr, Ht by done.
Qed.

(** A change that touches neither the proposal nor what its quorums depend on. *)
Lemma decided_frame w w' id :
  w_Proposals w' !! id = w_Proposals w !! id ->
  (forall p, w_Proposals w !! id = Some p ->
    w_Projects w' !! p_project_id p = w_Projects w !! p_project_id p
    /\ forall r, r <> BuildService -> role_stake (p_project_id p) r w' = role_stake (p_project_id p) r w) ->
  (forall r, tally id r w' = tally id r w) ->
  decided w id -> decided w' id.
Proof.
  intros Hid Hpr Ht Hd p info Hp Hinfo Hsl Ho. rewrite Hid in Hp.
  destruct (Hpr _ Hp) as [HP HR]. rewrite HP in Hinfo.
  rewrite (meets_quorums_local _ _ _ w) by done. by apply Hd.
Qed.

(** A proposal that is closed has nothing left to decide. *)
Lemma decided_closed w id p :
  w_Proposals w !! id = Some p -> is_open (p_status p) = false -> decided w id.
Proof. intros Hp Hc q info Hq _ _ Ho. rewrite Hp in Hq. injection Hq as <-. congruence. Qed.

Lemma tally_insert id r t w id' r' :
  id' <> id -> tally id' r' (set_Tallies (<[(id, r) := t]> (w_Tallies w)) w) = tally id' r' w.
Proof.
  intros Hne. unfold tally, value_at. cbn. rewrite lookup_insert_ne; [done|]. congruence.
Qed.

(** A vote settles the status of the proposal it is cast on. *)
Lemma do_vote_decided id info who sh aye now p w w' :
  w_Proposals w !! id = Some p -> w_Projects w !! p_project_id p = Some info ->
  do_vote id (p_project_id p) info who sh aye now w = (Ok tt, w') ->
  (forall id', id' <> id -> decided w id') -> forall id', decided w' id'.
Proof.
  intros Hp Hinfo H Hd id'. set (w1 := record_vote id who sh aye w).
  assert (Ht : forall w2, w_Proposals w2 !! id' = w_Proposals w !! id' ->
    w_Projects w2 = w_Projects w -> w_RoleStake w2 = w_RoleStake w ->
    w_Tallies w2 = w_Tallies w1 -> id' <> id -> decided w2 id').
  { intros w2 E1 E2 E3 E4 Hne. apply (decided_frame w); [done | | | by apply Hd].
    - intros q _. rewrite E2. split; [done|]. intros r _. unfold role_stake, value_at. cbn.
      by rewrite E3.
    - intros r. unfold tally, value_at. cbn. rewrite E4.
      exact (tally_insert id (sh_role sh) _ w id' r Hne). }
  assert (Hs : forall w2 s, w_Proposals w2 !! id = Some (with_status p s) ->
    w_Projects w2 = w_Projects w -> w_RoleStake w2 = w_RoleStake w ->
    w_Tallies w2 = w_Tallies w1 -> meets_quorums (p_project_id p) info id w1 = is_approved s ->
    decided w2 id).
  { intros w2 s E1 E2 E3 E4 E5 q info' Hq Hinfo' _ _. rewrite E1 in Hq. injection Hq as <-.
    cbn in *. rewrite E2, Hinfo in Hinfo'. injection Hinfo' as <-. rewrite <- E5.
    by apply meets_quorums_frame. }
  destruct (do_vote_Ok _ _ _ _ _ _ _ _ _ _ Hp H)
    as [(-> & Hv & Ha)|[(n & _ & Hst & Hm & _ & ->)|(n & Hst & Hm & ->)]];
    (destruct (decide (id' = id)) as [->|Hne];
      [|apply Ht; [cbn; by rewrite ?lookup_insert_ne by done|done..]]).
  - intros q info' Hq Hinfo' Hsl Ho. cbn in Hq, Hinfo'. rewrite Hp in Hq. injection Hq as <-.
    rewrite Hinfo in Hinfo'. injection Hinfo' as <-. fold w1.
    destruct (p_status p) eqn:E; try done; [by apply Hv | by eapply Ha].
  - apply (Hs _ (Approved n)); try done. apply lookup_insert_eq.
  - apply (Hs _ Voting); try done. apply lookup_insert_eq.
Qed.

Context {L : ConfigLaws T}.

Lemma enacted_all_next_project l n w :
  w_NextProjectId (enacted_all l n w) = w_NextProjectId w.
Proof.
  revert w. induction l as [|id l IH]; intros w; [done|].
  change (enacted_all (id :: l) n w) with (enacted_all l n (enacted id n w)). rewrite IH.
  unfold enacted. by repeat case_match.
Qed.

Lemma decided_blocked w id : Inv w -> decided w id -> decided (blocked w) id.
Proof.
  intros HI Hd p' info Hp' Hinfo Hsl Ho. rewrite blocked_lookup in Hp' by done.
  destruct (enacted_all_frame (pending (w_block_number w + 1) w) (w_block_number w + 1) (opened w))
    as (E1 & _ & E2 & E3 & _). change (w_Projects (blocked w) = w_Projects w) in E1.
  rewrite E1 in Hinfo. rewrite (meets_quorums_frame _ _ _ w) by done.
  destruct (w_Proposals w !! id) as [p|] eqn:Hp; [|by case_decide].
  pose proof (Hd p info Hp) as Hm. case_decide as Hin; cbn in Hp'; injection Hp' as <-.
  - cbn in *. apply (sc_listed _ _ (inv_schedule _ HI)) in Hin as (q & Hq & Hst).
    rewrite Hp in Hq. injection Hq as <-. specialize (Hm Hinfo Hsl). rewrite Hst in Hm.
    unfold verdict in *. rewrite Hst, Hinfo in *. rewrite (Hm eq_refl) in *. done.
  - by apply Hm.
Qed.

Lemma register_frame pid l w w' :
  for_each (register_stakeholder pid) l w = (Ok tt, w') ->
  w_Proposals w' = w_Proposals w /\ w_Tallies w' = w_Tallies w /\ w_Projects w' = w_Projects w
  /\ w_NextProjectId w' = w_NextProjectId w
  /\ forall pid' r, pid' <> pid -> role_stake pid' r w' = role_stake pid' r w.
Proof.
  intros H. apply (for_each_Ok _ (fun w' => w_Proposals w' = w_Proposals w
    /\ w_Tallies w' = w_Tallies w /\ w_Projects w' = w_Projects w
    /\ w_NextProjectId w' = w_NextProjectId w
    /\ forall pid' r, pid' <> pid -> role_stake pid' r w' = role_stake pid' r w)) in H; [done| |done].
  intros s w2 w3 _ IH H3. apply register_stakeholder_Ok in H3 as (_ & c & _ & ->).
  destruct IH as (<- & <- & <- & <- & IH). split_and!; try done. intros pid' r Hne.
  rewrite <- IH by done. unfold role_stake, value_at. cbn.
  rewrite lookup_insert_ne; [done | congruence].
Qed.

Lemma decided_genesis o name l policy slashing bond w w' :
  w_NextProjectId w < u32_max -> Inv w ->
  project_genesis o name l policy slashing bond w = (Ok tt, w') ->
  decided_inv w -> decided_inv w'.
Proof.
  intros Hn HI H [Hr Hid Hd]. apply project_genesis_Ok in H as (_ & _ & w1 & H & _ & ->).
  apply register_frame in H as (E1 & E2 & E3 & E4 & E5).
  split; cbn; rewrite ?saturating_add_exact by lia.
  - lia.
  - rewrite E3. intros pid [<-|?%Hid]%lookup_insert_is_Some'; lia.
  - intros id. apply (decided_frame w); [by cbn; rewrite E1 | | |done].
    + intros p Hp. assert (p_project_id p <> w_NextProjectId w).
      { pose proof (inv_project _ _ _ HI Hp) as Hi%Hid. lia. }
      cbn. rewrite E3, lookup_insert_ne by done. split; [done|]. intros r _. by apply E5.
    + intros r. unfold tally, value_at. cbn. by rewrite E2.
Qed.

Lemma do_vote_frame id pid info who sh aye now p w w' :
  w_Proposals w !! id = Some p -> do_vote id pid info who sh aye now w = (Ok tt, w') ->
  w_Projects w' = w_Projects w /\ w_NextProjectId w' = w_NextProjectId w.
Proof.
  intros Hp H. by destruct (do_vote_Ok _ _ _ _ _ _ _ _ _ _ Hp H)
    as [(-> & _)|[(n & _ & _ & _ & _ & ->)|(n & _ & _ & ->)]].
Qed.

(** The invariant survives when projects stay and every proposal is decided. *)
Lemma decided_inv_projects w w' :
  w_Projects w' = w_Projects w -> w_NextProjectId w' = w_NextProjectId w ->
  (forall id, decided w' id) -> decided_inv w -> decided_inv w'.
Proof. intros E1 E2 Hd [Hn Hi _]. split; rewrite ?E1, ?E2; done. Qed.

(** One proposal gets a final status; role totals change for the slashable role at most. *)
Lemma decided_close w w' id p s :
  w_Proposals w' = <[id := with_status p s]> (w_Proposals w) -> is_open s = false ->
  w_Projects w' = w_Projects w -> w_NextProjectId w' = w_NextProjectId w ->
  w_Tallies w' = w_Tallies w ->
  (forall pid r, r <> BuildService -> role_stake pid r w' = role_stake pid r w) ->
  decided_inv w -> decided_inv w'.
Proof.
  intros E1 Hs E2 E3 E4 E5 HD. eapply (decided_inv_projects w); [done | done | | exact HD].
  intros id'. destruct (decide (id' = id)) as [->|Hne].
  - apply (decided_closed _ _ (with_status p s)); [|done]. by rewrite E1, lookup_insert_eq.
  - apply (decided_frame w); [by rewrite E1, lookup_insert_ne | | | by apply di_status].
    + intros q _. rewrite E2. split; [done|]. intros r. apply E5.
    + intros r. unfold tally, value_at. cbn. by rewrite E4.
Qed.

Lemma decided_call o c w w' :
  w_NextProjectId w < u32_max -> Inv w -> call_body o c w = (Ok tt, w') ->
  decided_inv w -> decided_inv w'.
Proof.
  intros Hn HI H HD. destruct c; cbn in H.
  - by eapply decided_genesis.
  - apply new_release_Ok in H as (who & info & sh & bs & c & _ & Hi & _ & _ & _ & _ & _ & _ & H).
    set (p := new_proposal info project_id who version attestation attestation_cid (w_block_number w)) in *.
    assert (Hp : w_Proposals (submitted p c w) !! w_NextProposalId w = Some p)
      by apply lookup_insert_eq.
    destruct (do_vote_frame _ _ _ _ _ _ _ _ _ _ Hp H) as [E1 E2].
    eapply (decided_inv_projects w); [exact E1 | exact E2 | | exact HD].
    apply (do_vote_decided _ _ _ _ _ _ _ _ _ Hp Hi H). intros id' Hne.
    apply (decided_frame w); [by cbn; rewrite lookup_insert_ne | done | done | by apply di_status].
  - apply vote_Ok in H as (who & p & info & sh & _ & Hp & _ & _ & Hi & _ & H).
    destruct (do_vote_frame _ _ _ _ _ _ _ _ _ _ Hp H) as [E1 E2].
    eapply (decided_inv_projects w); [exact E1 | exact E2 | | exact HD].
    apply (do_vote_decided _ _ _ _ _ _ _ _ _ Hp Hi H). intros id' _. by apply di_status.
  - apply submit_counter_attestation_Ok in H
      as (who & p & info & sh & x & c1 & y & c2 & H). destruct_and! H.
    destruct (unscheduled_frame proposal_id p w) as [Pend E]. subst w'. rewrite E.
    apply (decided_close w _ proposal_id p Rejected); [done..| |exact HD].
    intros pid r Hr. unfold role_stake, value_at. cbn. rewrite lookup_insert_ne; [done|].
    intros [= _ <-]. done.
  - apply close_expired_Ok in H as (who & p & y & c & _ & Hp & _ & _ & _ & ->).
    by apply (decided_close w _ proposal_id p Expired).
Qed.

Context {S : StorageLayer T}.

Lemma decided_step w w' :
  w_NextProjectId w < u32_max -> Inv w -> step w w' -> decided_inv w -> decided_inv w'.
Proof.
  intros Hn HI Hstep HD. destruct Hstep as [w weight w' _ H|w o c [[]|e] w' _ H|w evs c _ _].
  - rewrite next_block_run in H. injection H as _ <-.
    eapply (decided_inv_projects w); [| | |exact HD].
    + apply (enacted_all_frame _ _ (opened w)).
    + apply (enacted_all_next_project _ _ (opened w)).
    + intros id. apply decided_blocked; [done | by apply di_status].
  - apply dispatch_Ok in H. by eapply decided_call.
  - by apply dispatch_Err in H as ->.
  - by destruct HD.
Qed.

Lemma next_project_call o c w w' :
  call_body o c w = (Ok tt, w') -> Inv w -> w_NextProjectId w = u32_max ->
  w_NextProjectId w' = u32_max.
Proof.
  intros H HI E. destruct c; cbn in H.
  - apply project_genesis_Ok in H as (_ & _ & w1 & _ & _ & ->). cbn. rewrite E.
    unfold saturating_add, u32_max. lia.
  - apply new_release_Ok in H as (who & info & sh & bs & c & _ & _ & _ & _ & _ & _ & _ & _ & H).
    by apply (do_vote_frame _ _ _ _ _ _ _ _ _ _ (lookup_insert_eq _ _ _)) in H as [_ ->].
  - apply vote_Ok in H as (who & p & info & sh & _ & Hp & _ & _ & _ & _ & H).
    by apply (do_vote_frame _ _ _ _ _ _ _ _ _ _ Hp) in H as [_ ->].
  - apply submit_counter_attestation_Ok in H
      as (who & p & info & sh & x & c1 & y & c2 & H). destruct_and! H.
    destruct (unscheduled_frame proposal_id p w) as [Pend Eu]. subst w'. by rewrite Eu.
  - by apply close_expired_Ok in H as (who & p & y & c & _ & _ & _ & _ & _ & ->).
Qed.

Lemma next_project_full w w' :
  Inv w -> step w w' -> w_NextProjectId w = u32_max -> w_NextProjectId w' = u32_max.
Proof.
  intros HI Hstep E. destruct Hstep as [w weight w' _ H|w o c [[]|e] w' _ H|w evs c _ _].
  - rewrite next_block_run in H. injection H as _ <-.
    etrans; [apply (enacted_all_next_project _ _ (opened w)) | done].
  - apply dispatch_Ok in H. exact (next_project_call _ _ _ _ H HI E).
  - by apply dispatch_Err in H as ->.
  - done.
Qed.

Lemma decided_initial w : initial w -> decided_inv w.
Proof.
  intros (E1 & _ & E2 & _ & _ & E3 & _). split; rewrite ?E1, ?E2.
  - unfold u32_max. lia.
  - intros pid [? ?]. by rewrite lookup_empty in *.
  - intros id p info Hp. by rewrite E3, lookup_empty in Hp.
Qed.

Lemma live_decided w : live w -> w_NextProjectId w < u32_max -> decided_inv w.
Proof.
  intros [(w0 & H0 & Hs) Hn] Hp.
  assert (H : decided_inv w0 \/ w_NextProjectId w0 = u32_max ->
    decided_inv w \/ w_NextProjectId w = u32_max).
  { assert (Hr : reachable w0) by (exists w0; by split).
    revert w0 w Hr Hs Hn H0 Hp. intros w0 w Hr Hs Hn _ _.
    refine (live_run_ind (fun w0 w => decided_inv w0 \/ w_NextProjectId w0 = u32_max ->
      decided_inv w \/ w_NextProjectId w = u32_max) _ _ _ _ _ Hr Hs Hn); [done | auto |].
    intros w1 w2 HI _ H12 [HD|E]; [|right; by eapply next_project_full].
    destruct (decide (w_NextProjectId w1 = u32_max)) as [E|Hne];
      [right; by eapply next_project_full|].
    left. eapply decided_step; [|done..]. pose proof (di_next _ HD). lia. }
  destruct H as [?|?]; [left; by apply decided_initial | done | lia].
Qed.

(** C4: an open proposal is approved exactly when Eq. 1 accepts it. In every live world with
    project identifiers left, for a project none of whose required roles is the slashable one (and
    an issuance the [u128] products can hold), an open proposal is scheduled for enactment iff the
    aye share of every required role reaches its quorum: no accepted proposal is left voting and
    no proposal that lost a quorum is left scheduled, however votes, slashes, enactments and other
    projects interleave. *)
Theorem approved_iff_accepted w id p info :
  live w -> w_NextProjectId w < u32_max ->
  w_Proposals w !! id = Some p -> w_Projects w !! p_project_id p = Some info ->
  slashable_excluded info -> total_issuance (w_currency w) * PERBILL_ACCURACY <= u128_max ->
  is_open (p_status p) = true ->
  is_approved (p_status p) = true <-> accepted w id (p_project_id p) info.
Proof.
  intros Hw Hn Hp Hinfo Hsl Hmax Ho.
  rewrite <- (meets_quorums_iff w id p info) by (done || by apply live_inv).
  by rewrite (di_status _ (live_decided _ Hw Hn) _ _ _ Hp Hinfo Hsl Ho).
Qed.

(** C5: an approved release is published on time. In every live world with project identifiers left,
    for a project none of whose required roles is the slashable one, a proposal approved for a later
    block [n] is enacted by the block loop to [n], and its entry in the release log is dated [n]. *)
Theorem approved_is_enacted w w' id p info n :
  live w -> w_NextProjectId w < u32_max ->
  w_Proposals w !! id = Some p -> w_Projects w !! p_project_id p = Some info ->
  slashable_excluded info -> p_status p = Approved n -> w_block_number w < n ->
  run_to_block n w = Some w' ->
  w_Proposals w' !! id = Some (with_status p Enacted)
  /\ exists i, w_ReleaseLog w' !! (p_project_id p, i) = Some (release_entry id p n).
Proof.
  intros Hw Hn Hp Hinfo Hsl Hst Hlt Hrun.
  assert (Hv : verdict w id p = Enacted).
  { unfold verdict. rewrite Hst, Hinfo.
    by rewrite (di_status _ (live_decided _ Hw Hn) _ _ _ Hp Hinfo Hsl), Hst by (by rewrite Hst). }
  destruct (run_blocks_due _ _ _ _ _ _ (live_inv _ Hw) Hp Hst Hlt Hrun) as [H1 H2].
  rewrite Hv in *. split; [done | by apply H2].
Qed.

(** Only failed proposals expire. A successful [close_expired] in such a world is on a proposal
    that Eq. 1 does not accept and whose voting period is over. *)
Theorem expired_not_accepted w w' o id p info :
  live w -> w_NextProjectId w < u32_max ->
  w_Proposals w !! id = Some p -> w_Projects w !! p_project_id p = Some info ->
  slashable_excluded info -> total_issuance (w_currency w) * PERBILL_ACCURACY <= u128_max ->
  dispatch o (close_expired_call id) w = (Ok tt, w') ->
  ~ accepted w id (p_project_id p) info /\ p_voting_ends p < w_block_number w.
Proof.
  intros Hw Hn Hp Hinfo Hsl Hmax H. apply dispatch_Ok, close_expired_Ok in H
    as (who & q & y & c & _ & Hq & Hs & Hv & _). rewrite Hp in Hq. injection Hq as <-.
  split; [|done]. rewrite <- (meets_quorums_iff w id p info) by (done || by apply live_inv).
  by rewrite (di_status _ (live_decided _ Hw Hn) _ _ _ Hp Hinfo Hsl), Hs by (by rewrite Hs).
Qed.
End Decisions.

Lemma approved_iff_accepted_witness :
  accepted (world_of approved) 0 0 acme_info /\ ~ accepted (world_of contested) 0 0 acme_info.
Proof.
  split.
  - apply (approved_iff_accepted (world_of approved) 0 (acme_release (Approved 11)) acme_info);
      [apply approved_live | by vm_compute | vm_compute; reflexivity | vm_compute; reflexivity
      | repeat constructor; discriminate | by vm_compute | reflexivity | reflexivity].
  - intros H.
    apply (approved_iff_accepted (world_of contested) 0 (acme_release Voting) acme_info) in H;
      [discriminate H | apply contested_live | by vm_compute | vm_compute; reflexivity
      | vm_compute; reflexivity | repeat constructor; discriminate | by vm_compute | reflexivity].
Defined.

Lemma approved_is_enacted_witness :
  exists w', run_to_block 11 (world_of approved) = Some w'
    /\ w_Proposals w' !! 0 = Some (acme_release Enacted).
Proof.
  destruct (run_blocks_total 10 11 (world_of approved)) as (w' & Hw' & _); [by vm_compute|].
  exists w'. split; [exact Hw'|].
  apply (approved_is_enacted (world_of approved) w' 0 (acme_release (Approved 11)) acme_info 11);
    [apply approved_live | by vm_compute | vm_compute; reflexivity | vm_compute; reflexivity
    | repeat constructor; discriminate | reflexivity | by vm_compute | exact Hw'].
Defined.

Lemma expired_not_accepted_witness :
  ~ accepted (world_of overdue) 0 0 acme_info
  /\ p_voting_ends (acme_release Voting) < w_block_number (world_of overdue).
Proof.
  apply (expired_not_accepted (world_of overdue) (world_of (overdue ++ [Do (signed BOB) (close_expired_call 0)]))
    (signed BOB) 0 (acme_release Voting) acme_info);
    [apply overdue_live | by vm_compute | vm_compute; reflexivity | vm_compute; reflexivity
    | repeat constructor; discriminate | by vm_compute
    | apply world_of_dispatch; vm_compute; reflexivity].
Defined.
