(* ===== verification/Isolation.v ===== *)
(** * Projects do not interfere

    [agrees pid w1 w2]: the two worlds are indistinguishable to project [pid] - its policy, members
    and role totals, its proposals with their ballots, tallies and challenges, its share of every
    pending list in order, its release log, and the block number. Calls on other projects keep the
    world in the same class, and a block acts on the classes; so what a run does to a project it
    takes no part in is what its blocks alone do. Money is not part of the view: accounts are shared
    by the projects. *)
From stdpp Require Import prelude gmap vector.
From Stdlib Require Import Init.Byte.
From S2P Require Import Prelude Types Config Storage Pallet Chain Mock Scenarios Exec Effects.
From S2P Require Import Registry Ballots Schedule Log Invariants Runs Lifecycle.
#[local] Open Scope Z_scope.

Section Isolation.
Context {T : Config}.
Implicit Types (w : World) (p : Proposal AccountId) (id : ProposalId) (pid : ProjectId).

(** ** What a project sees *)

(** The proposal stored under [id], if it is one of the project's. *)
Definition own pid w id : option (Proposal AccountId) :=
  match w_Proposals w !! id with
  | Some p => if decide (p_project_id p = pid) then Some p else None
  | None => None
  end.

(** The project's part of the list of block [n]. *)
Definition own_ids pid w (l : list ProposalId) : list ProposalId :=
  filter (fun id => is_Some (own pid w id)) l.

Record agrees pid w1 w2 : Prop := {
  ag_now : w_block_number w1 = w_block_number w2;
  ag_project : w_Projects w1 !! pid = w_Projects w2 !! pid;
  ag_member a : w_Stakeholders w1 !! (pid, a) = w_Stakeholders w2 !! (pid, a);
  ag_role r : w_RoleStake w1 !! (pid, r) = w_RoleStake w2 !! (pid, r);
  ag_own id : own pid w1 id = own pid w2 id;
  ag_vote id a : is_Some (own pid w1 id) -> w_Votes w1 !! (id, a) = w_Votes w2 !! (id, a);
  ag_tally id r : is_Some (own pid w1 id) -> w_Tallies w1 !! (id, r) = w_Tallies w2 !! (id, r);
  ag_challenge id : is_Some (own pid w1 id) ->
    w_CounterAttestations w1 !! id = w_CounterAttestations w2 !! id;
  ag_count : w_ReleaseCount w1 !! pid = w_ReleaseCount w2 !! pid;
  ag_log i : w_ReleaseLog w1 !! (pid, i) = w_ReleaseLog w2 !! (pid, i);
  ag_pending n : own_ids pid w1 (pending n w1) = own_ids pid w2 (pending n w2);
}.

#[export] Instance agrees_equivalence pid : Equivalence (agrees pid).
Proof.
  split.
  - by intros w.
  - intros w1 w2 [? ? ? ? Ho Hv Ht Hc ? ? ?]. split; try done; intros; symmetry;
      (apply Hv || apply Ht || apply Hc); by rewrite Ho.
  - intros w1 w2 w3 [? ? Hm Hr Ho Hv Ht Hc ? Hl Hp] [? ? Hm' Hr' Ho' Hv' Ht' Hc' ? Hl' Hp'].
    split; intros; first [congruence | by rewrite ?Hm, ?Hr, ?Hl, ?Hp
      | rewrite ?Hv, ?Ht, ?Hc by done; (apply Hv' || apply Ht' || apply Hc'); by rewrite <- Ho].
Qed.

Lemma own_Some pid w id p : own pid w id = Some p <-> w_Proposals w !! id = Some p /\ p_project_id p = pid.
Proof. unfold own. destruct (w_Proposals w !! id); [case_decide|]; naive_solver. Qed.

Lemma own_frame pid w w' id : w_Proposals w' !! id = w_Proposals w !! id -> own pid w' id = own pid w id.
Proof. unfold own. by intros ->. Qed.

Lemma own_other pid w id p : w_Proposals w !! id = Some p -> p_project_id p <> pid -> own pid w id = None.
Proof. intros Hp Hne. unfold own. by rewrite Hp, decide_False. Qed.

Lemma own_ids_agree pid w1 w2 l :
  (forall id, is_Some (own pid w1 id) <-> is_Some (own pid w2 id)) -> own_ids pid w1 l = own_ids pid w2 l.
Proof. intros H. by apply list_filter_iff. Qed.

Lemma own_ids_none pid w l1 id l2 : own pid w id = None -> own_ids pid w (l1 ++ id :: l2) = own_ids pid w (l1 ++ l2).
Proof.
  intros H. unfold own_ids. rewrite !filter_app, filter_cons_False; [done|]. by rewrite H; intros [? ?].
Qed.

Lemma own_ids_retain pid w id l : own pid w id = None -> own_ids pid w (retain_not id l) = own_ids pid w l.
Proof.
  intros H. unfold own_ids, retain_not. rewrite list_filter_filter. apply list_filter_iff. intros id'.
  split; [by intros [? ?]|]. intros Ho. split; [done|]. intros ->. rewrite H in Ho. by destruct Ho.
Qed.

(** ** Changes that are not the project's *)

Lemma agrees_emit pid l w : agrees pid w (emit l w).
Proof. done. Qed.

Lemma agrees_put pid id p w :
  own pid w id = None -> p_project_id p <> pid -> agrees pid w (put_proposal id p w).
Proof.
  intros Hid Hp. assert (E : forall id', own pid (put_proposal id p w) id' = own pid w id').
  { intros id'. unfold own at 1. cbn. destruct (decide (id' = id)) as [->|Hne].
    - by rewrite lookup_insert_eq, decide_False.
    - by rewrite lookup_insert_ne by done. }
  split; try done. intros n. apply own_ids_agree. intros id'. by rewrite E.
Qed.

(** A pending list whose part for the project stays the same. *)
Lemma agrees_pending pid w n l :
  own_ids pid w l = own_ids pid w (pending n w) ->
  agrees pid w (set_PendingEnactments (<[n := l]> (w_PendingEnactments w)) w).
Proof.
  intros H. split; try done. intros m. change (own_ids pid (set_PendingEnactments _ w)) with (own_ids pid w).
  unfold pending at 2, value_at. cbn. destruct (decide (m = n)) as [->|Hne].
  - by rewrite lookup_insert_eq.
  - by rewrite lookup_insert_ne by done.
Qed.

Lemma agrees_unlist pid id n w : own pid w id = None -> agrees pid w (unlist id n w).
Proof. intros H. apply agrees_pending. by apply own_ids_retain. Qed.

Lemma agrees_record_vote pid id who sh aye w :
  own pid w id = None -> agrees pid w (record_vote id who sh aye w).
Proof.
  intros H. split; try done; intros id' x Ho; cbn; (rewrite lookup_insert_ne; [done|]);
    intros [= <- _]; rewrite H in Ho; by destruct Ho.
Qed.

Lemma agrees_registered pid pid' s c w : pid' <> pid -> agrees pid w (registered pid' s c w).
Proof. intros H. split; try done; intros x; cbn; (rewrite lookup_insert_ne; [done|congruence]). Qed.

Lemma agrees_created pid pid' info w : pid' <> pid -> agrees pid w (created pid' info w).
Proof. intros H. split; try done. cbn. by rewrite lookup_insert_ne. Qed.

(** [do_vote] on another project's proposal. *)
Lemma agrees_do_vote pid id info who sh aye now p w w' :
  w_Proposals w !! id = Some p -> p_project_id p <> pid ->
  do_vote id (p_project_id p) info who sh aye now w = (Ok tt, w') -> agrees pid w w'.
Proof.
  intros Hp Hne H. pose proof (own_other _ _ _ _ Hp Hne) as Hid.
  pose proof (agrees_record_vote pid id who sh aye w Hid) as H1.
  set (w1 := record_vote id who sh aye w) in *.
  assert (Hid1 : own pid w1 id = None) by done.
  assert (Hput : forall s w2, agrees pid w1 w2 ->
    agrees pid w1 (put_proposal id (with_status p s) w2)).
  { intros s w2 H2. etrans; [exact H2|]. apply agrees_put; [by rewrite <- (ag_own _ _ _ H2) | done]. }
  destruct (do_vote_Ok _ _ _ _ _ _ _ _ _ _ Hp H)
    as [(-> & _)|[(n & _ & _ & _ & _ & ->)|(n & _ & _ & ->)]]; [done| |]; (etrans; [exact H1|]).
  - unfold schedule. etrans; [apply Hput|apply agrees_emit]. apply agrees_pending.
    rewrite own_ids_none, app_nil_r; done.
  - unfold revoke. etrans; [apply Hput|apply agrees_emit]. by apply agrees_unlist.
Qed.

(** ** Calls on other projects *)

(** The project a call is about, in the world it is dispatched in. *)
Definition concerns (c : Call) w : option ProjectId :=
  match c with
  | project_genesis_call _ _ _ _ _ => Some (w_NextProjectId w)
  | new_release_call pid _ _ _ _ => Some pid
  | vote_call id _ | submit_counter_attestation_call id _ | close_expired_call id =>
      p_project_id <$> w_Proposals w !! id
  end.

Context {L : ConfigLaws T}.

Lemma agrees_submitted pid p c w :
  own pid w (w_NextProposalId w) = None -> p_project_id p <> pid -> agrees pid w (submitted p c w).
Proof.
  intros Hid Hp. unfold submitted. etrans; [|apply agrees_emit].
  transitivity (set_NextProposalId (saturating_add u32_max (w_NextProposalId w) 1) (set_currency c w));
    [done | by apply agrees_put].
Qed.

Lemma agrees_rejected pid id p who rebuilt x remaining c w :
  own pid w id = None -> p_project_id p <> pid ->
  agrees pid w (rejected id p who rebuilt x remaining c w).
Proof.
  intros Hid Hp. unfold rejected. do 3 (etrans; [|apply agrees_emit]).
  transitivity (put_proposal id (with_status p Rejected) (set_currency c w)).
  - transitivity (set_currency c w); [done | by apply agrees_put].
  - split; try done. intros id' Ho. cbn. rewrite lookup_insert_ne; [done|]. intros <-.
    destruct Ho as [q [Hq Hpq]%own_Some]. cbn in Hq. rewrite lookup_insert_eq in Hq. by injection Hq as <-.
Qed.

Lemma agrees_slashed pid pid' who sh x c w : pid' <> pid -> agrees pid w (slashed_stake pid' who sh x c w).
Proof. intros H. split; try done; intros y; cbn; (rewrite lookup_insert_ne; [done|congruence]). Qed.

Lemma agrees_call pid o c w w' :
  Inv w -> w_NextProposalId w < u32_max -> concerns c w <> Some pid ->
  call_body o c w = (Ok tt, w') -> agrees pid w w'.
Proof.
  intros HI Hn Hc H. destruct c as [name l policy sl bond|pid' v att cid sig|id aye|id rebuilt|id]; cbn in *.
  - apply project_genesis_Ok in H as (_ & _ & w1 & H & _ & ->).
    etrans; [|apply agrees_created; congruence].
    apply (for_each_Ok _ (agrees pid w)) in H; [done| |done]. intros s w2 w3 _ H2 H3.
    apply register_stakeholder_Ok in H3 as (_ & c & _ & ->). etrans; [exact H2|].
    apply agrees_registered. congruence.
  - apply new_release_Ok in H as (who & info & sh & bs & c & _ & _ & _ & _ & _ & _ & _ & _ & H).
    set (p := new_proposal info pid' who v att cid (w_block_number w)) in *.
    assert (Hp : p_project_id p <> pid) by (cbn; congruence).
    destruct (fresh_id _ _ _ _ _ _ _ _ (w_NextProposalId w) (inv_proposals _ HI)) as (Hf & _); [lia|].
    etrans; [apply (agrees_submitted pid p c); [unfold own; by rewrite Hf | done]|].
    exact (agrees_do_vote _ _ _ _ _ _ _ p _ _ (lookup_insert_eq _ _ _) Hp H).
  - apply vote_Ok in H as (who & p & info & sh & _ & Hp & _ & _ & _ & _ & H). rewrite Hp in Hc.
    eapply agrees_do_vote; [exact Hp | by cbn in *; congruence | exact H].
  - apply submit_counter_attestation_Ok in H
      as (who & p & info & sh & x & c1 & y & c2 & _ & Hp & _ & _ & _ & _ & _ & _ & _ & _ & ->).
    rewrite Hp in Hc. assert (Hne : p_project_id p <> pid) by (cbn in *; congruence).
    pose proof (own_other _ _ _ _ Hp Hne) as Hid.
    assert (Hu : agrees pid w (unscheduled id p w)).
    { unfold unscheduled. destruct (p_status p); try done. by apply agrees_unlist. }
    etrans; [exact Hu|]. rewrite (ag_own _ _ _ Hu) in Hid.
    etrans; [by apply agrees_slashed|]. by apply agrees_rejected.
  - apply close_expired_Ok in H as (who & p & y & c & _ & Hp & _ & _ & _ & ->). rewrite Hp in Hc.
    assert (Hne : p_project_id p <> pid) by (cbn in *; congruence).
    unfold expired. etrans; [|apply agrees_emit]. transitivity (set_currency c w); [done|].
    apply agrees_put; [by apply (own_other _ _ _ p) | done].
Qed.

(** ** Blocks *)

Lemma meets_quorums_agrees pid info id w1 w2 :
  agrees pid w1 w2 -> is_Some (own pid w1 id) ->
  meets_quorums pid info id w1 = meets_quorums pid info id w2.
Proof.
  intros H Ho. unfold meets_quorums. induction (required_roles (pi_policy info)) as [|rq l IH]; [done|].
  cbn. rewrite IH. do 2 f_equal; unfold role_stake, tally, value_at; cbn;
    by rewrite ?(ag_role _ _ _ H), ?(ag_tally _ _ _ H).
Qed.

(** The same change to a proposal of the project on both sides. *)
Lemma agrees_put_both pid id p p' w1 w2 :
  agrees pid w1 w2 -> own pid w1 id = Some p -> p_project_id p' = pid ->
  agrees pid (put_proposal id p' w1) (put_proposal id p' w2).
Proof.
  intros H Hp Hp'.
  assert (E : forall w id', own pid (put_proposal id p' w) id' = if decide (id' = id) then Some p' else own pid w id').
  { intros w id'. unfold own at 1. cbn. rewrite lookup_insert. repeat case_decide; try done; congruence. }
  assert (Hs : forall w id', own pid w id = Some p ->
    is_Some (own pid (put_proposal id p' w) id') <-> is_Some (own pid w id')).
  { intros w id' Hw. rewrite E. case_decide as Hd; [|done]. rewrite Hd, Hw. by split. }
  pose proof Hp as Hp2. rewrite (ag_own _ _ _ H) in Hp2. destruct H as [? ? ? ? Ho Hv Ht Hc ? ? Hpend].
  split; try done.
  - intros id'. rewrite (E w1), (E w2). case_decide; [done | apply Ho].
  - intros id' a Hi. apply Hv. by apply (Hs w1 id' Hp).
  - intros id' r Hi. apply Ht. by apply (Hs w1 id' Hp).
  - intros id' Hi. apply Hc. by apply (Hs w1 id' Hp).
  - intros n. rewrite (own_ids_agree pid _ w1) by (intros; by apply Hs).
    rewrite (own_ids_agree pid (put_proposal id p' w2) w2) by (intros; by apply Hs). apply Hpend.
Qed.

(** Enacting another project's proposal. *)
Lemma agrees_enacted_other pid id n w : own pid w id = None -> agrees pid w (enacted id n w).
Proof.
  intros Hid. unfold enacted. destruct (w_Proposals w !! id) as [p|] eqn:Hp; [|done].
  assert (Hne : p_project_id p <> pid) by (intros E; unfold own in Hid; by rewrite Hp, decide_True in Hid).
  destruct (p_status p); try done. destruct (w_Projects w !! p_project_id p); [|done]. case_match.
  - unfold publish. etrans; [|apply agrees_emit]. etrans; [|apply agrees_put; [by rewrite <- Hid | done]].
    split; try done; intros; cbn; (rewrite lookup_insert_ne; [done | congruence]).
  - unfold revoke. etrans; [|apply agrees_emit]. by apply agrees_put.
Qed.

(** Enacting a proposal of the project. *)
Lemma agrees_enacted_own pid id n w1 w2 :
  agrees pid w1 w2 -> is_Some (own pid w1 id) -> agrees pid (enacted id n w1) (enacted id n w2).
Proof.
  intros H Ho. destruct Ho as [p Hp]. pose proof Hp as [Hp1 <-]%own_Some.
  pose proof Hp as Hp2. rewrite (ag_own _ _ _ H) in Hp2. apply own_Some in Hp2 as [Hp2 _].
  unfold enacted. rewrite Hp1, Hp2. destruct (p_status p); try done.
  rewrite <- (ag_project _ _ _ H). destruct (w_Projects w1 !! p_project_id p) as [info|]; [|done].
  rewrite <- (meets_quorums_agrees _ info id _ _ H) by (by eexists). case_match.
  - assert (Ec : release_count (p_project_id p) w2 = release_count (p_project_id p) w1)
      by (unfold release_count, value_at; cbn; by rewrite (ag_count _ _ _ H)).
    unfold publish. rewrite Ec.
    etrans; [symmetry; apply agrees_emit|]. etrans; [|apply agrees_emit].
    apply agrees_put_both with p; [|done|done]. destruct H. split; try done.
    + cbn. by rewrite !lookup_insert_eq.
    + intros i. cbn. rewrite !lookup_insert. by case_decide.
  - etrans; [symmetry; apply agrees_emit|]. etrans; [|apply agrees_emit].
    by apply agrees_put_both with p.
Qed.

(** Enactments change no ownership. *)
Lemma own_enacted pid id n w id' : is_Some (own pid (enacted id n w) id') <-> is_Some (own pid w id').
Proof.
  unfold enacted. destruct (w_Proposals w !! id) as [p|] eqn:Hp; [|done].
  assert (E : forall s w', w_Proposals w' = <[id := with_status p s]> (w_Proposals w) ->
    is_Some (own pid w' id') <-> is_Some (own pid w id')).
  { intros s w' Ew. unfold own. rewrite Ew. destruct (decide (id' = id)) as [->|Hne].
    - rewrite lookup_insert_eq, Hp. cbn. case_decide; by split; intros [? ?].
    - by rewrite lookup_insert_ne. }
  destruct (p_status p); try done. destruct (w_Projects w !! p_project_id p); [|done].
  case_match; by eapply E.
Qed.

Lemma agrees_enacted pid id n w1 w2 :
  agrees pid w1 w2 -> agrees pid (enacted id n w1) (enacted id n w2).
Proof.
  intros H. destruct (own pid w1 id) eqn:E; [by apply agrees_enacted_own|].
  etrans; [symmetry; by apply agrees_enacted_other|]. etrans; [exact H|].
  apply agrees_enacted_other. by rewrite <- (ag_own _ _ _ H).
Qed.

#[export] Instance enacted_all_proper pid l n : Proper (agrees pid ==> agrees pid) (enacted_all l n).
Proof.
  induction l as [|id l IH]; intros w1 w2 H; [done|]. cbn. by apply IH, agrees_enacted.
Qed.

(** Of a list, only the project's part matters. *)
Lemma agrees_enacted_part pid l n w : agrees pid (enacted_all (own_ids pid w l) n w) (enacted_all l n w).
Proof.
  revert w. induction l as [|id l IH]; intros w; [done|]. unfold own_ids at 1. rewrite filter_cons.
  assert (Ef : filter (fun id => is_Some (own pid w id)) l = own_ids pid (enacted id n w) l)
    by (apply list_filter_iff; intros; symmetry; apply own_enacted).
  change (enacted_all (id :: l) n w) with (enacted_all l n (enacted id n w)).
  rewrite <- (IH (enacted id n w)). case_decide as Hd; rewrite Ef; [done|].
  apply enacted_all_proper, agrees_enacted_other. by apply eq_None_not_Some.
Qed.

#[export] Instance blocked_proper pid : Proper (agrees pid ==> agrees pid) blocked.
Proof.
  intros w1 w2 H. unfold blocked. rewrite <- (ag_now _ _ _ H).
  set (n := w_block_number w1 + 1).
  assert (Ho : agrees pid (opened w1) (opened w2)).
  { destruct H as [Hn ? ? ? ? ? ? ? ? ? Hp]. split; try done; [cbn; by rewrite Hn|].
    intros m. change (own_ids pid (opened ?w)) with (own_ids pid w).
    unfold pending, value_at. cbn. rewrite <- Hn. destruct (decide (m = w_block_number w1 + 1)) as [->|Hne].
    - by rewrite !lookup_delete_eq.
    - rewrite !lookup_delete_ne by done. apply Hp. }
  rewrite <- (agrees_enacted_part pid (pending n w1)), <- (agrees_enacted_part pid (pending n w2)).
  change (own_ids pid (opened ?w)) with (own_ids pid w). rewrite (ag_pending _ _ _ H n). by rewrite Ho.
Qed.

(** [k] blocks, and nothing else. *)
Fixpoint blocks_only (k : nat) w : World :=
  match k with O => w | S k' => blocks_only k' (blocked w) end.

#[export] Instance blocks_only_proper pid k : Proper (agrees pid ==> agrees pid) (blocks_only k).
Proof. induction k as [|k IH]; intros w1 w2 H; [done|]. cbn. by apply IH, blocked_proper. Qed.

(** ** Runs *)

Context {S : StorageLayer T}.

(** A run from [w] with [k] blocks in which no successful call is about the project. *)
Inductive outside pid : nat -> World -> World -> Prop :=
| outside_nil w : outside pid 0 w w
| outside_block k w w1 w' weight :
    w_block_number w < block_number_max -> next_block w = (Ok weight, w1) ->
    outside pid k w1 w' -> outside pid (1 + k) w w'
| outside_call k w w1 w' o c res :
    call_ok c -> dispatch o c w = (res, w1) -> (res = Ok tt -> concerns c w <> Some pid) ->
    outside pid k w1 w' -> outside pid k w w'
| outside_runtime k w w' evs c :
    currency_ok c -> (forall reason a, held reason a c = held reason a (w_currency w)) ->
    outside pid k (set_currency c (set_events evs w)) w' -> outside pid k w w'.

Lemma outside_steps pid k w w' : outside pid k w w' -> rtc step w w'.
Proof.
  induction 1 as [w|k w w1 w' weight Hb H1 _ IH|k w w1 w' o c res Hc H1 _ _ IH|k w w' evs c Hc Hh _ IH];
    [done| | |]; (eapply rtc_l; [|exact IH]).
  - by eapply step_block.
  - by eapply step_call.
  - by apply step_runtime.
Qed.

Lemma outside_agrees pid k w w' :
  reachable w -> outside pid k w w' -> w_NextProposalId w' < u32_max -> agrees pid (blocks_only k w) w'.
Proof.
  intros Hw H Hn. induction H as [w|k w w1 w' weight Hb H1 Hrun IH|k w w1 w' o c res Hc H1 Hno Hrun IH
    |k w w' evs c Hc Hh Hrun IH]; [done| | |].
  - rewrite next_block_run in H1. injection H1 as _ <-. cbn. apply IH; [|done].
    destruct Hw as (w0 & H0 & Hs). exists w0. split; [done|]. eapply rtc_r; [exact Hs|].
    eapply step_block; [done | apply next_block_run].
  - assert (Hs : step w w1) by (by eapply step_call).
    assert (Hw1 : reachable w1)
      by (destruct Hw as (w0 & H0 & Hs0); exists w0; split; [done | by eapply rtc_r]).
    rewrite <- (IH Hw1 Hn). apply blocks_only_proper. destruct res as [[]|e].
    + assert (Hl : live w) by (eapply live_back; [exact Hw | | exact Hn];
        eapply rtc_l; [exact Hs | by eapply outside_steps]).
      apply dispatch_Ok in H1. eapply agrees_call; [by apply live_inv | apply Hl | by apply Hno | exact H1].
    + by apply dispatch_Err in H1 as ->.
  - rewrite <- (IH ltac:(destruct Hw as (w0 & H0 & Hs); exists w0; split; [done | by eapply rtc_r, step_runtime]) Hn).
    by apply blocks_only_proper.
Qed.

(** C17: projects do not interfere. What a run does to a project that no successful call of the run is
    about is exactly what its blocks alone do: its policy, members, role totals, proposals with
    their statuses, votes, tallies, challenges, schedule and release log come out the same as if
    nobody had used the chain but to produce those blocks - whatever calls on other projects, failed
    calls and other transactions come in between. *)
Theorem projects_do_not_interfere pid k w w' :
  reachable w -> outside pid k w w' -> w_NextProposalId w' < u32_max ->
  agrees pid (blocks_only k w) w'.
Proof. apply outside_agrees. Qed.
End Isolation.

(** ** A run on another project *)

Fixpoint blocks_in (l : list action) : nat :=
  match l with
  | [] => 0
  | NextBlock :: l' => 1 + blocks_in l'
  | Do _ _ :: l' => blocks_in l'
  end.

Fixpoint outside_play (pid : ProjectId) (l : list action) (w : W) : bool :=
  match l with
  | [] => true
  | a :: l' =>
      match a with Do _ c => negb (bool_decide (concerns c w = Some pid)) | NextBlock => true end
      && match act a w with Some w' => outside_play pid l' w' | None => false end
  end.

Lemma outside_play_outside pid l (w w' : W) :
  play l w = Some w' -> outside_play pid l w = true -> outside pid (blocks_in l) w w'.
Proof.
  revert w. induction l as [|a l IH]; intros w; cbn -[act]; [intros [= <-] _; constructor|].
  destruct (act a w) as [w1|] eqn:E; [|done]. intros Hp [H1 H2]%andb_true_iff.
  destruct a as [o c|]; cbn -[dispatch next_block] in E.
  - destruct (bool_decide (call_ok c)) eqn:Hc; [|done]. apply bool_decide_eq_true in Hc.
    destruct (dispatch o c w) as [[[]|e] w2] eqn:Ed; [|done]. injection E as <-.
    eapply outside_call; [exact Hc | exact Ed | | by apply IH].
    intros _. by apply negb_true_iff, bool_decide_eq_false in H1.
  - destruct (w_block_number w <? u64_max) eqn:Hb; [|done]. rewrite next_block_run in E.
    injection E as <-. apply Z.ltb_lt in Hb. cbn [blocks_in].
    eapply outside_block; [exact Hb | apply next_block_run | by apply IH].
Qed.

(** Another project is founded, releases something, and loses a Build Service, while the release of
    project 0 waits for its block. *)
Definition elsewhere : list action :=
  [Do Root (genesis_with [mkStakeholderInit ALICE CoreDeveloper 10; mkStakeholderInit BOB CoreDeveloper 10;
     mkStakeholderInit BUILD_SERVICE BuildService 10]
     (mkReleasePolicy [mkRoleQuorum CoreDeveloper 600000000] 100 10));
   Do (signed ALICE) (release_call 1 (attestation (h xa2)) (sign (attestation (h xa2))));
   votes BOB 1 true] ++ blocks 4 ++ [Do (signed BOB) (submit_counter_attestation_call 1 (h xbb))] ++ blocks 6.

Lemma projects_do_not_interfere_witness :
  agrees 0 (blocks_only 10 (world_of approved)) (world_of (approved ++ elsewhere))
  /\ w_ReleaseLog (world_of (approved ++ elsewhere)) !! (0, 0) = Some (release_entry 0 (acme_release Enacted) 11).
Proof.
  split; [|vm_compute; reflexivity].
  apply (projects_do_not_interfere 0 10 (world_of approved) (world_of (approved ++ elsewhere))).
  - apply approved_live.
  - assert (Hp : playable (approved ++ elsewhere) = true) by (vm_compute; reflexivity).
    apply (outside_play_outside 0 elsewhere); [|vm_compute; reflexivity].
    exact (proj1 (proj2 (playable_app approved elsewhere Hp))).
  - vm_compute. reflexivity.
Defined.
