(* ===== verification/Governance.v ===== *)
(** * The governance process, abstractly

    What VeriGov promises, without the machinery that implements it: members with stakes, ballots,
    and releases that are published when Eq. 1 accepts them. There are no tallies, no role totals, no
    pending lists, no counters, no currency and no events here; acceptance is Eq. 1 itself, in
    rational numbers, over the members and the ballots. [Refinement] shows that the pallet implements
    these steps. *)
From stdpp Require Import prelude gmap vector.
From Stdlib Require Import Init.Byte QArith.
From S2P Require Import Prelude Types Config Storage Pallet Chain Exec Effects Registry Ballots.
#[local] Open Scope Z_scope.

Section Governance.
Context {T : Config}.
Implicit Types (id : ProposalId) (pid : ProjectId) (p : Proposal AccountId).

Record Gov := mkGov {
  g_now : Z;
  g_projects : gmap ProjectId ProjectInfo;
  g_members : gmap (ProjectId * AccountId) Stakeholder;
  g_proposals : gmap ProposalId (Proposal AccountId);
  g_ballots : gmap (ProposalId * AccountId) bool;
  g_discrepancies : gmap ProposalId (CounterAttestation AccountId);
  (** the Official Release Log of each project, oldest release first *)
  g_log : ProjectId -> list ReleaseEntry;
}.

(** Before the first project. *)
Definition unfounded (now : Z) : Gov := mkGov now ∅ ∅ ∅ ∅ ∅ (fun _ => []).

(** Eq. 1: for every required role, the share of its stake whose holders voted aye is at least the
    quorum. *)
Definition eq1 (members : gmap (ProjectId * AccountId) Stakeholder)
    (ballots : gmap (ProposalId * AccountId) bool) id pid (policy : ReleasePolicy) : Prop :=
  Forall (fun rq =>
    ((rq_quorum rq # 1000000000)
     <= inject_Z (voted_stake true id pid (rq_role rq) members ballots)
        / inject_Z (total_stake pid (rq_role rq) members))%Q) (required_roles policy).

(** The status of an open proposal after its ballots changed: scheduled when it becomes accepted,
    back to voting when it no longer is. *)
Inductive settles (now : Z) (policy : ReleasePolicy) (accepted : Prop) :
    ProposalStatus -> ProposalStatus -> Prop :=
| settles_schedule : accepted ->
    settles now policy accepted Voting
      (Approved (saturating_add block_number_max now (enactment_delay policy)))
| settles_wait : ~ accepted -> settles now policy accepted Voting Voting
| settles_keep n : accepted -> settles now policy accepted (Approved n) (Approved n)
| settles_revoke n : ~ accepted -> settles now policy accepted (Approved n) Voting.

(** The members a genesis adds. *)
Definition enroll pid (l : list (StakeholderInit AccountId))
    (members : gmap (ProjectId * AccountId) Stakeholder) : gmap (ProjectId * AccountId) Stakeholder :=
  foldl (fun m s => <[(pid, si_account s) := mkStakeholder (si_role s) (si_stake s)]> m) members l.

(** Publishing [ids], in order, in block [now]. *)
Definition published (ids : list ProposalId) (m : gmap ProposalId (Proposal AccountId)) :
    gmap ProposalId (Proposal AccountId) :=
  map_imap (fun id p => Some (if decide (id ∈ ids) then with_status p Enacted else p)) m.
Definition entries (now : Z) (m : gmap ProposalId (Proposal AccountId)) pid (ids : list ProposalId) :
    list ReleaseEntry :=
  omap (fun id =>
    match m !! id with
    | Some p => if decide (p_project_id p = pid) then Some (release_entry id p now) else None
    | None => None
    end) ids.

Inductive gstep : Gov -> Gov -> Prop :=
(** A project is founded with different members, and stake in every required role. *)
| gstep_found g pid name policy slashing bond l :
    g_projects g !! pid = None ->
    required_roles policy <> [] -> NoDup (si_account <$> l) ->
    (forall s, s ∈ l -> g_members g !! (pid, si_account s) = None) ->
    Forall (fun rq => total_stake pid (rq_role rq) (enroll pid l (g_members g)) <> 0)
      (required_roles policy) ->
    gstep g (mkGov (g_now g) (<[pid := mkProjectInfo name policy slashing bond]> (g_projects g))
      (enroll pid l (g_members g)) (g_proposals g) (g_ballots g) (g_discrepancies g) (g_log g))
(** A Core Developer proposes what a Build Service signed, and votes aye. *)
| gstep_propose g id p info sh bs sig s :
    g_proposals g !! id = None -> g_projects g !! p_project_id p = Some info ->
    g_members g !! (p_project_id p, p_proposer p) = Some sh -> sh_role sh = CoreDeveloper ->
    g_members g !! (p_project_id p, builder (p_attestation p)) = Some bs ->
    sh_role bs = BuildService ->
    verify sig (signing_payload (p_attestation p)) (builder (p_attestation p)) = true ->
    p_submitted_at p = g_now g ->
    p_voting_ends p = saturating_add block_number_max (g_now g) (voting_period (pi_policy info)) ->
    p_status p = Voting ->
    settles (g_now g) (pi_policy info)
      (eq1 (g_members g) (<[(id, p_proposer p) := true]> (g_ballots g)) id (p_project_id p)
        (pi_policy info)) Voting s ->
    gstep g (mkGov (g_now g) (g_projects g) (g_members g)
      (<[id := with_status p s]> (g_proposals g)) (<[(id, p_proposer p) := true]> (g_ballots g))
      (g_discrepancies g) (g_log g))
(** A member votes on an open proposal within its voting period; the last ballot counts. *)
| gstep_vote g id who aye p info s :
    g_proposals g !! id = Some p -> is_open (p_status p) = true ->
    g_now g <= p_voting_ends p -> g_projects g !! p_project_id p = Some info ->
    is_Some (g_members g !! (p_project_id p, who)) ->
    settles (g_now g) (pi_policy info)
      (eq1 (g_members g) (<[(id, who) := aye]> (g_ballots g)) id (p_project_id p) (pi_policy info))
      (p_status p) s ->
    gstep g (mkGov (g_now g) (g_projects g) (g_members g)
      (<[id := with_status p s]> (g_proposals g)) (<[(id, who) := aye]> (g_ballots g))
      (g_discrepancies g) (g_log g))
(** Another member exhibits a different binary: the builder loses the negligence share of its
    stake and the proposal is rejected. *)
| gstep_challenge g id who rebuilt p info sh :
    g_proposals g !! id = Some p -> is_open (p_status p) = true ->
    g_projects g !! p_project_id p = Some info ->
    is_Some (g_members g !! (p_project_id p, who)) -> who <> builder (p_attestation p) ->
    rebuilt <> output_binary_hash (p_attestation p) ->
    g_members g !! (p_project_id p, builder (p_attestation p)) = Some sh ->
    gstep g (mkGov (g_now g) (g_projects g)
      (<[(p_project_id p, builder (p_attestation p)) := mkStakeholder (sh_role sh)
          (sh_stake sh - sh_stake sh * sigma_neg (pi_slashing info) / PERBILL_ACCURACY)]>
        (g_members g))
      (<[id := with_status p Rejected]> (g_proposals g)) (g_ballots g)
      (<[id := mkCounterAttestation who (output_binary_hash (p_attestation p)) rebuilt]>
        (g_discrepancies g)) (g_log g))
(** A proposal that is not accepted is closed after its voting period. *)
| gstep_expire g id p info :
    g_proposals g !! id = Some p -> p_status p = Voting -> p_voting_ends p < g_now g ->
    g_projects g !! p_project_id p = Some info ->
    ~ eq1 (g_members g) (g_ballots g) id (p_project_id p) (pi_policy info) ->
    gstep g (mkGov (g_now g) (g_projects g) (g_members g)
      (<[id := with_status p Expired]> (g_proposals g)) (g_ballots g) (g_discrepancies g) (g_log g))
(** A new block publishes exactly what is scheduled for it, all of which is accepted. *)
| gstep_block g ids log :
    NoDup ids ->
    (forall id, id ∈ ids <->
      exists p, g_proposals g !! id = Some p /\ p_status p = Approved (g_now g + 1)) ->
    (forall id p info, id ∈ ids -> g_proposals g !! id = Some p ->
      g_projects g !! p_project_id p = Some info ->
      eq1 (g_members g) (g_ballots g) id (p_project_id p) (pi_policy info)) ->
    (forall pid, log pid = g_log g pid ++ entries (g_now g + 1) (g_proposals g) pid ids) ->
    gstep g (mkGov (g_now g + 1) (g_projects g) (g_members g) (published ids (g_proposals g))
      (g_ballots g) (g_discrepancies g) log).
End Governance.
