(* ===== verification/Escrow.v ===== *)
(** * Stakes and bonds: what is held, what is slashed, what comes back *)
From stdpp Require Import prelude gmap vector.
From Stdlib Require Import Init.Byte.
From S2P Require Import Prelude Types Config Storage Pallet Chain Mock Scenarios Exec Effects.
From S2P Require Import Registry Ballots Schedule Log Invariants Runs Quorum Lifecycle.
#[local] Open Scope Z_scope.

Section Escrow.
Context {T : Config} {L : ConfigLaws T}.
Implicit Types (w : World) (p : Proposal AccountId) (id : ProposalId) (pid : ProjectId).

(** The bond of an open proposal is fully held. *)
Lemma bond_le_held w id p :
  Inv w -> w_Proposals w !! id = Some p -> is_open (p_status p) = true ->
  p_bond p <= held ProposalBond (p_proposer p) (w_currency w).
Proof.
  intros HI Hp Ho. pose proof (inv_proposals _ HI) as HP.
  etrans; [|apply (pi_bonds _ _ _ _ _ _ _ _ HP)]. unfold open_bonds.
  replace (p_bond p) with (bond_part (p_proposer p) id p)
    by (unfold bond_part; by rewrite decide_True).
  apply msum_lookup_le; [|done]. intros k q Hq. unfold bond_part.
  pose proof (pi_bond _ _ _ _ _ _ _ _ HP _ _ Hq). case_decide; lia.
Qed.

(** A successful release of a bond that is fully held. *)
Lemma release_full who b y c c' :
  currency_ok c -> 0 <= b <= held ProposalBond who c ->
  release (hold_reason_into ProposalBond) who b BestEffort c = (Ok y, c') ->
  forall reason a, held reason a c'
    = held reason a c - (if decide ((reason, a) = (ProposalBond, who)) then b else 0).
Proof.
  intros Hc [Hb Hle] Hr reason a. case_decide as E.
  - simplify_eq. destruct (release_spec _ _ _ _ _ _ Hc Hb Hr) as (_ & _ & _ & _ & Hx).
    unfold held in *. rewrite (Hx y eq_refl). lia.
  - rewrite (release_other _ _ _ _ _ _ reason a Hc Hb Hr) by done. lia.
Qed.

(** The world a successful counter-attestation leaves, with every amount resolved. *)
Lemma counter_attestation_effect w w' o id rebuilt :
  Inv w -> submit_counter_attestation o id rebuilt w = (Ok tt, w') ->
  exists who p info sh Pend,
    o = Signed who /\ w_Proposals w !! id = Some p /\ is_open (p_status p) = true
    /\ w_Projects w !! p_project_id p = Some info
    /\ is_Some (w_Stakeholders w !! (p_project_id p, who))
    /\ who <> builder (p_attestation p)
    /\ rebuilt <> output_binary_hash (p_attestation p)
    /\ w_Stakeholders w !! (p_project_id p, builder (p_attestation p)) = Some sh
    /\ sh_role sh = BuildService
    /\ let x := sh_stake sh * sigma_neg (pi_slashing info) / PERBILL_ACCURACY in
       0 <= x <= sh_stake sh
    /\ (exists c1 c2 y, w' = rejected id p who rebuilt x (sh_stake sh - x) c2
          (slashed_stake (p_project_id p) (builder (p_attestation p)) sh x c1
            (set_PendingEnactments Pend w))
        /\ burn_held (hold_reason_into Stake) (builder (p_attestation p)) x BestEffort Force
             (w_currency w) = (Ok x, c1)
        /\ release (hold_reason_into ProposalBond) (p_proposer p) (p_bond p) BestEffort c1 = (Ok y, c2)).
Proof.
  intros HI H. apply submit_counter_attestation_Ok in H
    as (who & p & info & sh & x & c1 & y & c2 & Ho & Hp & Hi & Hk & Hne & Hd & Hop & Hsh & Hb & Hr & ->).
  destruct (unscheduled_frame id p w) as [Pend ->].
  destruct (inv_info _ _ _ HI Hi) as (_ & Hsl & _).
  destruct (pi_builder _ _ _ _ _ _ _ _ (inv_proposals _ HI) _ _ Hp) as (sh' & Hsh' & Hrole).
  assert (sh' = sh) as -> by congruence.
  pose proof (ri_stake _ _ _ _ (inv_registry _ HI) _ _ Hsh) as Hst.
  destruct (slash_amount _ _ Hsl Hst) as [Eam Ham].
  pose proof (slash_exact _ _ _ _ _ _ _ _ _ _ Hsl Hsh (inv_registry _ HI) Hb) as Hx.
  rewrite Eam in *. subst x. exists who, p, info, sh, Pend. cbv zeta.
  split_and!; try done; try lia. exists c1, c2, y. rewrite saturating_sub_exact by lia. done.
Qed.

Context {S : StorageLayer T}.

(** C19: stake is escrowed. In every live world the amount held from each account for [Stake] is
    the sum of its registered stakes over all projects, and the stored total of each role of each
    project is the sum of the stakes registered for it. *)
Theorem stake_is_escrowed w :
  live w ->
  (forall a, held Stake a (w_currency w) = escrow a (w_Stakeholders w))
  /\ (forall pid r, role_stake pid r w = total_stake pid r (w_Stakeholders w)).
Proof. intros Hw. destruct (inv_registry _ (live_inv _ Hw)) as [_ _ He HR _ _]. by split. Qed.

(** C18: tallies are the recorded votes. In every live world, for every proposal and every role but
    the slashable one, the ayes (nays) tallied are the stake of the stakeholders of that role whose
    recorded vote is aye (nay), and together they are at most the total stake of the role. *)
Theorem tallies_are_votes w id p r :
  live w -> w_Proposals w !! id = Some p -> r <> BuildService ->
  ayes (tally id r w) = voted_stake true id (p_project_id p) r (w_Stakeholders w) (w_Votes w)
  /\ nays (tally id r w) = voted_stake false id (p_project_id p) r (w_Stakeholders w) (w_Votes w)
  /\ ayes (tally id r w) + nays (tally id r w) <= role_stake (p_project_id p) r w.
Proof.
  intros Hw Hp Hr. pose proof (live_inv _ Hw) as HI.
  pose proof (inv_tallies _ HI id p r) as HT. specialize (HT) with (1 := Hp) (2 := Hr) as HT'.
  pose proof (HT true Hp Hr) as Ha. pose proof (HT false Hp Hr) as Hn.
  change (side true (tally_in (w_Tallies w) id r)) with (ayes (tally id r w)) in Ha.
  change (side false (tally_in (w_Tallies w) id r)) with (nays (tally id r w)) in Hn.
  split; [done|]. split; [done|]. rewrite Ha, Hn.
  etrans; [apply voted_stake_split, (ri_stake _ _ _ _ (inv_registry _ HI))|].
  rewrite <- (ri_role_stake _ _ _ _ (inv_registry _ HI)). done.
Qed.

(** C23: bonds are escrowed. In every live world the bonds of the open proposals of an account are
    held from it for [ProposalBond], in full. *)
Theorem bonds_are_escrowed w a :
  live w -> open_bonds a (w_Proposals w) <= held ProposalBond a (w_currency w).
Proof. intros Hw. apply (pi_bonds _ _ _ _ _ _ _ _ (inv_proposals _ (live_inv _ Hw))). Qed.

(** The negligence slash. A successful counter-attestation against a proposal takes from the
    Build Service that signed it exactly the fraction [sigma_neg] of its stake, rounded down: from
    its registered stake, from its hold, from the total of its role and from the total issuance,
    all by the same amount, and leaves every other stakeholder's stake and hold alone. *)
Lemma negligence_slash w w' o id rebuilt p info :
  live w -> w_Proposals w !! id = Some p -> w_Projects w !! p_project_id p = Some info ->
  dispatch o (submit_counter_attestation_call id rebuilt) w = (Ok tt, w') ->
  let pid := p_project_id p in
  let b := builder (p_attestation p) in
  exists stake x,
    w_Stakeholders w !! (pid, b) = Some (mkStakeholder BuildService stake)
    /\ x = stake * sigma_neg (pi_slashing info) / PERBILL_ACCURACY /\ 0 <= x <= stake
    /\ w_Stakeholders w' = <[(pid, b) := mkStakeholder BuildService (stake - x)]> (w_Stakeholders w)
    /\ (forall a, held Stake a (w_currency w')
          = held Stake a (w_currency w) - (if decide (a = b) then x else 0))
    /\ total_issuance (w_currency w') = total_issuance (w_currency w) - x
    /\ (forall pid' r, role_stake pid' r w' = role_stake pid' r w
          - (if decide ((pid', r) = (pid, BuildService)) then x else 0)).
Proof.
  intros Hw Hp Hinfo H pid b. pose proof (live_inv _ Hw) as HI. apply dispatch_Ok in H.
  apply (counter_attestation_effect _ _ _ _ _ HI) in H
    as (who & q & info' & sh & Pend & _ & Hq & _ & Hi & _ & _ & _ & Hsh & Hrole & Hx & c1 & c2 & y & -> & Hb & Hr).
  rewrite Hp in Hq. injection Hq as <-. rewrite Hinfo in Hi. injection Hi as <-.
  destruct sh as [r stake]. cbn in Hrole, Hx, Hb. subst r.
  pose proof (inv_currency_ok _ HI) as Hc.
  destruct (burn_held_spec _ _ _ _ _ _ Hc (proj1 Hx) Hb) as (Hc1 & Hf & _ & Hbal & Hti).
  pose proof (inv_bond _ _ _ HI Hp) as Hbd.
  destruct (release_spec _ _ _ _ _ _ Hc1 Hbd Hr) as (_ & Hti2 & _).
  exists stake. eexists. split; [done|]. split; [reflexivity|]. split_and!; cbn; try lia.
  - by rewrite saturating_sub_exact by lia.
  - intros a. rewrite (release_other _ _ _ _ _ _ Stake a Hc1 Hbd Hr) by congruence.
    unfold held in *. case_decide as E; [by subst a|].
    rewrite (Hf (hold_reason_into Stake) a) by (intros [= ->]; done). lia.
  - intros pid' r. unfold role_stake at 1, value_at. cbn. rewrite lookup_insert.
    repeat case_decide; simplify_eq; try congruence; [cbn | unfold role_stake, value_at; cbn; lia].
    rewrite saturating_sub_exact; [done|].
    pose proof (inv_registry _ HI) as HR. unfold role_stake, value_at. cbn.
    rewrite (ri_role_stake _ _ _ _ HR). etrans; [apply Hx|].
    apply (stake_le_total _ _ _ _ (ri_stake _ _ _ _ HR) Hsh).
Qed.

(** A challenge is justified and final. A successful counter-attestation comes from a
    stakeholder of the project other than the Build Service that signed the attestation, reports
    another binary hash than the attested one, and hits an open proposal; afterwards the proposal
    is [Rejected], pending for no block, and the discrepancy is on record. *)
Lemma challenge_rejects w w' o id rebuilt p :
  live w -> w_Proposals w !! id = Some p ->
  dispatch o (submit_counter_attestation_call id rebuilt) w = (Ok tt, w') ->
  w_NextProposalId w' < u32_max ->
  exists who, o = Signed who /\ is_Some (w_Stakeholders w !! (p_project_id p, who))
    /\ who <> builder (p_attestation p) /\ rebuilt <> output_binary_hash (p_attestation p)
    /\ is_open (p_status p) = true
    /\ w_Proposals w' !! id = Some (with_status p Rejected)
    /\ (forall n, id ∉ pending n w')
    /\ w_CounterAttestations w' !! id
       = Some (mkCounterAttestation who (output_binary_hash (p_attestation p)) rebuilt).
Proof.
  intros Hw Hp H Hn. pose proof (live_inv _ Hw) as HI. apply dispatch_Ok in H.
  pose proof (inv_submit_counter_attestation _ _ _ _ _ H HI) as HI'.
  apply (counter_attestation_effect _ _ _ _ _ HI) in H
    as (who & q & info' & sh & Pend & Ho & Hq & Hop & Hi & Hk & Hne & Hd & _ & _ & _ & c1 & c2 & y & E & _).
  rewrite Hp in Hq. injection Hq as <-. exists who.
  assert (Hp' : w_Proposals w' !! id = Some (with_status p Rejected))
    by (rewrite E; apply lookup_insert_eq).
  split_and!; try done.
  - intros n Hin. apply (sc_listed _ _ (inv_schedule _ HI')) in Hin as (q & Hq & Hs).
    rewrite Hp' in Hq. injection Hq as <-. done.
  - rewrite E. apply lookup_insert_eq.
Qed.

(** The calls that close a proposal by themselves. *)
Definition closes (c : Call) (id : ProposalId) : Prop :=
  c = close_expired_call id \/ exists rebuilt, c = submit_counter_attestation_call id rebuilt.

(** The bond comes back in full. When a proposal expires or is rejected, exactly its bond
    leaves its proposer's hold for [ProposalBond], and nobody else's bond moves. *)
Lemma bond_is_returned w w' o c id p :
  live w -> w_Proposals w !! id = Some p -> closes c id -> dispatch o c w = (Ok tt, w') ->
  forall a, held ProposalBond a (w_currency w')
    = held ProposalBond a (w_currency w) - (if decide (a = p_proposer p) then p_bond p else 0).
Proof.
  intros Hw Hp Hc H a. pose proof (live_inv _ Hw) as HI. apply dispatch_Ok in H.
  pose proof (inv_bond _ _ _ HI Hp) as Hb0. pose proof (inv_currency_ok _ HI) as Hc0.
  assert (E : forall a, (if decide ((ProposalBond, a) = (ProposalBond, p_proposer p))
      then p_bond p else 0) = if decide (a = p_proposer p) then p_bond p else 0).
  { intros a'. repeat case_decide; naive_solver. }
  destruct Hc as [->|[rebuilt ->]]; cbn in H.
  - apply close_expired_Ok in H as (who & q & y & c & _ & Hq & Hs & _ & Hr & ->).
    rewrite Hp in Hq. injection Hq as <-. cbn. rewrite <- E.
    apply (release_full _ _ y); [done | | done]. split; [done|].
    apply (bond_le_held _ _ _ HI Hp). by rewrite Hs.
  - apply (counter_attestation_effect _ _ _ _ _ HI) in H
      as (who & q & info' & sh & Pend & _ & Hq & Hop & _ & _ & _ & _ & Hsh & _ & Hx & c1 & c2 & y & -> & Hb & Hr).
    rewrite Hp in Hq. injection Hq as <-. cbn.
    destruct (burn_held_spec _ _ _ _ _ _ Hc0 (proj1 Hx) Hb) as (Hc1 & Hf & _).
    assert (Hh : forall a, held ProposalBond a c1 = held ProposalBond a (w_currency w)).
    { intros a'. by apply (held_frame Stake (builder (p_attestation p))). }
    rewrite <- E, <- Hh. apply (release_full _ _ y); [done | | done]. rewrite Hh.
    split; [done|]. by apply (bond_le_held _ _ _ HI Hp).
Qed.

(** ** Stakes over time *)

(** A registered stakeholder keeps its role, and its stake unless it is a Build Service, which can
    only lose. *)
Definition stake_kept (sh sh' : Stakeholder) : Prop :=
  sh_role sh' = sh_role sh /\ 0 <= sh_stake sh' <= sh_stake sh
  /\ (sh_role sh <> BuildService -> sh_stake sh' = sh_stake sh).

Definition stakes_kept (s s' : gmap (ProjectId * AccountId) Stakeholder) : Prop :=
  forall k sh, s !! k = Some sh -> exists sh', s' !! k = Some sh' /\ stake_kept sh sh'.

Lemma stakes_kept_same w w' :
  Inv w -> w_Stakeholders w' = w_Stakeholders w ->
  stakes_kept (w_Stakeholders w) (w_Stakeholders w').
Proof.
  intros HI -> k sh Hk. exists sh. pose proof (ri_stake _ _ _ _ (inv_registry _ HI) _ _ Hk).
  split; [done|]. by split_and!.
Qed.

Lemma do_vote_stakeholders id pid info who sh aye now p w w' :
  w_Proposals w !! id = Some p -> do_vote id pid info who sh aye now w = (Ok tt, w') ->
  w_Stakeholders w' = w_Stakeholders w.
Proof.
  intros Hp H. by destruct (do_vote_Ok _ _ _ _ _ _ _ _ _ _ Hp H)
    as [(-> & _)|[(n & _ & _ & _ & _ & ->)|(n & _ & _ & ->)]].
Qed.

Lemma stakes_kept_call o c w w' :
  Inv w -> call_body o c w = (Ok tt, w') -> stakes_kept (w_Stakeholders w) (w_Stakeholders w').
Proof.
  intros HI H. pose proof (ri_stake _ _ _ _ (inv_registry _ HI)) as HS. destruct c; cbn in H.
  - apply project_genesis_Ok in H as (_ & _ & w1 & H & _ & ->). cbn.
    apply (for_each_Ok _ (fun w1 => w_Stakeholders w ⊆ w_Stakeholders w1)) in H; [| |done].
    + intros k sh Hk. exists sh. split; [by eapply lookup_weaken|].
      pose proof (HS _ _ Hk). by split_and!.
    + intros s w2 w3 _ Hsub H3. apply register_stakeholder_Ok in H3 as (Hn & c & _ & ->). cbn.
      etrans; [exact Hsub|]. by apply insert_subseteq.
  - apply new_release_Ok in H as (who & info & sh & bs & c & _ & _ & _ & _ & _ & _ & _ & _ & H).
    apply stakes_kept_same; [done|].
    exact (do_vote_stakeholders _ _ _ _ _ _ _ _ _ _ (lookup_insert_eq _ _ _) H).
  - apply vote_Ok in H as (who & p & info & sh & _ & Hp & _ & _ & _ & _ & H).
    apply stakes_kept_same; [done|]. by eapply do_vote_stakeholders.
  - apply (counter_attestation_effect _ _ _ _ _ HI) in H
      as (who & q & info' & sh & Pend & _ & Hq & _ & _ & _ & _ & _ & Hsh & Hrole & Hx & c1 & c2 & y & -> & _).
    intros k sh' Hk. cbn. pose proof (HS _ _ Hk). rewrite lookup_insert. case_decide as E.
    + subst k. assert (sh' = sh) as -> by congruence. eexists. split; [done|].
      rewrite saturating_sub_exact by lia. split_and!; cbn; [done | lia | lia | done].
    + exists sh'. split; [done|]. by split_and!.
  - apply close_expired_Ok in H as (who & p & y & c & _ & _ & _ & _ & _ & ->).
    by apply stakes_kept_same.
Qed.

(** Stakes are safe: along any run of live worlds every registered stakeholder stays registered
    with its role, its stake never grows, and only a Build Service's stake can shrink. *)
Lemma stakes_kept_step w w' :
  Inv w -> step w w' -> stakes_kept (w_Stakeholders w) (w_Stakeholders w').
Proof.
  intros HI Hstep. destruct Hstep as [w weight w' _ H|w o c [[]|e] w' _ H|w evs c _ _].
  - rewrite next_block_run in H. injection H as _ <-. apply stakes_kept_same; [done|].
    apply (enacted_all_frame _ _ (opened w)).
  - apply dispatch_Ok in H. by eapply stakes_kept_call.
  - apply dispatch_Err in H as ->. by apply stakes_kept_same.
  - by apply stakes_kept_same.
Qed.

Lemma stakes_kept_trans s1 s2 s3 : stakes_kept s1 s2 -> stakes_kept s2 s3 -> stakes_kept s1 s3.
Proof.
  intros H1 H2 k sh1 Hk1. destruct (H1 _ _ Hk1) as (sh2 & Hk2 & R2 & S2 & N2).
  destruct (H2 _ _ Hk2) as (sh3 & Hk3 & R3 & S3 & N3). exists sh3. split; [done|].
  split_and!; [congruence | lia | lia |]. intros Hr. rewrite N3; [auto | congruence].
Qed.

Lemma stakes_kept_run w w' :
  reachable w -> rtc step w w' -> w_NextProposalId w' < u32_max ->
  stakes_kept (w_Stakeholders w) (w_Stakeholders w').
Proof.
  intros Hw Hs. revert Hw. induction Hs as [w|w1 w2 w3 H12 H23 IH]; intros Hw Hn.
  { apply stakes_kept_same; [apply live_inv; by split | done]. }
  assert (Hw2 : reachable w2) by (destruct Hw as (w0 & ? & ?); exists w0; eauto using rtc_r).
  eapply stakes_kept_trans; [|by apply IH]. apply stakes_kept_step; [|done].
  apply live_inv. eapply live_back; eauto using rtc_l.
Qed.
End Escrow.

(** ** The theorems at the acme-utils project *)

Definition challenge : action := Do (signed BOB) (submit_counter_attestation_call 0 (h xbb)).

Lemma stake_is_escrowed_witness :
  held Stake (BUILD_SERVICE : @AccountId Test) (w_currency (world_of challenged))
  = escrow (BUILD_SERVICE : @AccountId Test) (w_Stakeholders (world_of challenged)).
Proof. destruct (stake_is_escrowed (world_of challenged) challenged_live) as [H _]. exact (H _). Defined.

Lemma tallies_are_votes_witness :
  ayes (tally 0 CoreDeveloper (world_of approved)) = 3 * STAKE
  /\ ayes (tally 0 CoreDeveloper (world_of approved)) + nays (tally 0 CoreDeveloper (world_of approved))
     <= role_stake 0 CoreDeveloper (world_of approved).
Proof.
  split; [vm_compute; reflexivity|].
  destruct (tallies_are_votes (world_of approved) 0 (acme_release (Approved 11)) CoreDeveloper)
    as (_ & _ & H); [apply approved_live | vm_compute; reflexivity | discriminate | exact H].
Defined.

Lemma bonds_are_escrowed_witness :
  open_bonds (ALICE : @AccountId Test) (w_Proposals (world_of proposed)) = BOND
  /\ BOND <= held ProposalBond (ALICE : @AccountId Test) (w_currency (world_of proposed)).
Proof.
  split; [vm_compute; reflexivity|].
  exact (bonds_are_escrowed (world_of proposed) (ALICE : @AccountId Test) proposed_live).
Defined.
