(* ===== verification/Specs.v ===== *)
(** * Functional specifications of the calls

    For each call, a function of the world that says what dispatching it does on every branch: the
    first condition that fails, in the order the code tests them, with its error and the world as it
    was, or the world the call leaves. The theorems say that the calls, run through FRAME's storage
    layer, are these functions. *)
From stdpp Require Import prelude gmap vector.
From Stdlib Require Import Init.Byte.
From S2P Require Import Prelude Types Config Storage Pallet Chain Mock Scenarios Exec Effects.
#[local] Open Scope Z_scope.

Section Specs.
Context {T : Config} {S : StorageLayer T}.
Implicit Types (w : World) (p : Proposal AccountId) (id : ProposalId) (pid : ProjectId).

Definition outcome : Type := result unit DispatchError * World.

(** A call that fails leaves the world it found. *)
Definition fails (e : Error) w : outcome := (Err (ModuleError e), w).
Definition require (c : bool) (e : Error) w (k : outcome) : outcome := if c then k else fails e w.
Definition require_some {A} (o : option A) (e : Error) w (k : A -> outcome) : outcome :=
  match o with Some a => k a | None => fails e w end.

(** The outcome of a call from the run of its body. *)
Definition atomically w (r : outcome) : outcome :=
  match r with (Ok u, w') => (Ok u, w') | (Err e, _) => (Err e, w) end.

Lemma dispatch_atomically o c w : dispatch o c w = atomically w (call_body o c w).
Proof.
  destruct (call_body o c w) as [[u|e] w'] eqn:E; cbn.
  - by apply dispatch_commit.
  - by eapply dispatch_rollback.
Qed.

(** ** Votes *)

(** The vote of [who] on the stored proposal [p], recorded over [w]; [w0] is the world a failure
    falls back to. *)
Definition cast w0 id p (info : ProjectInfo) (who : AccountId) (sh : Stakeholder) (aye : bool)
    (now : Z) w : outcome :=
  let w1 := record_vote id who sh aye w in
  let at_ := saturating_add block_number_max now (enactment_delay (pi_policy info)) in
  match p_status p, meets_quorums (p_project_id p) info id w1 with
  | Voting, true =>
      if decide (length (pending at_ w1) < MaxEnactmentsPerBlock)%nat
      then (Ok tt, schedule id p at_ w1)
      else fails TooManyEnactments w0
  | Approved n, false => (Ok tt, revoke id p (unlist id n w1))
  | _, _ => (Ok tt, w1)
  end.

Definition vote_spec (who : AccountId) id (aye : bool) w : outcome :=
  require_some (w_Proposals w !! id) ProposalNotFound w (fun p =>
  require (is_open (p_status p)) ProposalNotVoting w (
  require (w_block_number w <=? p_voting_ends p) VotingPeriodOver w (
  require_some (w_Projects w !! p_project_id p) ProjectNotFound w (fun info =>
  require_some (w_Stakeholders w !! (p_project_id p, who)) NotStakeholder w (fun sh =>
  cast w id p info who sh aye (w_block_number w) w))))).

Lemma do_vote_cast w0 id p info who sh aye now w :
  w_Proposals w !! id = Some p ->
  atomically w0 (do_vote id (p_project_id p) info who sh aye now w) = cast w0 id p info who sh aye now w.
Proof.
  intros Hp. rewrite (do_vote_run _ _ _ _ _ _ _ _ _ Hp). unfold cast.
  destruct (p_status p), (meets_quorums (p_project_id p) info id (record_vote id who sh aye w));
    try reflexivity. by case_decide.
Qed.

Lemma dispatch_vote who id aye w :
  dispatch (Signed who) (vote_call id aye) w = vote_spec who id aye w.
Proof.
  rewrite dispatch_atomically. unfold vote_spec, require_some, require. cbn [call_body].
  unfold vote. erewrite bind_run by reflexivity. erewrite bind_run by reflexivity.
  cbn [item_get Proposals]. destruct (w_Proposals w !! id) as [p|] eqn:Hp; [|reflexivity].
  erewrite bind_run by reflexivity. destruct (is_open (p_status p)); [|reflexivity].
  erewrite bind_run by reflexivity. erewrite bind_run by reflexivity.
  destruct (w_block_number w <=? p_voting_ends p); [|reflexivity].
  erewrite bind_run by reflexivity. erewrite bind_run by reflexivity. cbn [item_get Projects].
  destruct (w_Projects w !! p_project_id p) as [info|]; [|reflexivity].
  erewrite bind_run by reflexivity. erewrite bind_run by reflexivity. cbn [item_get Stakeholders].
  destruct (w_Stakeholders w !! (p_project_id p, who)) as [sh|]; [|reflexivity].
  erewrite bind_run by reflexivity. by apply do_vote_cast.
Qed.

(** C26: what a vote does. A signed vote fails, in this order, when there is no such proposal, when
    it is closed, when its voting period is over, when its project is unknown and when the voter
    is not a stakeholder, leaving the world as it was; otherwise it records the vote, and then
    schedules the proposal if its quorums are now met (failing without a trace when the block of
    enactment is full), unschedules it if they no longer are, or leaves its status. *)
Theorem vote_meets_spec who id aye w :
  dispatch (Signed who) (vote_call id aye) w = vote_spec who id aye w.
Proof. apply dispatch_vote. Qed.

(** ** New releases *)

Definition has_role (r : Role) (sh : Stakeholder) : bool := bool_decide (sh_role sh = r).

Definition new_release_spec (who : AccountId) pid (version : list byte)
    (att : BuildAttestation AccountId) (cid : Hash32) (sig : Signature) w : outcome :=
  require_some (w_Projects w !! pid) ProjectNotFound w (fun info =>
  require_some (w_Stakeholders w !! (pid, who)) NotStakeholder w (fun sh =>
  require (has_role CoreDeveloper sh) NotCoreDeveloper w (
  require_some (w_Stakeholders w !! (pid, builder att)) NotBuildService w (fun bs =>
  require (has_role BuildService bs) NotBuildService w (
  require (verify sig (signing_payload att) (builder att)) InvalidBuilderSignature w (
  match hold (hold_reason_into ProposalBond) who (pi_proposal_bond info) (w_currency w) with
  | (Err e, _) => (Err (TokenFailure e), w)
  | (Ok _, c) =>
      let p := new_proposal info pid who version att cid (w_block_number w) in
      cast w (w_NextProposalId w) p info who sh true (w_block_number w) (submitted p c w)
  end)))))).

(** C25: what a release proposal does. It fails, in this order, when the project is unknown, the
    proposer is not a stakeholder or not a Core Developer, the named builder is not a Build Service
    of the project, or the builder's signature does not verify over the 128-byte payload, and with
    the currency's error when the bond cannot be held, leaving the world as it was; otherwise the
    bond is held, the proposal is stored under the next identifier, and the proposer's aye is
    cast. *)
Theorem new_release_meets_spec who pid version att cid sig w :
  dispatch (Signed who) (new_release_call pid version att cid sig) w
  = new_release_spec who pid version att cid sig w.
Proof.
  rewrite dispatch_atomically. unfold new_release_spec, require_some, require, has_role.
  cbn [call_body]. unfold new_release. do 2 (erewrite bind_run by reflexivity).
  cbn [item_get Projects]. destruct (w_Projects w !! pid) as [info|]; [|reflexivity].
  do 2 (erewrite bind_run by reflexivity). cbn [item_get Stakeholders].
  destruct (w_Stakeholders w !! (pid, who)) as [sh|]; [|reflexivity].
  erewrite bind_run by reflexivity.
  destruct (bool_decide (sh_role sh = CoreDeveloper)); [|reflexivity].
  do 2 (erewrite bind_run by reflexivity). cbn [item_get Stakeholders].
  destruct (w_Stakeholders w !! (pid, builder att)) as [bs|]; [|reflexivity].
  erewrite bind_run by reflexivity.
  destruct (bool_decide (sh_role bs = BuildService)); [|reflexivity].
  erewrite bind_run by reflexivity.
  destruct (verify sig (signing_payload att) (builder att)); [|reflexivity].
  erewrite bind_run by reflexivity.
  destruct (hold (hold_reason_into ProposalBond) who (pi_proposal_bond info) (w_currency w))
    as [[[]|e] c] eqn:Hh.
  - erewrite bind_run by (apply currency_call_run; exact Hh).
    do 5 (erewrite bind_run by reflexivity).
    apply (do_vote_cast w _ (new_proposal info pid who version att cid (w_block_number w))).
    apply lookup_insert_eq.
  - erewrite bind_run_err by (apply currency_call_err; exact Hh). reflexivity.
Qed.

(** ** Counter-attestations *)

Definition submit_counter_attestation_spec (who : AccountId) id (rebuilt : Hash32) w : outcome :=
  require_some (w_Proposals w !! id) ProposalNotFound w (fun p =>
  let pid := p_project_id p in
  let b := builder (p_attestation p) in
  require_some (w_Projects w !! pid) ProjectNotFound w (fun info =>
  require (bool_decide (is_Some (w_Stakeholders w !! (pid, who)))) NotStakeholder w (
  require (bool_decide (who <> b)) BuilderCannotChallenge w (
  require (bool_decide (rebuilt <> output_binary_hash (p_attestation p))) NoDiscrepancy w (
  require (is_open (p_status p)) ProposalNotChallengeable w (
  require_some (w_Stakeholders w !! (pid, b)) NotBuildService w (fun sh =>
  match burn_held (hold_reason_into Stake) b (mul_floor (sigma_neg (pi_slashing info)) (sh_stake sh))
          BestEffort Force (w_currency w) with
  | (Err e, _) => (Err (TokenFailure e), w)
  | (Ok x, c1) =>
      match release (hold_reason_into ProposalBond) (p_proposer p) (p_bond p) BestEffort c1 with
      | (Err e, _) => (Err (TokenFailure e), w)
      | (Ok _, c2) =>
          (Ok tt, rejected id p who rebuilt x (saturating_sub (sh_stake sh) x) c2
                    (slashed_stake pid b sh x c1 (unscheduled id p w)))
      end
  end))))))).

(** C27: what a counter-attestation does. It fails, in this order, when there is no such proposal,
    when its project is unknown, when the caller is not a stakeholder, when the caller built the
    release, when the hashes agree, when the proposal is closed, when the builder is not registered,
    and with the currency's error when the stake cannot be burned or the bond not released, always
    leaving the world as it was (a cancelled schedule included); otherwise the builder is slashed,
    the bond released and the proposal rejected. *)
Theorem submit_counter_attestation_meets_spec who id rebuilt w :
  dispatch (Signed who) (submit_counter_attestation_call id rebuilt) w
  = submit_counter_attestation_spec who id rebuilt w.
Proof.
  rewrite dispatch_atomically. unfold submit_counter_attestation_spec, require_some, require.
  cbn [call_body]. unfold submit_counter_attestation. do 2 (erewrite bind_run by reflexivity).
  cbn [item_get Proposals]. destruct (w_Proposals w !! id) as [p|]; [|reflexivity].
  do 2 (erewrite bind_run by reflexivity). cbn [item_get Projects].
  destruct (w_Projects w !! p_project_id p) as [info|]; [|reflexivity].
  do 2 (erewrite bind_run by reflexivity). cbn [item_get Stakeholders].
  destruct (bool_decide (is_Some (w_Stakeholders w !! (p_project_id p, who)))); [|reflexivity].
  erewrite bind_run by reflexivity. cbv zeta.
  destruct (bool_decide (who <> builder (p_attestation p))); [|reflexivity].
  erewrite bind_run by reflexivity.
  destruct (bool_decide (rebuilt <> output_binary_hash (p_attestation p))); [|reflexivity].
  erewrite bind_run by reflexivity.
  assert (Hst : forall K : M unit, atomically w ((match p_status p with
      | Voting => mret tt
      | Approved enact_at => map_mutate PendingEnactments [] enact_at (retain_not id)
      | _ => throw (ModuleError ProposalNotChallengeable) end;; K) w)
    = if is_open (p_status p) then atomically w (K (unscheduled id p w))
      else fails ProposalNotChallengeable w).
  { intros K. unfold unscheduled. by destruct (p_status p). }
  rewrite Hst. destruct (is_open (p_status p)); [|reflexivity]. clear Hst.
  destruct (unscheduled_frame id p w) as [Pend Hu]. rewrite Hu. clear Hu.
  erewrite bind_run by reflexivity. cbn [item_get Stakeholders].
  change (w_Stakeholders (set_PendingEnactments Pend w)) with (w_Stakeholders w).
  destruct (w_Stakeholders w !! (p_project_id p, builder (p_attestation p))) as [sh|]; [|reflexivity].
  erewrite bind_run by reflexivity.
  destruct (burn_held _ _ _ BestEffort Force (w_currency w)) as [[x|e] c1] eqn:Hb.
  - erewrite bind_run by (apply currency_call_run; exact Hb).
    do 2 (erewrite bind_run by reflexivity).
    destruct (release _ _ _ BestEffort c1) as [[y|e] c2] eqn:Hr.
    + erewrite bind_run by (apply currency_call_run; exact Hr).
      do 4 (erewrite bind_run by reflexivity). unfold deposit_event, modify, atomically.
      cbv beta iota. apply (f_equal (pair (Ok tt))).
      unfold rejected, slashed_stake, emit, put_proposal. world_eq w. reflexivity.
    + erewrite bind_run_err by (apply currency_call_err; exact Hr). reflexivity.
  - erewrite bind_run_err by (apply currency_call_err; exact Hb). reflexivity.
Qed.

(** ** Closing *)

Definition close_expired_spec id w : outcome :=
  require_some (w_Proposals w !! id) ProposalNotFound w (fun p =>
  require (bool_decide (p_status p = Voting)) ProposalNotVoting w (
  require (p_voting_ends p <? w_block_number w) VotingPeriodNotOver w (
  match release (hold_reason_into ProposalBond) (p_proposer p) (p_bond p) BestEffort (w_currency w) with
  | (Err e, _) => (Err (TokenFailure e), w)
  | (Ok _, c) => (Ok tt, expired id p c w)
  end))).

(** C28: what closing does. [close_expired], from any signed origin, fails when there is no such
    proposal, when it is not voting, when its voting period is not over, and with the currency's
    error when the bond cannot be released, leaving the world as it was; otherwise the bond is
    released and the proposal expired. *)
Theorem close_expired_meets_spec who id w :
  dispatch (Signed who) (close_expired_call id) w = close_expired_spec id w.
Proof.
  rewrite dispatch_atomically. unfold close_expired_spec, require_some, require. cbn [call_body].
  unfold close_expired. do 2 (erewrite bind_run by reflexivity). cbn [item_get Proposals].
  destruct (w_Proposals w !! id) as [p|]; [|reflexivity]. erewrite bind_run by reflexivity.
  destruct (bool_decide (p_status p = Voting)); [|reflexivity].
  do 2 (erewrite bind_run by reflexivity).
  destruct (p_voting_ends p <? w_block_number w); [|reflexivity].
  erewrite bind_run by reflexivity.
  destruct (release _ _ _ BestEffort (w_currency w)) as [[y|e] c] eqn:Hr.
  - by erewrite bind_run by (apply currency_call_run; exact Hr).
  - by erewrite bind_run_err by (apply currency_call_err; exact Hr).
Qed.

(** ** Project genesis *)

(** Register the stakeholders of the list in order, stopping at the first account that is already
    registered (in the list or before it) or cannot cover its stake. *)
Fixpoint register_spec pid (l : list (StakeholderInit AccountId)) w : outcome :=
  match l with
  | [] => (Ok tt, w)
  | s :: l' =>
      if decide (is_Some (w_Stakeholders w !! (pid, si_account s))) then fails DuplicateStakeholder w
      else
        match hold (hold_reason_into Stake) (si_account s) (si_stake s) (w_currency w) with
        | (Err e, c) => (Err (TokenFailure e), set_currency c w)
        | (Ok _, c) => register_spec pid l' (registered pid s c w)
        end
  end.

Definition project_genesis_spec (o : Origin) (name : list byte)
    (l : list (StakeholderInit AccountId)) (policy : ReleasePolicy) (slashing : SlashingParams)
    (bond : Z) w : outcome :=
  let pid := w_NextProjectId w in
  match o with
  | Root =>
      require (bool_decide (required_roles policy <> [])) NoRequiredRoles w (
      match register_spec pid l w with
      | (Err e, _) => (Err e, w)
      | (Ok _, w1) =>
          require (bool_decide (Forall (fun rq => role_stake pid (rq_role rq) w1 <> 0)
                                  (required_roles policy))) RequiredRoleHasNoStake w
            (Ok tt, created pid (mkProjectInfo name policy slashing bond) w1)
      end)
  | _ => (Err BadOrigin, w)
  end.

Lemma register_stakeholder_run pid s w :
  register_stakeholder pid s w =
    if decide (is_Some (w_Stakeholders w !! (pid, si_account s))) then fails DuplicateStakeholder w
    else
      match hold (hold_reason_into Stake) (si_account s) (si_stake s) (w_currency w) with
      | (Err e, c) => (Err (TokenFailure e), set_currency c w)
      | (Ok _, c) => (Ok tt, registered pid s c w)
      end.
Proof.
  unfold register_stakeholder. erewrite bind_run by reflexivity. cbn [item_get Stakeholders].
  case_decide as Hk; [rewrite bool_decide_eq_true_2 by done; reflexivity|].
  rewrite bool_decide_eq_false_2 by done. erewrite bind_run by reflexivity.
  destruct (hold _ _ _ (w_currency w)) as [[[]|e] c] eqn:Hh.
  - by erewrite bind_run by (apply currency_call_run; exact Hh).
  - by erewrite bind_run_err by (apply currency_call_err; exact Hh).
Qed.

Lemma register_loop pid l w : for_each (register_stakeholder pid) l w = register_spec pid l w.
Proof.
  revert w. induction l as [|s l IH]; intros w; [done|]. cbn [for_each register_spec].
  pose proof (register_stakeholder_run pid s w) as E. case_decide.
  { by rewrite (bind_run_err _ _ _ _ _ E). }
  destruct (hold _ _ _ (w_currency w)) as [[[]|e] c].
  - rewrite (bind_run _ _ _ _ _ E). apply IH.
  - by rewrite (bind_run_err _ _ _ _ _ E).
Qed.

Lemma check_loop pid l w :
  for_each (check_required_role pid) l w =
    require (bool_decide (Forall (fun rq => role_stake pid (rq_role rq) w <> 0) l))
      RequiredRoleHasNoStake w (Ok tt, w).
Proof.
  unfold require. induction l as [|rq l IH]; [by rewrite bool_decide_eq_true_2 by constructor|].
  cbn [for_each].
  assert (E : check_required_role pid rq w
    = ensure (negb (role_stake pid (rq_role rq) w =? 0)) RequiredRoleHasNoStake w) by reflexivity.
  destruct (Z.eqb_spec (role_stake pid (rq_role rq) w) 0) as [H0|H0].
  - rewrite (bind_run_err _ _ _ _ _ E), bool_decide_eq_false_2; [done|]. by inversion 1.
  - rewrite (bind_run _ _ _ _ _ E), IH.
    rewrite (bool_decide_ext _ (Forall (fun rq => role_stake pid (rq_role rq) w <> 0) (rq :: l)));
      [done|]. rewrite Forall_cons. tauto.
Qed.

(** C24: what genesis does. It fails, in this order, for any origin but root, without required
    roles, at the first stakeholder that is registered twice or whose stake cannot be held (with
    the currency's error), and when a required role has no stake, always leaving the world as it
    was, the stakes already held included; otherwise the stakeholders are registered in order and
    the project is stored under the next identifier. *)
Theorem project_genesis_meets_spec o name l policy slashing bond w :
  dispatch o (project_genesis_call name l policy slashing bond) w
  = project_genesis_spec o name l policy slashing bond w.
Proof.
  rewrite dispatch_atomically. unfold project_genesis_spec, require. cbn [call_body].
  unfold project_genesis. destruct o; [|reflexivity..]. erewrite bind_run by reflexivity.
  assert (Hne : negb (bool_decide (required_roles policy = []))
    = bool_decide (required_roles policy <> [])).
  { by rewrite bool_decide_not. }
  rewrite Hne. destruct (bool_decide (required_roles policy <> [])); [|reflexivity].
  do 2 (erewrite bind_run by reflexivity). cbn [item_get NextProjectId].
  destruct (register_spec (w_NextProjectId w) l w) as [[[]|e] w1] eqn:E; rewrite <- register_loop in E.
  - rewrite (bind_run _ _ _ _ _ E). pose proof (check_loop (w_NextProjectId w) (required_roles policy) w1)
      as Ec. unfold require in Ec. destruct (bool_decide (Forall _ (required_roles policy))).
    + by rewrite (bind_run _ _ _ _ _ Ec).
    + by rewrite (bind_run_err _ _ _ _ _ Ec).
  - by rewrite (bind_run_err _ _ _ _ _ E).
Qed.

(** ** Origins *)

(** Who may call. Projects are created by root only and everything else is signed: any other
    origin is rejected before anything else is looked at. *)
Theorem origins_are_checked o c w :
  match c with
  | project_genesis_call _ _ _ _ _ => o <> Root
  | _ => forall who, o <> Signed who
  end ->
  dispatch o c w = (Err BadOrigin, w).
Proof.
  rewrite dispatch_atomically. destruct c, o; intros H; cbn; try reflexivity; try done;
    by destruct (H who).
Qed.
End Specs.

Lemma origins_are_checked_witness :
  dispatch (signed ALICE) acme_genesis new_test_ext = (Err BadOrigin, new_test_ext)
  /\ dispatch (Root : TestOrigin) (vote_call 0 true) new_test_ext = (Err BadOrigin, new_test_ext).
Proof. split; apply origins_are_checked; discriminate. Defined.
