(* ===== verification/Genesis.v ===== *)
(** * Project genesis: what the registration loop adds up to *)
From stdpp Require Import prelude gmap vector.
From Stdlib Require Import Init.Byte.
From S2P Require Import Prelude Types Config Storage Pallet Chain Mock Scenarios Exec Effects.
From S2P Require Import Registry Ballots Schedule Log Invariants Runs.
#[local] Open Scope Z_scope.

Section Genesis.
Context {T : Config} {L : ConfigLaws T}.
Implicit Types (w : World) (pid : ProjectId) (s : StakeholderInit AccountId)
  (l : list (StakeholderInit AccountId)).

(** What the list gives to an account, and to a role. *)
Definition given_to (a : AccountId) l : Z :=
  sum_over (fun s => if decide (si_account s = a) then si_stake s else 0) l.
Definition given_for (r : Role) l : Z :=
  sum_over (fun s => if decide (si_role s = r) then si_stake s else 0) l.

Definition entry_of s : Stakeholder := mkStakeholder (si_role s) (si_stake s).

(** The effect of one registration on the sums. *)
Lemma registered_sums pid s w w1 :
  Inv w -> 0 <= si_stake s -> register_stakeholder pid s w = (Ok tt, w1) ->
  Inv w1 /\ w_Stakeholders w !! (pid, si_account s) = None
  /\ w_Stakeholders w1 = <[(pid, si_account s) := entry_of s]> (w_Stakeholders w)
  /\ (forall a, held Stake a (w_currency w1)
        = held Stake a (w_currency w) + (if decide (si_account s = a) then si_stake s else 0))
  /\ (forall r, role_stake pid r w1
        = role_stake pid r w + (if decide (si_role s = r) then si_stake s else 0)).
Proof.
  intros HI Hs H. apply register_stakeholder_Ok in H as (Hnew & c & Hh & ->).
  pose proof (inv_registered _ _ _ _ Hnew Hs Hh HI) as HI1. split_and!; try done.
  - intros a. rewrite (hold_held _ _ _ _ _ (inv_currency_ok _ HI) Hs Hh).
    repeat case_decide; naive_solver.
  - intros r. change (role_stake pid r (registered pid s c w))
      with (default 0 (w_RoleStake (registered pid s c w) !! (pid, r))).
    change (role_stake pid r w) with (default 0 (w_RoleStake w !! (pid, r))).
    rewrite (ri_role_stake _ _ _ _ (inv_registry _ HI)), (ri_role_stake _ _ _ _ (inv_registry _ HI1)).
    cbn [w_Stakeholders registered emit set_events set_RoleStake set_Stakeholders].
    rewrite total_stake_insert by done. unfold role_part. cbn.
    repeat case_decide; destruct_and?; simplify_eq; first [lia | tauto].
Qed.

Lemma registered_all pid l w w' :
  Inv w -> Forall (fun s => 0 <= si_stake s) l ->
  for_each (register_stakeholder pid) l w = (Ok tt, w') ->
  NoDup (si_account <$> l)
  /\ (forall s, s ∈ l -> w_Stakeholders w !! (pid, si_account s) = None)
  /\ (forall s, s ∈ l -> w_Stakeholders w' !! (pid, si_account s) = Some (entry_of s))
  /\ w_Stakeholders w ⊆ w_Stakeholders w'
  /\ (forall a, held Stake a (w_currency w') = held Stake a (w_currency w) + given_to a l)
  /\ (forall r, role_stake pid r w' = role_stake pid r w + given_for r l).
Proof.
  revert w. induction l as [|s l IH]; intros w HI Hl H; cbn in H; exec H.
  { split_and!; try done; try (by intros s ?%not_elem_of_nil); [constructor | |];
      intros; cbn; lia. }
  apply Forall_cons in Hl as [Hs Hl].
  destruct (registered_sums _ _ _ _ HI Hs H0) as (HI1 & Hnew & E1 & E2 & E3).
  destruct (IH _ HI1 Hl H) as (Hnd & Hnone & Hin & Hsub & Hto & Hfor). split_and!.
  - cbn. constructor; [|done]. intros (s' & E & Hs')%list_elem_of_fmap.
    specialize (Hnone _ Hs'). rewrite E1, <- E, lookup_insert_eq in Hnone. done.
  - intros s' [->|Hs']%elem_of_cons; [done|]. specialize (Hnone _ Hs'). rewrite E1 in Hnone.
    by apply lookup_insert_None in Hnone as [? _].
  - intros s' [->|Hs']%elem_of_cons; [|by apply Hin]. eapply lookup_weaken; [|exact Hsub].
    by rewrite E1, lookup_insert_eq.
  - etrans; [|exact Hsub]. rewrite E1. by apply insert_subseteq.
  - intros a. rewrite Hto, E2. unfold given_to. rewrite sum_over_cons. lia.
  - intros r. rewrite Hfor, E3. unfold given_for. rewrite sum_over_cons. lia.
Qed.

Context {S : StorageLayer T}.

(** What a successful genesis establishes. Under the next project identifier: the accounts of
    the list are pairwise different and registered with their roles and stakes, nobody else's
    registration changes, each account's hold for [Stake] grows by exactly what the list gives it,
    each role's total by what the list gives the role, every required role has stake, and the
    project is stored with the policy, the slashing parameters and the bond it was created with. *)
Lemma project_genesis_establishes w w' o name l policy slashing bond :
  live w -> call_ok (project_genesis_call name l policy slashing bond) ->
  dispatch o (project_genesis_call name l policy slashing bond) w = (Ok tt, w') ->
  let pid := w_NextProjectId w in
  o = Root /\ required_roles policy <> [] /\ NoDup (si_account <$> l)
  /\ (forall s, s ∈ l -> w_Stakeholders w' !! (pid, si_account s) = Some (entry_of s))
  /\ w_Stakeholders w ⊆ w_Stakeholders w'
  /\ (forall a, held Stake a (w_currency w') = held Stake a (w_currency w) + given_to a l)
  /\ (forall r, role_stake pid r w' = role_stake pid r w + given_for r l)
  /\ (forall rq, rq ∈ required_roles policy -> 0 < role_stake pid (rq_role rq) w')
  /\ w_Projects w' !! pid = Some (mkProjectInfo name policy slashing bond)
  /\ w_NextProjectId w' = saturating_add u32_max pid 1.
Proof.
  intros Hw (_ & _ & Hl & Hpol & Hsl & Hb) H pid. pose proof (live_inv _ Hw) as HI.
  apply dispatch_Ok in H. cbn in H.
  assert (Hl' : Forall (fun s => 0 <= si_stake s) l).
  { eapply Forall_impl; [exact Hl|]. by intros s [? _]. }
  pose proof (inv_project_genesis _ _ _ _ _ _ _ _ Hl' Hpol Hsl (proj1 Hb) H HI) as HI'.
  apply project_genesis_Ok in H as (-> & Hne & w1 & Hloop & Hreq & ->).
  destruct (registered_all _ _ _ _ HI Hl' Hloop) as (Hnd & _ & Hin & Hsub & Hto & Hfor).
  split_and!; try done; [|apply lookup_insert_eq].
  intros rq Hrq. rewrite Forall_forall in Hreq. specialize (Hreq _ Hrq).
  change (0 < role_stake pid (rq_role rq) w1). change (role_stake pid (rq_role rq) w1 <> 0) in Hreq.
  assert (0 <= role_stake pid (rq_role rq) w1); [|lia].
  pose proof (ri_role_stake _ _ _ _ (inv_registry _ HI') pid (rq_role rq)) as E. cbn in E.
  unfold role_stake, value_at. cbn. rewrite E.
  apply total_stake_nonneg, (ri_stake _ _ _ _ (inv_registry _ HI')).
Qed.
End Genesis.
