(* ===== verification/Refinement.v ===== *)
(** * The pallet implements the governance process

    [refines w g]: the world [w] represents the abstract state [g] of [Governance], its release log
    being the entries of each project in index order. Every step between [regular] worlds - live,
    with project identifiers left, no project requiring the slashable role, an issuance for which
    Eq. 1 is exact - is a step of the process or changes nothing of it, so every run is a run of the
    process. *)
From stdpp Require Import prelude gmap vector.
From Stdlib Require Import Init.Byte QArith.
From S2P Require Import Prelude Types Config Storage Pallet Chain Mock Scenarios Exec Effects.
From S2P Require Import Registry Ballots Schedule Log Invariants Runs Quorum Lifecycle Releases.
From S2P Require Import Decisions Genesis Governance.
#[local] Open Scope Z_scope.

Section Refinement.
Context {T : Config} {L : ConfigLaws T} {S : StorageLayer T}.
Implicit Types (w : World) (p : Proposal AccountId) (id : ProposalId) (pid : ProjectId) (g : Gov).

(** ** The representation *)

(** The log of a project as a list. *)
Definition log_of pid w : list ReleaseEntry :=
  omap (fun i => w_ReleaseLog w !! (pid, i)) (seqZ 0 (release_count pid w)).

Record refines w g : Prop := {
  rf_now : g_now g = w_block_number w;
  rf_projects : g_projects g = w_Projects w;
  rf_members : g_members g = w_Stakeholders w;
  rf_proposals : g_proposals g = w_Proposals w;
  rf_ballots : g_ballots g = w_Votes w;
  rf_discrepancies : g_discrepancies g = w_CounterAttestations w;
  rf_log pid : g_log g pid = log_of pid w;
}.

(** The abstract state a world represents. *)
Definition gov_of w : Gov :=
  mkGov (w_block_number w) (w_Projects w) (w_Stakeholders w) (w_Proposals w) (w_Votes w)
    (w_CounterAttestations w) (fun pid => log_of pid w).

Lemma refines_gov_of w : refines w (gov_of w).
Proof. done. Qed.

Record regular w : Prop := {
  rg_live : live w;
  rg_projects_left : w_NextProjectId w < u32_max;
  rg_policies pid info : w_Projects w !! pid = Some info -> slashable_excluded info;
  rg_issuance : total_issuance (w_currency w) * PERBILL_ACCURACY <= u128_max;
}.

Lemma regular_inv w : regular w -> Inv w.
Proof. intros Hw. apply live_inv, rg_live, Hw. Qed.

Lemma accepted_eq1 w id pid info :
  accepted w id pid info = eq1 (w_Stakeholders w) (w_Votes w) id pid (pi_policy info).
Proof. done. Qed.

(** ** Votes *)

(** [do_vote] settles the proposal, and touches nothing else of the process but the ballot. *)
Lemma do_vote_settles id info who sh aye p w w' :
  Inv w -> w_Proposals w !! id = Some p -> w_Projects w !! p_project_id p = Some info ->
  w_Stakeholders w !! (p_project_id p, who) = Some sh -> slashable_excluded info ->
  total_issuance (w_currency w) * PERBILL_ACCURACY <= u128_max -> is_open (p_status p) = true ->
  do_vote id (p_project_id p) info who sh aye (w_block_number w) w = (Ok tt, w') ->
  exists s,
    settles (w_block_number w) (pi_policy info)
      (eq1 (w_Stakeholders w) (<[(id, who) := aye]> (w_Votes w)) id (p_project_id p) (pi_policy info))
      (p_status p) s
    /\ w_block_number w' = w_block_number w /\ w_Projects w' = w_Projects w
    /\ w_Stakeholders w' = w_Stakeholders w
    /\ w_Proposals w' = <[id := with_status p s]> (w_Proposals w)
    /\ w_Votes w' = <[(id, who) := aye]> (w_Votes w)
    /\ w_CounterAttestations w' = w_CounterAttestations w
    /\ w_ReleaseLog w' = w_ReleaseLog w /\ w_ReleaseCount w' = w_ReleaseCount w.
Proof.
  intros HI Hp Hinfo Hsh Hsl Hmax Ho H. set (w1 := record_vote id who sh aye w).
  pose proof (inv_record_vote _ _ _ _ _ aye HI Hp Hsh) as HI1. fold w1 in HI1.
  assert (Heq : meets_quorums (p_project_id p) info id w1 = true <->
    eq1 (w_Stakeholders w) (<[(id, who) := aye]> (w_Votes w)) id (p_project_id p) (pi_policy info)).
  { by rewrite (meets_quorums_iff w1 id p info HI1), accepted_eq1. }
  assert (Hsame : <[id := with_status p (p_status p)]> (w_Proposals w) = w_Proposals w).
  { rewrite with_status_id. by apply insert_id. }
  assert (Hno : meets_quorums (p_project_id p) info id w1 = false -> ~ eq1 (w_Stakeholders w)
    (<[(id, who) := aye]> (w_Votes w)) id (p_project_id p) (pi_policy info)).
  { intros E He. apply Heq in He. congruence. }
  destruct (do_vote_Ok _ _ _ _ _ _ _ _ _ _ Hp H)
    as [(-> & Hv & Ha)|[(n & -> & Hst & Hm & _ & ->)|(n & Hst & Hm & ->)]].
  - exists (p_status p). rewrite Hsame. split; [|by split_and!]. destruct (p_status p); try done.
    + apply settles_wait. by apply Hno, Hv.
    + apply settles_keep. by eapply Heq, Ha.
  - eexists. split; [rewrite Hst; by apply settles_schedule, Heq | by split_and!].
  - exists Voting. split; [rewrite Hst; by apply settles_revoke, Hno | by split_and!].
Qed.

(** ** Genesis *)

Lemma registered_enroll pid l w w' :
  for_each (register_stakeholder pid) l w = (Ok tt, w') ->
  w_Stakeholders w' = enroll pid l (w_Stakeholders w)
  /\ w_block_number w' = w_block_number w /\ w_Projects w' = w_Projects w
  /\ w_Proposals w' = w_Proposals w /\ w_Votes w' = w_Votes w
  /\ w_CounterAttestations w' = w_CounterAttestations w
  /\ w_ReleaseLog w' = w_ReleaseLog w /\ w_ReleaseCount w' = w_ReleaseCount w.
Proof.
  revert w. induction l as [|s l IH]; intros w H; cbn in H; exec H; [by split_and!|].
  apply register_stakeholder_Ok in H0 as (_ & c & _ & ->).
  apply IH in H as (-> & -> & -> & -> & -> & -> & -> & ->). by split_and!.
Qed.

(** ** The log *)

Lemma log_of_frame pid w w' :
  w_ReleaseLog w' = w_ReleaseLog w -> w_ReleaseCount w' = w_ReleaseCount w ->
  log_of pid w' = log_of pid w.
Proof. intros E1 E2. unfold log_of, release_count, value_at. cbn. by rewrite E1, E2. Qed.

Lemma log_of_publish id p n w pid :
  log_inv (w_Proposals w) (w_ReleaseCount w) (w_ReleaseLog w) ->
  Z.of_nat (size (w_Proposals w)) <= u32_max ->
  w_Proposals w !! id = Some p -> p_status p <> Enacted ->
  log_of pid (publish id p n w)
  = log_of pid w ++ (if decide (p_project_id p = pid) then [release_entry id p n] else []).
Proof.
  intros HI Hsz Hp Hs. pose proof (count_lt_size _ _ _ _ _ (p_project_id p) HI Hp Hs) as Hc.
  set (q := p_project_id p) in *.
  change (count_in (w_ReleaseCount w) q) with (release_count q w) in Hc.
  assert (Ecount : release_count pid (publish id p n w)
    = if decide (pid = q) then release_count q w + 1 else release_count pid w).
  { unfold publish, release_count at 1, value_at. cbn. fold q. rewrite lookup_insert.
    case_decide as E1; case_decide as E2; subst; try done.
    cbn. fold q. apply saturating_add_exact. lia. }
  assert (Elog : w_ReleaseLog (publish id p n w)
    = <[(q, release_count q w) := release_entry id p n]> (w_ReleaseLog w)) by done.
  unfold log_of. rewrite Ecount, Elog. case_decide as E1; case_decide as E2; subst; try done.
  - rewrite seqZ_app by lia. rewrite omap_app. f_equal.
    + apply omap_agree. intros i Hi%elem_of_seqZ. rewrite lookup_insert_ne; [done|].
      intros [= E]. lia.
    + change (seqZ (0 + release_count q w) 1) with [0 + release_count q w]. cbn.
      by rewrite lookup_insert_eq.
  - rewrite app_nil_r. apply omap_agree. intros i _. rewrite lookup_insert_ne; [done|]. by intros [= E _].
Qed.

(** Enacting a list of scheduled and accepted proposals publishes its entries in order. *)
Lemma log_of_enacted_all l n w pid :
  NoDup l -> Inv (relisted n l w) ->
  (forall id p, id ∈ l -> w_Proposals w !! id = Some p -> verdict w id p = Enacted) ->
  log_of pid (enacted_all l n w) = log_of pid w ++ entries n (w_Proposals w) pid l.
Proof.
  intros Hl. revert w. induction Hl as [|id l Hni Hl IH]; intros w HI Hv; [by rewrite app_nil_r|].
  change (enacted_all (id :: l) n w) with (enacted_all l n (enacted id n w)).
  pose proof (inv_enacted _ _ _ _ HI) as HI1.
  destruct (sc_listed _ _ (inv_schedule _ HI) id n) as [(p & Hp & Hs) _].
  { cbn. rewrite listed_insert, decide_True by done. by left. }
  cbn in Hp. destruct (inv_project _ _ _ HI Hp) as [info Hinfo]. cbn in Hinfo.
  assert (Hid : verdict w id p = Enacted) by (apply Hv; [by left | done]).
  assert (E : enacted id n w = publish id p n w).
  { unfold verdict in Hid. unfold enacted. rewrite Hp, Hs, Hinfo in *. by case_match. }
  destruct (enacted_frame id n w) as (E1 & _ & E2 & E3 & _).
  rewrite IH; [|done|].
  - rewrite E at 1. rewrite log_of_publish; [|exact (inv_log _ HI) | exact (inv_size _ HI) | done
      | by rewrite Hs]. rewrite <- (assoc_L (++)). f_equal. unfold entries at 2. csimpl. rewrite Hp.
    assert (Hrest : entries n (w_Proposals (enacted id n w)) pid l = entries n (w_Proposals w) pid l).
    { apply omap_agree. intros id' Hid'. rewrite enacted_lookup_ne; [done|]. by intros ->. }
    rewrite Hrest. by case_decide.
  - intros id' p' Hin Hp'. rewrite enacted_lookup_ne in Hp' by (by intros ->).
    rewrite (verdict_frame _ _ w) by done. apply Hv; [by right | done].
Qed.

Lemma published_enacted_all l n w :
  NoDup l -> (forall id p, id ∈ l -> w_Proposals w !! id = Some p -> verdict w id p = Enacted) ->
  w_Proposals (enacted_all l n w) = published l (w_Proposals w).
Proof.
  intros Hl Hv. apply map_eq. intros id. rewrite enacted_all_lookup by done.
  unfold published. rewrite map_lookup_imap. destruct (w_Proposals w !! id) as [p|] eqn:Hp; cbn.
  - case_decide; [|done]. by rewrite (Hv id p).
  - by case_decide.
Qed.

(** What is scheduled for the next block of a regular world is accepted. *)
Lemma regular_verdict w id p :
  regular w -> w_Proposals w !! id = Some p -> (exists n, p_status p = Approved n) ->
  verdict w id p = Enacted
  /\ forall info, w_Projects w !! p_project_id p = Some info ->
      eq1 (w_Stakeholders w) (w_Votes w) id (p_project_id p) (pi_policy info).
Proof.
  intros Hw Hp [n Hs]. pose proof (regular_inv _ Hw) as HI.
  destruct (inv_project _ _ _ HI Hp) as [info Hinfo].
  pose proof (di_status _ (live_decided _ (rg_live _ Hw) (rg_projects_left _ Hw)) id p info Hp Hinfo
    (rg_policies _ Hw _ _ Hinfo)) as Hm. rewrite Hs in Hm. specialize (Hm eq_refl).
  split; [unfold verdict; by rewrite Hs, Hinfo, Hm|]. intros info' Hi. rewrite Hinfo in Hi.
  injection Hi as <-. rewrite <- accepted_eq1.
  apply (meets_quorums_iff w id p info HI); try done; [by eapply rg_policies | by apply rg_issuance].
Qed.

(** ** Each kind of step *)

(** What a step from [w] to [w'] does to the process. *)
Definition simulated w w' : Prop := gov_of w' = gov_of w \/ gstep (gov_of w) (gov_of w').

Lemma gov_of_frame w w' :
  w_block_number w' = w_block_number w -> w_Projects w' = w_Projects w ->
  w_Stakeholders w' = w_Stakeholders w -> w_Proposals w' = w_Proposals w ->
  w_Votes w' = w_Votes w -> w_CounterAttestations w' = w_CounterAttestations w ->
  w_ReleaseLog w' = w_ReleaseLog w -> w_ReleaseCount w' = w_ReleaseCount w ->
  gov_of w' = gov_of w.
Proof.
  unfold gov_of, log_of, release_count, value_at. cbn. by intros -> -> -> -> -> -> -> ->.
Qed.

Lemma simulated_block w : regular w -> simulated w (blocked w).
Proof.
  intros Hw. right. pose proof (regular_inv _ Hw) as HI.
  set (n := w_block_number w + 1). set (ids := pending n w).
  pose proof (inv_schedule _ HI) as HS.
  assert (Hnd : NoDup ids) by apply (sc_nodup _ _ HS).
  assert (Hin : forall id, id ∈ ids <-> exists p, w_Proposals w !! id = Some p /\ p_status p = Approved n)
    by (intros id; apply (sc_listed _ _ HS)).
  assert (Hv : forall id p, id ∈ ids -> w_Proposals (opened w) !! id = Some p ->
    verdict (opened w) id p = Enacted).
  { intros id p (q & Hq & Hs)%Hin Hp. cbn in Hp. rewrite Hq in Hp. injection Hp as <-.
    rewrite (verdict_frame _ _ w) by done. eapply regular_verdict; eauto. }
  destruct (enacted_all_frame ids n (opened w)) as (E1 & E2 & _ & _ & E3 & E4 & E5).
  unfold gov_of at 2, blocked. fold n ids. rewrite E1, E2, E3, E4, E5, published_enacted_all by done.
  apply (gstep_block (gov_of w) ids); [done | done | |].
  - intros id p info (q & Hq & Hs)%Hin Hp Hinfo. cbn in Hp. rewrite Hq in Hp. injection Hp as <-.
    destruct (regular_verdict w id q Hw Hq) as [_ H]; [by eexists | by apply H].
  - intros pid. apply (log_of_enacted_all ids n (opened w)); [done | by apply inv_opened | done].
Qed.

Lemma simulated_genesis o name l policy slashing bond w w' :
  regular w -> call_ok (project_genesis_call name l policy slashing bond) ->
  project_genesis o name l policy slashing bond w = (Ok tt, w') -> simulated w w'.
Proof.
  intros Hw (_ & _ & Hl & Hpol & Hsl & Hb) H. right. pose proof (regular_inv _ Hw) as HI.
  assert (Hl' : Forall (fun s => 0 <= si_stake s) l) by (eapply Forall_impl; [exact Hl | by intros s [? _]]).
  pose proof (inv_project_genesis _ _ _ _ _ _ _ _ Hl' Hpol Hsl (proj1 Hb) H HI) as HI'.
  apply project_genesis_Ok in H as (_ & Hne & w1 & Hloop & Hreq & ->).
  destruct (registered_all _ _ _ _ HI Hl' Hloop) as (Hnd & Hnone & _).
  destruct (registered_enroll _ _ _ _ Hloop) as (E1 & E2 & E3 & E4 & E5 & E6 & E7 & E8).
  assert (Hr : Forall (fun rq => total_stake (w_NextProjectId w) (rq_role rq)
    (enroll (w_NextProjectId w) l (w_Stakeholders w)) <> 0) (required_roles policy)).
  { eapply Forall_impl; [exact Hreq|]. intros rq. rewrite <- E1.
    by rewrite <- (ri_role_stake _ _ _ _ (inv_registry _ HI')). }
  assert (Hfresh : w_Projects w !! w_NextProjectId w = None).
  { apply eq_None_not_Some.
    intros Hi%(di_project _ (live_decided _ (rg_live _ Hw) (rg_projects_left _ Hw))). lia. }
  unfold gov_of at 2, created, log_of, release_count, value_at. cbn.
  rewrite E1, E2, E3, E4, E5, E6, E7, E8.
  by apply (gstep_found (gov_of w)).
Qed.

Lemma simulated_vote o id aye w w' :
  regular w -> vote o id aye w = (Ok tt, w') -> simulated w w'.
Proof.
  intros Hw H. right. pose proof (regular_inv _ Hw) as HI.
  apply vote_Ok in H as (who & p & info & sh & _ & Hp & Ho & Hend & Hinfo & Hsh & H).
  destruct (do_vote_settles _ _ _ _ _ _ _ _ HI Hp Hinfo Hsh (rg_policies _ Hw _ _ Hinfo)
    (rg_issuance _ Hw) Ho H) as (s & Hs & E1 & E2 & E3 & E4 & E5 & E6 & E7 & E8).
  unfold gov_of at 2, log_of, release_count, value_at. cbn. rewrite E1, E2, E3, E4, E5, E6, E7, E8.
  by apply (gstep_vote (gov_of w) id who aye p info).
Qed.

Lemma simulated_release o pid version att cid sig w w' :
  regular w -> new_release o pid version att cid sig w = (Ok tt, w') -> simulated w w'.
Proof.
  intros Hw H. right. pose proof (regular_inv _ Hw) as HI.
  pose proof (proj2 (rg_live _ Hw)) as Hnext.
  apply new_release_Ok in H
    as (who & info & sh & bs & c & _ & Hinfo & Hsh & Hcd & Hbs & Hr & Hsig & Hh & H).
  destruct (inv_info _ _ _ HI Hinfo) as (_ & _ & Hb).
  set (p := new_proposal info pid who version att cid (w_block_number w)) in *.
  assert (HI1 : Inv (submitted p c w)) by (by eapply inv_submitted).
  assert (Hp : w_Proposals (submitted p c w) !! w_NextProposalId w = Some p) by apply lookup_insert_eq.
  destruct (hold_spec _ _ _ _ _ (inv_currency_ok _ HI) Hb Hh) as (_ & Hiss & _).
  assert (Hmax : total_issuance (w_currency (submitted p c w)) * PERBILL_ACCURACY <= u128_max)
    by (cbn; rewrite Hiss; apply Hw).
  destruct (do_vote_settles _ _ _ _ _ _ _ _ HI1 Hp Hinfo Hsh (rg_policies _ Hw _ _ Hinfo) Hmax
    eq_refl H) as (s & Hs & E1 & E2 & E3 & E4 & E5 & E6 & E7 & E8).
  unfold gov_of at 2, log_of, release_count, value_at. cbn. rewrite E1, E2, E3, E4, E5, E6, E7, E8.
  cbn. rewrite insert_insert_eq.
  apply (gstep_propose (gov_of w) (w_NextProposalId w) p info sh bs sig); try done.
  eapply fresh_id; [apply HI | lia].
Qed.

Lemma simulated_challenge o id rebuilt w w' :
  regular w -> submit_counter_attestation o id rebuilt w = (Ok tt, w') -> simulated w w'.
Proof.
  intros Hw H. right. pose proof (regular_inv _ Hw) as HI.
  apply submit_counter_attestation_Ok in H
    as (who & p & info & sh & x & c1 & y & c2 & _ & Hp & Hinfo & Hwho & Hne & Hbin & Ho & Hsh & Hb & _ & ->).
  destruct (inv_info _ _ _ HI Hinfo) as (_ & Hslash & _).
  pose proof (slash_exact _ _ _ _ _ _ _ _ _ _ Hslash Hsh (inv_registry _ HI) Hb) as Hx.
  assert (Hst : 0 <= sh_stake sh) by (eapply ri_stake; [apply HI | exact Hsh]).
  destruct (slash_amount _ _ Hslash Hst) as [Hm Hm2]. rewrite <- Hx in Hm, Hm2.
  destruct (unscheduled_frame id p w) as [Pend ->].
  unfold gov_of at 2, log_of, release_count, value_at. cbn.
  replace (saturating_sub (sh_stake sh) x) with (sh_stake sh - x) by (unfold saturating_sub; lia).
  rewrite Hm. by apply (gstep_challenge (gov_of w) id who rebuilt p info sh).
Qed.

Lemma simulated_expire o id w w' :
  regular w -> close_expired o id w = (Ok tt, w') -> simulated w w'.
Proof.
  intros Hw H. right. pose proof (regular_inv _ Hw) as HI.
  apply close_expired_Ok in H as (who & p & y & c & _ & Hp & Hs & Hend & _ & ->).
  destruct (inv_project _ _ _ HI Hp) as [info Hinfo].
  apply (gstep_expire (gov_of w) id p info); try done. cbn. rewrite <- accepted_eq1.
  rewrite <- (meets_quorums_iff w id p info) by
    (done || by eapply rg_policies || by apply rg_issuance).
  rewrite (di_status _ (live_decided _ (rg_live _ Hw) (rg_projects_left _ Hw)) id p info Hp Hinfo
    (rg_policies _ Hw _ _ Hinfo)) by (by rewrite Hs). by rewrite Hs.
Qed.

Lemma simulated_step w w' : regular w -> step w w' -> simulated w w'.
Proof.
  intros Hw Hstep. destruct Hstep as [w weight w' _ H|w o c [[]|e] w' Hc H|w evs c Hc Hh].
  - rewrite next_block_run in H. injection H as _ <-. by apply simulated_block.
  - apply dispatch_Ok in H. destruct c; cbn in H.
    + by eapply simulated_genesis.
    + by eapply simulated_release.
    + by eapply simulated_vote.
    + by eapply simulated_challenge.
    + by eapply simulated_expire.
  - apply dispatch_Err in H as ->. by left.
  - by left.
Qed.

(** Steps taken in regular worlds. *)
Definition regular_step w w' : Prop := regular w /\ step w w'.

(** C2: the pallet refines the governance process. Every run of the chain from its initial state
    through regular worlds - blocks, the five calls, succeeding or failing, and steps of the rest
    of the runtime, interleaved in any way - is a run of the process of [Governance] from nothing,
    in which acceptance is Eq. 1 in rational numbers over the members and ballots, what is scheduled
    for a block is published in it and nothing else is, and only what Eq. 1 does not accept expires:
    the abstract state reached has the projects, members, proposals, ballots, discrepancies and
    release logs of the chain. *)
Theorem pallet_refines_governance w0 w :
  initial w0 -> rtc regular_step w0 w ->
  exists g, rtc gstep (unfounded (w_block_number w0)) g /\ refines w g.
Proof.
  intros H0 Hrun. exists (gov_of w). split; [|done].
  replace (unfounded (w_block_number w0)) with (gov_of w0).
  - clear H0. induction Hrun as [w|w w1 w' [Hw Hstep] _ IH]; [done|].
    destruct (simulated_step _ _ Hw Hstep) as [<-|Hg]; [done | by eapply rtc_l].
  - destruct H0 as (_ & _ & E1 & E2 & _ & E3 & E4 & _ & E5 & _ & E6 & _).
    unfold gov_of, unfounded, log_of, release_count, value_at. cbn.
    by rewrite E1, E2, E3, E4, E5, E6.
Qed.
End Refinement.

(** ** A run of the process *)

#[local] Instance slashable_excluded_dec info : Decision (slashable_excluded info).
Proof. unfold slashable_excluded. apply _. Defined.

(** The computable part of [regular]. *)
Definition seems_regular (w : W) : bool :=
  (w_NextProposalId w <? u32_max) && (w_NextProjectId w <? u32_max)
  && bool_decide (map_Forall (fun _ => slashable_excluded) (w_Projects w))
  && bool_decide (total_issuance (w_currency w) * PERBILL_ACCURACY <= u128_max).

Fixpoint regular_play (l : list action) (w : W) : bool :=
  match l with
  | [] => true
  | a :: l' => seems_regular w && match act a w with Some w' => regular_play l' w' | None => false end
  end.

Lemma seems_regular_regular (w : W) : reachable w -> seems_regular w = true -> regular w.
Proof.
  unfold seems_regular. intros Hr. rewrite !andb_true_iff, !Z.ltb_lt, !bool_decide_eq_true.
  intros (((H1 & H2) & H3) & H4). by split; [split| |intros pid info; apply (H3 pid)|].
Qed.

Lemma regular_play_steps l (w w' : W) :
  reachable w -> regular_play l w = true -> play l w = Some w' -> rtc regular_step w w'.
Proof.
  revert w. induction l as [|a l IH]; intros w Hr; cbn -[act]; [by intros _ [= <-]|].
  destruct (act a w) as [w1|] eqn:E; [|done]. intros [H1 H2]%andb_true_iff Hp.
  apply act_step in E. eapply rtc_l; [split; [by apply seems_regular_regular | exact E]|].
  apply IH; [|done|done]. destruct Hr as (w0 & H0 & Hs). exists w0. split; [done | by eapply rtc_r].
Qed.

(** The acme-utils release, from the empty chain to its publication. *)
Lemma pallet_refines_governance_witness :
  initial new_test_ext /\ rtc regular_step new_test_ext (world_of released)
  /\ exists g, rtc gstep (unfounded 1) g /\ refines (world_of released) g
     /\ g_log g 0 = [release_entry 0 (acme_release Enacted) 11].
Proof.
  assert (H0 : initial new_test_ext) by apply new_test_ext_initial.
  assert (Hrun : rtc regular_step new_test_ext (world_of released)).
  { apply (regular_play_steps released); [by eexists | vm_compute; reflexivity|].
    assert (Hplay : playable (released ++ []) = true) by (vm_compute; reflexivity).
    exact (proj1 (playable_app released [] Hplay)). }
  split; [exact H0|]. split; [exact Hrun|].
  destruct (pallet_refines_governance new_test_ext (world_of released) H0 Hrun) as (g & Hg & Hr).
  exists g. split; [exact Hg|]. split; [exact Hr|].
  rewrite (rf_log _ _ Hr 0). vm_compute. reflexivity.
Defined.
