(* ===== verification/Power.v ===== *)
(** * Who decides

    The two sides of Eq. 1 as power: stakeholders who together carry every quorum get a release
    published, whatever anybody else votes ([willing_quorum_releases]); stakeholders who hold more of a
    required role than its quorum leaves over keep a release out for as long as they withhold their
    ayes, whatever anybody else does ([blocking_minority_blocks]). With equal stakes both come down to
    counting heads ([equal_stakes_m_of_n]). *)
From stdpp Require Import prelude gmap vector.
From Stdlib Require Import Init.Byte QArith.
From S2P Require Import Prelude Types Config Storage Pallet Chain Mock Scenarios Exec Effects.
From S2P Require Import Registry Ballots Schedule Log Invariants Runs Quorum Lifecycle Releases.
From S2P Require Import Typing Decisions Escrow Specs Refinement.
#[local] Open Scope Z_scope.

Section Power.
Context {T : Config}.
Implicit Types (w : World) (p : Proposal AccountId) (id : ProposalId) (pid : ProjectId)
  (X : list AccountId) (r : Role).

(** The stake in role [r] of the accounts in [X]. *)
Definition held_part X pid (r : Role) (k : ProjectId * AccountId) (sh : Stakeholder) : Z :=
  if decide (k.1 = pid /\ sh_role sh = r /\ k.2 ∈ X) then sh_stake sh else 0.
Definition stake_in X pid (r : Role) (S : gmap (ProjectId * AccountId) Stakeholder) : Z :=
  msum (held_part X pid r) S.

(** Together, [X] can meet every quorum of the policy. *)
Definition carries X pid (policy : ReleasePolicy) (S : gmap (ProjectId * AccountId) Stakeholder) : Prop :=
  Forall (fun rq => rq_quorum rq * total_stake pid (rq_role rq) S
    <= stake_in X pid (rq_role rq) S * PERBILL_ACCURACY) (required_roles policy).

(** [X] holds more of the role than its quorum leaves over. *)
Definition can_block X pid (rq : RoleQuorum) (S : gmap (ProjectId * AccountId) Stakeholder) : Prop :=
  (PERBILL_ACCURACY - rq_quorum rq) * total_stake pid (rq_role rq) S
  < stake_in X pid (rq_role rq) S * PERBILL_ACCURACY.

Definition withheld X id w : Prop := forall a, a ∈ X -> w_Votes w !! (id, a) <> Some true.

Lemma stake_in_voted X id pid r (S : gmap (ProjectId * AccountId) Stakeholder) (V : gmap (ProposalId * AccountId) bool) :
  (forall k sh, S !! k = Some sh -> 0 <= sh_stake sh) ->
  (forall a, a ∈ X -> V !! (id, a) = Some true) ->
  stake_in X pid r S <= voted_stake true id pid r S V.
Proof.
  intros HS HX. apply msum_le. intros k sh Hk. pose proof (HS _ _ Hk). unfold held_part, voted_part.
  case_decide as E; case_decide as E'; try lia. destruct E as (? & ? & ?). destruct E'. auto.
Qed.

Lemma voted_without X id pid r w :
  (forall k sh, w_Stakeholders w !! k = Some sh -> 0 <= sh_stake sh) -> withheld X id w ->
  voted_stake true id pid r (w_Stakeholders w) (w_Votes w) + stake_in X pid r (w_Stakeholders w)
  <= total_stake pid r (w_Stakeholders w).
Proof.
  intros HS HX. unfold voted_stake, stake_in. rewrite <- msum_add. apply msum_le. intros k sh Hk.
  pose proof (HS _ _ Hk). unfold voted_part, held_part, role_part.
  case_decide as E1; case_decide as E2; case_decide as E3; try lia; try tauto.
  destruct E1 as (_ & _ & E), E2 as (_ & _ & Hin). by destruct (HX _ Hin).
Qed.

Context {L : ConfigLaws T} {SL : StorageLayer T}.

(** ** Blocking *)

(** A quorum that is blocked is not met. *)
Lemma blocked_quorum X id w p info rq :
  Inv w -> w_Proposals w !! id = Some p -> w_Projects w !! p_project_id p = Some info ->
  rq ∈ required_roles (pi_policy info) -> rq_role rq <> BuildService ->
  total_stake (p_project_id p) (rq_role rq) (w_Stakeholders w) * PERBILL_ACCURACY <= u128_max ->
  can_block X (p_project_id p) rq (w_Stakeholders w) -> withheld X id w ->
  meets_quorums (p_project_id p) info id w = false.
Proof.
  intros HI Hp Hinfo Hrq Hne Hmax Hb HX. pose proof HI as [HR HP HT _ _].
  pose proof (voted_without X id (p_project_id p) (rq_role rq) w (ri_stake _ _ _ _ HR) HX) as Hv.
  pose proof (voted_stake_le true id (p_project_id p) (rq_role rq) (w_Stakeholders w)
    (w_Votes w) (ri_stake _ _ _ _ HR)) as Hv0.
  destruct (inv_info _ _ _ HI Hinfo) as ((_ & Hq & _) & _). rewrite Forall_forall in Hq.
  destruct (Hq _ Hrq) as [Hq0 Hq1].
  destruct (meets_quorums (p_project_id p) info id w) eqn:Hm; [|done]. exfalso.
  unfold meets_quorums in Hm. rewrite forallb_forall in Hm.
  specialize (Hm rq (proj1 (list_elem_of_In _ _) Hrq)). cbn in Hm.
  change (ayes (tally id (rq_role rq) w)) with (side true (tally_in (w_Tallies w) id (rq_role rq))) in Hm.
  change (role_stake (p_project_id p) (rq_role rq) w)
    with (default 0 (w_RoleStake w !! (p_project_id p, rq_role rq))) in Hm.
  rewrite (HT _ _ _ true Hp Hne), (ri_role_stake _ _ _ _ HR) in Hm.
  set (t := total_stake (p_project_id p) (rq_role rq) (w_Stakeholders w)) in *.
  set (a := voted_stake true id (p_project_id p) (rq_role rq) (w_Stakeholders w) (w_Votes w)) in *.
  unfold can_block in Hb. fold t in Hb. unfold saturated_into_u128, PERBILL_ACCURACY in *.
  rewrite !Z.min_l in Hm by lia.
  destruct (decide (t = 0)) as [E|Ht]; [unfold quorum_met in Hm; by rewrite E in Hm|].
  apply quorum_met_exact in Hm; unfold PERBILL_ACCURACY in *; nia.
Qed.

(** ** The registry of a project is settled *)

(** The stake of a member in role [r]. *)
Definition stake_as r (S : gmap (ProjectId * AccountId) Stakeholder) k : option Z :=
  match S !! k with
  | Some sh => if decide (sh_role sh = r) then Some (sh_stake sh) else None
  | None => None
  end.

Definition settled pid r (S S' : gmap (ProjectId * AccountId) Stakeholder) : Prop :=
  forall a, stake_as r S' (pid, a) = stake_as r S (pid, a).

Lemma settled_sums X pid r S S' :
  settled pid r S S' ->
  total_stake pid r S' = total_stake pid r S /\ stake_in X pid r S' = stake_in X pid r S.
Proof.
  unfold settled, stake_as. intros H. split; apply msum_agree; intros [pid' a];
    (destruct (decide (pid' = pid)) as [->|Hne];
      [specialize (H a) | destruct (S' !! _), (S !! _); cbn; unfold role_part, held_part; cbn;
        repeat case_decide; try done; tauto]);
    destruct (S' !! _), (S !! _); cbn; unfold role_part, held_part; cbn;
    repeat case_decide; try done; try tauto; congruence.
Qed.

Lemma settled_refl pid r S : settled pid r S S.
Proof. done. Qed.

(** After genesis the roles that cannot be slashed keep their members and stakes. *)
Lemma settled_step w w' pid r :
  Inv w -> step w w' -> pid <> w_NextProjectId w -> r <> BuildService ->
  settled pid r (w_Stakeholders w) (w_Stakeholders w').
Proof.
  intros HI Hstep Hpid Hr. destruct Hstep as [w weight w' _ H|w o c [[]|e] w' _ H|w evs c _ _].
  - rewrite next_block_run in H. injection H as _ <-.
    destruct (enacted_all_frame (pending (w_block_number w + 1) w) (w_block_number w + 1) (opened w))
      as (_ & E & _). unfold blocked. by rewrite E.
  - apply dispatch_Ok in H. destruct c; cbn in H.
    + apply project_genesis_Ok in H as (_ & _ & w1 & H & _ & ->). cbn.
      apply (for_each_Ok _ (fun w1 => settled pid r (w_Stakeholders w) (w_Stakeholders w1))) in H;
        [done| |done].
      intros s w2 w3 _ H2 H3 a. apply register_stakeholder_Ok in H3 as (_ & c & _ & ->).
      rewrite <- H2. unfold stake_as. cbn. rewrite lookup_insert_ne; [done | congruence].
    + apply new_release_Ok in H as (who & info & sh & bs & c & _ & _ & _ & _ & _ & _ & _ & _ & H).
      by rewrite (do_vote_stakeholders _ _ _ _ _ _ _ _ _ _ (lookup_insert_eq _ _ _) H).
    + apply vote_Ok in H as (who & p & info & sh & _ & Hp & _ & _ & _ & _ & H).
      by rewrite (do_vote_stakeholders _ _ _ _ _ _ _ _ _ _ Hp H).
    + apply submit_counter_attestation_Ok in H
        as (who & p & info & sh & x & c1 & y & c2 & _ & Hp & _ & _ & _ & _ & _ & Hsh & _ & _ & ->).
      destruct (pi_builder _ _ _ _ _ _ _ _ (inv_proposals _ HI) _ _ Hp) as (sh' & Hsh' & Hrole).
      assert (sh' = sh) as -> by congruence. destruct (unscheduled_frame proposal_id p w) as [Pend ->].
      intros a. unfold stake_as. cbn. rewrite lookup_insert. case_decide as E; [|done].
      rewrite <- E, Hsh. cbn. by rewrite !decide_False by congruence.
    + by apply close_expired_Ok in H as (who & p & y & c & _ & _ & _ & _ & _ & ->).
  - by apply dispatch_Err in H as ->.
  - done.
Qed.

Lemma project_step w w' pid :
  Inv w -> step w w' -> pid <> w_NextProjectId w -> w_Projects w' !! pid = w_Projects w !! pid.
Proof.
  intros HI Hstep Hpid. destruct Hstep as [w weight w' _ H|w o c [[]|e] w' _ H|w evs c _ _].
  - rewrite next_block_run in H. injection H as _ <-.
    destruct (enacted_all_frame (pending (w_block_number w + 1) w) (w_block_number w + 1) (opened w))
      as (E & _). unfold blocked. by rewrite E.
  - apply dispatch_Ok in H. destruct c; cbn in H.
    + apply project_genesis_Ok in H as (_ & _ & w1 & H & _ & ->). apply register_frame in H as (_ & _ & E & _).
      cbn. by rewrite lookup_insert_ne, E.
    + apply new_release_Ok in H as (who & info & sh & bs & c & _ & _ & _ & _ & _ & _ & _ & _ & H).
      by destruct (do_vote_frame _ _ _ _ _ _ _ _ _ _ (lookup_insert_eq _ _ _) H) as [-> _].
    + apply vote_Ok in H as (who & p & info & sh & _ & Hp & _ & _ & _ & _ & H).
      by destruct (do_vote_frame _ _ _ _ _ _ _ _ _ _ Hp H) as [-> _].
    + apply submit_counter_attestation_Ok in H
        as (who & p & info & sh & x & c1 & y & c2 & H). destruct_and! H.
      destruct (unscheduled_frame proposal_id p w) as [Pend Eu]. subst w'. by rewrite Eu.
    + by apply close_expired_Ok in H as (who & p & y & c & _ & _ & _ & _ & _ & ->).
  - by apply dispatch_Err in H as ->.
  - done.
Qed.

(** A step that enacts a proposal finds its quorums met. *)
Lemma enactment_needs_quorums w w' id p p' info :
  live w -> live w' -> step w w' -> w_Proposals w !! id = Some p -> p_status p <> Enacted ->
  w_Projects w !! p_project_id p = Some info ->
  w_Proposals w' !! id = Some p' -> p_status p' = Enacted -> meets_quorums (p_project_id p) info id w = true.
Proof.
  intros Hw Hw' Hstep Hp Hs Hinfo Hp' Hs'.
  pose proof (inv_log _ (live_inv _ Hw)) as HL. pose proof (inv_log _ (live_inv _ Hw')) as HL'.
  destruct (lg_enacted _ _ _ HL' _ _ Hp' Hs') as (i & e & He & Hid).
  destruct (w_ReleaseLog w !! (p_project_id p', i)) as [e0|] eqn:E0.
  - pose proof (log_keeps_step _ _ (live_inv _ Hw) Hstep _ _ E0) as E1.
    rewrite He in E1. injection E1 as ->.
    destruct (lg_entry _ _ _ HL _ _ _ E0) as (q & Hq & Hqs & _). rewrite Hid, Hp in Hq. congruence.
  - destruct (log_step_sound _ _ _ _ _ Hw Hstep E0 He)
      as (id' & q & info' & Hq & _ & _ & Hqp & Hi & Hm & _ & -> & _).
    cbn in Hid. subst id'. rewrite Hp in Hq. injection Hq as <-. rewrite Hqp in *. congruence.
Qed.

(** Steps during which nobody in [X] has an aye on the proposal. *)
Definition withholding X id w w' : Prop := step w w' /\ withheld X id w'.

Lemma projects_left_back w w' :
  reachable w -> rtc step w w' -> w_NextProposalId w' < u32_max -> w_NextProjectId w' < u32_max ->
  w_NextProjectId w < u32_max.
Proof.
  intros Hw Hs Hn Hp.
  assert (H : w_NextProjectId w = u32_max -> w_NextProjectId w' = u32_max).
  { refine (live_run_ind (fun w w' => w_NextProjectId w = u32_max -> w_NextProjectId w' = u32_max)
      _ _ _ _ _ Hw Hs Hn); [done | auto |]. intros w1 w2 HI _ H12. by apply next_project_full. }
  destruct (wt_next_project _ (reachable_typed _ Hw)) as [_ Hr].
  destruct (decide (w_NextProjectId w = u32_max)); [lia|]. unfold u32_max in *. lia.
Qed.

(** C7: a blocking minority blocks. Take a required role other than the slashable [BuildService] role,
    whose total stake times 10^9 is at most [u128::MAX]. Stakeholders who hold more of it than its quorum
    leaves over keep a release out: along every run during which none of them has an aye on the
    proposal, and at whose end proposal and project identifiers are left, it is not enacted, whatever
    they vote instead and whatever everybody else does, in blocks, votes, slashes and other
    projects. *)
Theorem blocking_minority_blocks X id rq w w' p info :
  reachable w -> rtc (withholding X id) w w' ->
  w_NextProposalId w' < u32_max -> w_NextProjectId w' < u32_max ->
  w_Proposals w !! id = Some p -> p_status p <> Enacted -> w_Projects w !! p_project_id p = Some info ->
  rq ∈ required_roles (pi_policy info) -> rq_role rq <> BuildService ->
  total_stake (p_project_id p) (rq_role rq) (w_Stakeholders w) * PERBILL_ACCURACY <= u128_max ->
  can_block X (p_project_id p) rq (w_Stakeholders w) -> withheld X id w ->
  exists p', w_Proposals w' !! id = Some p' /\ p_status p' <> Enacted.
Proof.
  intros Hr Hrun Hn Hpn. revert p.
  induction Hrun as [w|w w1 w' [H1 Hx1] Hrun IH]; intros p Hp Hs Hinfo Hrq Hrole Hmax Hcan Hx; [by exists p|].
  assert (Hrun' : rtc step w1 w') by (eapply rtc_subrel; [|exact Hrun]; by intros ? ? [? _]).
  assert (Hr1 : reachable w1) by (destruct Hr as (w0 & ? & ?); exists w0; split; [done | by eapply rtc_r]).
  assert (Hl : live w) by (eapply live_back; [done | by eapply rtc_l | done]).
  assert (Hl1 : live w1) by (by eapply live_back).
  pose proof (live_inv _ Hl) as HI.
  assert (Hpid : p_project_id p <> w_NextProjectId w).
  { assert (Hpl : w_NextProjectId w < u32_max) by (eapply projects_left_back; eauto using rtc_l).
    pose proof (di_project _ (live_decided _ Hl Hpl) (p_project_id p) ltac:(by eexists)). lia. }
  destruct (settled_sums X _ _ _ _ (settled_step _ _ _ _ HI H1 Hpid Hrole)) as [Et Ex].
  destruct (evolves_step _ _ HI H1 _ _ Hp) as (s & Hp1 & Hnext).
  apply (IH Hr1 Hn Hpn (with_status p s)); try done; cbn.
  - intros ->. assert (Hm : meets_quorums (p_project_id p) info id w = true)
      by (by eapply (enactment_needs_quorums w w1)).
    by rewrite (blocked_quorum X id w p info rq) in Hm.
  - by rewrite (project_step _ _ _ HI H1 Hpid).
  - by rewrite Et.
  - unfold can_block. by rewrite Et, Ex.
Qed.

(** ** Carrying *)

(** The ayes of [X] on a proposal, one call each; [None] when one of them fails. *)
Fixpoint ayes_of id X w : option World :=
  match X with
  | [] => Some w
  | a :: X' =>
      match dispatch (Signed a) (vote_call id true) w with
      | (Ok _, w1) => ayes_of id X' w1
      | _ => None
      end
  end.

(** The block a proposal accepted now is scheduled for. *)
Definition slot (info : ProjectInfo) w : Z :=
  saturating_add block_number_max (w_block_number w) (enactment_delay (pi_policy info)).

(** The proposal is open to votes, and scheduled for block [n] or with room left there. *)
Record campaigning id p info (n : Z) w : Prop := {
  cm_regular : regular w;
  cm_info : w_Projects w !! p_project_id p = Some info;
  cm_time : w_block_number w <= p_voting_ends p;
  cm_slot : slot info w = n;
  cm_status : exists s, w_Proposals w !! id = Some (with_status p s)
    /\ ((s = Voting /\ (length (pending n w) < MaxEnactmentsPerBlock)%nat) \/ s = Approved n);
}.

(** An aye goes through, and the campaign goes on. *)
Lemma aye_counts id p info n who w :
  campaigning id p info n w -> is_Some (w_Stakeholders w !! (p_project_id p, who)) ->
  exists w1, dispatch (Signed who) (vote_call id true) w = (Ok tt, w1) /\ campaigning id p info n w1
    /\ w_Stakeholders w1 = w_Stakeholders w /\ w_block_number w1 = w_block_number w
    /\ w_Votes w1 = <[(id, who) := true]> (w_Votes w).
Proof.
  intros [Hreg Hinfo Htime Hslot (s & Hp & Hs)] [sh Hsh]. pose proof (regular_inv _ Hreg) as HI.
  assert (Hopen : is_open s = true) by (by destruct Hs as [[-> _]| ->]).
  assert (Hd : dispatch (Signed who) (vote_call id true) w
    = cast w id (with_status p s) info who sh true (w_block_number w) w).
  { rewrite dispatch_vote. unfold vote_spec, require_some, require. rewrite Hp. cbn.
    rewrite Hopen, Hinfo, Hsh. by destruct (Z.leb_spec (w_block_number w) (p_voting_ends p)); [|lia]. }
  assert (Hok : call_ok (vote_call id true)).
  { pose proof (pi_id _ _ _ _ _ _ _ _ (inv_proposals _ HI) _ _ Hp).
    pose proof (pi_next _ _ _ _ _ _ _ _ (inv_proposals _ HI)). cbn. unfold in_width. lia. }
  assert (Hkeep : forall w1, dispatch (Signed who) (vote_call id true) w = (Ok tt, w1) ->
    w_NextProposalId w1 = w_NextProposalId w -> w_NextProjectId w1 = w_NextProjectId w ->
    w_Projects w1 = w_Projects w -> w_currency w1 = w_currency w -> regular w1).
  { intros w1 H E1 E2 E3 E4. destruct Hreg as [Hl Hpl Hpol Hmax]. split.
    - eapply live_step; [exact Hl | eapply step_call; [exact Hok | exact H] | rewrite E1; apply Hl].
    - by rewrite E2.
    - intros pid info'. rewrite E3. apply Hpol.
    - by rewrite E4. }
  set (w1 := record_vote id who sh true w) in *.
  unfold cast in Hd. fold w1 in Hd. cbn -[meets_quorums] in Hd. fold (slot info w) in Hd. rewrite Hslot in Hd.
  destruct Hs as [[-> Hroom]| ->]; destruct (meets_quorums (p_project_id p) info id w1).
  - rewrite decide_True in Hd by exact Hroom. eexists. split; [exact Hd|].
    split; [|by split_and!]. split; [by eapply Hkeep | done | done | done|].
    exists (Approved n). split; [apply lookup_insert_eq | by right].
  - exists w1. split; [exact Hd|]. split; [|by split_and!]. split; [by eapply Hkeep | done | done | done|].
    exists Voting. split; [done | by left].
  - exists w1. split; [exact Hd|]. split; [|by split_and!]. split; [by eapply Hkeep | done | done | done|].
    exists (Approved n). split; [done | by right].
  - eexists. split; [exact Hd|]. split; [|by split_and!]. split; [by eapply Hkeep | done | done | done|].
    exists Voting. split; [apply lookup_insert_eq|]. left. split; [done|].
    unfold pending at 1, value_at. cbn. rewrite lookup_insert_eq. cbn.
    pose proof (sc_bound _ _ (inv_schedule _ HI) n) as Hb.
    eapply Nat.lt_le_trans; [|exact Hb]. apply (length_filter_lt _ _ id); [|tauto].
    apply (sc_listed _ _ (inv_schedule _ HI)). by eexists.
Qed.

Lemma ayes_count id p info n X w :
  campaigning id p info n w -> (forall a, a ∈ X -> is_Some (w_Stakeholders w !! (p_project_id p, a))) ->
  exists w1, ayes_of id X w = Some w1 /\ campaigning id p info n w1
    /\ w_Stakeholders w1 = w_Stakeholders w /\ w_block_number w1 = w_block_number w
    /\ forall a, a ∈ X \/ w_Votes w !! (id, a) = Some true -> w_Votes w1 !! (id, a) = Some true.
Proof.
  revert w. induction X as [|a X IH]; intros w Hc HX; cbn.
  { exists w. split_and!; try done. intros a [?%not_elem_of_nil|?]; done. }
  destruct (aye_counts id p info n a w Hc) as (w1 & -> & Hc1 & E1 & E2 & E3); [apply HX; by left|].
  destruct (IH w1 Hc1) as (w2 & -> & Hc2 & E4 & E5 & Hv).
  { intros b Hb. rewrite E1. apply HX. by right. }
  exists w2. split_and!; try done; try congruence. intros b Hb. apply Hv. rewrite E3.
  destruct (decide (b = a)) as [->|Hne]; [right; apply lookup_insert_eq|].
  destruct Hb as [[?|?]%elem_of_cons|Hb]; [done | by left | right].
  rewrite lookup_insert_ne; [done | congruence].
Qed.

(** Once all of [X] has voted aye, Eq. 1 accepts. *)
Lemma carried_accepted id p info n X w :
  campaigning id p info n w -> carries X (p_project_id p) (pi_policy info) (w_Stakeholders w) ->
  (forall a, a ∈ X -> w_Votes w !! (id, a) = Some true) -> accepted w id (p_project_id p) info.
Proof.
  intros Hc Hcarry HX. pose proof (regular_inv _ (cm_regular _ _ _ _ _ Hc)) as HI.
  pose proof (inv_registry _ HI) as HR. pose proof (cm_info _ _ _ _ _ Hc) as Hinfo.
  pose proof (rg_policies _ (cm_regular _ _ _ _ _ Hc) _ _ Hinfo) as Hsl.
  unfold carries, accepted, slashable_excluded in *. rewrite Forall_forall in *.
  intros rq Hrq. specialize (Hcarry _ Hrq). specialize (Hsl _ Hrq).
  pose proof (ri_required _ _ _ _ HR _ _ _ Hinfo Hrq Hsl) as Ht.
  unfold tau, aye_share. rewrite share_le by done.
  pose proof (stake_in_voted X id (p_project_id p) (rq_role rq) _ (w_Votes w) (ri_stake _ _ _ _ HR) HX).
  unfold PERBILL_ACCURACY in *. nia.
Qed.

(** C6: a willing quorum gets its release. Take a [regular] world - live, project identifiers left, no
    project requiring the slashable role, the issuance times 10^9 at most [u128::MAX] - and a proposal
    in [Voting] whose voting period is open. Stakeholders who together can meet every quorum and
    who vote aye one after the other now see each of their votes accepted and the release published by
    the block loop at the scheduled block, whatever votes, ayes or nays, others had cast before. It takes
    an enactment delay that schedules it for a later block, and room at that block. *)
Theorem willing_quorum_releases X id p info w (n := slot info w) :
  regular w -> w_Proposals w !! id = Some p -> p_status p = Voting ->
  w_Projects w !! p_project_id p = Some info -> w_block_number w <= p_voting_ends p ->
  w_block_number w < n -> (length (pending n w) < MaxEnactmentsPerBlock)%nat ->
  (forall a, a ∈ X -> is_Some (w_Stakeholders w !! (p_project_id p, a))) ->
  carries X (p_project_id p) (pi_policy info) (w_Stakeholders w) ->
  exists w1 w2, ayes_of id X w = Some w1 /\ run_to_block n w1 = Some w2
    /\ w_Proposals w2 !! id = Some (with_status p Enacted)
    /\ exists i, w_ReleaseLog w2 !! (p_project_id p, i) = Some (release_entry id p n).
Proof.
  intros Hreg Hp Hs Hinfo Htime Hlt Hroom HX Hcarry.
  assert (Hc : campaigning id p info n w).
  { split; [done | done | done | done|]. exists Voting. split; [|by left].
    by rewrite <- Hs, with_status_id. }
  destruct (ayes_count id p info n X w Hc HX) as (w1 & Hw1 & Hc1 & ES & EN & Hv).
  assert (Hacc : accepted w1 id (p_project_id p) info).
  { eapply carried_accepted; [exact Hc1 | by rewrite ES | auto]. }
  destruct Hc1 as [Hreg1 Hinfo1 _ _ (s & Hp1 & Hst)]. pose proof (regular_inv _ Hreg1) as HI1.
  pose proof (rg_policies _ Hreg1 _ _ Hinfo1) as Hsl.
  assert (Hm : meets_quorums (p_project_id p) info id w1 = true)
    by (apply (meets_quorums_iff w1 id _ info HI1 Hp1); [done | done | apply Hreg1 | done]).
  pose proof (di_status _ (live_decided _ (rg_live _ Hreg1) (rg_projects_left _ Hreg1)) id _ info Hp1
    Hinfo1 Hsl) as Hdec. cbn in Hdec. rewrite Hm in Hdec.
  assert (Es : s = Approved n) by (destruct Hst as [[-> _]| ->]; [by specialize (Hdec eq_refl) | done]).
  subst s. destruct (run_blocks_total (Z.to_nat (n - w_block_number w1)) n w1) as (w2 & Hw2 & _); [lia|].
  exists w1, w2. do 2 (split; [done|]).
  assert (Hverdict : verdict w1 id (with_status p (Approved n)) = Enacted)
    by (unfold verdict; cbn; by rewrite Hinfo1, Hm).
  assert (Hlt1 : w_block_number w1 < n) by lia.
  destruct (run_blocks_due _ n w1 w2 id _ HI1 Hp1 eq_refl Hlt1 Hw2) as [H1 H2].
  rewrite Hverdict in H1, H2. split; [done | by apply H2].
Qed.
(** ** Equal stakes: m of n

    Where the members of a role have equal stakes, the share of stake is the share of members. *)

Definition member_part pid (r : Role) (k : ProjectId * AccountId) (sh : Stakeholder) : Z :=
  if decide (k.1 = pid /\ sh_role sh = r) then 1 else 0.
Definition members pid (r : Role) (S : gmap (ProjectId * AccountId) Stakeholder) : Z :=
  msum (member_part pid r) S.
Definition supporter_part id pid (r : Role) (V : gmap (ProposalId * AccountId) bool)
    (k : ProjectId * AccountId) (sh : Stakeholder) : Z :=
  if decide (k.1 = pid /\ sh_role sh = r /\ V !! (id, k.2) = Some true) then 1 else 0.
Definition aye_members id pid (r : Role) (S : gmap (ProjectId * AccountId) Stakeholder)
    (V : gmap (ProposalId * AccountId) bool) : Z :=
  msum (supporter_part id pid r V) S.

Definition equal_stakes pid (r : Role) (s : Z) (S : gmap (ProjectId * AccountId) Stakeholder) : Prop :=
  forall a sh, S !! (pid, a) = Some sh -> sh_role sh = r -> sh_stake sh = s.

Lemma equal_stakes_sums id pid r s S V :
  equal_stakes pid r s S ->
  total_stake pid r S = s * members pid r S
  /\ voted_stake true id pid r S V = s * aye_members id pid r S V.
Proof.
  intros Hs. unfold total_stake, members, voted_stake, aye_members. rewrite <- !msum_scale.
  split; apply msum_ext; intros [pid' a] sh Hk;
    unfold role_part, member_part, voted_part, supporter_part; cbn; case_decide as E; [|lia| |lia].
  - destruct E as [-> Hr]. rewrite (Hs _ _ Hk Hr). lia.
  - destruct E as (-> & Hr & _). rewrite (Hs _ _ Hk Hr). lia.
Qed.

(** The number of ayes a quorum asks of [n] members: the share, rounded up. *)
Definition ayes_needed (rq : RoleQuorum) (n : Z) : Z :=
  (rq_quorum rq * n + (PERBILL_ACCURACY - 1)) / PERBILL_ACCURACY.

Lemma ayes_needed_le rq n m : ayes_needed rq n <= m <-> rq_quorum rq * n <= m * PERBILL_ACCURACY.
Proof.
  unfold ayes_needed, PERBILL_ACCURACY. split; intros H.
  - pose proof (Z.mod_pos_bound (rq_quorum rq * n + (1000000000 - 1)) 1000000000 ltac:(lia)).
    pose proof (Z.div_mod (rq_quorum rq * n + (1000000000 - 1)) 1000000000 ltac:(lia)). lia.
  - apply Z.lt_succ_r, Z.div_lt_upper_bound; lia.
Qed.

(** C8: constant stake recovers m-of-n. In every live world, for a project none of whose required roles
    is the slashable one and while the issuance times 10^9 is at most [u128::MAX]: where the members of
    every required role have equal stakes, the quorum test of the code counts heads. It accepts a
    proposal exactly when in each required role at least [ayes_needed] of the members have an aye on
    record, whatever the stakes are. *)
Theorem equal_stakes_m_of_n w id p info (s : Role -> Z) :
  live w -> w_Proposals w !! id = Some p -> w_Projects w !! p_project_id p = Some info ->
  slashable_excluded info -> total_issuance (w_currency w) * PERBILL_ACCURACY <= u128_max ->
  (forall rq, rq ∈ required_roles (pi_policy info) ->
    equal_stakes (p_project_id p) (rq_role rq) (s (rq_role rq)) (w_Stakeholders w)) ->
  meets_quorums (p_project_id p) info id w = true <->
  Forall (fun rq =>
    ayes_needed rq (members (p_project_id p) (rq_role rq) (w_Stakeholders w))
    <= aye_members id (p_project_id p) (rq_role rq) (w_Stakeholders w) (w_Votes w))
    (required_roles (pi_policy info)).
Proof.
  intros Hw Hp Hinfo Hsl Hmax Hs. pose proof (live_inv _ Hw) as HI.
  rewrite (meets_quorums_iff w id p) by done. unfold accepted. rewrite !Forall_forall.
  apply forall_proper. intros rq. apply forall_proper. intros Hrq.
  unfold slashable_excluded in Hsl. rewrite Forall_forall in Hsl.
  pose proof (ri_required _ _ _ _ (inv_registry _ HI) _ _ _ Hinfo Hrq (Hsl _ Hrq)) as Ht.
  destruct (equal_stakes_sums id _ _ _ _ (w_Votes w) (Hs _ Hrq)) as [Et Ev].
  unfold tau, aye_share. rewrite share_le, ayes_needed_le by done. rewrite Ev. rewrite Et in Ht |- *.
  assert (0 <= members (p_project_id p) (rq_role rq) (w_Stakeholders w)).
  { apply msum_nonneg. intros k sh _. unfold member_part. case_decide; lia. }
  assert (Hpos : 0 < s (rq_role rq)) by nia.
  rewrite Z.mul_shuffle3, <- (Z.mul_assoc (s _)). symmetry. by apply Z.mul_le_mono_pos_l.
Qed.
End Power.

(** ** The acme-utils stakeholders

    Bob, Carol and Dan with Alice, and Foo Audit, carry both quorums; three of the five Core Developers
    hold more than the 40% the quorum leaves over. *)

Definition supporters : list Z := [ALICE; BOB; CAROL; FOO_AUDIT].

Lemma willing_quorum_releases_witness :
  exists w1 w2, ayes_of 0 (supporters : list (@AccountId Test)) (world_of proposed) = Some w1
    /\ run_to_block 11 w1 = Some w2
    /\ w_Proposals w2 !! 0 = Some (acme_release Enacted)
    /\ exists i, w_ReleaseLog w2 !! (0, i) = Some (release_entry 0 (acme_release Voting) 11).
Proof.
  apply (willing_quorum_releases (supporters : list (@AccountId Test)) 0 (acme_release Voting) acme_info
    (world_of proposed)).
  - apply seems_regular_regular; [apply proposed_live | vm_compute; reflexivity].
  - vm_compute. reflexivity.
  - reflexivity.
  - vm_compute. reflexivity.
  - by vm_compute.
  - by vm_compute.
  - apply (bool_decide_unpack _). vm_compute. exact I.
  - intros a Ha. repeat (apply elem_of_cons in Ha as [->|Ha]; [vm_compute; by eexists|]).
    by apply not_elem_of_nil in Ha.
  - repeat constructor; by vm_compute.
Defined.

Definition objectors : list Z := [CAROL; DAN; EVE].

(** The others vote aye and twenty blocks go by. *)
Definition objected : list action := [votes BOB 0 true; votes FOO_AUDIT 0 true; votes EVE 0 false] ++ blocks 20.

(** [withheld], computed over the recorded votes. *)
Fixpoint withheld_play (X : list Z) (id : ProposalId) (l : list action) (w : W) : bool :=
  forallb (fun a => negb (bool_decide (w_Votes w !! (id, a : @AccountId Test) = Some true))) X
  && match l with
     | [] => true
     | a :: l' => match act a w with Some w' => withheld_play X id l' w' | None => false end
     end.

Lemma withheld_play_now X id l (w : W) : withheld_play X id l w = true -> withheld X id w.
Proof.
  intros H a Ha. assert (H' := H). destruct l; cbn -[act] in H'; apply andb_true_iff in H' as [H' _];
    rewrite forallb_forall in H'; specialize (H' a (proj1 (list_elem_of_In _ _) Ha));
    by apply negb_true_iff, bool_decide_eq_false in H'.
Qed.

Lemma withheld_play_run X id l (w w' : W) :
  withheld_play X id l w = true -> play l w = Some w' -> rtc (withholding X id) w w'.
Proof.
  revert w. induction l as [|a l IH]; intros w H; cbn -[act]; [by intros [= <-]|].
  cbn -[act] in H. apply andb_true_iff in H as [_ H]. destruct (act a w) as [w1|] eqn:E; [|done].
  intros Hp. eapply rtc_l; [|by apply IH]. split; [by eapply act_step | by eapply withheld_play_now].
Qed.

Lemma blocking_minority_blocks_witness :
  exists p', w_Proposals (world_of (proposed ++ objected)) !! 0 = Some p' /\ p_status p' <> Enacted.
Proof.
  assert (Hp : playable (proposed ++ objected) = true) by (vm_compute; reflexivity).
  assert (Hw : withheld_play objectors 0 objected (world_of proposed) = true) by (vm_compute; reflexivity).
  apply (blocking_minority_blocks (objectors : list (@AccountId Test)) 0 (mkRoleQuorum CoreDeveloper 600000000)
    (world_of proposed) (world_of (proposed ++ objected)) (acme_release Voting) acme_info).
  - apply proposed_live.
  - apply (withheld_play_run objectors 0 objected); [exact Hw|].
    exact (proj1 (proj2 (playable_app proposed objected Hp))).
  - by vm_compute.
  - by vm_compute.
  - vm_compute. reflexivity.
  - discriminate.
  - vm_compute. reflexivity.
  - by left.
  - discriminate.
  - by vm_compute.
  - by vm_compute.
  - exact (withheld_play_now objectors 0 objected (world_of proposed) Hw).
Defined.

Lemma equal_stakes_m_of_n_witness :
  meets_quorums 0 acme_info 0 (world_of approved) = true
  /\ ayes_needed (mkRoleQuorum CoreDeveloper 600000000)
       (members 0 CoreDeveloper (w_Stakeholders (world_of approved))) = 3
  /\ Forall (fun rq =>
       ayes_needed rq (members 0 (rq_role rq) (w_Stakeholders (world_of approved)))
       <= aye_members 0 0 (rq_role rq) (w_Stakeholders (world_of approved)) (w_Votes (world_of approved)))
       (required_roles acme_policy).
Proof.
  split; [by vm_compute|]. split; [by vm_compute|].
  refine (proj1 (equal_stakes_m_of_n (world_of approved) 0 (acme_release (Approved 11)) acme_info
    (fun _ => STAKE) approved_live _ _ _ _ _) _); try by vm_compute.
  - repeat constructor; by vm_compute.
  - intros rq Hrq a sh Hsh Hr.
    assert (E : map_Forall (fun _ sh => sh_role sh = BuildService \/ sh_stake sh = STAKE)
      (w_Stakeholders (world_of approved))).
    { refine (bool_decide_unpack _ _). vm_compute. exact I. }
    destruct (E _ _ Hsh) as [Hb|Hb]; [|exact Hb]. exfalso. rewrite Hr in Hb.
    apply elem_of_cons in Hrq as [-> | [-> | []%not_elem_of_nil]%elem_of_cons]; discriminate.
Defined.
