(* ===== verification/Voting.v ===== *)
(** * Voting: replacement, order, and how ballots move the tallies *)
From stdpp Require Import prelude gmap vector.
From Stdlib Require Import Init.Byte.
From S2P Require Import Prelude Types Config Storage Pallet Chain Mock Scenarios Exec Effects.
From S2P Require Import Registry Ballots Schedule Log Invariants Runs Quorum Lifecycle Releases.
From S2P Require Import Decisions.
#[local] Open Scope Z_scope.

Section Voting.
Context {T : Config} {L : ConfigLaws T} {S : StorageLayer T}.
Implicit Types (w : World) (p : Proposal AccountId) (id : ProposalId) (who : AccountId).

(** What a vote does to the ballots. *)
Lemma vote_effect w w' who id aye :
  Inv w -> dispatch (Signed who) (vote_call id aye) w = (Ok tt, w') ->
  exists p sh, w_Proposals w !! id = Some p
    /\ w_Stakeholders w !! (p_project_id p, who) = Some sh
    /\ (exists s, w_Proposals w' !! id = Some (with_status p s))
    /\ w_Votes w' = <[(id, who) := aye]> (w_Votes w)
    /\ w_Stakeholders w' = w_Stakeholders w
    /\ (exists t, w_Tallies w' = <[(id, sh_role sh) := t]> (w_Tallies w))
    /\ Inv w'.
Proof.
  intros HI H. apply dispatch_Ok in H. pose proof (inv_vote _ _ _ _ _ H HI) as HI'.
  change (vote (Signed who) id aye w = (Ok tt, w')) in H.
  apply vote_Ok in H as (who' & p & info & sh & [= <-] & Hp & _ & _ & _ & Hsh & H).
  exists p, sh. destruct (do_vote_evolves _ _ _ _ _ _ _ _ _ _ Hp H _ _ Hp) as (s & Hs & _).
  assert (HE : w_Votes w' = <[(id, who) := aye]> (w_Votes w) /\ w_Stakeholders w' = w_Stakeholders w
    /\ exists t, w_Tallies w' = <[(id, sh_role sh) := t]> (w_Tallies w)).
  { destruct (do_vote_Ok _ _ _ _ _ _ _ _ _ _ Hp H)
      as [(-> & _)|[(n & _ & _ & _ & _ & ->)|(n & _ & _ & ->)]];
      split_and!; try reflexivity; eexists; reflexivity. }
  destruct HE as (HV & HS & HT). split_and!; try done. by exists s.
Qed.

(** The tallies of the roles that are not slashable are determined by the votes. *)
Lemma tally_determined w w' id p p' r t t' :
  Inv w -> Inv w' -> w_Votes w = w_Votes w' -> w_Stakeholders w = w_Stakeholders w' ->
  w_Proposals w !! id = Some p -> w_Proposals w' !! id = Some p' ->
  p_project_id p = p_project_id p' -> r <> BuildService ->
  w_Tallies w !! (id, r) = Some t -> w_Tallies w' !! (id, r) = Some t' -> t = t'.
Proof.
  intros HI HI' EV ES Hp Hp' Epid Hr Ht Ht'.
  assert (E : forall b, side b t = side b t').
  { intros b. pose proof (inv_tallies _ HI _ _ _ b Hp Hr) as H1.
    pose proof (inv_tallies _ HI' _ _ _ b Hp' Hr) as H2.
    unfold tally_in in *. rewrite Ht in H1. rewrite Ht' in H2. cbn in *.
    by rewrite H1, H2, EV, ES, Epid. }
  pose proof (E true). pose proof (E false). destruct t, t'. cbn in *. by subst.
Qed.

(** Re-voting replaces. For a stakeholder whose role is not slashable, voting twice leaves the
    recorded votes and all tallies exactly as voting only the second time. *)
Lemma revote_replaces w w1 w2 w2' who id b1 b2 p sh :
  live w -> w_Proposals w !! id = Some p -> w_Stakeholders w !! (p_project_id p, who) = Some sh ->
  sh_role sh <> BuildService ->
  dispatch (Signed who) (vote_call id b1) w = (Ok tt, w1) ->
  dispatch (Signed who) (vote_call id b2) w1 = (Ok tt, w2) ->
  dispatch (Signed who) (vote_call id b2) w = (Ok tt, w2') ->
  w_Votes w2 = w_Votes w2' /\ w_Tallies w2 = w_Tallies w2'.
Proof.
  intros Hw Hp Hsh Hrole H1 H2 H2'. pose proof (live_inv _ Hw) as HI.
  apply (vote_effect _ _ _ _ _ HI) in H1 as (q & sh1 & Hq & Hs1 & (s1 & Hp1) & EV1 & ES1 & (t1 & ET1) & HI1).
  rewrite Hp in Hq. injection Hq as <-. rewrite Hsh in Hs1. injection Hs1 as <-.
  apply (vote_effect _ _ _ _ _ HI1) in H2 as (q & sh2 & Hq & Hs2 & (s2 & Hp2) & EV2 & ES2 & (t2 & ET2) & HI2).
  rewrite Hp1 in Hq. injection Hq as <-. cbn in Hs2. rewrite ES1, Hsh in Hs2. injection Hs2 as <-.
  apply (vote_effect _ _ _ _ _ HI) in H2' as (q & sh3 & Hq & Hs3 & (s3 & Hp3) & EV3 & ES3 & (t3 & ET3) & HI3).
  rewrite Hp in Hq. injection Hq as <-. rewrite Hsh in Hs3. injection Hs3 as <-.
  assert (EV : w_Votes w2 = w_Votes w2') by (by rewrite EV2, EV1, EV3, insert_insert_eq).
  split; [done|]. rewrite ET2, ET1, ET3, insert_insert_eq. f_equal.
  eapply (tally_determined w2 w2'); try done; [by rewrite ES2, ES1, ES3 | |];
    rewrite ?ET2, ?ET3; by rewrite lookup_insert_eq.
Qed.

(** C40: the order of votes does not matter to the tallies. Two stakeholders of a project whose roles are
    not slashable, and whose votes are accepted in either order, leave the same recorded votes and the
    same tallies whichever votes first. *)
Theorem votes_commute w w1 w12 w2 w21 who1 who2 id b1 b2 p sh1 sh2 :
  live w -> who1 <> who2 -> w_Proposals w !! id = Some p ->
  w_Stakeholders w !! (p_project_id p, who1) = Some sh1 -> sh_role sh1 <> BuildService ->
  w_Stakeholders w !! (p_project_id p, who2) = Some sh2 -> sh_role sh2 <> BuildService ->
  dispatch (Signed who1) (vote_call id b1) w = (Ok tt, w1) ->
  dispatch (Signed who2) (vote_call id b2) w1 = (Ok tt, w12) ->
  dispatch (Signed who2) (vote_call id b2) w = (Ok tt, w2) ->
  dispatch (Signed who1) (vote_call id b1) w2 = (Ok tt, w21) ->
  w_Votes w12 = w_Votes w21 /\ w_Tallies w12 = w_Tallies w21.
Proof.
  intros Hw Hne Hp Hk1 Hr1 Hk2 Hr2 H1 H12 H2 H21. pose proof (live_inv _ Hw) as HI.
  apply (vote_effect _ _ _ _ _ HI) in H1 as (q & s & Hq & Hs & (st1 & Hp1) & EV1 & ES1 & (t1 & ET1) & HI1).
  rewrite Hp in Hq. injection Hq as <-. rewrite Hk1 in Hs. injection Hs as <-.
  apply (vote_effect _ _ _ _ _ HI1) in H12 as (q & s & Hq & Hs & (st12 & Hp12) & EV12 & ES12 & (t12 & ET12) & HI12).
  rewrite Hp1 in Hq. injection Hq as <-. cbn in Hs. rewrite ES1, Hk2 in Hs. injection Hs as <-.
  apply (vote_effect _ _ _ _ _ HI) in H2 as (q & s & Hq & Hs & (st2 & Hp2) & EV2 & ES2 & (t2 & ET2) & HI2).
  rewrite Hp in Hq. injection Hq as <-. rewrite Hk2 in Hs. injection Hs as <-.
  apply (vote_effect _ _ _ _ _ HI2) in H21 as (q & s & Hq & Hs & (st21 & Hp21) & EV21 & ES21 & (t21 & ET21) & HI21).
  rewrite Hp2 in Hq. injection Hq as <-. cbn in Hs. rewrite ES2, Hk1 in Hs. injection Hs as <-.
  assert (EV : w_Votes w12 = w_Votes w21).
  { rewrite EV12, EV1, EV21, EV2. apply insert_insert_ne. congruence. }
  split; [done|]. apply map_eq. intros [id' r].
  destruct (w_Tallies w12 !! (id', r)) as [t|] eqn:E12, (w_Tallies w21 !! (id', r)) as [t'|] eqn:E21;
    [f_equal | exfalso.. | done].
  2-3: rewrite ET12, ET1, !lookup_insert in E12; rewrite ET21, ET2, !lookup_insert in E21;
    repeat case_decide; congruence.
  destruct (decide (id' = id /\ (r = sh_role sh1 \/ r = sh_role sh2))) as [[-> Hr]|Hno].
  - assert (r <> BuildService) by (destruct Hr as [->| ->]; done).
    by eapply (tally_determined w12 w21); [..|exact E12|exact E21]; try done; rewrite ?ES12, ?ES21, ?ES1, ?ES2.
  - rewrite ET12, ET1, !lookup_insert_ne in E12 by (intros [= <- <-]; tauto).
    rewrite ET21, ET2, !lookup_insert_ne in E21 by (intros [= <- <-]; tauto). congruence.
Qed.
End Voting.

Lemma votes_commute_witness :
  exists w12 w21, w_Tallies w12 = w_Tallies w21
    /\ ayes (tally 0 CoreDeveloper w12) = 2 * STAKE /\ nays (tally 0 CoreDeveloper w21) = STAKE.
Proof.
  pose proof (world_of_dispatch proposed (signed BOB) (vote_call 0 true) eq_refl) as H1.
  pose proof (world_of_dispatch (proposed ++ [votes BOB 0 true]) (signed EVE) (vote_call 0 false) eq_refl) as H12.
  pose proof (world_of_dispatch proposed (signed EVE) (vote_call 0 false) eq_refl) as H2.
  pose proof (world_of_dispatch (proposed ++ [votes EVE 0 false]) (signed BOB) (vote_call 0 true) eq_refl) as H21.
  eexists. eexists. split.
  - eapply (votes_commute (world_of proposed) _ _ _ _ (BOB : @AccountId Test) (EVE : @AccountId Test)
      0 true false (acme_release Voting) (mkStakeholder CoreDeveloper STAKE)
      (mkStakeholder CoreDeveloper STAKE));
      [apply proposed_live | discriminate | vm_compute; reflexivity | vm_compute; reflexivity
      | discriminate | vm_compute; reflexivity | discriminate
      | exact H1 | exact H12 | exact H2 | exact H21].
  - split; vm_compute; reflexivity.
Defined.
