(* ===== verification/Provenance.v ===== *)
(** * Provenance: every published binary was attested

    A proposal is only ever stored by [new_release], so whatever is published was proposed by a Core
    Developer and signed, as part of the 128-byte payload, by a Build Service of the project. *)
From stdpp Require Import prelude gmap vector.
From Stdlib Require Import Init.Byte.
From S2P Require Import Prelude Types Config Storage Pallet Chain Mock Scenarios Exec Effects.
From S2P Require Import Registry Ballots Schedule Log Invariants Runs Lifecycle Escrow.
#[local] Open Scope Z_scope.

Section Provenance.
Context {T : Config}.
Implicit Types (w : World) (p : Proposal AccountId) (id : ProposalId)
  (Ps : gmap ProposalId (Proposal AccountId)).

(** Every proposal of [Ps'] is one of [Ps], perhaps with another status. *)
Definition descends Ps Ps' : Prop :=
  forall id p', Ps' !! id = Some p' -> exists p s, Ps !! id = Some p /\ p' = with_status p s.

Lemma descends_refl Ps : descends Ps Ps.
Proof. intros id p Hp. exists p, (p_status p). by rewrite with_status_id. Qed.

Lemma descends_put Ps id p s : Ps !! id = Some p -> descends Ps (<[id := with_status p s]> Ps).
Proof.
  intros Hp id' p' [[<- <-]|[_ ?]]%lookup_insert_Some; [by exists p, s | by apply descends_refl].
Qed.

Lemma descends_do_vote id pid info who sh aye now p w w' :
  w_Proposals w !! id = Some p -> do_vote id pid info who sh aye now w = (Ok tt, w') ->
  descends (w_Proposals w) (w_Proposals w').
Proof.
  intros Hp H. destruct (do_vote_Ok _ _ _ _ _ _ _ _ _ _ Hp H)
    as [(-> & _)|[(n & _ & _ & _ & _ & ->)|(n & _ & _ & ->)]];
    [apply descends_refl | by apply descends_put..].
Qed.

Lemma descends_enacted_all l n w : descends (w_Proposals w) (w_Proposals (enacted_all l n w)).
Proof.
  revert w. induction l as [|id0 l IH]; intros w; [apply descends_refl|].
  change (enacted_all (id0 :: l) n w) with (enacted_all l n (enacted id0 n w)).
  intros id p' (p1 & s1 & Hp1 & ->)%IH. rewrite enacted_proposals in Hp1.
  destruct (w_Proposals w !! id0) as [p0|] eqn:Hp0.
  - destruct (descends_put _ _ _ _ Hp0 _ _ Hp1) as (p & s & Hp & ->). by exists p, s1.
  - exists p1, s1. by split.
Qed.

(** The proposal was proposed by a Core Developer and its payload signed by its builder. *)
Definition authentic (S : gmap (ProjectId * AccountId) Stakeholder) p : Prop :=
  (exists sig, verify sig (signing_payload (p_attestation p)) (builder (p_attestation p)) = true)
  /\ exists sh, S !! (p_project_id p, p_proposer p) = Some sh /\ sh_role sh = CoreDeveloper.

Definition all_authentic w : Prop :=
  forall id p, w_Proposals w !! id = Some p -> authentic (w_Stakeholders w) p.

Lemma authentic_status S p s : authentic S p -> authentic S (with_status p s).
Proof. done. Qed.

Lemma authentic_kept S S' p : stakes_kept S S' -> authentic S p -> authentic S' p.
Proof.
  intros HS [Hsig (sh & Hk & Hr)]. split; [done|].
  destruct (HS _ _ Hk) as (sh' & Hk' & Hr' & _). exists sh'. split; [done | congruence].
Qed.

Lemma all_authentic_step w w' :
  stakes_kept (w_Stakeholders w) (w_Stakeholders w') ->
  descends (w_Proposals w) (w_Proposals w') -> all_authentic w -> all_authentic w'.
Proof.
  intros HS HD Ha id p' (p & s & Hp & ->)%HD. apply authentic_status.
  eapply authentic_kept; [exact HS | by eapply Ha].
Qed.

Context {L : ConfigLaws T}.

Lemma authentic_call o c w w' :
  Inv w -> call_body o c w = (Ok tt, w') -> all_authentic w -> all_authentic w'.
Proof.
  intros HI H Ha. pose proof (stakes_kept_call _ _ _ _ HI H) as HS.
  assert (Hstep : descends (w_Proposals w) (w_Proposals w') -> all_authentic w')
    by (intros HD; by apply (all_authentic_step w)).
  destruct c; cbn in H.
  - apply Hstep. apply project_genesis_Ok in H as (_ & _ & w1 & H & _ & ->).
    apply (for_each_Ok _ (fun w1 => w_Proposals w1 = w_Proposals w)) in H; [|clear H|done].
    + cbn. rewrite H. apply descends_refl.
    + intros s w2 w3 _ <- H3. by apply register_stakeholder_Ok in H3 as (_ & c & _ & ->).
  - apply new_release_Ok in H
      as (who & info & sh & bs & c & _ & _ & Hsh & Hr & _ & _ & Hv & _ & H).
    pose proof (descends_do_vote _ _ _ _ _ _ _ _ _ _ (lookup_insert_eq _ _ _) H) as HD.
    intros id p' (p & s & Hp & ->)%HD. apply authentic_status. eapply authentic_kept; [exact HS|].
    cbn in Hp. apply lookup_insert_Some in Hp as [[<- <-]|[_ Hp]]; [|by eapply Ha].
    split; [by exists builder_signature | by exists sh].
  - apply Hstep. apply vote_Ok in H as (who & p & info & sh & _ & Hp & _ & _ & _ & _ & H).
    by eapply descends_do_vote.
  - apply Hstep. apply submit_counter_attestation_Ok in H
      as (who & p & info & sh & x & c1 & y & c2 & H). destruct_and! H.
    destruct (unscheduled_frame proposal_id p w) as [Pend E]. subst w'. rewrite E.
    by apply descends_put.
  - apply Hstep. apply close_expired_Ok in H as (who & p & y & c & _ & Hp & _ & _ & _ & ->).
    by apply descends_put.
Qed.

Context {S : StorageLayer T}.

Lemma live_authentic w : live w -> all_authentic w.
Proof.
  intros [(w0 & H0 & Hs) Hn].
  assert (Ha0 : all_authentic w0).
  { destruct H0 as (_ & _ & _ & _ & _ & E & _). intros id p Hp. by rewrite E, lookup_empty in Hp. }
  assert (Hr : reachable w0) by (exists w0; by split). revert Ha0.
  refine (live_run_ind (fun w0 w => all_authentic w0 -> all_authentic w) _ _ _ _ _ Hr Hs Hn);
    [done | auto |].
  clear. intros w w' HI _ Hstep.
  destruct Hstep as [w weight w' _ H|w o c [[]|e] w' _ H|w evs c _ _]; intros Ha.
  - rewrite next_block_run in H. injection H as _ <-. apply (all_authentic_step w); [| |done].
    + apply stakes_kept_same; [done|]. apply (enacted_all_frame _ _ (opened w)).
    + apply (descends_enacted_all _ _ (opened w)).
  - apply dispatch_Ok in H. by eapply authentic_call.
  - by apply dispatch_Err in H as ->.
  - done.
Qed.

(** C11: provenance of the release log. In every live world, every entry of the log of a project is that
    of the stored, enacted proposal it names, of that very project: it publishes the version, the commit
    hash, the binary hash and the attestation identifier that were proposed. The account that proposed it is registered as a
    Core Developer of the project, the builder of its attestation as a Build Service of the project,
    and a signature of the builder verifies for the 128-byte payload of the attestation. *)
Theorem released_binaries_are_attested w pid i e :
  live w -> w_ReleaseLog w !! (pid, i) = Some e ->
  exists p sh bs sig (att := p_attestation p),
    w_Proposals w !! re_proposal_id e = Some p /\ p_status p = Enacted /\ p_project_id p = pid
    /\ re_version e = p_version p /\ re_attestation_cid e = p_attestation_cid p
    /\ re_output_binary_hash e = output_binary_hash att
    /\ re_source_commit_hash e = source_commit_hash att
    /\ w_Stakeholders w !! (pid, p_proposer p) = Some sh /\ sh_role sh = CoreDeveloper
    /\ w_Stakeholders w !! (pid, builder att) = Some bs /\ sh_role bs = BuildService
    /\ verify sig (signing_payload att) (builder att) = true.
Proof.
  intros Hw He. pose proof (live_inv _ Hw) as HI.
  destruct (lg_entry _ _ _ (inv_log _ HI) _ _ _ He) as (p & Hp & Hst & <- & E).
  destruct (live_authentic _ Hw _ _ Hp) as [[sig Hsig] (sh & Hsh & Hr)].
  destruct (pi_builder _ _ _ _ _ _ _ _ (inv_proposals _ HI) _ _ Hp) as (bs & Hbs & Hb).
  exists p, sh, bs, sig. rewrite E. by split_and!; try done; rewrite E in Hp.
Qed.
End Provenance.

Lemma released_binaries_are_attested_witness :
  exists p sig, w_Proposals (world_of released) !! 0 = Some p /\ p_proposer p = ALICE
    /\ output_binary_hash (p_attestation p) = h xa1
    /\ verify sig (signing_payload (p_attestation p)) (builder (p_attestation p)) = true.
Proof.
  destruct (released_binaries_are_attested (world_of released) 0 0
    (release_entry 0 (acme_release (Approved 11)) 11)) as (p & _ & _ & sig & H1 & _ & _ & _ & _ & H2 & _ & _ & _ & _ & _ & H3).
  - apply released_live.
  - vm_compute. reflexivity.
  - exists p, sig. split; [exact H1|]. split; [|split; [symmetry; exact H2 | exact H3]].
    vm_compute in H1. injection H1 as <-. reflexivity.
Defined.

(** C30: the payload binds the digests. What a Build Service signs is 128 bytes long, and two
    attestations have the same payload exactly when all four digests agree, so a signature speaks
    for one commit, one source tree, one environment and one binary. *)
Theorem signing_payload_binds {AccountId : Type} (att1 att2 : BuildAttestation AccountId) :
  length (signing_payload att1) = 128%nat
  /\ (signing_payload att1 = signing_payload att2
      <-> source_commit_hash att1 = source_commit_hash att2
          /\ source_tree_hash att1 = source_tree_hash att2
          /\ build_environment_hash att1 = build_environment_hash att2
          /\ output_binary_hash att1 = output_binary_hash att2).
Proof.
  split; [apply length_signing_payload|]. split; [apply signing_payload_digests|].
  intros (E1 & E2 & E3 & E4). by rewrite !signing_payload_app, E1, E2, E3, E4.
Qed.
