(* ===== verification/Surplus.v ===== *)
(** * Ayes that outlive their votes

    The tally of the slashable role can show more ayes than there is aye stake: a slash lowers the stake
    of a Build Service whose aye has been counted at the full one. [surplus k] says that it shows at
    least [k] more. No vote and no block ever takes a surplus away, and a slash adds to it. *)
From stdpp Require Import prelude gmap vector.
From Stdlib Require Import Init.Byte.
From S2P Require Import Prelude Types Config Storage Pallet Chain Exec Effects.
From S2P Require Import Registry Ballots Schedule Log Invariants Lifecycle Quorum Decisions Escrow Power.
From S2P Require Import Provenance.
#[local] Open Scope Z_scope.

Section Surplus.
Context {T : Config} {L : ConfigLaws T}.
Implicit Types (w : World) (p : Proposal AccountId) (id : ProposalId) (pid : ProjectId)
  (S : gmap (ProjectId * AccountId) Stakeholder) (V : gmap (ProposalId * AccountId) bool)
  (Tl : gmap (ProposalId * Role) RoleTally).

(** ** Sums after a slash, and after a registration *)

Lemma voted_stake_slashed b id pid r S V k sh x :
  S !! k = Some sh -> x <= sh_stake sh ->
  voted_stake b id pid r (<[k := mkStakeholder (sh_role sh) x]> S) V <= voted_stake b id pid r S V.
Proof.
  intros Hk Hx. unfold voted_stake. rewrite (msum_update _ _ _ _ _ Hk).
  unfold voted_part at 2 3. cbn. repeat case_decide; tauto || lia.
Qed.

Lemma total_stake_slashed pid r S k sh x :
  S !! k = Some sh -> x <= sh_stake sh ->
  total_stake pid r (<[k := mkStakeholder (sh_role sh) x]> S) <= total_stake pid r S.
Proof.
  intros Hk Hx. unfold total_stake. rewrite (msum_update _ _ _ _ _ Hk).
  unfold role_part at 2 3. cbn. repeat case_decide; tauto || lia.
Qed.

(** The slash of a Build Service whose aye is on record takes the slashed amount out of the aye stake. *)
Lemma voted_stake_slashed_aye id pid S V a s x :
  S !! (pid, a) = Some (mkStakeholder BuildService s) -> V !! (id, a) = Some true ->
  voted_stake true id pid BuildService (<[(pid, a) := mkStakeholder BuildService (s - x)]> S) V
  = voted_stake true id pid BuildService S V - x.
Proof.
  intros Hk Hv. unfold voted_stake. rewrite (msum_update _ _ _ _ _ Hk).
  unfold voted_part at 2 3. cbn. rewrite !decide_True by done. lia.
Qed.

Lemma total_stake_slashed_exact pid S a s x :
  S !! (pid, a) = Some (mkStakeholder BuildService s) ->
  total_stake pid BuildService (<[(pid, a) := mkStakeholder BuildService (s - x)]> S)
  = total_stake pid BuildService S - x.
Proof.
  intros Hk. unfold total_stake. rewrite (msum_update _ _ _ _ _ Hk).
  unfold role_part at 2 3. cbn. rewrite !decide_True by done. lia.
Qed.

Lemma total_stake_elsewhere pid pid' r S a sh :
  pid' <> pid -> S !! (pid', a) = None -> total_stake pid r (<[(pid', a) := sh]> S) = total_stake pid r S.
Proof.
  intros Hne Hk. unfold total_stake. rewrite msum_insert by done. unfold role_part at 1.
  rewrite decide_False; [done|]. by intros [? _].
Qed.

Lemma voted_stake_elsewhere b id pid pid' r S V a sh :
  pid' <> pid -> S !! (pid', a) = None ->
  voted_stake b id pid r (<[(pid', a) := sh]> S) V = voted_stake b id pid r S V.
Proof.
  intros Hne Hk. unfold voted_stake. rewrite msum_insert by done. unfold voted_part at 1.
  rewrite decide_False; [done|]. by intros [? _].
Qed.

(** A vote of somebody of another role. *)
Lemma voted_stake_other_role b id pid r S V who sh v :
  S !! (pid, who) = Some sh -> sh_role sh <> r ->
  voted_stake b id pid r S (<[(id, who) := v]> V) = voted_stake b id pid r S V.
Proof.
  intros Hk Hr. apply msum_ext. intros [pid' a] sh' Hk'.
  destruct (decide (a = who)) as [->|Hne]; [|apply voted_part_vote; cbn; congruence].
  unfold voted_part. cbn. rewrite !decide_False; [done | |]; intros (-> & <- & _); congruence.
Qed.

Lemma voted_stake_other_proposal b id id' pid r S V who v :
  id' <> id -> voted_stake b id pid r S (<[(id', who) := v]> V) = voted_stake b id pid r S V.
Proof. intros Hne. apply msum_ext. intros k sh _. apply voted_part_vote. congruence. Qed.

(** ** The surplus *)

Definition surplus (k : Z) id pid S V Tl : Prop :=
  k + voted_stake true id pid BuildService S V <= ayes (tally_in Tl id BuildService).

(** A vote keeps it, even where the addition saturates. *)
Lemma surplus_vote k id pid S V Tl who sh v :
  (forall a s, S !! a = Some s -> 0 <= sh_stake s) -> S !! (pid, who) = Some sh ->
  k + total_stake pid BuildService S <= balance_max ->
  surplus k id pid S V Tl ->
  surplus k id pid S (<[(id, who) := v]> V)
    (<[(id, sh_role sh) := retally (V !! (id, who)) (sh_stake sh) v (tally_in Tl id (sh_role sh))]> Tl).
Proof.
  unfold surplus. intros HS Hk Hmax Hsur. unfold tally_in at 1.
  destruct (decide (sh_role sh = BuildService)) as [Hr|Hr].
  - rewrite <- Hr in *. rewrite lookup_insert_eq. cbn.
    pose proof (voted_stake_le true id pid (sh_role sh) S (<[(id, who) := v]> V) HS) as Hle.
    rewrite (voted_stake_vote true id pid S V who sh v Hk) in *. pose proof (HS _ _ Hk).
    unfold retally, saturating_add, saturating_sub.
    destruct v, (V !! (id, who)) as [[]|]; cbn in *; repeat case_decide; simplify_eq; lia.
  - rewrite lookup_insert_ne by congruence. by rewrite (voted_stake_other_role _ _ _ _ _ _ _ sh).
Qed.

Lemma surplus_other_vote k id id' pid S V Tl who v r t :
  id' <> id -> surplus k id pid S V Tl ->
  surplus k id pid S (<[(id', who) := v]> V) (<[(id', r) := t]> Tl).
Proof.
  unfold surplus, tally_in. intros Hne. rewrite voted_stake_other_proposal by done.
  by rewrite lookup_insert_ne by congruence.
Qed.

Lemma do_vote_ballots id pid info who sh aye now p w w' :
  w_Proposals w !! id = Some p -> do_vote id pid info who sh aye now w = (Ok tt, w') ->
  w_Votes w' = <[(id, who) := aye]> (w_Votes w)
  /\ w_Tallies w' = <[(id, sh_role sh) :=
       retally (w_Votes w !! (id, who)) (sh_stake sh) aye (tally_in (w_Tallies w) id (sh_role sh))]> (w_Tallies w).
Proof.
  intros Hp H. by destruct (do_vote_Ok _ _ _ _ _ _ _ _ _ _ Hp H)
    as [(-> & _)|[(n & _ & _ & _ & _ & ->)|(n & _ & _ & ->)]].
Qed.

(** ** Steps

    [k] stands for stake that is gone: with what is left it still fits the balances of the chain. *)
Record carried (k : Z) id pid w : Prop := {
  ca_surplus : surplus k id pid (w_Stakeholders w) (w_Votes w) (w_Tallies w);
  ca_total : k + total_stake pid BuildService (w_Stakeholders w) <= balance_max;
}.

Lemma carried_same k id pid w w' :
  w_Stakeholders w' = w_Stakeholders w -> w_Votes w' = w_Votes w -> w_Tallies w' = w_Tallies w ->
  carried k id pid w -> carried k id pid w'.
Proof. intros E1 E2 E3 []. split; unfold surplus in *; by rewrite ?E1, ?E2, ?E3. Qed.

Lemma carried_do_vote k id pid id' pid' info who sh aye now q w w' :
  (forall a s, w_Stakeholders w !! a = Some s -> 0 <= sh_stake s) ->
  w_Proposals w !! id' = Some q -> w_Stakeholders w !! (pid', who) = Some sh ->
  (id' = id -> pid' = pid) ->
  do_vote id' pid' info who sh aye now w = (Ok tt, w') -> carried k id pid w -> carried k id pid w'.
Proof.
  intros HS Hq Hsh Hid H []. destruct (do_vote_ballots _ _ _ _ _ _ _ _ _ _ Hq H) as [EV ET].
  pose proof (do_vote_stakeholders _ _ _ _ _ _ _ _ _ _ Hq H) as ES.
  split; rewrite ES; [|done]. rewrite EV, ET.
  destruct (decide (id' = id)) as [->|Hne]; [|by apply surplus_other_vote].
  rewrite Hid in Hsh by done. by apply (surplus_vote _ _ _ _ _ _ _ sh).
Qed.

Lemma carried_genesis k id pid pid' l w w' :
  pid' <> pid -> for_each (register_stakeholder pid') l w = (Ok tt, w') ->
  carried k id pid w -> carried k id pid w'.
Proof.
  intros Hne H Hc. revert H. apply (for_each_Ok _ (carried k id pid)); [|done]. clear -Hne.
  intros s w1 w2 _ [] H. apply register_stakeholder_Ok in H as (Hk & c & _ & ->).
  split; cbn; unfold surplus; cbn; [by rewrite voted_stake_elsewhere | by rewrite total_stake_elsewhere].
Qed.

(** [pid] is the project of the proposal, if there is such a proposal. *)
Definition belongs id pid w : Prop := forall p, w_Proposals w !! id = Some p -> p_project_id p = pid.

Lemma carried_call k id pid o c w w' :
  Inv w -> belongs id pid w -> belongs id pid w' -> pid <> w_NextProjectId w ->
  call_body o c w = (Ok tt, w') -> carried k id pid w -> carried k id pid w'.
Proof.
  intros HI Hb Hb' Hpid H Hc. pose proof (ri_stake _ _ _ _ (inv_registry _ HI)) as HS.
  destruct c; cbn in H.
  - apply project_genesis_Ok in H as (_ & _ & w1 & H & _ & ->).
    apply (carried_genesis k id pid) in H; [|congruence | done].
    by eapply carried_same; [..|exact H].
  - apply new_release_Ok in H as (who & info & sh & bs & c & _ & _ & Hsh & _ & _ & _ & _ & _ & H).
    destruct (do_vote_evolves _ _ _ _ _ _ _ _ _ _ (lookup_insert_eq _ _ _) H _ _ (lookup_insert_eq _ _ _))
      as (s & Hs & _).
    eapply (carried_do_vote k id pid) in H;
      [exact H | exact HS | apply lookup_insert_eq | exact Hsh | |].
    + intros E. rewrite E in Hs. by rewrite <- (Hb' _ Hs).
    + by eapply carried_same; [..|exact Hc].
  - apply vote_Ok in H as (who & q & info & sh & _ & Hq & _ & _ & _ & Hsh & H).
    eapply (carried_do_vote k id pid) in H;
      [exact H | exact HS | exact Hq | exact Hsh | intros ->; by apply Hb | exact Hc].
  - apply (counter_attestation_effect _ _ _ _ _ HI) in H
      as (who & q & info' & sh & Pend & _ & _ & _ & _ & _ & _ & _ & Hsh & Hrole & Hx & c1 & c2 & y & -> & _).
    destruct Hc as [Hsur Htot].
    assert (Hle : saturating_sub (sh_stake sh) (sh_stake sh * sigma_neg (pi_slashing info') / PERBILL_ACCURACY)
      <= sh_stake sh) by (rewrite saturating_sub_exact; lia).
    pose proof (voted_stake_slashed true id pid BuildService _ (w_Votes w) _ _ _ Hsh Hle).
    pose proof (total_stake_slashed pid BuildService _ _ _ _ Hsh Hle).
    unfold surplus in Hsur. split; cbn; [unfold surplus; cbn|]; lia.
  - apply close_expired_Ok in H as (who & q & y & c & _ & _ & _ & _ & _ & ->).
    by eapply carried_same; [..|exact Hc].
Qed.

Context {SL : StorageLayer T}.

Lemma carried_step k id pid w w' :
  Inv w -> step w w' -> belongs id pid w -> belongs id pid w' -> pid <> w_NextProjectId w ->
  carried k id pid w -> carried k id pid w'.
Proof.
  intros HI Hstep Hb Hb' Hpid. destruct Hstep as [w weight w' _ H|w o c [[]|e] w' _ H|w evs c _ _].
  - rewrite next_block_run in H. injection H as _ <-.
    destruct (enacted_all_frame (pending (w_block_number w + 1) w) (w_block_number w + 1) (opened w))
      as (_ & E1 & _ & E2 & E3 & _). by apply carried_same.
  - apply dispatch_Ok in H. by eapply carried_call.
  - by apply dispatch_Err in H as ->.
  - intros Hc. by eapply carried_same; [..|exact Hc].
Qed.

(** Along a run a surplus stays, as long as there are identifiers left. *)
Lemma carried_run k id p w w' :
  live w -> rtc step w w' -> w_NextProposalId w' < u32_max -> w_NextProjectId w' < u32_max ->
  w_Proposals w !! id = Some p -> carried k id (p_project_id p) w -> carried k id (p_project_id p) w'.
Proof.
  intros [Hr _] Hrun Hn Hpn. revert Hr p.
  induction Hrun as [w|w w1 w' H1 Hrun IH]; intros Hr p Hp Hc; [done|].
  assert (Hr1 : reachable w1) by (destruct Hr as (w0 & ? & ?); exists w0; split; [done | by eapply rtc_r]).
  assert (Hl : live w) by (eapply live_back; [done | by eapply rtc_l | done]).
  pose proof (live_inv _ Hl) as HI.
  assert (Hpid : p_project_id p <> w_NextProjectId w).
  { assert (Hpl : w_NextProjectId w < u32_max) by (eapply projects_left_back; eauto using rtc_l).
    pose proof (di_project _ (live_decided _ Hl Hpl) _ (inv_project _ _ _ HI Hp)). lia. }
  destruct (evolves_step _ _ HI H1 _ _ Hp) as (s & Hp1 & _).
  apply (IH Hn Hpn Hr1 (with_status p s) Hp1).
  apply (carried_step _ _ _ w); try done; intros q Hq; [|rewrite Hp1 in Hq]; by simplify_eq.
Qed.

(** ** A surplus is never negative *)

Lemma carried_fresh id pid w : Inv w -> w_Proposals w !! id = None -> carried 0 id pid w.
Proof.
  intros HI Hid. pose proof (inv_proposals _ HI) as HP. split.
  - unfold surplus, tally_in. rewrite voted_stake_none.
    + destruct (w_Tallies w !! (id, BuildService)) eqn:E; [|done].
      destruct (pi_tally _ _ _ _ _ _ _ _ HP _ _ _ E) as [q Hq]. congruence.
    + intros a. apply eq_None_not_Some. intros [b Hb].
      destruct (pi_vote _ _ _ _ _ _ _ _ HP _ _ _ Hb) as (q & Hq & _). congruence.
  - pose proof (total_stake_max _ _ _ _ pid BuildService (inv_registry _ HI)). lia.
Qed.

(** A proposal is new in a project that was there before. *)
Lemma new_proposal_project w w' id p :
  step w w' -> w_Proposals w !! id = None -> w_Proposals w' !! id = Some p ->
  is_Some (w_Projects w !! p_project_id p).
Proof.
  intros Hstep Hid. destruct Hstep as [w weight w' _ H|w o c [[]|e] w' _ H|w evs c _ _].
  - rewrite next_block_run in H. injection H as _ <-.
    intros (q & s & Hq & _)%(descends_enacted_all _ _ (opened w)). change (w_Proposals w !! id = Some q) in Hq. congruence.
  - apply dispatch_Ok in H. destruct c; cbn in H; intros Hp.
    + exfalso. apply project_genesis_Ok in H as (_ & _ & w1 & H & _ & ->).
      destruct (register_frame _ _ _ _ H) as (E & _). cbn in Hp. congruence.
    + apply new_release_Ok in H as (who & info & sh & bs & c & _ & Hinfo & _ & _ & _ & _ & _ & _ & H).
      destruct (descends_do_vote _ _ _ _ _ _ _ _ _ _ (lookup_insert_eq _ _ _) H _ _ Hp) as (q & s & Hq & ->).
      cbn in Hq. apply lookup_insert_Some in Hq as [[_ <-]|[_ Hq]]; [by eexists | congruence].
    + exfalso. apply vote_Ok in H as (who & q & info & sh & _ & Hq & _ & _ & _ & _ & H).
      destruct (descends_do_vote _ _ _ _ _ _ _ _ _ _ Hq H _ _ Hp) as (q' & s & Hq' & _). congruence.
    + exfalso. apply submit_counter_attestation_Ok in H
        as (who & q & info & sh & x & c1 & y & c2 & H). destruct_and! H.
      destruct (unscheduled_frame proposal_id q w) as [Pend E]. subst w'. rewrite E in Hp. cbn in Hp.
      apply lookup_insert_Some in Hp as [[-> _]|[_ Hp]]; congruence.
    + exfalso. apply close_expired_Ok in H as (who & q & y & c & _ & Hq & _ & _ & _ & ->). cbn in Hp.
      apply lookup_insert_Some in Hp as [[-> _]|[_ Hp]]; congruence.
  - apply dispatch_Err in H as ->. congruence.
  - cbn. congruence.
Qed.

Lemma live_carried w id p :
  live w -> w_NextProjectId w < u32_max -> w_Proposals w !! id = Some p -> carried 0 id (p_project_id p) w.
Proof.
  intros [(w0 & H0 & Hs) Hn] Hpn. assert (Hr : reachable w0) by (exists w0; by split).
  set (Q := fun w => (decided_inv w /\ forall id p, w_Proposals w !! id = Some p -> carried 0 id (p_project_id p) w)
    \/ w_NextProjectId w = u32_max).
  assert (HQ : Q w0 -> Q w).
  { refine (live_run_ind (fun w0 w => Q w0 -> Q w) _ _ _ _ _ Hr Hs Hn); [done | auto |]. clear.
    intros w1 w2 HI HI2 H12 [[HD HC]|E]; [|right; by apply (next_project_full w1)].
    destruct (decide (w_NextProjectId w1 = u32_max)) as [E|Hne]; [right; by apply (next_project_full w1)|].
    assert (Hlt : w_NextProjectId w1 < u32_max) by (pose proof (di_next _ HD); lia).
    left. split; [eapply decided_step; [done|..]; done|]. intros id p Hp.
    destruct (w_Proposals w1 !! id) as [p1|] eqn:Hp1.
    - pose proof (di_project _ HD _ (inv_project _ _ _ HI Hp1)).
      destruct (evolves_step _ _ HI H12 _ _ Hp1) as (s & Hp2 & _).
      assert (E : p_project_id p = p_project_id p1) by (rewrite Hp in Hp2; by simplify_eq).
      rewrite E. apply (carried_step _ _ _ w1); [done | done | | | lia | by apply HC];
        intros q Hq; congruence.
    - pose proof (di_project _ HD _ (new_proposal_project _ _ _ _ H12 Hp1 Hp)).
      apply (carried_step _ _ _ w1); [done | done | | | lia | by apply carried_fresh];
        intros q Hq; congruence. }
  destruct HQ as [[_ HC]|E]; [left; split; [by apply decided_initial|] | by apply HC | lia].
  destruct H0 as (_ & _ & _ & _ & _ & E & _). intros id' p' Hp. by rewrite E, lookup_empty in Hp.
Qed.

(** ** A slash leaves a surplus *)

(** The slash of a Build Service whose aye on [id] is on record takes stake away and leaves the tally. *)
Lemma slash_carries w w' o id p id' p' rebuilt :
  live w -> w_NextProjectId w < u32_max -> w_Proposals w !! id = Some p ->
  w_Proposals w !! id' = Some p' -> p_project_id p' = p_project_id p ->
  w_Votes w !! (id, builder (p_attestation p')) = Some true ->
  dispatch o (submit_counter_attestation_call id' rebuilt) w = (Ok tt, w') ->
  exists stake remaining,
    w_Stakeholders w !! (p_project_id p, builder (p_attestation p')) = Some (mkStakeholder BuildService stake)
    /\ w_Stakeholders w' !! (p_project_id p, builder (p_attestation p'))
       = Some (mkStakeholder BuildService remaining)
    /\ 0 <= remaining <= stake /\ carried (stake - remaining) id (p_project_id p) w'.
Proof.
  intros Hw Hpl Hp Hp' Hpid Hv H. pose proof (live_inv _ Hw) as HI.
  destruct (inv_project _ _ _ HI Hp') as [info Hinfo].
  destruct (negligence_slash _ _ _ _ _ _ _ Hw Hp' Hinfo H) as (stake & x & Hb & _ & Hx & ES & _).
  rewrite Hpid in Hb, ES. exists stake, (stake - x). rewrite ES, lookup_insert_eq.
  split; [done|]. split; [done|]. split; [lia|]. replace (stake - (stake - x)) with x by lia.
  destruct (live_carried _ _ _ Hw Hpl Hp) as [Hsur Htot].
  assert (E : w_Votes w' = w_Votes w /\ w_Tallies w' = w_Tallies w).
  { apply dispatch_Ok, submit_counter_attestation_Ok in H
      as (who & q & info' & sh & x' & c1 & y & c2 & H). destruct_and! H.
    destruct (unscheduled_frame id' q w) as [Pend E]. subst w'. by rewrite E. }
  destruct E as [EV ET]. split; rewrite ES.
  - unfold surplus in *. rewrite EV, ET. rewrite voted_stake_slashed_aye by done. lia.
  - rewrite total_stake_slashed_exact by done. lia.
Qed.
End Surplus.
