(* ===== verification/Divergences.v ===== *)
(** * Where the code parts ways with its contract

    Runs and theorems that pin down the behaviours the documentation does not promise: a withdrawn
    aye of a slashed Build Service that still counts, an approval for a block that has already begun,
    votes on an approved proposal after the voting period, and the expiry of a proposal that meets
    its quorums. *)
From stdpp Require Import prelude gmap vector.
From Stdlib Require Import Init.Byte QArith.
From S2P Require Import Prelude Types Config Storage Pallet Chain Mock Scenarios Exec Effects.
From S2P Require Import Registry Ballots Schedule Log Invariants Runs Quorum Lifecycle Releases.
From S2P Require Import Replay Decisions Escrow Specs Power Surplus.
#[local] Open Scope Z_scope.

Section Divergences.
Context {T : Config} {L : ConfigLaws T} {S : StorageLayer T}.
Implicit Types (w : World) (p : Proposal AccountId) (id : ProposalId).

(** ** Approvals for the past *)

(** A step that takes a proposal out of its approval: a vote after which it is back in [Voting], or a
    successful counter-attestation. *)
Definition frees id w w' : Prop :=
  exists o, (exists aye q, dispatch o (vote_call id aye) w = (Ok tt, w')
      /\ w_Proposals w' !! id = Some q /\ p_status q = Voting)
    \/ exists rebuilt, dispatch o (submit_counter_attestation_call id rebuilt) w = (Ok tt, w').

(** Any other step. *)
Definition leaves id w w' : Prop := step w w' /\ ~ frees id w w'.

(** [p] is stored under [id], approved for block [n], which has begun. *)
Record stuck id p (n : Z) w : Prop := {
  sk_stored : w_Proposals w !! id = Some p;
  sk_status : p_status p = Approved n;
  sk_begun : n <= w_block_number w;
}.

Lemma do_vote_elsewhere id id' pid info who sh aye now q w w' :
  w_Proposals w !! id' = Some q -> do_vote id' pid info who sh aye now w = (Ok tt, w') -> id' <> id ->
  w_Proposals w' !! id = w_Proposals w !! id.
Proof.
  intros Hq H Hne. destruct (do_vote_Ok _ _ _ _ _ _ _ _ _ _ Hq H)
    as [(-> & _)|[(m & _ & _ & _ & _ & ->)|(m & _ & _ & ->)]]; cbn; [done | by rewrite lookup_insert_ne..].
Qed.

Lemma stuck_call id p n o c w w' :
  Inv w -> dispatch o c w = (Ok tt, w') -> stuck id p n w -> ~ frees id w w' ->
  w_Proposals w' !! id = w_Proposals w !! id.
Proof.
  intros HI Hd [Hp Hs Hn] Hf. pose proof Hd as H. apply dispatch_Ok in H. destruct c; cbn in H.
  - apply project_genesis_Ok in H as (_ & _ & w1 & H & _ & ->).
    destruct (register_frame _ _ _ _ H) as (E & _). cbn. congruence.
  - apply new_release_Ok in H as (who & info & sh & bs & c & _ & _ & _ & _ & _ & _ & _ & _ & H).
    destruct (fresh_id _ _ _ _ _ _ _ _ (w_NextProposalId w) (inv_proposals _ HI)) as (Hid & _); [done|].
    assert (Hne : w_NextProposalId w <> id) by (intros E; by rewrite <- E, Hid in Hp).
    rewrite (do_vote_elsewhere _ _ _ _ _ _ _ _ _ _ _ (lookup_insert_eq _ _ _) H Hne).
    cbn. by rewrite lookup_insert_ne.
  - apply vote_Ok in H as (who & q & info & sh & _ & Hq & _ & _ & _ & _ & H).
    destruct (decide (proposal_id = id)) as [->|Hne]; [|by eapply do_vote_elsewhere].
    rewrite Hp in Hq. injection Hq as <-.
    destruct (do_vote_Ok _ _ _ _ _ _ _ _ _ _ Hp H) as [(-> & _)|[(m & _ & Hv & _)|(m & _ & _ & ->)]];
      [done | congruence |].
    exfalso. apply Hf. exists o. left. exists aye. eexists. split; [exact Hd|].
    split; [apply lookup_insert_eq | done].
  - destruct (decide (proposal_id = id)) as [->|Hne].
    { exfalso. apply Hf. exists o. right. by eexists. }
    apply submit_counter_attestation_Ok in H as (who & q & info & sh & x & c1 & y & c2 & H). destruct_and! H.
    destruct (unscheduled_frame proposal_id q w) as [Pend E]. subst w'. rewrite E. cbn.
    by rewrite lookup_insert_ne.
  - apply close_expired_Ok in H as (who & q & y & c & _ & Hq & Hqs & _ & _ & ->). cbn.
    rewrite lookup_insert_ne; [done|]. intros ->. congruence.
Qed.

Lemma stuck_step id p n w w' : Inv w -> leaves id w w' -> stuck id p n w -> stuck id p n w'.
Proof.
  intros HI [Hstep Hf] Hk. pose proof Hk as [Hp Hs Hn].
  destruct Hstep as [w weight w' _ H|w o c [[]|e] w' _ H|w evs c _ _].
  - rewrite next_block_run in H. injection H as _ <-. split; [|done | rewrite blocked_number; lia].
    rewrite blocked_lookup by done. rewrite decide_False; [done|]. intros Hin.
    apply (sc_listed _ _ (inv_schedule _ HI)) in Hin as (q & Hq & Hqs).
    rewrite Hp in Hq. injection Hq as <-. rewrite Hs in Hqs. injection Hqs as ->. lia.
  - destruct (told_dispatch _ _ _ _ _ H) as (l & Eb & _). split; [|done | by rewrite Eb].
    by rewrite (stuck_call _ _ _ _ _ _ _ HI H Hk Hf).
  - by apply dispatch_Err in H as ->.
  - by split.
Qed.

(** Every step after which the proposal is approved is one that [leaves] it. *)
Lemma leaves_approved id p n w w' :
  step w w' -> w_Proposals w' !! id = Some p -> p_status p = Approved n -> leaves id w w'.
Proof.
  intros Hstep Hp Hs. split; [done|]. intros (o & [(aye & q & _ & Hq & Hqs)|(rebuilt & H)]); [congruence|].
  apply dispatch_Ok, submit_counter_attestation_Ok in H as (who & q & info & sh & x & c1 & y & c2 & H).
  destruct_and! H. destruct (unscheduled_frame id q w) as [Pend E]. subst w'. cbn in Hp.
  rewrite lookup_insert_eq in Hp. by injection Hp as <-.
Qed.

(** C33: an approval for a block that has begun is never enacted. A proposal approved for a block that is
    not in the future - which is where an [enactment_delay] of zero schedules it, since
    [on_initialize] has already run when calls are dispatched - stays exactly as it is along
    every run of blocks and calls, up to a vote on it that revokes the approval or a successful
    counter-attestation against it; and [close_expired] does not succeed on it meanwhile, so its bond
    stays on hold. *)
Theorem past_approval_is_stuck w w' id p n :
  live w -> w_Proposals w !! id = Some p -> p_status p = Approved n -> n <= w_block_number w ->
  rtc (leaves id) w w' -> w_NextProposalId w' < u32_max ->
  w_Proposals w' !! id = Some p
  /\ forall o w'', dispatch o (close_expired_call id) w' <> (Ok tt, w'').
Proof.
  intros Hw Hp Hs Hn Hrun Hnext. assert (Hk : stuck id p n w) by done. clear Hp Hs Hn.
  assert (Hk' : stuck id p n w').
  { destruct Hw as [Hr _]. revert Hr Hk. induction Hrun as [w|w w1 w' H1 Hrun IH]; intros Hr Hk; [done|].
    assert (Hrun' : rtc step w1 w') by (eapply rtc_subrel; [|exact Hrun]; by intros ? ? [? _]).
    apply IH; [done | destruct Hr as (w0 & ? & ?); exists w0; split; [done | eapply rtc_r; [done | apply H1]] |].
    apply (stuck_step _ _ _ w); [|done..]. apply live_inv. eapply live_back; [done| |done].
    eapply rtc_l; [apply H1 | done]. }
  destruct Hk' as [Hp' Hs' _]. split; [done|]. intros o w'' H. apply dispatch_Ok, close_expired_Ok in H
    as (who & q & y & c & _ & Hq & Hqs & _). congruence.
Qed.

(** C32: a withdrawn aye of a slashed Build Service still counts. If a Build Service has an aye on record
    for a proposal when a counter-attestation against another proposal of the project takes a part of its
    stake, then in every later world - also after it has changed its vote to nay - the tally of the
    role shows at least that part more ayes than there is aye stake, and every quorum that this part
    alone reaches is met, whoever votes what (the re-vote takes the reduced stake out of an aye that was
    counted at the full one). It takes proposal and project identifiers left. *)
Theorem withdrawn_aye_still_counts w w1 w' o id p id' p' rebuilt (pid := p_project_id p)
    (b := builder (p_attestation p')) :
  live w -> w_Proposals w !! id = Some p ->
  w_Proposals w !! id' = Some p' -> p_project_id p' = pid -> w_Votes w !! (id, b) = Some true ->
  dispatch o (submit_counter_attestation_call id' rebuilt) w = (Ok tt, w1) ->
  rtc step w1 w' -> w_NextProposalId w' < u32_max -> w_NextProjectId w' < u32_max ->
  exists stake remaining,
    w_Stakeholders w !! (pid, b) = Some (mkStakeholder BuildService stake)
    /\ w_Stakeholders w1 !! (pid, b) = Some (mkStakeholder BuildService remaining)
    /\ 0 <= remaining <= stake
    /\ voted_stake true id pid BuildService (w_Stakeholders w') (w_Votes w') + (stake - remaining)
       <= ayes (tally id BuildService w')
    /\ forall q, role_stake pid BuildService w' <> 0 ->
         q * role_stake pid BuildService w' <= (stake - remaining) * PERBILL_ACCURACY ->
         quorum_met (ayes (tally id BuildService w')) (role_stake pid BuildService w') q = true.
Proof.
  intros Hw Hp Hp' Hpid Hv H Hrun Hn Hpn. pose proof (live_inv _ Hw) as HI.
  assert (Hstep : step w w1).
  { refine (step_call _ _ _ _ _ _ H). pose proof (inv_proposals _ HI) as HP.
    pose proof (pi_id _ _ _ _ _ _ _ _ HP _ _ Hp'). pose proof (pi_next _ _ _ _ _ _ _ _ HP).
    unfold call_ok, in_width. lia. }
  assert (Hrun0 : rtc step w w') by (by eapply rtc_l).
  assert (Hpl : w_NextProjectId w < u32_max) by (by eapply projects_left_back; [apply Hw|..]).
  destruct (slash_carries _ _ _ _ _ _ _ _ Hw Hpl Hp Hp' Hpid Hv H) as (s & r & Hs & Hr & Hrange & Hc).
  destruct (evolves_step _ _ HI Hstep _ _ Hp) as (st & Hp1 & _).
  assert (Hr1 : reachable w1) by (destruct Hw as [(w0 & ? & ?) _]; exists w0; split; [done | by eapply rtc_r]).
  assert (Hl1 : live w1) by (by eapply live_back).
  destruct (carried_run _ _ (with_status p st) _ _ Hl1 Hrun Hn Hpn Hp1 Hc) as [Hsur _].
  assert (Hw' : live w') by (split; [destruct Hr1 as (w0 & ? & ?); exists w0; split; [done | by etrans] | done]).
  pose proof (proj1 (voted_stake_le true id pid BuildService _ (w_Votes w')
    (ri_stake _ _ _ _ (inv_registry _ (live_inv _ Hw'))))) as Hpos.
  assert (Hle : voted_stake true id pid BuildService (w_Stakeholders w') (w_Votes w') + (s - r)
    <= ayes (tally id BuildService w')) by (unfold surplus in Hsur; rewrite Z.add_comm; exact Hsur).
  exists s, r. split_and!; try done; [lia..|]. intros q Hq Hmet. unfold quorum_met.
  destruct (Z.eqb_spec (role_stake pid BuildService w') 0); [done|].
  unfold saturating_mul, PERBILL_ACCURACY in *. apply Z.leb_le. lia.
Qed.

(** C34: votes close before enactment. Once the voting period of an open proposal is over, a vote on
    it fails with [VotingPeriodOver], even while the proposal is approved and not yet enacted. *)
Theorem late_votes_fail w who id p aye :
  w_Proposals w !! id = Some p -> is_open (p_status p) = true ->
  p_voting_ends p < w_block_number w ->
  dispatch (Signed who) (vote_call id aye) w = (Err (ModuleError VotingPeriodOver), w).
Proof.
  intros Hp Ho Hlt. rewrite dispatch_vote. unfold vote_spec. rewrite Hp. cbn. rewrite Ho. cbn.
  destruct (Z.leb_spec (w_block_number w) (p_voting_ends p)); [lia | done].
Qed.
End Divergences.

(** ** Runs *)

Definition genesis_of (roles : list RoleQuorum) (period delay : Z) : action :=
  Do Root (genesis_with acme_stakeholders (mkReleasePolicy roles period delay)).

(** The Build Service is a required role; its aye on proposal 0 is followed by a slash over
    proposal 1 and by a nay. *)
Definition withdrawn : list action :=
  [genesis_of [mkRoleQuorum CoreDeveloper 600000000; mkRoleQuorum BuildService 500000000] 100 10;
   proposes ALICE (h xa1); proposes ALICE (h xa2);
   votes BUILD_SERVICE 0 true; votes BOB 0 true; votes CAROL 0 true;
   Do (signed BOB) (submit_counter_attestation_call 1 (h xbb));
   votes BUILD_SERVICE 0 false].

(** On that run the Build Service is the only one: no stake of its role supports the proposal, which Eq. 1
    does not accept, and it stays approved. *)
Definition slashed : list action := take 7 withdrawn.

Lemma withdrawn_aye_still_counts_witness :
  exists p info, w_Proposals (world_of withdrawn) !! 0 = Some p
    /\ w_Projects (world_of withdrawn) !! p_project_id p = Some info
    /\ voted_stake true 0 0 BuildService (w_Stakeholders (world_of withdrawn)) (w_Votes (world_of withdrawn)) = 0
    /\ quorum_met (ayes (tally 0 BuildService (world_of withdrawn))) (role_stake 0 BuildService (world_of withdrawn))
         500000000 = true
    /\ ~ accepted (world_of withdrawn) 0 0 info
    /\ meets_quorums 0 info 0 (world_of withdrawn) = true /\ p_status p = Approved 11.
Proof.
  eexists. eexists. split; [vm_compute; reflexivity|]. split; [vm_compute; reflexivity|].
  split; [vm_compute; reflexivity|]. split; [|split; [|split; vm_compute; reflexivity]].
  - edestruct (withdrawn_aye_still_counts (world_of (take 6 withdrawn)) (world_of slashed) (world_of withdrawn)
      (signed BOB) 0) with (id' := 1) (rebuilt := h xbb) as (s & r & Hs & Hr & _ & _ & Hq).
    + apply world_of_live. vm_compute. reflexivity.
    + vm_compute. reflexivity.
    + vm_compute. reflexivity.
    + reflexivity.
    + vm_compute. reflexivity.
    + apply (world_of_dispatch (take 6 withdrawn)). vm_compute. reflexivity.
    + apply (world_of_run slashed [votes BUILD_SERVICE 0 false]). vm_compute. reflexivity.
    + vm_compute. reflexivity.
    + vm_compute. reflexivity.
    + apply Hq; [vm_compute; discriminate|]. revert Hs Hr. vm_compute. intros [= <-] [= <-]. discriminate.
  - unfold accepted. intros H. apply Forall_inv_tail in H. apply Forall_inv in H.
    revert H. vm_compute. intros H. by apply H.
Defined.

(** Two Build Services, and their role required. The aye of the smaller one on proposal 0 is short of
    the quorum until a slash over proposal 1 halves the stake of the other. *)
Definition two_builders : list action :=
  [Do Root (genesis_with (acme_stakeholders ++ [mkStakeholderInit OUTSIDER BuildService (3 * STAKE)])
     (mkReleasePolicy [mkRoleQuorum CoreDeveloper 600000000; mkRoleQuorum BuildService 500000000] 100 10));
   proposes ALICE (h xa1); proposes ALICE (h xa2);
   votes OUTSIDER 0 true; votes BOB 0 true; votes CAROL 0 true;
   Do (signed BOB) (submit_counter_attestation_call 1 (h xbb))] ++ blocks 101.

(** A release that meets its quorums can expire. Quorums are tested when a vote is cast, and
    [close_expired] does not test them: when the slash of a Build Service is what makes Eq. 1 accept a
    proposal, it stays in [Voting], and after the voting period anybody can close it as expired. *)
Theorem accepted_release_expires :
  exists w w' p info, live w /\ w_Proposals w !! 0 = Some p
    /\ w_Projects w !! p_project_id p = Some info /\ accepted w 0 (p_project_id p) info
    /\ meets_quorums (p_project_id p) info 0 w = true
    /\ dispatch (signed DAN) (close_expired_call 0) w = (Ok tt, w')
    /\ w_Proposals w' !! 0 = Some (with_status p Expired).
Proof.
  exists (world_of two_builders), (world_of (two_builders ++ [Do (signed DAN) (close_expired_call 0)])).
  eexists. eexists. split; [apply world_of_live; vm_compute; reflexivity|].
  split; [vm_compute; reflexivity|]. split; [vm_compute; reflexivity|].
  split; [repeat constructor; vm_compute; discriminate|].
  split; [vm_compute; reflexivity|].
  split; [apply world_of_dispatch; vm_compute; reflexivity | vm_compute; reflexivity].
Qed.

(** With no enactment delay the votes approve proposal 0 for block 1, which has begun. *)
Definition undelayed : list action :=
  [genesis_of (required_roles acme_policy) 100 0; proposes ALICE (h xa1); votes BOB 0 true;
   votes CAROL 0 true; votes FOO_AUDIT 0 true].

(** Two more blocks, and a second release proposed. *)
Definition carried_on : list action := [NextBlock; proposes ALICE (h xa2); NextBlock].

Lemma past_approval_is_stuck_witness :
  w_block_number (world_of (undelayed ++ carried_on)) = 3
  /\ w_Proposals (world_of (undelayed ++ carried_on)) !! 0 = Some (acme_release (Approved 1)).
Proof.
  split; [vm_compute; reflexivity|].
  eapply (past_approval_is_stuck (world_of undelayed) (world_of (undelayed ++ carried_on)) 0
    (acme_release (Approved 1)) 1).
  - apply world_of_live. vm_compute. reflexivity.
  - vm_compute. reflexivity.
  - reflexivity.
  - by vm_compute.
  - set (w1 := world_of (undelayed ++ [NextBlock])).
    set (w2 := world_of ((undelayed ++ [NextBlock]) ++ [proposes ALICE (h xa2)])).
    apply (rtc_l _ _ w1); [|apply (rtc_l _ _ w2); [|apply rtc_once]].
    + apply (leaves_approved _ (acme_release (Approved 1)) 1); [|vm_compute; reflexivity..].
      apply (world_of_step undelayed). vm_compute. reflexivity.
    + apply (leaves_approved _ (acme_release (Approved 1)) 1); [|vm_compute; reflexivity..].
      apply (world_of_step (undelayed ++ [NextBlock])). vm_compute. reflexivity.
    + apply (leaves_approved _ (acme_release (Approved 1)) 1); [|vm_compute; reflexivity..].
      apply (world_of_step ((undelayed ++ [NextBlock]) ++ [proposes ALICE (h xa2)])). vm_compute. reflexivity.
  - vm_compute. reflexivity.
Defined.

(** A voting period of 5 blocks and a delay of 10: at block 8 the proposal is approved for block 11,
    and its voting period is over. *)
Definition between : list action :=
  [genesis_of (required_roles acme_policy) 5 10; proposes ALICE (h xa1); votes BOB 0 true;
   votes CAROL 0 true; votes FOO_AUDIT 0 true] ++ blocks 7.

Lemma late_votes_fail_witness :
  exists p, w_Proposals (world_of between) !! 0 = Some p /\ p_status p = Approved 11
    /\ dispatch (signed CAROL) (vote_call 0 false) (world_of between)
       = (Err (ModuleError VotingPeriodOver), world_of between).
Proof.
  eexists. split; [vm_compute; reflexivity|]. split; [reflexivity|].
  eapply late_votes_fail; [vm_compute; reflexivity | reflexivity | by vm_compute].
Defined.
