(* ===== verification/Runtime.v ===== *)
(** * The runtime: constants, pallet configuration and genesis presets

    [runtime/src/lib.rs], [runtime/src/configs/mod.rs] and [runtime/src/genesis_config_presets.rs]:
    version, time and currency constants, the composition of pallets with their indices, the
    transaction extensions, the configuration values, and the genesis configurations the node offers.
    The keyring ([sp_keyring]), the JSON serializer ([serde_json]) and the preset names
    ([sp_genesis_builder]) are parameters. *)
From stdpp Require Import prelude gmap vector strings.
From Stdlib Require Import Eqdep_dec.
From S2P Require Import Prelude Types Config.
#[local] Open Scope Z_scope.

(** ** Version, time, currency *)

Record RuntimeVersion := mkRuntimeVersion {
  spec_name : string;
  impl_name : string;
  authoring_version : Z;
  spec_version : Z;
  impl_version : Z;
  transaction_version : Z;
  system_version : Z;
}.

Definition VERSION : RuntimeVersion := {|
  spec_name := "verigov-runtime";
  impl_name := "verigov-runtime";
  authoring_version := 1;
  spec_version := 100;
  impl_version := 1;
  transaction_version := 1;
  system_version := 1;
|}.

Definition MILLI_SECS_PER_BLOCK : Z := 6000.
Definition SLOT_DURATION : Z := MILLI_SECS_PER_BLOCK.

Definition MINUTES : Z := 60000 / MILLI_SECS_PER_BLOCK.
Definition HOURS : Z := MINUTES * 60.
Definition DAYS : Z := HOURS * 24.

Definition BLOCK_HASH_COUNT : Z := 2400.

Definition UNIT : Z := 1000000000000.
Definition MILLI_UNIT : Z := 1000000000.
Definition MICRO_UNIT : Z := 1000000.
Definition EXISTENTIAL_DEPOSIT : Z := MILLI_UNIT.

(** [pub type Balance = u128], [pub type Nonce = u32], [pub type BlockNumber = u32] *)
Definition Balance_max : Z := u128_max.
Definition Nonce_max : Z := u32_max.
Definition BlockNumber_max : Z := u32_max.

(** ** Composition *)

Inductive RuntimePallet : Set :=
| System | Timestamp | Aura | Grandpa | Balances | TransactionPayment | Sudo | Verigov.

Definition runtime_pallets : list RuntimePallet :=
  [System; Timestamp; Aura; Grandpa; Balances; TransactionPayment; Sudo; Verigov].

(** The declared [#[runtime::pallet_index(_)]]. *)
Definition pallet_index (p : RuntimePallet) : Z :=
  match p with
  | System => 0
  | Timestamp => 1
  | Aura => 2
  | Grandpa => 3
  | Balances => 4
  | TransactionPayment => 5
  | Sudo => 6
  | Verigov => 7
  end.

Lemma pallet_index_inj p q : pallet_index p = pallet_index q -> p = q.
Proof. by destruct p, q. Qed.

#[export] Instance RuntimePallet_eq_dec : EqDecision RuntimePallet.
Proof. solve_decision. Defined.

(** The enums the [runtime] macro derives have a variant per pallet: [RuntimeCall], [RuntimeEvent],
    [RuntimeError] and the hold reasons, given those of the library's pallets. *)
Definition composed (X : RuntimePallet -> Type) : Type := {p : RuntimePallet & X p}.
(** The index of a variant in the encoding. *)
Definition variant_index {X} (v : composed X) : Z := pallet_index (projT1 v).

(** The hold reasons; [From<HoldReason>] of the pallet is its variant. *)
Definition pallet_hold_reason (library : RuntimePallet -> Type) (p : RuntimePallet) : Type :=
  match p with Verigov => HoldReason | _ => library p end.
Definition RuntimeHoldReasons (library : RuntimePallet -> Type) : Type :=
  composed (pallet_hold_reason library).
Definition from_HoldReason (library : RuntimePallet -> Type) (r : HoldReason) : RuntimeHoldReasons library :=
  existT Verigov r.

(** The pallet's two reasons stay different in the runtime, and differ from any other pallet's. *)
Lemma from_HoldReason_inj library : Inj (=) (=) (from_HoldReason library).
Proof. intros r r' E. by apply (inj_pair2_eq_dec _ RuntimePallet_eq_dec) in E. Qed.

Lemma from_HoldReason_own library r (v : RuntimeHoldReasons library) :
  projT1 v <> Verigov -> variant_index v <> variant_index (from_HoldReason library r).
Proof. intros Hv E. by apply pallet_index_inj in E. Qed.

(** ** The types of the chain *)

(** [impl_opaque_keys!]: the session keys of an authority *)
Record SessionKeys (AuraKey GrandpaKey : Type) := mkSessionKeys {
  sk_aura : AuraKey;
  sk_grandpa : GrandpaKey;
}.

(** [can_author_with] is empty by default. *)
Record NativeVersion := mkNativeVersion {
  runtime_version : RuntimeVersion;
  can_author_with : list Z;
}.
Definition native_version : NativeVersion := mkNativeVersion VERSION [].

Module ChainTypes.
Section ChainTypes.
(** Hashes, signatures, addresses and generic blocks of [sp_core] and [sp_runtime]; the executive of
    [frame_executive]; the types the [runtime] macro generates. *)
Context (H256 BlakeTwo256 MultiSignature OpaqueExtrinsic : Type) (HashT_Output : Type -> Type).
Context (Verify_Signer IdentifyAccount_AccountId : Type -> Type) (MultiAddress : Type -> Type -> Type).
Context (generic_Header generic_Block generic_SignedPayload : Type -> Type -> Type)
  (generic_SignedBlock generic_BlockId : Type -> Type)
  (generic_UncheckedExtrinsic : Type -> Type -> Type -> Type -> Type).
Context (frame_executive_Executive : Type -> Type -> Type -> Type -> Type -> Type -> Type)
  (ChainContext : Type -> Type) (RuntimeStruct AllPalletsWithSystem : Type).
Context (pallet_call pallet_event : RuntimePallet -> Type) (Extensions : Type).

Definition Signature : Type := MultiSignature.
Definition AccountId : Type := IdentifyAccount_AccountId (Verify_Signer Signature).
Definition Hash : Type := H256.
Definition BlockNumber : Type := Z.
Definition Address : Type := MultiAddress AccountId unit.
Definition RuntimeCall : Type := composed pallet_call.
Definition RuntimeEvent : Type := composed pallet_event.
Definition Header : Type := generic_Header BlockNumber BlakeTwo256.
Definition UncheckedExtrinsic : Type :=
  generic_UncheckedExtrinsic Address RuntimeCall Signature Extensions.
Definition Block : Type := generic_Block Header UncheckedExtrinsic.
Definition SignedBlock : Type := generic_SignedBlock Block.
Definition BlockId : Type := generic_BlockId Block.
Definition SignedPayload : Type := generic_SignedPayload RuntimeCall Extensions.
Definition Migrations : Type := unit.
Definition Executive : Type :=
  frame_executive_Executive RuntimeStruct Block (ChainContext RuntimeStruct) RuntimeStruct
    AllPalletsWithSystem Migrations.

(** [impl pallet_sudo::Config for Runtime]: the root account may dispatch any call of the runtime. *)
Record SudoConfig := mkSudoConfig { sudo_RuntimeEvent : Type; sudo_RuntimeCall : Type }.
Definition pallet_sudo_Config : SudoConfig := mkSudoConfig RuntimeEvent RuntimeCall.

(** [mod opaque] *)
Definition opaque_Header : Type := generic_Header BlockNumber BlakeTwo256.
Definition opaque_Block : Type := generic_Block opaque_Header OpaqueExtrinsic.
Definition opaque_BlockId : Type := generic_BlockId opaque_Block.
Definition opaque_Hash : Type := HashT_Output BlakeTwo256.
End ChainTypes.
End ChainTypes.

(** The members of [TxExtension], in order; [Era] is the type of a transaction's mortality. *)
Inductive TxExtensionItem (Era : Type) : Type :=
| CheckNonZeroSender
| CheckSpecVersion
| CheckTxVersion
| CheckGenesis
| CheckEra (era : Era)
| CheckNonce (nonce : Z)
| CheckWeight
| ChargeTransactionPayment (tip : Z)
| CheckMetadataHash (enabled : bool)
| WeightReclaim.
Arguments CheckNonZeroSender {Era}.
Arguments CheckSpecVersion {Era}.
Arguments CheckTxVersion {Era}.
Arguments CheckGenesis {Era}.
Arguments CheckEra {Era}.
Arguments CheckNonce {Era}.
Arguments CheckWeight {Era}.
Arguments ChargeTransactionPayment {Era}.
Arguments CheckMetadataHash {Era}.
Arguments WeightReclaim {Era}.

(** The tuple type [TxExtension]: one member of each kind, in this order. *)
Definition TxExtension (Era : Type) (era : Era) (nonce tip : Z) (metadata : bool) :
    list (TxExtensionItem Era) :=
  [CheckNonZeroSender; CheckSpecVersion; CheckTxVersion; CheckGenesis; CheckEra era;
   CheckNonce nonce; CheckWeight; ChargeTransactionPayment tip; CheckMetadataHash metadata;
   WeightReclaim].

(** ** Configuration values *)

(** [Perbill::from_percent(75)] *)
Definition NORMAL_DISPATCH_RATIO : Perbill := 75 * (PERBILL_ACCURACY / 100).
Definition BlockHashCount : Z := 2400.
Definition SS58Prefix : Z := 42.

(** [Weight::from_parts(2u64 * WEIGHT_REF_TIME_PER_SECOND, u64::MAX)], given the library's
    constant *)
Definition RuntimeBlockWeights_max (WEIGHT_REF_TIME_PER_SECOND : Z) : Z * Z :=
  (2 * WEIGHT_REF_TIME_PER_SECOND, u64_max).
Definition RuntimeBlockLength_max : Z := 5 * 1024 * 1024.

(** [pallet_timestamp::Config::MinimumPeriod] *)
Definition MinimumPeriod : Z := SLOT_DURATION / 2.
Definition Aura_MaxAuthorities : Z := 32.
Definition Grandpa_MaxAuthorities : Z := 32.
Definition Balances_MaxLocks : Z := 50.
Definition OperationalFeeMultiplier : Z := 5.

(** *** The values each [impl pallet_*::Config for Runtime] declares *)

Record SystemConfig := mkSystemConfig {
  sys_BlockHashCount : Z;
  sys_BlockLength : Z;
  sys_SS58Prefix : Z;
  sys_Version : RuntimeVersion;
  sys_MaxConsumers : Z;
}.
Definition frame_system_Config : SystemConfig :=
  mkSystemConfig BlockHashCount RuntimeBlockLength_max SS58Prefix VERSION 16.

(** [SlotDuration = pallet_aura::MinimumPeriodTimesTwo<Runtime>], given the library's function of
    the minimum period *)
Record AuraConfig := mkAuraConfig {
  aura_DisabledValidators : list Z;
  aura_MaxAuthorities : Z;
  aura_AllowMultipleBlocksPerSlot : bool;
  aura_SlotDuration : Z;
}.
Definition pallet_aura_Config (MinimumPeriodTimesTwo : Z -> Z) : AuraConfig :=
  mkAuraConfig [] Aura_MaxAuthorities false (MinimumPeriodTimesTwo MinimumPeriod).

(** [KeyOwnerProof = sp_core::Void]: no key-ownership proof exists *)
Record GrandpaConfig := mkGrandpaConfig {
  grandpa_MaxAuthorities : Z;
  grandpa_MaxNominators : Z;
  grandpa_MaxSetIdSessionEntries : Z;
  grandpa_KeyOwnerProof : Set;
}.
Definition pallet_grandpa_Config : GrandpaConfig := mkGrandpaConfig Grandpa_MaxAuthorities 0 0 Empty_set.

Record TimestampConfig := mkTimestampConfig {
  timestamp_Moment_max : Z;
  timestamp_OnTimestampSet : RuntimePallet;
  timestamp_MinimumPeriod : Z;
}.
Definition pallet_timestamp_Config : TimestampConfig := mkTimestampConfig u64_max Aura MinimumPeriod.

(** [MaxReserves = ()] is a bound of 0. *)
Record BalancesConfig := mkBalancesConfig {
  balances_MaxLocks : Z;
  balances_MaxReserves : Z;
  balances_Balance_max : Z;
  balances_ExistentialDeposit : Z;
  balances_AccountStore : RuntimePallet;
}.
Definition pallet_balances_Config : BalancesConfig :=
  mkBalancesConfig Balances_MaxLocks 0 Balance_max EXISTENTIAL_DEPOSIT System.

(** [WeightToFee = LengthToFee = IdentityFee<Balance>]: one unit of balance per unit of reference
    time and per byte; [FeeMultiplierUpdate = ConstFeeMultiplier<FeeMultiplier>] with multiplier
    one. *)
Record TransactionPaymentConfig := mkTransactionPaymentConfig {
  tp_OnChargeTransaction : RuntimePallet;
  tp_OperationalFeeMultiplier : Z;
  tp_WeightToFee : Z -> Z;
  tp_LengthToFee : Z -> Z;
  tp_FeeMultiplier : Z;
}.
Definition pallet_transaction_payment_Config : TransactionPaymentConfig :=
  mkTransactionPaymentConfig Balances OperationalFeeMultiplier (fun ref_time => ref_time)
    (fun length => length) 1.

(** The pallet configuration of the runtime: [impl pallet_verigov::Config for Runtime] with the
    runtime's account, balance and block-number types. The currency is [pallet_balances], the
    signature scheme [MultiSignature]: both are parameters. *)
Section RuntimeConfig.
Context (Account : Type) `{Countable Account}.
Context (library_hold_reason : RuntimePallet -> Type).
Abbreviation HoldReason' := (RuntimeHoldReasons library_hold_reason).
Context (Ledger LedgerError : Type)
  (on_hold : HoldReason' -> Account -> Ledger -> Z) (issuance : Ledger -> Z)
  (hold' : HoldReason' -> Account -> Z -> Ledger -> result unit LedgerError * Ledger)
  (release' : HoldReason' -> Account -> Z -> Precision -> Ledger -> result Z LedgerError * Ledger)
  (burn' : HoldReason' -> Account -> Z -> Precision -> Fortitude -> Ledger ->
    result Z LedgerError * Ledger).
Context (MultiSignature : Type) (verify' : MultiSignature -> list Byte.byte -> Account -> bool).
Context (mul_floor' : Perbill -> Z -> Z).
Context (Weight' : Type) (from_parts : Z -> Z -> Weight') (add : Weight' -> Weight' -> Weight')
  (rw : Z -> Z -> Weight').

Definition Runtime : Config := {|
  AccountId := Account;
  balance_max := Balance_max;
  block_number_max := BlockNumber_max;
  RuntimeHoldReason := HoldReason';
  hold_reason_into := from_HoldReason library_hold_reason;
  CurrencyState := Ledger;
  CurrencyError := LedgerError;
  balance_on_hold := on_hold;
  total_issuance := issuance;
  hold := hold';
  release := release';
  burn_held := burn';
  Signature := MultiSignature;
  verify := verify';
  mul_floor := mul_floor';
  Weight := Weight';
  weight_from_parts := from_parts;
  weight_saturating_add := add;
  reads_writes := rw;
|}.
End RuntimeConfig.

(** ** Genesis presets *)

Record GenesisPatch (AccountId AuraId GrandpaId : Type) := mkGenesisPatch {
  gp_balances : list (AccountId * Z);
  gp_aura_authorities : list AuraId;
  gp_grandpa_authorities : list (GrandpaId * Z);
  gp_sudo_key : option AccountId;
}.
Arguments mkGenesisPatch {AccountId AuraId GrandpaId}.
Arguments gp_balances {AccountId AuraId GrandpaId}.
Arguments gp_aura_authorities {AccountId AuraId GrandpaId}.
Arguments gp_grandpa_authorities {AccountId AuraId GrandpaId}.
Arguments gp_sudo_key {AccountId AuraId GrandpaId}.

(** [1u128 << 60] *)
Definition ENDOWMENT : Z := Z.shiftl 1 60.

Section Presets.
(** [sp_keyring]: the keys, the well-known ones, and their accounts and session keys. *)
Context {Keyring AccountId AuraId GrandpaId : Type} `{EqDecision Keyring}.
Context (Alice Bob AliceStash BobStash One Two : Keyring) (keyring_iter : list Keyring)
  (to_account_id : Keyring -> AccountId) (aura_key : Keyring -> AuraId)
  (grandpa_key : Keyring -> GrandpaId).
(** [serde_json::to_string(&patch)] as bytes, and the names of [sp_genesis_builder]. *)
Context {Bytes : Type} (serialize : GenesisPatch AccountId AuraId GrandpaId -> Bytes)
  (DEV_RUNTIME_PRESET LOCAL_TESTNET_RUNTIME_PRESET : string).

Definition testnet_genesis (initial_authorities : list (AuraId * GrandpaId))
    (endowed_accounts : list AccountId) (root : AccountId) :
    GenesisPatch AccountId AuraId GrandpaId := {|
  gp_balances := (fun k => (k, ENDOWMENT)) <$> endowed_accounts;
  gp_aura_authorities := (fun x => x.1) <$> initial_authorities;
  gp_grandpa_authorities := (fun x => (x.2, 1)) <$> initial_authorities;
  gp_sudo_key := Some root;
|}.

Definition development_config_genesis : GenesisPatch AccountId AuraId GrandpaId :=
  testnet_genesis [(aura_key Alice, grandpa_key Alice)]
    [to_account_id Alice; to_account_id Bob; to_account_id AliceStash; to_account_id BobStash]
    (to_account_id Alice).

Definition local_config_genesis : GenesisPatch AccountId AuraId GrandpaId :=
  testnet_genesis [(aura_key Alice, grandpa_key Alice); (aura_key Bob, grandpa_key Bob)]
    (to_account_id <$> filter (fun v => v <> One /\ v <> Two) keyring_iter)
    (to_account_id Alice).

Definition get_preset (id : string) : option Bytes :=
  if String.eqb id DEV_RUNTIME_PRESET then Some (serialize development_config_genesis)
  else if String.eqb id LOCAL_TESTNET_RUNTIME_PRESET then Some (serialize local_config_genesis)
  else None.

Definition preset_names : list string := [DEV_RUNTIME_PRESET; LOCAL_TESTNET_RUNTIME_PRESET].

(** The issuance a genesis configuration starts the chain with. *)
Definition genesis_issuance (g : GenesisPatch AccountId AuraId GrandpaId) : Z :=
  sum_over snd (gp_balances g).

(** The presets served are the presets named. *)
Lemma get_preset_names id : is_Some (get_preset id) <-> id ∈ preset_names.
Proof.
  unfold get_preset, preset_names. rewrite !elem_of_cons.
  destruct (String.eqb_spec id DEV_RUNTIME_PRESET) as [->|H1].
  { split; [by left | by eexists]. }
  destruct (String.eqb_spec id LOCAL_TESTNET_RUNTIME_PRESET) as [->|H2].
  { split; [by right; left | by eexists]. }
  split; [by intros [? ?] | intros [?|[?|?%not_elem_of_nil]]; done].
Qed.

Lemma testnet_issuance auths accounts root :
  genesis_issuance (testnet_genesis auths accounts root) = Z.of_nat (length accounts) * ENDOWMENT.
Proof.
  unfold genesis_issuance, testnet_genesis. cbn [gp_balances].
  induction accounts as [|a l IH]; [done|]. rewrite fmap_cons, sum_over_cons, IH. cbn [snd length].
  lia.
Qed.

(** The genesis issuance keeps Eq. 1 exact. Both presets start the chain with an issuance whose
    product with the [Perbill] accuracy fits [u128] - the condition under which the quorum test of
    the pallet is exact - for a keyring of up to 2^30 keys. *)
Theorem preset_issuance_exact :
  Z.of_nat (length keyring_iter) <= 2 ^ 30 ->
  genesis_issuance development_config_genesis = 4 * ENDOWMENT
  /\ genesis_issuance development_config_genesis * PERBILL_ACCURACY <= u128_max
  /\ genesis_issuance local_config_genesis * PERBILL_ACCURACY <= u128_max.
Proof.
  intros Hlen. unfold development_config_genesis, local_config_genesis.
  rewrite !testnet_issuance, length_fmap.
  pose proof (length_filter (fun v => v <> One /\ v <> Two) keyring_iter) as Hf.
  unfold ENDOWMENT, PERBILL_ACCURACY, u128_max. cbn [length].
  change (Z.shiftl 1 60) with (2 ^ 60). split_and!; [lia | lia | nia].
Qed.
End Presets.

(** The clock of the runtime adds up. A slot is twice the minimum period, a day is a day of
    blocks, the two block-hash counts agree, pallet indices are the positions of the pallets, and the
    ratio of normal dispatches is 75%. *)
Theorem runtime_constants_consistent :
  2 * MinimumPeriod = SLOT_DURATION /\ DAYS * MILLI_SECS_PER_BLOCK = 24 * 60 * 60 * 1000
  /\ HOURS = 60 * MINUTES /\ BlockHashCount = BLOCK_HASH_COUNT
  /\ MILLI_UNIT * 1000 = UNIT /\ MICRO_UNIT * 1000 = MILLI_UNIT
  /\ pallet_index <$> runtime_pallets = seqZ 0 8
  /\ 100 * NORMAL_DISPATCH_RATIO = 75 * PERBILL_ACCURACY.
Proof. by vm_compute. Qed.

Lemma preset_issuance_exact_witness :
  genesis_issuance (local_config_genesis (1 : Z) 2 7 8 [1; 2; 3; 4; 5; 6; 7; 8] (fun k => k)
    (fun k => k) (fun k => k)) * PERBILL_ACCURACY <= u128_max.
Proof.
  apply (preset_issuance_exact (1 : Z) 2 3 4 7 8 [1; 2; 3; 4; 5; 6; 7; 8] (fun k => k) (fun k => k)
    (fun k => k)). by vm_compute.
Defined.
