(* ===== verification/Weights.v ===== *)
(** * Weights: the pallet fits a block

    The weights the pallet declares, measured in reference time and compared with the block limits of
    [runtime/src/configs/mod.rs]. [WeightModel] is the interface: the reference time of a weight and
    how the library's operations on weights act on it. *)
From stdpp Require Import prelude gmap vector.
From S2P Require Import Prelude Types Config Storage Pallet Chain Mock Scenarios Exec Effects.
From S2P Require Import Runs Typing Runtime.
#[local] Open Scope Z_scope.

Class WeightModel (T : Config) := {
  (** [Weight::ref_time], and the time of a storage read and of a write ([RocksDbWeight]), in
      picoseconds *)
  ref_time : Weight -> Z;
  read_time : Z;
  write_time : Z;
  read_time_nonneg : 0 <= read_time;
  write_time_nonneg : 0 <= write_time;
  (** [Weight::from_parts] *)
  ref_time_parts t s : ref_time (weight_from_parts t s) = t;
  (** [Weight::saturating_add] *)
  ref_time_add x y : ref_time (weight_saturating_add x y) <= ref_time x + ref_time y;
  (** [DbWeight::reads_writes] *)
  ref_time_reads_writes r w : ref_time (reads_writes r w) <= r * read_time + w * write_time;
}.

Section Weights.
Context {T : Config} {L : ConfigLaws T} {S : StorageLayer T} {W : WeightModel T}.
Implicit Types (w : World).

(** The reference time of a block with [n] enactments. *)
Definition hook_time (n : Z) : Z := (1 + 3 * n) * read_time + (1 + 4 * n) * write_time.

Lemma enactments_weight_le n weight :
  ref_time (enactments_weight n weight)
  <= ref_time weight + Z.of_nat n * (3 * read_time + 4 * write_time).
Proof.
  revert weight. induction n as [|n IH]; intros weight; [cbn; lia|].
  cbn [enactments_weight]. etrans; [apply IH|].
  pose proof (ref_time_add weight (reads_writes 3 4)). pose proof (ref_time_reads_writes 3 4). lia.
Qed.

Lemma hook_time_le w weight w' :
  well_typed w -> next_block w = (Ok weight, w') ->
  ref_time weight <= hook_time (Z.of_nat MaxEnactmentsPerBlock).
Proof.
  intros Hw H. rewrite next_block_run in H. injection H as <- _.
  etrans; [apply enactments_weight_le|]. pose proof (ref_time_reads_writes 1 1).
  destruct (typed_pending w (w_block_number w + 1) Hw) as [Hlen _].
  pose proof read_time_nonneg. pose proof write_time_nonneg. unfold hook_time. nia.
Qed.

(** The largest declared weight: a genesis with as many stakeholders as allowed. *)
Definition largest_call_time : Z :=
  let n := Z.of_nat MaxStakeholdersPerGenesis in
  120000000 + (2 + 2 * n) * read_time + (3 + 3 * n) * write_time.

Lemma call_time_le c : call_ok c -> ref_time (call_weight c) <= largest_call_time.
Proof.
  intros Hc. unfold largest_call_time. change (Z.of_nat MaxStakeholdersPerGenesis) with 64.
  pose proof read_time_nonneg. pose proof write_time_nonneg.
  destruct c; cbn [call_weight]; (etrans; [apply ref_time_add|]); rewrite ref_time_parts.
  all: lazymatch goal with |- _ + ref_time (reads_writes ?r ?x) <= _ =>
         pose proof (ref_time_reads_writes r x) end.
  2-5: lia.
  destruct Hc as (_ & Hlen & _).
  assert (Z.of_nat (length stakeholders) <= 64)
    by (change 64 with (Z.of_nat MaxStakeholdersPerGenesis); lia).
  nia.
Qed.

Lemma calls_time_le (calls : list Call) :
  Forall call_ok calls ->
  sum_over (fun c => ref_time (call_weight c)) calls <= Z.of_nat (length calls) * largest_call_time.
Proof.
  induction 1 as [|c l Hc _ IH]; [done|]. rewrite sum_over_cons.
  pose proof (call_time_le c Hc). cbn [length]. lia.
Qed.

(** C35: the pallet's declared weights fit a block. With storage as fast as RocksDB is documented to
    be (25 and 100 microseconds) and the runtime's limits, in every reachable world the hook of the
    next block, whatever is pending, together with any 64 calls of the pallet, the largest possible
    genesis included, declare less than the time a block reserves for normal dispatches. *)
Theorem block_fits w w' weight calls WEIGHT_REF_TIME_PER_SECOND :
  read_time <= 25000000 -> write_time <= 100000000 ->
  WEIGHT_REF_TIME_PER_SECOND = 1000000000000 ->
  reachable w -> next_block w = (Ok weight, w') ->
  Forall call_ok calls -> (length calls <= 64)%nat ->
  ref_time weight + sum_over (fun c => ref_time (call_weight c)) calls
  <= NORMAL_DISPATCH_RATIO * fst (RuntimeBlockWeights_max WEIGHT_REF_TIME_PER_SECOND) / PERBILL_ACCURACY.
Proof.
  intros Hr Hwr -> Hw H Hc Hlen. pose proof (hook_time_le w weight w' (reachable_typed w Hw) H) as H1.
  pose proof (calls_time_le calls Hc) as H2.
  pose proof read_time_nonneg. pose proof write_time_nonneg.
  assert (Hmax : NORMAL_DISPATCH_RATIO * fst (RuntimeBlockWeights_max 1000000000000) / PERBILL_ACCURACY
    = 1500000000000) by (by vm_compute).
  rewrite Hmax. assert (Hh : hook_time (Z.of_nat MaxEnactmentsPerBlock) <= 15325000000).
  { unfold hook_time. change (Z.of_nat MaxEnactmentsPerBlock) with 32. lia. }
  assert (Hl : 0 <= largest_call_time <= 22870000000).
  { unfold largest_call_time. change (Z.of_nat MaxStakeholdersPerGenesis) with 64. lia. }
  assert (Z.of_nat (length calls) * largest_call_time <= 64 * 22870000000) by nia. lia.
Qed.
End Weights.

#[export] Instance Test_weights : WeightModel Test.
Proof.
  refine {| ref_time := (fst : @Weight Test -> Z); read_time := 25000000; write_time := 100000000 |}.
  - done.
  - done.
  - done.
  - intros x y. cbn. unfold saturating_add. lia.
  - intros r w. cbn. lia.
Defined.

Lemma block_fits_witness :
  ref_time (enactments_weight (T := Test) 1 (reads_writes 1 1))
  + sum_over (fun c => ref_time (call_weight c)) [acme_genesis; vote_call 0 true]
  <= 1500000000000.
Proof.
  apply (block_fits (world_of (approved ++ blocks 9)) (snd (next_block (world_of (approved ++ blocks 9))))
    (enactments_weight (T := Test) 1 (reads_writes 1 1)) [acme_genesis; vote_call 0 true] 1000000000000).
  - reflexivity.
  - reflexivity.
  - reflexivity.
  - apply world_of_live. vm_compute. reflexivity.
  - rewrite next_block_run.
    assert (E : length (pending (w_block_number (world_of (approved ++ blocks 9)) + 1)
      (world_of (approved ++ blocks 9))) = 1%nat) by (vm_compute; reflexivity).
    rewrite E. reflexivity.
  - apply (bool_decide_unpack _). vm_compute. exact I.
  - cbn. lia.
Defined.
