(* ===== verification/Interaction.v ===== *)
(** * Interaction: programs that call into libraries

    The node's code assembles library services: it calls them in order, branches on their answers
    and stops at the first error. [prog E A] is such a program: it returns, or it makes a call [e]
    of the signature [E] and continues with the answer. Programs are finite trees, so every run
    ends. [exec] runs a program against an environment that answers each call from the calls made
    before it, and returns the trace; [all_calls] states a condition on every call a program can
    make, whatever the answers; [triple] and [wp] are program logics, for every environment and for one. *)
From stdpp Require Import prelude list.
From S2P Require Import Prelude.

Section Prog.
Context {E : Type -> Type}.

Inductive prog (A : Type) : Type :=
| Return (a : A)
| Call {X : Type} (e : E X) (k : X -> prog A).
#[global] Arguments Return {A} a.
#[global] Arguments Call {A X} e k.

Fixpoint prog_bind {A B} (f : A -> prog B) (p : prog A) : prog B :=
  match p with
  | Return a => f a
  | Call e k => Call e (fun x => prog_bind f (k x))
  end.

Definition trigger {X} (e : E X) : prog X := Call e Return.

(** ** Running a program *)

(** A call with its answer. *)
Inductive called : Type :=
| Called {X : Type} (e : E X) (x : X).

Definition environment : Type := forall X, list called -> E X -> X.

Fixpoint exec {A} (env : environment) (h : list called) (p : prog A) : list called * A :=
  match p with
  | Return a => (h, a)
  | Call e k => let x := env _ h e in exec env (h ++ [Called e x]) (k x)
  end.

Definition trace {A} (env : environment) (p : prog A) : list called := fst (exec env [] p).
Definition outcome_of {A} (env : environment) (p : prog A) : A := snd (exec env [] p).

Lemma exec_bind {A B} env h (f : A -> prog B) (p : prog A) :
  exec env h (prog_bind f p) = let (h', a) := exec env h p in exec env h' (f a).
Proof.
  revert h. induction p as [a|X e k IH]; intros h; [done|]. cbn. apply IH.
Qed.

(** A run only adds to the calls made before it. *)
Lemma exec_extends {A} env h (p : prog A) : exists l, fst (exec env h p) = h ++ l.
Proof.
  revert h. induction p as [a|X e k IH]; intros h; cbn; [exists []; by rewrite app_nil_r|].
  destruct (IH (env _ h e) (h ++ [Called e (env _ h e)])) as [l ->].
  eexists. by rewrite <- app_assoc.
Qed.

(** What holds of every answer holds of every call of a run. *)
Lemma exec_forall {A} (P : called -> Prop) (env : environment) h (p : prog A) :
  (forall X h e, P (@Called X e (env X h e))) -> Forall P h -> Forall P (fst (exec env h p)).
Proof.
  intros Henv. revert h. induction p as [a|X e k IH]; intros h Hh; [done|]. apply IH, Forall_app.
  split; [done|]. apply Forall_singleton, Henv.
Qed.

(** ** Conditions on calls *)

Fixpoint all_calls {A} (P : forall X, E X -> Prop) (p : prog A) : Prop :=
  match p with
  | Return _ => True
  | Call e k => P _ e /\ forall x, all_calls P (k x)
  end.

Lemma all_calls_bind {A B} P (f : A -> prog B) (p : prog A) :
  all_calls P p -> (forall a, all_calls P (f a)) -> all_calls P (prog_bind f p).
Proof.
  induction p as [a|X e k IH]; cbn; [auto|]. intros [He Hk] Hf. split; [done|]. auto.
Qed.

Lemma all_calls_mono {A} (P Q : forall X, E X -> Prop) (p : prog A) :
  (forall X e, P X e -> Q X e) -> all_calls P p -> all_calls Q p.
Proof. intros HPQ. induction p as [a|X e k IH]; cbn; [done|]. intros [He Hk]. auto. Qed.

(** The calls of a run are calls of the program. *)
Definition satisfies (P : forall X, E X -> Prop) (c : called) : Prop :=
  match c with Called e _ => P _ e end.

Lemma exec_all_calls {A} (P : forall X, E X -> Prop) (p : prog A) env h :
  all_calls P p -> Forall (satisfies P) h -> Forall (satisfies P) (fst (exec env h p)).
Proof.
  revert h. induction p as [a|Y e k IH]; cbn; intros h HP Hh; [done|]. destruct HP as [He Hk].
  apply IH; [apply Hk|]. apply Forall_app. split; [done|]. by apply Forall_singleton.
Qed.

Lemma trace_all_calls {A} (P : forall X, E X -> Prop) (p : prog A) env :
  all_calls P p -> Forall (satisfies P) (trace env p).
Proof. intros HP. by apply exec_all_calls. Qed.
End Prog.
#[global] Arguments prog E A : clear implicits.
#[global] Arguments called E : clear implicits.
#[global] Arguments environment E : clear implicits.

#[global] Instance prog_ret E : MRet (prog E) := fun A a => Return a.
#[global] Instance prog_mbind E : MBind (prog E) := fun A B f p => prog_bind f p.

(** Calls of a signature as calls of a larger one. *)
Fixpoint translate {E F : Type -> Type} (i : forall X, E X -> F X) {A} (p : prog E A) : prog F A :=
  match p with
  | Return a => Return a
  | Call e k => Call (i _ e) (fun x => translate i (k x))
  end.

Lemma all_calls_translate {E F : Type -> Type} (i : forall X, E X -> F X) {A}
    (P : forall X, F X -> Prop) (p : prog E A) :
  all_calls (fun X e => P X (i X e)) p -> all_calls P (translate i p).
Proof. induction p as [a|X e k IH]; cbn; [done|]. intros [He Hk]. auto. Qed.

(** ** Programs that may fail: Rust's [Result] and [?] *)

Section Fallible.
Context {E : Type -> Type} {F : Type}.

Definition fallible (A : Type) : Type := prog E (result A F).

Definition ok {A} (a : A) : fallible A := Return (Ok a).
Definition fail {A} (e : F) : fallible A := Return (Err e).

(** [let x = p?; f(x)] *)
Definition and_then {A B} (p : fallible A) (f : A -> fallible B) : fallible B :=
  prog_bind (fun r => match r with Ok a => f a | Err e => fail e end) p.

(** An infallible computation. *)
Definition io {A} (p : prog E A) : fallible A := prog_bind (fun a => ok a) p.

Lemma all_calls_and_then {A B} P (p : fallible A) (f : A -> fallible B) :
  all_calls P p -> (forall a, all_calls P (f a)) -> all_calls P (and_then p f).
Proof. intros Hp Hf. apply all_calls_bind; [done|]. intros [a|e]; [apply Hf | done]. Qed.

Lemma all_calls_io {A} P (p : prog E A) : all_calls P p -> all_calls P (io p).
Proof. intros Hp. by apply all_calls_bind. Qed.
Lemma exec_and_then {A B} env h (p : fallible A) (f : A -> fallible B) :
  exec env h (and_then p f) =
    match exec env h p with
    | (h', Ok a) => exec env h' (f a)
    | (h', Err e) => (h', Err e)
    end.
Proof. unfold and_then. rewrite exec_bind. by destruct (exec env h p) as [h' [a|e]]. Qed.

(** ** A program logic

    [triple p Q R]: whatever the environment, if [p] returns [a] after the calls [l] then [Q a l],
    and if it fails with [e] after the calls [l] then [R e l]. *)
Definition triple {A} (p : fallible A) (Q : A -> list (called E) -> Prop)
    (R : F -> list (called E) -> Prop) : Prop :=
  forall env h, exists l, fst (exec env h p) = h ++ l
    /\ match snd (exec env h p) with Ok a => Q a l | Err e => R e l end.

Implicit Types (R : F -> list (called E) -> Prop).

Lemma triple_ok {A} (a : A) Q R : Q a [] -> triple (ok a) Q R.
Proof. intros HQ env h. exists []. split; [by rewrite app_nil_r | exact HQ]. Qed.

Lemma triple_fail {A} (e : F) (Q : A -> list (called E) -> Prop) R : R e [] -> triple (fail e) Q R.
Proof. intros HR env h. exists []. split; [by rewrite app_nil_r | exact HR]. Qed.

Lemma triple_and_then {A B} (p : fallible A) (f : A -> fallible B) Q1 Q R :
  triple p Q1 R ->
  (forall a l1, Q1 a l1 -> triple (f a) (fun b l2 => Q b (l1 ++ l2)) (fun e l2 => R e (l1 ++ l2))) ->
  triple (and_then p f) Q R.
Proof.
  intros Hp Hf env h. rewrite exec_and_then. destruct (Hp env h) as (l1 & E1 & H1).
  destruct (exec env h p) as [h1 [a|e]]; cbn in *; subst h1; [|by exists l1].
  destruct (Hf a l1 H1 env (h ++ l1)) as (l2 & E2 & H2). exists (l1 ++ l2).
  by rewrite E2, app_assoc.
Qed.

Lemma triple_mono {A} (p : fallible A) (Q Q' : A -> list (called E) -> Prop) R R' :
  (forall a l, Q a l -> Q' a l) -> (forall e l, R e l -> R' e l) -> triple p Q R -> triple p Q' R'.
Proof.
  intros HQ HR Hp env h. destruct (Hp env h) as (l & El & Hl). exists l. split; [done|].
  destruct (exec env h p) as [h' [a|e]]; cbn in *; auto.
Qed.

Lemma triple_trigger {A} (e : E (result A F)) Q R :
  (forall a, Q a [Called e (Ok a)]) -> (forall f, R f [Called e (Err f)]) -> triple (trigger e) Q R.
Proof.
  intros HQ HR env h. exists [Called e (env _ h e)]. split; [done|]. cbn.
  destruct (env _ h e) as [a|f]; [apply HQ | apply HR].
Qed.

Lemma triple_io {A} (e : E A) Q R :
  (forall a, Q a [Called e a]) -> triple (io (trigger e)) Q R.
Proof. intros HQ env h. exists [Called e (env _ h e)]. split; [done|]. apply HQ. Qed.

(** What a triple says of a whole run. *)
Lemma triple_run {A} (p : fallible A) Q R env :
  triple p Q R ->
  match outcome_of env p with Ok a => Q a (trace env p) | Err e => R e (trace env p) end.
Proof.
  intros Hp. destruct (Hp env []) as (l & E1 & H). unfold outcome_of, trace. by rewrite E1.
Qed.

(** ** Weakest preconditions

    [wp env p Q R h]: run by [env] after the calls [h], [p] returns a value and a history that satisfy
    [Q], or fails with an error and a history that satisfy [R]. With an [R] that never holds it says that
    [p] returns; with one that always does it says what holds if [p] returns. *)
Definition wp (env : environment E) {A} (p : fallible A) (Q : A -> list (called E) -> Prop)
    (R : F -> list (called E) -> Prop) (h : list (called E)) : Prop :=
  match exec env h p with (h', Ok a) => Q a h' | (h', Err e) => R e h' end.

Definition never : F -> list (called E) -> Prop := fun _ _ => False.
Definition always : F -> list (called E) -> Prop := fun _ _ => True.

Section WP.
Context (env : environment E) (R : F -> list (called E) -> Prop).

Lemma wp_ok {A} (a : A) (Q : A -> list (called E) -> Prop) h : Q a h -> wp env (ok a) Q R h.
Proof. done. Qed.

Lemma wp_fail {A} (e : F) (Q : A -> list (called E) -> Prop) h : R e h -> wp env (fail e) Q R h.
Proof. done. Qed.

Lemma wp_then {A B} (p : fallible A) (f : A -> fallible B) Q h :
  wp env p (fun a => wp env (f a) Q R) R h -> wp env (and_then p f) Q R h.
Proof. unfold wp. rewrite exec_and_then. by destruct (exec env h p) as [h' [a|e]]. Qed.

Lemma wp_mono {A} (p : fallible A) (Q Q' : A -> list (called E) -> Prop) h :
  (forall a h', Q a h' -> Q' a h') -> wp env p Q R h -> wp env p Q' R h.
Proof. unfold wp. intros HQ. destruct (exec env h p) as [h' [a|e]]; auto. Qed.

Lemma wp_trigger {A} (e : E (result A F)) Q h :
  match env _ h e with
  | Ok a => Q a (h ++ [Called e (Ok a)])
  | Err f => R f (h ++ [Called e (Err f)])
  end -> wp env (trigger e) Q R h.
Proof. unfold wp. cbn. by destruct (env _ h e). Qed.

Lemma wp_io {A} (e : E A) Q h :
  Q (env _ h e) (h ++ [Called e (env _ h e)]) -> wp env (io (trigger e)) Q R h.
Proof. done. Qed.
End WP.

(** What it says of a whole run. *)
Lemma wp_returns {A} (env : environment E) (p : fallible A) Q :
  wp env p Q never [] -> exists a, outcome_of env p = Ok a /\ Q a (trace env p).
Proof.
  unfold wp, outcome_of, trace. destruct (exec env [] p) as [h [a|e]]; cbn; [by exists a | done].
Qed.

Lemma wp_returned {A} (env : environment E) (p : fallible A) Q a :
  wp env p Q always [] -> outcome_of env p = Ok a -> Q a (trace env p).
Proof. unfold wp, outcome_of, trace. destruct (exec env [] p) as [h r]. by cbn; intros H ->. Qed.
End Fallible.
#[global] Arguments fallible E F A : clear implicits.

(** Check the calls on every branch of a program. *)
Ltac calls :=
  repeat first
    [ progress intros
    | apply all_calls_and_then
    | apply all_calls_io
    | apply all_calls_bind
    | match goal with |- all_calls _ (match ?x with _ => _ end) => destruct x end
    | match goal with |- all_calls _ (let '_ := ?x in _) => destruct x end
    | split ];
  try done.

Declare Scope prog_scope.
Delimit Scope prog_scope with prog.
Notation "'let?' x ':=' p 'in' q" := (and_then p (fun x => q))
  (at level 10, x name, p at level 100, q at level 200) : prog_scope.
Notation "'let?' ' x ':=' p 'in' q" := (and_then p (fun x => q))
  (at level 10, x strict pattern, p at level 100, q at level 200) : prog_scope.
Notation "'let!' x ':=' p 'in' q" := (and_then (io p) (fun x => q))
  (at level 10, x name, p at level 100, q at level 200) : prog_scope.
Notation "'let!' ' x ':=' p 'in' q" := (and_then (io p) (fun x => q))
  (at level 10, x strict pattern, p at level 100, q at level 200) : prog_scope.
