(* ===== verification/Build.v ===== *)
(** * The build scripts

    [runtime/build.rs] and [node/build.rs]: what the two scripts ask of the WASM builder and of the build
    utilities, under the features they are compiled with. *)
From stdpp Require Import prelude strings.
From S2P Require Import Prelude Runtime Interaction.
#[local] Open Scope Z_scope.

Section Build.
(** [substrate_wasm_builder::WasmBuilder] *)
Context {WasmBuilder : Type}.

Inductive buildE : Type -> Type :=
| init_with_defaults : buildE WasmBuilder
| enable_metadata_hash (b : WasmBuilder) (token_symbol : string) (decimals : Z) : buildE WasmBuilder
| build (b : WasmBuilder) : buildE unit
| build_using_defaults : buildE unit
| generate_cargo_keys : buildE unit
| rerun_if_git_head_changed : buildE unit.

(** The three [main] functions of [runtime/build.rs], chosen by [cfg]. *)
Definition runtime_main (std metadata_hash : bool) : prog buildE unit :=
  if std && metadata_hash then
    b ← trigger init_with_defaults;
    b ← trigger (enable_metadata_hash b "UNIT" 12);
    trigger (build b)
  else if std && negb metadata_hash then trigger build_using_defaults
  else mret tt.

Definition node_main : prog buildE unit :=
  _ ← trigger generate_cargo_keys;
  trigger rerun_if_git_head_changed.

(** The metadata hash, by which offline signers display amounts, is made for the currency of the
    runtime: its decimals are those of [UNIT]. *)
Definition displays_units (X : Type) (e : buildE X) : Prop :=
  match e with enable_metadata_hash _ _ decimals => 10 ^ decimals = UNIT | _ => True end.

Lemma runtime_main_displays_units std metadata_hash :
  all_calls displays_units (runtime_main std metadata_hash).
Proof. by destruct std, metadata_hash. Qed.

(** A build of the runtime for the chain itself builds no WASM. *)
Lemma runtime_main_no_std metadata_hash env : trace env (runtime_main false metadata_hash) = [].
Proof. done. Qed.
End Build.
