(* ===== verification/Node.v ===== *)
(** * The node: chain specifications and benchmark extrinsics

    [node/src/chain_spec.rs], [node/src/command.rs] (identity and [load_spec]) and
    [node/src/benchmarking.rs]. The Wasm binary, the chain-spec files, the runtime calls, the eras,
    the hashes and the signing key pair are parameters. *)
From stdpp Require Import prelude gmap vector strings.
From S2P Require Import Prelude Types Config Runtime.
#[local] Open Scope Z_scope.

(** ** Chain specifications *)

Inductive ChainType : Set := Development | Local.

Record ChainSpec (Wasm : Type) := mkChainSpec {
  cs_wasm : Wasm;
  cs_name : string;
  cs_id : string;
  cs_chain_type : ChainType;
  cs_preset : string;
}.
Arguments mkChainSpec {Wasm}.
Arguments cs_wasm {Wasm}.
Arguments cs_name {Wasm}.
Arguments cs_id {Wasm}.
Arguments cs_chain_type {Wasm}.
Arguments cs_preset {Wasm}.

Section ChainSpecs.
Context {Wasm File : Type} (WASM_BINARY : option Wasm)
  (DEV_RUNTIME_PRESET LOCAL_TESTNET_RUNTIME_PRESET : string)
  (from_json_file : string -> result File string).

(** [WASM_BINARY.ok_or_else(|| ..)?] followed by the builder calls *)
Definition with_wasm (name id : string) (t : ChainType) (preset : string) :
    result (ChainSpec Wasm) string :=
  match WASM_BINARY with
  | Some wasm => Ok (mkChainSpec wasm name id t preset)
  | None => Err "Development wasm not available"%string
  end.

Definition development_chain_spec : result (ChainSpec Wasm) string :=
  with_wasm "Development" "dev" Development DEV_RUNTIME_PRESET.

Definition local_chain_spec : result (ChainSpec Wasm) string :=
  with_wasm "Local Testnet" "local_testnet" Local LOCAL_TESTNET_RUNTIME_PRESET.

(** A boxed [dyn ChainSpec]: one built here, or one read from a file. *)
Inductive BoxedSpec : Type :=
| Built (s : ChainSpec Wasm)
| FromFile (f : File).

(** [Box::new(r?)] *)
Definition boxed {A} (f : A -> BoxedSpec) (r : result A string) : result BoxedSpec string :=
  match r with Ok a => Ok (f a) | Err e => Err e end.

Definition load_spec (id : string) : result BoxedSpec string :=
  if String.eqb id "dev" then boxed Built development_chain_spec
  else if String.eqb id "" || String.eqb id "local" then boxed Built local_chain_spec
  else boxed FromFile (from_json_file id).

(** Every chain the node can build has a genesis. Loading a specification builds one only for
    the identifiers dev, local and the empty one, and the preset it names is one the runtime
    serves; any other identifier is read as a file. *)
Theorem built_specs_have_genesis id s :
  load_spec id = Ok (Built s) ->
  (id = "dev" \/ id = "" \/ id = "local")%string
  /\ cs_preset s ∈ preset_names DEV_RUNTIME_PRESET LOCAL_TESTNET_RUNTIME_PRESET
  /\ WASM_BINARY = Some (cs_wasm s).
Proof.
  unfold load_spec, development_chain_spec, local_chain_spec, with_wasm, preset_names.
  destruct (String.eqb_spec id "dev") as [->|_].
  { destruct WASM_BINARY; [|done]. intros [= <-]. split_and!; [by left | by left | done]. }
  destruct (String.eqb_spec id "") as [->|_]; [|destruct (String.eqb_spec id "local") as [->|_]]; cbn.
  3: by destruct (from_json_file id).
  all: destruct WASM_BINARY; [|done]; intros [= <-]; split_and!; [by auto | by right; left | done].
Qed.
End ChainSpecs.

(** ** Identity of the node ([impl SubstrateCli for Cli]) *)

Definition impl_name : string := "Substrate Node".
Definition support_url : string := "support.anonymous.an".
Definition copyright_start_year : Z := 2017.

(** [env!]: variables of the build, which [node/build.rs] and cargo set *)
Definition impl_version (env : string -> string) : string := env "SUBSTRATE_CLI_IMPL_VERSION".
Definition description (env : string -> string) : string := env "CARGO_PKG_DESCRIPTION".
Definition author (env : string -> string) : string := env "CARGO_PKG_AUTHORS".

(** ** Benchmark extrinsics *)

(** [u32::checked_next_power_of_two]: the smallest power of two that is at least [n], unless it
    exceeds [u32::MAX]. *)
Definition next_power_of_two (n : Z) : Z := if n <=? 1 then 1 else 2 ^ Z.log2_up n.
Definition checked_next_power_of_two (n : Z) : option Z :=
  let p := next_power_of_two n in if p <=? u32_max then Some p else None.

(** The mortality period of [create_benchmark_extrinsic]. *)
Definition mortal_period (block_hash_count : Z) : Z :=
  match checked_next_power_of_two block_hash_count with
  | Some c => c / 2
  | None => 2
  end.

Section Benchmarks.
Context {Call Era Hash Pair Address Signature OpaqueExtrinsic AccountId BlockchainError : Type}.
Context (mortal : Z -> Z -> Era) (sign : Pair -> Call -> list (TxExtensionItem Era) ->
  Z * Z * Hash * Hash -> Signature) (address_of : Pair -> Address).
Context (remark : Call) (transfer_keep_alive : AccountId -> Z -> Call) (Bob : Pair).

Record UncheckedExtrinsic := mkUncheckedExtrinsic {
  ue_call : Call;
  ue_signer : Address;
  ue_signature : Signature;
  ue_extension : list (TxExtensionItem Era);
}.

(** The client, as far as the function reads it. *)
Record FullClient := mkFullClient {
  block_hash : Z -> result (option Hash) BlockchainError;
  best_hash : Hash;
  best_number : Z;
}.

(** [None] is the panic of [.ok().flatten().expect("Genesis block exists; qed")]. *)
Definition create_benchmark_extrinsic (client : FullClient) (sender : Pair) (call : Call)
    (nonce : Z) : option UncheckedExtrinsic :=
  match block_hash client 0 with
  | Ok (Some genesis_hash) =>
      let period := mortal_period BlockHashCount in
      let tx_ext := TxExtension Era (mortal period (best_number client)) nonce 0 false in
      let signature := sign sender call tx_ext
        (spec_version VERSION, transaction_version VERSION, genesis_hash, best_hash client) in
      Some (mkUncheckedExtrinsic call (address_of sender) signature tx_ext)
  | _ => None
  end.

(** [RemarkBuilder::build] and [TransferKeepAliveBuilder::build]: [Ok], unless they panic. *)
Definition RemarkBuilder_build (client : FullClient) (nonce : Z) : option (result UncheckedExtrinsic string) :=
  Ok <$> create_benchmark_extrinsic client Bob remark nonce.
Definition TransferKeepAliveBuilder_build (client : FullClient) (dest : AccountId) (value nonce : Z) :
    option (result UncheckedExtrinsic string) :=
  Ok <$> create_benchmark_extrinsic client Bob (transfer_keep_alive dest value) nonce.
End Benchmarks.

(** Benchmark extrinsics stay verifiable. The mortality period is a power of two of at least two
    blocks, and never longer than the number of block hashes the chain keeps, for every such number
    from 3 to [u32::MAX]. *)
Theorem mortal_period_fits n :
  3 <= n <= u32_max ->
  2 <= mortal_period n <= n /\ exists k, 0 < k /\ mortal_period n = 2 ^ k.
Proof.
  intros [Hlo Hhi]. unfold mortal_period, checked_next_power_of_two, next_power_of_two.
  destruct (Z.leb_spec n 1); [lia|].
  destruct (Z.log2_up_spec n) as [H1 H2]; [lia|].
  assert (Hl : 2 <= Z.log2_up n).
  { change 2 with (Z.log2_up 3). by apply Z.log2_up_le_mono. }
  assert (E : 2 ^ Z.log2_up n = 2 * 2 ^ Z.pred (Z.log2_up n)).
  { rewrite <- Z.pow_succ_r by lia. f_equal. lia. }
  destruct (Z.leb_spec (2 ^ Z.log2_up n) u32_max).
  - rewrite E, (Z.mul_comm 2), Z.div_mul by lia. split; [|exists (Z.pred (Z.log2_up n)); split; lia].
    pose proof (Z.pow_le_mono_r 2 1 (Z.pred (Z.log2_up n))). lia.
  - split; [lia|]. by exists 1.
Qed.

Lemma mortal_period_fits_witness : mortal_period BlockHashCount = 2048 /\ 2048 <= BlockHashCount.
Proof.
  split; [by vm_compute|]. change 2048 with (mortal_period BlockHashCount).
  apply mortal_period_fits. by vm_compute.
Defined.

Lemma built_specs_have_genesis_witness :
  (exists s, load_spec (Wasm := unit) (File := unit) (Some tt) "development" "local_testnet"
    (fun _ => Err "no such file"%string) "dev" = Ok (Built s)
    /\ cs_preset s ∈ preset_names "development" "local_testnet")%string.
Proof.
  eexists. split; [reflexivity|].
  apply (built_specs_have_genesis (Wasm := unit) (File := unit) (Some tt) "development" "local_testnet"
    (fun _ => Err "no such file"%string) "dev"). reflexivity.
Defined.
