(* ===== verification/Service.v ===== *)
(** * The node service

    [node/src/service.rs] and [node/src/rpc.rs]: how a node is put together. The Substrate services
    are library code: their types are the members of the class [Substrate] and every call into
    them is a constructor of [serviceE], with the arguments the code passes, answered by the
    environment. [new_partial] and [new_full] are the functions of the same names, call by call, with
    their branches on the configuration, the errors [?] returns early and the one [expect]. The
    closures that create inherent data are data ([CreateInherents]) with their own meaning
    ([inherents]). *)
From stdpp Require Import prelude list strings.
From S2P Require Import Prelude Interaction.
#[local] Open Scope Z_scope.
#[local] Open Scope prog_scope.

(** ** The libraries *)

Class Substrate := {
  Endpoint : Type;
  TelemetryWorker : Type;
  Telemetry : Type;
  TelemetryHandle : Type;
  telemetry_handle : Telemetry -> TelemetryHandle;
  ExecutorConfig : Type;
  WasmExecutor : Type;
  FullClient : Type;
  FullBackend : Type;
  KeystoreContainer : Type;
  Keystore : Type;
  keystore : KeystoreContainer -> Keystore;
  TaskManager : Type;
  Registry : Type;
  PoolOptions : Type;
  TransactionPool : Type;
  GrandpaBlockImport : Type;
  LinkHalf : Type;
  ImportQueue : Type;
  BlockHash : Type;
  SlotDuration : Type;
  Timestamp : Type;
  Slot : Type;
  (** [sp_consensus_aura::inherents::InherentDataProvider::from_timestamp_and_slot_duration] *)
  from_timestamp_and_slot_duration : Timestamp -> SlotDuration -> Slot;
  NodeRole : Type;
  is_authority : NodeRole -> bool;
  NetworkConfig : Type;
  NetworkBackendType : Type;
  NotificationMetrics : Type;
  ChainSpecBox : Type;
  DatabaseSource : Type;
  ProtocolName : Type;
  PeerStoreHandle : Type;
  PeersSetConfig : Type;
  NotificationService : Type;
  Network : Type;
  SystemRpcTx : Type;
  TxHandlerController : Type;
  SyncService : Type;
  OffchainWorkers : Type;
  AuraWorker : Type;
  GrandpaVoter : Type;
  RpcModule : Type;
  RpcError : Type;
  ServiceError : Type;
}.

Section Service.
Context {S : Substrate}.

(** [sc_service::Configuration], as far as the node reads it. *)
Record Configuration := mkConfiguration {
  telemetry_endpoints : option (list Endpoint);
  executor : ExecutorConfig;
  role : NodeRole;
  transaction_pool_options : PoolOptions;
  prometheus_registry : option Registry;
  network : NetworkConfig;
  network_backend : option NetworkBackendType;
  node_name : string;
  chain_spec : ChainSpecBox;
  database : DatabaseSource;
  offchain_worker_enabled : bool;
  force_authoring : bool;
  disable_grandpa : bool;
}.

(** [const GRANDPA_JUSTIFICATION_PERIOD: u32] *)
Definition GRANDPA_JUSTIFICATION_PERIOD : Z := 512.

(** [sc_consensus::LongestChain::new(backend)] *)
Inductive SelectChain : Type := LongestChain (backend : FullBackend).

(** The two [create_inherent_data_providers] closures, with what they capture. *)
Inductive CreateInherents : Type :=
| ImportInherents (cidp_client : FullClient)
| AuthoringInherents (slot_duration : SlotDuration).

(** Parameter structures of the libraries, in the order of the code; fields the code leaves at a
    library default are left out. Telemetry, the pool and the import queue spawn on the task
    manager they are given. *)
Record ImportQueueParams := mkImportQueueParams {
  iq_block_import : GrandpaBlockImport;
  iq_justification_import : option GrandpaBlockImport;
  iq_client : FullClient;
  iq_create_inherent_data_providers : CreateInherents;
  iq_spawner : TaskManager;
  iq_registry : option Registry;
  iq_telemetry : option TelemetryHandle;
}.

(** [sc_service::PartialComponents], with [other] spelled out. *)
Record PartialComponents := mkPartialComponents {
  pc_client : FullClient;
  pc_backend : FullBackend;
  pc_task_manager : TaskManager;
  pc_import_queue : ImportQueue;
  pc_keystore_container : KeystoreContainer;
  pc_select_chain : SelectChain;
  pc_transaction_pool : TransactionPool;
  pc_block_import : GrandpaBlockImport;
  pc_grandpa_link : LinkHalf;
  pc_telemetry : option Telemetry;
}.

(** [sc_network::config::FullNetworkConfiguration], with the protocols added to it. *)
Record FullNetworkConfiguration := mkFullNetworkConfiguration {
  nc_backend : NetworkBackendType;
  nc_network : NetworkConfig;
  nc_registry : option Registry;
  nc_notification_protocols : list PeersSetConfig;
}.
Definition add_notification_protocol (p : PeersSetConfig) (c : FullNetworkConfiguration) :
    FullNetworkConfiguration :=
  mkFullNetworkConfiguration (nc_backend c) (nc_network c) (nc_registry c)
    (nc_notification_protocols c ++ [p]).

(** [warp_proof::NetworkProvider::new(backend, link.shared_authority_set(), Vec::default())] *)
Record WarpSync := mkWarpSync { ws_backend : FullBackend; ws_authorities_of : LinkHalf }.

Record BuildNetworkParams := mkBuildNetworkParams {
  bn_config : Configuration;
  bn_net_config : FullNetworkConfiguration;
  bn_client : FullClient;
  bn_transaction_pool : TransactionPool;
  bn_spawn_handle : TaskManager;
  bn_import_queue : ImportQueue;
  bn_block_announce_validator_builder : option unit;
  bn_warp_sync : option WarpSync;
  bn_block_relay : option unit;
  bn_metrics : NotificationMetrics;
}.

Record OffchainWorkerOptions := mkOffchainWorkerOptions {
  ow_runtime_api_provider : FullClient;
  ow_is_validator : bool;
  ow_keystore : option Keystore;
  ow_offchain_db : FullBackend;
  ow_transaction_pool : option TransactionPool;
  ow_network_provider : Network;
  ow_enable_http_requests : bool;
}.

(** [crate::rpc::FullDeps]: what the RPC builder closure captures. *)
Record FullDeps := mkFullDeps { fd_client : FullClient; fd_pool : TransactionPool }.

Record SpawnTasksParams := mkSpawnTasksParams {
  st_network : Network;
  st_client : FullClient;
  st_keystore : Keystore;
  st_task_manager : TaskManager;
  st_transaction_pool : TransactionPool;
  st_rpc_builder : FullDeps;
  st_backend : FullBackend;
  st_system_rpc_tx : SystemRpcTx;
  st_tx_handler_controller : TxHandlerController;
  st_sync_service : SyncService;
  st_config : Configuration;
  st_telemetry : option Telemetry;
}.

(** [sc_basic_authorship::ProposerFactory::new(..)] *)
Record ProposerFactory := mkProposerFactory {
  pf_spawn_handle : TaskManager;
  pf_client : FullClient;
  pf_pool : TransactionPool;
  pf_registry : option Registry;
  pf_telemetry : option TelemetryHandle;
}.

Record StartAuraParams := mkStartAuraParams {
  sa_slot_duration : SlotDuration;
  sa_client : FullClient;
  sa_select_chain : SelectChain;
  sa_block_import : GrandpaBlockImport;
  sa_proposer_factory : ProposerFactory;
  sa_create_inherent_data_providers : CreateInherents;
  sa_force_authoring : bool;
  sa_backoff_authoring_blocks : option unit;
  sa_keystore : Keystore;
  sa_sync_oracle : SyncService;
  sa_justification_sync_link : SyncService;
  (** numerator and denominator of the proportion *)
  sa_block_proposal_slot_portion : Z * Z;
  sa_max_block_proposal_slot_portion : option (Z * Z);
  sa_telemetry : option TelemetryHandle;
}.

(** [sc_consensus_grandpa::Config] *)
Record GrandpaConfig := mkGrandpaConfig {
  gc_gossip_duration_millis : Z;
  gc_justification_generation_period : Z;
  gc_name : option string;
  gc_observer_enabled : bool;
  gc_keystore : option Keystore;
  gc_local_role : NodeRole;
  gc_telemetry : option TelemetryHandle;
  gc_protocol_name : ProtocolName;
}.

Record GrandpaParams := mkGrandpaParams {
  gp_config : GrandpaConfig;
  gp_link : LinkHalf;
  gp_network : Network;
  gp_sync : SyncService;
  gp_notification_service : NotificationService;
  gp_prometheus_registry : option Registry;
  gp_telemetry : option TelemetryHandle;
  gp_offchain_tx_pool : TransactionPool;
}.

(** The futures the node spawns. *)
Inductive Task : Type :=
| TelemetryTask (worker : TelemetryWorker)
| OffchainTask (workers : OffchainWorkers) (client : FullClient)
| AuraTask (worker : AuraWorker)
| GrandpaTask (voter : GrandpaVoter).

(** ** The calls into the libraries

    A fallible call answers with a [result]; its error is the one the caller's [?] converts to. *)
Inductive serviceE : Type -> Type :=
| telemetry_worker_new (buffer : Z) : serviceE (result TelemetryWorker ServiceError)
| new_telemetry (worker : TelemetryWorker) (endpoints : list Endpoint) : serviceE Telemetry
| new_wasm_executor (c : ExecutorConfig) : serviceE WasmExecutor
| new_full_parts (c : Configuration) (telemetry : option TelemetryHandle) (e : WasmExecutor) :
    serviceE (result (FullClient * FullBackend * KeystoreContainer * TaskManager) ServiceError)
(** [task_manager.spawn_handle()] or [spawn_essential_handle()], then [spawn] or
    [spawn_blocking] *)
| spawn (tm : TaskManager) (essential blocking : bool) (name : string) (group : option string)
    (task : Task) : serviceE unit
| build_transaction_pool (spawner : TaskManager) (client : FullClient) (authority : bool)
    (options : PoolOptions) (registry : option Registry) : serviceE TransactionPool
| grandpa_block_import (client : FullClient) (period : Z) (select_chain : SelectChain)
    (telemetry : option TelemetryHandle) :
    serviceE (result (GrandpaBlockImport * LinkHalf) ServiceError)
| aura_import_queue (params : ImportQueueParams) : serviceE (result ImportQueue ServiceError)
| register_notification_metrics (backend : NetworkBackendType) (registry : option Registry) :
    serviceE NotificationMetrics
(** [client.block_hash(0).ok().flatten()] *)
| genesis_block_hash (client : FullClient) : serviceE (option BlockHash)
| protocol_standard_name (genesis : BlockHash) (spec : ChainSpecBox) : serviceE ProtocolName
| peer_store_handle (c : FullNetworkConfiguration) : serviceE PeerStoreHandle
| grandpa_peers_set_config (name : ProtocolName) (metrics : NotificationMetrics)
    (peer_store : PeerStoreHandle) : serviceE (PeersSetConfig * NotificationService)
| build_network (params : BuildNetworkParams) :
    serviceE (result (Network * SystemRpcTx * TxHandlerController * SyncService) ServiceError)
| offchain_workers_new (options : OffchainWorkerOptions) :
    serviceE (result OffchainWorkers ServiceError)
| spawn_tasks (params : SpawnTasksParams) : serviceE (result unit ServiceError)
| aura_slot_duration (client : FullClient) : serviceE (result SlotDuration ServiceError)
| start_aura (params : StartAuraParams) : serviceE (result AuraWorker ServiceError)
| run_grandpa_voter (params : GrandpaParams) : serviceE (result GrandpaVoter ServiceError).

(** A start that does not succeed: an error returned, or a panic of [expect]. *)
Inductive StartError : Type :=
| Service (e : ServiceError)
| Panicked (message : string).

(** A fallible call with [?]. *)
Definition try {X} (e : serviceE (result X ServiceError)) : fallible serviceE StartError X :=
  prog_bind (fun r => match r with Ok x => ok x | Err e => fail (Service e) end) (trigger e).

Definition spawn_task (tm : TaskManager) (essential blocking : bool) (name : string)
    (group : option string) (task : Task) : fallible serviceE StartError unit :=
  io (trigger (spawn tm essential blocking name group task)).

(** ** [new_partial] *)

(** [config.telemetry_endpoints.clone().filter(|x| !x.is_empty())] *)
Definition nonempty_endpoints (config : Configuration) : option (list Endpoint) :=
  match telemetry_endpoints config with
  | Some (x :: l) => Some (x :: l)
  | _ => None
  end.

(** The closure mapped over the endpoints, with [transpose]. *)
Definition start_telemetry (config : Configuration) :
    fallible serviceE StartError (option (TelemetryWorker * Telemetry)) :=
  match nonempty_endpoints config with
  | Some endpoints =>
      let? worker := try (telemetry_worker_new 16) in
      let! telemetry := trigger (new_telemetry worker endpoints) in
      ok (Some (worker, telemetry))
  | None => ok None
  end.

(** The rest of [new_partial], once the client, the backend, the keystore and the task manager
    exist. *)
Definition wire_components (config : Configuration) (telemetry : option (TelemetryWorker * Telemetry))
    (client : FullClient) (backend : FullBackend) (keystore_container : KeystoreContainer)
    (task_manager : TaskManager) : fallible serviceE StartError PartialComponents :=
  let? telemetry :=
    match telemetry with
    | Some (worker, telemetry) =>
        let? _ := spawn_task task_manager false false "telemetry" None (TelemetryTask worker) in
        ok (Some telemetry)
    | None => ok None
    end in
  let select_chain := LongestChain backend in
  let! transaction_pool :=
    trigger (build_transaction_pool task_manager client (is_authority (role config))
      (transaction_pool_options config) (prometheus_registry config)) in
  let? '(block_import, grandpa_link) :=
    try (grandpa_block_import client GRANDPA_JUSTIFICATION_PERIOD select_chain
      (telemetry_handle <$> telemetry)) in
  let? import_queue :=
    try (aura_import_queue (mkImportQueueParams block_import (Some block_import) client
      (ImportInherents client) task_manager (prometheus_registry config)
      (telemetry_handle <$> telemetry))) in
  ok (mkPartialComponents client backend task_manager import_queue keystore_container select_chain
    transaction_pool block_import grandpa_link telemetry).

Definition new_partial (config : Configuration) : fallible serviceE StartError PartialComponents :=
  let? telemetry := start_telemetry config in
  let! executor := trigger (new_wasm_executor (executor config)) in
  let? '(client, backend, keystore_container, task_manager) :=
    try (new_full_parts config ((fun wt => telemetry_handle wt.2) <$> telemetry) executor) in
  wire_components config telemetry client backend keystore_container task_manager.

(** ** [new_full] *)

(** [if config.offchain_worker.enabled { .. }] *)
Definition start_offchain_workers (config : Configuration) (pc : PartialComponents)
    (network : Network) : fallible serviceE StartError unit :=
  if offchain_worker_enabled config then
    let? offchain_workers :=
      try (offchain_workers_new (mkOffchainWorkerOptions (pc_client pc) (is_authority (role config))
        (Some (keystore (pc_keystore_container pc))) (pc_backend pc)
        (Some (pc_transaction_pool pc)) network true)) in
    spawn_task (pc_task_manager pc) false false "offchain-workers-runner" (Some "offchain-worker")
      (OffchainTask offchain_workers (pc_client pc))
  else ok tt.

(** [if role.is_authority() { .. }] *)
Definition start_authoring (config : Configuration) (pc : PartialComponents)
    (sync_service : SyncService) : fallible serviceE StartError unit :=
  if is_authority (role config) then
    let telemetry := telemetry_handle <$> pc_telemetry pc in
    let proposer_factory := mkProposerFactory (pc_task_manager pc) (pc_client pc)
      (pc_transaction_pool pc) (prometheus_registry config) telemetry in
    let? slot_duration := try (aura_slot_duration (pc_client pc)) in
    let? aura :=
      try (start_aura (mkStartAuraParams slot_duration (pc_client pc) (pc_select_chain pc)
        (pc_block_import pc) proposer_factory (AuthoringInherents slot_duration)
        (force_authoring config) None (keystore (pc_keystore_container pc)) sync_service
        sync_service (2, 3) None telemetry)) in
    spawn_task (pc_task_manager pc) true true "aura" (Some "block-authoring") (AuraTask aura)
  else ok tt.

(** [if enable_grandpa { .. }] *)
Definition start_grandpa (config : Configuration) (pc : PartialComponents) (network : Network)
    (sync_service : SyncService) (notification_service : NotificationService)
    (protocol_name : ProtocolName) : fallible serviceE StartError unit :=
  if negb (disable_grandpa config) then
    let grandpa_keystore :=
      if is_authority (role config) then Some (keystore (pc_keystore_container pc)) else None in
    let telemetry := telemetry_handle <$> pc_telemetry pc in
    let grandpa_config := mkGrandpaConfig 333 GRANDPA_JUSTIFICATION_PERIOD (Some (node_name config))
      false grandpa_keystore (role config) telemetry protocol_name in
    let? voter :=
      try (run_grandpa_voter (mkGrandpaParams grandpa_config (pc_grandpa_link pc) network
        sync_service notification_service (prometheus_registry config) telemetry
        (pc_transaction_pool pc))) in
    spawn_task (pc_task_manager pc) true true "grandpa-voter" None (GrandpaTask voter)
  else ok tt.

(** [client.block_hash(0).ok().flatten().expect("Genesis block exists; qed")] *)
Definition expect_genesis (client : FullClient) : fallible serviceE StartError BlockHash :=
  let! genesis := trigger (genesis_block_hash client) in
  match genesis with
  | Some h => ok h
  | None => fail (Panicked "Genesis block exists; qed")
  end.

(** [new_full::<N>(config)] *)
Definition new_full (N : NetworkBackendType) (config : Configuration) :
    fallible serviceE StartError TaskManager :=
  let? pc := new_partial config in
  let net_config := mkFullNetworkConfiguration N (network config) (prometheus_registry config) [] in
  let! metrics := trigger (register_notification_metrics N (prometheus_registry config)) in
  let! peer_store := trigger (peer_store_handle net_config) in
  let? genesis := expect_genesis (pc_client pc) in
  let! grandpa_protocol_name := trigger (protocol_standard_name genesis (chain_spec config)) in
  let! '(protocol_config, notification_service) :=
    trigger (grandpa_peers_set_config grandpa_protocol_name metrics peer_store) in
  let net_config := add_notification_protocol protocol_config net_config in
  let warp_sync := mkWarpSync (pc_backend pc) (pc_grandpa_link pc) in
  let? '(network, system_rpc_tx, tx_handler_controller, sync_service) :=
    try (build_network (mkBuildNetworkParams config net_config (pc_client pc)
      (pc_transaction_pool pc) (pc_task_manager pc) (pc_import_queue pc) None (Some warp_sync) None
      metrics)) in
  let? _ := start_offchain_workers config pc network in
  let? _ :=
    try (spawn_tasks (mkSpawnTasksParams network (pc_client pc)
      (keystore (pc_keystore_container pc)) (pc_task_manager pc) (pc_transaction_pool pc)
      (mkFullDeps (pc_client pc) (pc_transaction_pool pc)) (pc_backend pc) system_rpc_tx
      tx_handler_controller sync_service config (pc_telemetry pc))) in
  let? _ := start_authoring config pc sync_service in
  let? _ := start_grandpa config pc network sync_service notification_service
    grandpa_protocol_name in
  ok (pc_task_manager pc).

(** ** The inherent data of a block *)

Inductive inherentE : Type -> Type :=
| slot_duration_at (client : FullClient) (parent : BlockHash) :
    inherentE (result SlotDuration ServiceError)
(** [sp_timestamp::InherentDataProvider::from_system_time()] *)
| from_system_time : inherentE Timestamp.

(** What a [create_inherent_data_providers] closure does when it is called on a parent block. *)
Definition inherents (c : CreateInherents) (parent_hash : BlockHash) :
    fallible inherentE ServiceError (Slot * Timestamp) :=
  match c with
  | ImportInherents cidp_client =>
      let? slot_duration := trigger (slot_duration_at cidp_client parent_hash) in
      let! timestamp := trigger from_system_time in
      ok (from_timestamp_and_slot_duration timestamp slot_duration, timestamp)
  | AuthoringInherents slot_duration =>
      let! timestamp := trigger from_system_time in
      ok (from_timestamp_and_slot_duration timestamp slot_duration, timestamp)
  end.

(** ** The RPC extensions ([node/src/rpc.rs]) *)

Inductive rpcE : Type -> Type :=
(** [module.merge(System::new(client, pool).into_rpc())] *)
| merge_system (m : RpcModule) (client : FullClient) (pool : TransactionPool) :
    rpcE (result RpcModule RpcError)
(** [module.merge(TransactionPayment::new(client).into_rpc())] *)
| merge_transaction_payment (m : RpcModule) (client : FullClient) : rpcE (result RpcModule RpcError).

(** [create_full], with the module [RpcModule::new(())] starts as. *)
Definition create_full (empty_module : RpcModule) (deps : FullDeps) : fallible rpcE RpcError RpcModule :=
  let? module := trigger (merge_system empty_module (fd_client deps) (fd_pool deps)) in
  let? module := trigger (merge_transaction_payment module (fd_client deps)) in
  ok module.

(** ** What a node starts *)

(** A task as it is spawned: whether the node dies with it, whether it blocks a thread, its name and
    its group. *)
Definition Descriptor : Type := bool * bool * string * option string.

(** The spawn a call is, with the manager it is made on. *)
Definition spawn_of (c : called serviceE) : option (TaskManager * Descriptor) :=
  match c with
  | Called (spawn tm essential blocking name group _) _ => Some (tm, (essential, blocking, name, group))
  | _ => None
  end.
Definition spawned (l : list (called serviceE)) : list (TaskManager * Descriptor) := omap spawn_of l.

(** The tasks a configuration asks for. *)
Definition telemetry_tasks (config : Configuration) : list Descriptor :=
  match nonempty_endpoints config with
  | Some _ => [(false, false, "telemetry"%string, None)]
  | None => []
  end.
Definition offchain_tasks (config : Configuration) : list Descriptor :=
  if offchain_worker_enabled config
  then [(false, false, "offchain-workers-runner"%string, Some "offchain-worker"%string)] else [].
Definition authoring_tasks (config : Configuration) : list Descriptor :=
  if is_authority (role config)
  then [(true, true, "aura"%string, Some "block-authoring"%string)] else [].
Definition grandpa_tasks (config : Configuration) : list Descriptor :=
  if disable_grandpa config then [] else [(true, true, "grandpa-voter"%string, None)].
Definition node_tasks (config : Configuration) : list Descriptor :=
  telemetry_tasks config ++ offchain_tasks config ++ authoring_tasks config ++ grandpa_tasks config.

(** A start that fails: the last call is the one that answered with the error (or, for the panic,
    the lookup of the genesis block that found none), so nothing is done after a failure. *)
Definition failed_with (e : StartError) (c : called serviceE) : Prop :=
  match e with
  | Service e => exists X (ev : serviceE (result X ServiceError)), c = Called ev (Err e)
  | Panicked _ => exists client, c = Called (genesis_block_hash client) None
  end.
Definition stops_at_error (e : StartError) (l : list (called serviceE)) : Prop :=
  exists c, last l = Some c /\ failed_with e c.

Lemma stops_app e l1 l2 : stops_at_error e l2 -> stops_at_error e (l1 ++ l2).
Proof. intros (c & Hc & ?). exists c. split; [|done]. rewrite last_app. by rewrite Hc. Qed.

Lemma spawned_app l1 l2 : spawned (l1 ++ l2) = spawned l1 ++ spawned l2.
Proof. apply omap_app. Qed.

(** When [p] succeeds it has spawned exactly [tasks] on [tm], in order; when it fails it stops
    there, having spawned an initial part of them. *)
Definition starts {A} (tm : TaskManager) (p : fallible serviceE StartError A) (tasks : list Descriptor)
    (post : A -> Prop) : Prop :=
  triple p (fun a l => spawned l = (fun d => (tm, d)) <$> tasks /\ post a)
    (fun e l => stops_at_error e l /\ (snd <$> spawned l) `prefix_of` tasks).

(** A program that spawns nothing. *)
Definition quiet {A} (p : fallible serviceE StartError A) : Prop :=
  triple p (fun _ l => spawned l = []) (fun e l => stops_at_error e l /\ spawned l = []).

Lemma snd_spawned tm (tasks : list Descriptor) :
  @snd TaskManager Descriptor <$> ((fun d => (tm, d)) <$> tasks) = tasks.
Proof. rewrite <- list_fmap_compose. apply list_fmap_id. Qed.

Lemma quiet_ok {A} (a : A) : quiet (ok a).
Proof. by apply triple_ok. Qed.

Lemma quiet_try {X} (e : serviceE (result X ServiceError)) :
  (forall x, spawn_of (Called e x) = None) -> quiet (try e).
Proof.
  intros He env h. exists [Called e (env _ h e)]. unfold spawned. cbn -[spawn_of]. rewrite He.
  destruct (env _ h e) as [x|f] eqn:Ex; cbn; [done|]. split_and!; [done | | done].
  eexists. split; [done|]. by eexists _, _.
Qed.

Lemma quiet_io {X} (e : serviceE X) :
  (forall x, spawn_of (Called e x) = None) -> quiet (io (trigger e)).
Proof. intros He. apply triple_io. intros x. unfold spawned. cbn -[spawn_of]. by rewrite He. Qed.

Lemma starts_ok {A} tm (a : A) (post : A -> Prop) : post a -> starts tm (ok a) [] post.
Proof. intros Ha. by apply triple_ok. Qed.

Lemma starts_spawn tm essential blocking name group task :
  starts tm (spawn_task tm essential blocking name group task) [(essential, blocking, name, group)]
    (fun _ => True).
Proof. by apply triple_io. Qed.

Lemma starts_then {A B} tm (p : fallible serviceE StartError A) (f : A -> fallible serviceE StartError B)
    tasks1 tasks2 post1 post :
  starts tm p tasks1 post1 -> (forall a, post1 a -> starts tm (f a) tasks2 post) ->
  starts tm (and_then p f) (tasks1 ++ tasks2) post.
Proof.
  intros Hp Hf. eapply triple_and_then.
  - eapply triple_mono; [intros a l H; exact H | | exact Hp].
    intros e l [Hs Hl]. split; [done|]. by apply prefix_app_r.
  - intros a l1 [E1 Ha]. eapply triple_mono; [| |apply (Hf a Ha)]; cbn.
    + intros b l2 [E2 Hb]. by rewrite spawned_app, E1, E2, fmap_app.
    + intros e l2 [Hs Hl]. split; [by apply stops_app|].
      rewrite spawned_app, fmap_app, E1, snd_spawned. by apply prefix_app.
Qed.

Lemma starts_quiet_then {A B} tm (p : fallible serviceE StartError A)
    (f : A -> fallible serviceE StartError B) tasks post :
  quiet p -> (forall a, starts tm (f a) tasks post) -> starts tm (and_then p f) tasks post.
Proof.
  intros Hp Hf. apply (starts_then tm p f [] tasks (fun _ => True)); [|by intros a _].
  eapply triple_mono; [| |exact Hp]; cbn; [by intros _ l ->|].
  intros e l [Hs ->]. split; [done | apply prefix_nil].
Qed.

(** ** [new_partial] starts the telemetry *)

Lemma start_telemetry_starts config :
  triple (start_telemetry config)
    (fun t l => spawned l = [] /\ (is_Some t <-> is_Some (nonempty_endpoints config)))
    (fun e l => stops_at_error e l /\ spawned l = []).
Proof.
  unfold start_telemetry. destruct (nonempty_endpoints config) as [endpoints|]; [|by apply triple_ok].
  eapply triple_and_then; [by apply quiet_try|]. intros worker l1 H1.
  apply triple_and_then with (fun _ l => spawned l = []); [by apply triple_io|].
  intros telemetry l2 H2. apply triple_ok. cbn. by rewrite !spawned_app, H1, H2.
Qed.

Lemma starts_components tm config client backend container telemetry :
  (is_Some telemetry <-> is_Some (nonempty_endpoints config)) ->
  starts tm (wire_components config telemetry client backend container tm)
    (telemetry_tasks config) (fun pc => pc_task_manager pc = tm).
Proof.
  intros Ht. rewrite <- (app_nil_r (telemetry_tasks config)).
  apply starts_then with (fun _ => True).
  - unfold telemetry_tasks. destruct telemetry as [[worker t]|].
    + destruct (proj1 Ht ltac:(by eexists)) as [l ->].
      apply (starts_then tm _ _ [_] [] (fun _ => True)); [apply starts_spawn | intros; by apply starts_ok].
    + destruct (nonempty_endpoints config); [|by apply starts_ok].
      by destruct (proj2 Ht ltac:(by eexists)).
  - intros t _. apply starts_quiet_then; [by apply quiet_io|]. intros pool.
    apply starts_quiet_then; [by apply quiet_try|]. intros [bi link].
    apply starts_quiet_then; [by apply quiet_try|]. intros q. by apply starts_ok.
Qed.

Lemma new_partial_starts config :
  triple (new_partial config)
    (fun pc l => spawned l = (fun d => (pc_task_manager pc, d)) <$> telemetry_tasks config)
    (fun e l => stops_at_error e l /\ (snd <$> spawned l) `prefix_of` telemetry_tasks config).
Proof.
  unfold new_partial. eapply triple_and_then.
  { eapply triple_mono; [intros t l H; exact H | | apply start_telemetry_starts].
    intros e l [Hs ->]. split; [done | apply prefix_nil]. }
  intros telemetry l1 [H1 Ht].
  apply triple_and_then with (fun _ l => spawned l = []); [by apply triple_io|].
  intros ex l2 H2. eapply triple_and_then.
  { eapply triple_mono; [intros t l H; exact H | | by apply quiet_try].
    intros e l [Hs Hl]. split; [by do 2 apply stops_app|].
    rewrite !spawned_app, H1, H2, Hl. apply prefix_nil. }
  intros [[[client backend] container] tm] l3 H3. cbn in H2, H3.
  eapply triple_mono; [| |exact (starts_components tm config client backend container telemetry Ht)].
  - intros pc l [Hl <-]. cbn. by rewrite !spawned_app, H1, H2, H3, Hl.
  - intros e l [Hs Hl]. split; [by do 3 apply stops_app|].
    by rewrite !spawned_app, H1, H2, H3.
Qed.

(** ** [new_full] starts the rest *)

Lemma starts_offchain tm config pc net :
  pc_task_manager pc = tm ->
  starts tm (start_offchain_workers config pc net) (offchain_tasks config) (fun _ => True).
Proof.
  intros <-. unfold start_offchain_workers, offchain_tasks.
  destruct (offchain_worker_enabled config); [|by apply starts_ok].
  apply starts_quiet_then; [by apply quiet_try|]. intros o. apply starts_spawn.
Qed.

Lemma starts_authoring tm config pc sync :
  pc_task_manager pc = tm ->
  starts tm (start_authoring config pc sync) (authoring_tasks config) (fun _ => True).
Proof.
  intros <-. unfold start_authoring, authoring_tasks.
  destruct (is_authority (role config)); [|by apply starts_ok].
  do 2 (apply starts_quiet_then; [by apply quiet_try|]; intros ?). apply starts_spawn.
Qed.

Lemma starts_grandpa tm config pc net sync ns name :
  pc_task_manager pc = tm ->
  starts tm (start_grandpa config pc net sync ns name) (grandpa_tasks config) (fun _ => True).
Proof.
  intros <-. unfold start_grandpa, grandpa_tasks.
  destruct (disable_grandpa config); [by apply starts_ok|].
  apply starts_quiet_then; [by apply quiet_try|]. intros v. apply starts_spawn.
Qed.

(** The genesis block exists, or the node panics. *)
Lemma quiet_genesis client : quiet (expect_genesis client).
Proof.
  apply triple_and_then with (fun g l => l = [Called (genesis_block_hash client) g]).
  { by apply triple_io. }
  intros [g|] l ->; [by apply triple_ok|]. apply triple_fail. split; [|done].
  eexists. split; [reflexivity|]. by eexists.
Qed.

Lemma new_full_starts N config :
  triple (new_full N config)
    (fun tm l => spawned l = (fun d => (tm, d)) <$> node_tasks config)
    (fun e l => stops_at_error e l /\ (snd <$> spawned l) `prefix_of` node_tasks config).
Proof.
  unfold new_full. eapply triple_and_then.
  { eapply triple_mono; [intros pc l H; exact H | | apply new_partial_starts].
    intros e l [Hs Hl]. split; [done | by apply prefix_app_r]. }
  intros pc l1 H1. cbn in H1.
  assert (Hrest : forall p, starts (pc_task_manager pc) p
      (offchain_tasks config ++ authoring_tasks config ++ grandpa_tasks config)
      (fun tm => tm = pc_task_manager pc) ->
    triple p (fun tm l2 => spawned (l1 ++ l2) = (fun d => (tm, d)) <$> node_tasks config)
      (fun e l2 => stops_at_error e (l1 ++ l2)
        /\ (snd <$> spawned (l1 ++ l2)) `prefix_of` node_tasks config)).
  { intros p. apply triple_mono.
    - intros tm l2 [H2 ->]. unfold node_tasks. by rewrite spawned_app, H1, H2, <- fmap_app.
    - intros e l2 [Hs Hl]. split; [by apply stops_app|].
      rewrite spawned_app, fmap_app, H1, snd_spawned. by apply prefix_app. }
  apply Hrest. clear Hrest. set (tm := pc_task_manager pc).
  apply starts_quiet_then; [by apply quiet_io | intros metrics].
  apply starts_quiet_then; [by apply quiet_io | intros peers].
  apply starts_quiet_then; [apply quiet_genesis | intros genesis].
  apply starts_quiet_then; [by apply quiet_io | intros name].
  apply starts_quiet_then; [by apply quiet_io | intros [protocol ns]].
  apply starts_quiet_then; [by apply quiet_try | intros [[[net tx] ctl] sync]].
  eapply starts_then; [by apply starts_offchain | intros _ _].
  apply starts_quiet_then; [by apply quiet_try | intros _].
  eapply starts_then; [by apply starts_authoring | intros _ _].
  rewrite <- (app_nil_r (grandpa_tasks config)).
  eapply starts_then; [by apply starts_grandpa | intros _ _]. by apply starts_ok.
Qed.

(** C37: what a node runs. Whatever the libraries answer, a start of the full node that succeeds has
    spawned exactly the tasks its configuration asks for, in this order and all on the task manager
    it returns: telemetry if there are endpoints, the off-chain workers if they are enabled, block
    authoring if the node is an authority, the GRANDPA voter unless it is disabled - the last two
    essential. A start that fails does nothing after the call that failed, and has spawned an
    initial part of these tasks. *)
Theorem new_full_spawns_its_tasks N config env :
  match outcome_of env (new_full N config) with
  | Ok tm => spawned (trace env (new_full N config)) = (fun d => (tm, d)) <$> node_tasks config
  | Err e => stops_at_error e (trace env (new_full N config))
      /\ (snd <$> spawned (trace env (new_full N config))) `prefix_of` node_tasks config
  end.
Proof. exact (triple_run _ _ _ env (new_full_starts N config)). Qed.

(** ** Keys *)

(** Calls that put consensus keys to work. *)
Definition keyless (X : Type) (e : serviceE X) : Prop :=
  match e with
  | start_aura _ => False
  | run_grandpa_voter p => gc_keystore (gp_config p) = None
  | spawn _ _ _ name _ _ => name <> "aura"%string
  | _ => True
  end.

(** C38: only authorities sign. Whatever the libraries answer, the start of a node that is not an
    authority never starts block authoring and never hands the GRANDPA voter a keystore. *)
Theorem keys_only_for_authorities N config env :
  is_authority (role config) = false ->
  Forall (satisfies keyless) (trace env (new_full N config)).
Proof.
  intros Hrole. apply trace_all_calls. unfold new_full, new_partial, start_telemetry, wire_components,
    start_offchain_workers, start_authoring, start_grandpa, expect_genesis, spawn_task.
  rewrite Hrole. calls.
Qed.
End Service.
(** ** A concrete environment: every call succeeds *)

#[local] Instance Stub : Substrate := {|
  Endpoint := string; TelemetryWorker := unit; Telemetry := unit; TelemetryHandle := unit;
  telemetry_handle := fun t => t; ExecutorConfig := unit; WasmExecutor := unit;
  FullClient := unit; FullBackend := unit; KeystoreContainer := unit; Keystore := unit;
  keystore := fun k => k; TaskManager := nat; Registry := unit; PoolOptions := unit;
  TransactionPool := unit; GrandpaBlockImport := unit; LinkHalf := unit; ImportQueue := unit;
  BlockHash := unit; SlotDuration := Z; Timestamp := Z; Slot := Z;
  from_timestamp_and_slot_duration := Z.div; NodeRole := bool; is_authority := fun r => r;
  NetworkConfig := unit; NetworkBackendType := bool; NotificationMetrics := unit;
  ChainSpecBox := unit; DatabaseSource := unit; ProtocolName := unit;
  PeerStoreHandle := unit; PeersSetConfig := unit;
  NotificationService := unit; Network := unit; SystemRpcTx := unit; TxHandlerController := unit;
  SyncService := unit; OffchainWorkers := unit; AuraWorker := unit; GrandpaVoter := unit;
  RpcModule := unit; RpcError := unit; ServiceError := string;
|}.

Definition all_succeed : environment serviceE := fun X _ e =>
  match e with
  | telemetry_worker_new _ => Ok tt
  | new_telemetry _ _ => tt
  | new_wasm_executor _ => tt
  | new_full_parts _ _ _ => Ok (tt, tt, tt, 7%nat)
  | spawn _ _ _ _ _ _ => tt
  | build_transaction_pool _ _ _ _ _ => tt
  | grandpa_block_import _ _ _ _ => Ok (tt, tt)
  | aura_import_queue _ => Ok tt
  | register_notification_metrics _ _ => tt
  | genesis_block_hash _ => Some tt
  | protocol_standard_name _ _ => tt
  | peer_store_handle _ => tt
  | grandpa_peers_set_config _ _ _ => (tt, tt)
  | build_network _ => Ok (tt, tt, tt, tt)
  | offchain_workers_new _ => Ok tt
  | spawn_tasks _ => Ok tt
  | aura_slot_duration _ => Ok 6000
  | start_aura _ => Ok tt
  | run_grandpa_voter _ => Ok tt
  end.

Definition stub_config (authority : bool) : Configuration :=
  mkConfiguration (Some ["wss://telemetry"%string]) tt authority tt None tt None "node" tt tt true
    false false.

Lemma keys_only_for_authorities_witness :
  outcome_of all_succeed (new_full false (stub_config false)) = Ok 7%nat
  /\ Forall (satisfies keyless) (trace all_succeed (new_full false (stub_config false)))
  /\ spawned (trace all_succeed (new_full false (stub_config true)))
     = (fun d => (7%nat, d)) <$> node_tasks (stub_config true).
Proof.
  split; [reflexivity|]. split; [|reflexivity]. apply keys_only_for_authorities. reflexivity.
Defined.
