(* ===== verification/Command.v ===== *)
(** * The node's command line

    [node/src/cli.rs], [node/src/command.rs] and [node/src/main.rs]: the subcommands and what [run]
    does for each. The command structures and their [run] methods are library code: types of the
    class [Commands] and constructors of [cliE]. A runner gives its closure the configuration and
    returns the closure's result ([sync_run]), drives the future the closure returns ([async_run]),
    or runs a node until it is told to exit ([run_node_until_exit]). *)
From stdpp Require Import prelude list strings.
From S2P Require Import Prelude Runtime Interaction Service.
#[local] Open Scope Z_scope.
#[local] Open Scope prog_scope.

Class Commands := {
  KeySubcommand : Type;
  BuildSpecCmd : Type;
  CheckBlockCmd : Type;
  ExportBlocksCmd : Type;
  ExportStateCmd : Type;
  ImportBlocksCmd : Type;
  PurgeChainCmd : Type;
  RevertCmd : Type;
  ChainInfoCmd : Type;
  RunCmd : Type;
  PalletCmd : Type;
  BlockCmd : Type;
  StorageCmd : Type;
  OverheadCmd : Type;
  ExtrinsicCmd : Type;
  MachineCmd : Type;
  Runner : Type;
  InherentData : Type;
  CliAccount : Type;
  (** [Sr25519Keyring::Alice.to_account_id()] *)
  alice : CliAccount;
  CliError : Type;
  (** [sc_cli::Error::Service] and the conversion of a string *)
  service_error_into : forall {S : Substrate}, ServiceError -> CliError;
  str_into : string -> CliError;
}.

Section Command.
Context {S : Substrate} {C : Commands}.

(** [frame_benchmarking_cli::BenchmarkCmd] *)
Inductive BenchmarkCmd : Type :=
| Pallet (cmd : PalletCmd)
| Block (cmd : BlockCmd)
| Storage (cmd : StorageCmd)
| Overhead (cmd : OverheadCmd)
| Extrinsic (cmd : ExtrinsicCmd)
| Machine (cmd : MachineCmd).

Inductive Subcommand : Type :=
| Key (cmd : KeySubcommand)
| BuildSpec (cmd : BuildSpecCmd)
| CheckBlock (cmd : CheckBlockCmd)
| ExportBlocks (cmd : ExportBlocksCmd)
| ExportState (cmd : ExportStateCmd)
| ImportBlocks (cmd : ImportBlocksCmd)
| PurgeChain (cmd : PurgeChainCmd)
| Revert (cmd : RevertCmd)
| Benchmark (cmd : BenchmarkCmd)
| ChainInfo (cmd : ChainInfoCmd).

Record Cli := mkCli {
  subcommand : option Subcommand;
  cli_run : RunCmd;
}.

(** The extrinsic builders of [node/src/benchmarking.rs], with what they hold; what they build is in
    [Node]. *)
Inductive ExtrinsicBuilder : Type :=
| RemarkBuilder (client : FullClient)
| TransferKeepAliveBuilder (client : FullClient) (dest : CliAccount) (value : Z).

(** [ExtrinsicBuilder::pallet] and [ExtrinsicBuilder::extrinsic] *)
Definition builder_pallet (b : ExtrinsicBuilder) : string :=
  match b with RemarkBuilder _ => "system" | TransferKeepAliveBuilder _ _ _ => "balances" end.
Definition builder_extrinsic (b : ExtrinsicBuilder) : string :=
  match b with
  | RemarkBuilder _ => "remark"
  | TransferKeepAliveBuilder _ _ _ => "transfer_keep_alive"
  end.

(** What [create_runner] is called on. *)
Inductive CliConfiguration : Type :=
| OfSubcommand (s : Subcommand)
| OfRun (r : RunCmd).

(** The futures of [async_run]: the asynchronous [run] methods with their arguments. The revert is
    handed the auxiliary revert of GRANDPA. *)
Inductive CommandFuture : Type :=
| CheckBlockRun (cmd : CheckBlockCmd) (client : FullClient) (queue : ImportQueue)
| ExportBlocksRun (cmd : ExportBlocksCmd) (client : FullClient) (db : DatabaseSource)
| ExportStateRun (cmd : ExportStateCmd) (client : FullClient) (spec : ChainSpecBox)
| ImportBlocksRun (cmd : ImportBlocksCmd) (client : FullClient) (queue : ImportQueue)
| RevertRun (cmd : RevertCmd) (client : FullClient) (backend : FullBackend).

Inductive cliE : Type -> Type :=
| from_args : cliE Cli
| key_run (cmd : KeySubcommand) (cli : Cli) : cliE (result unit CliError)
| create_runner (c : CliConfiguration) : cliE (result Runner CliError)
(** the configuration the runner calls its closure with *)
| runner_config (r : Runner) : cliE Configuration
| build_spec_run (cmd : BuildSpecCmd) (spec : ChainSpecBox) (net : NetworkConfig) :
    cliE (result unit CliError)
| purge_chain_run (cmd : PurgeChainCmd) (db : DatabaseSource) : cliE (result unit CliError)
| chain_info_run (cmd : ChainInfoCmd) (config : Configuration) : cliE (result unit CliError)
| drive (future : CommandFuture) (tm : TaskManager) : cliE (result unit CliError)
| benchmark_pallet_run (cmd : PalletCmd) (spec : ChainSpecBox) : cliE (result unit CliError)
| benchmark_block_run (cmd : BlockCmd) (client : FullClient) : cliE (result unit CliError)
(** with [backend.expose_db()] and [backend.expose_storage()] *)
| benchmark_storage_run (cmd : StorageCmd) (config : Configuration) (client : FullClient)
    (backend : FullBackend) : cliE (result unit CliError)
(** [InherentDataProvider::new(d).provide_inherent_data(..)] for [d] in milliseconds; the error as
    [{:?}] prints it *)
| provide_inherent_data (millis : Z) : cliE (result InherentData string)
(** with the name of the chain specification *)
| benchmark_overhead_run (cmd : OverheadCmd) (spec : ChainSpecBox) (client : FullClient)
    (inherents : InherentData) (builder : ExtrinsicBuilder) : cliE (result unit CliError)
| benchmark_extrinsic_run (cmd : ExtrinsicCmd) (client : FullClient) (inherents : InherentData)
    (factory : list ExtrinsicBuilder) : cliE (result unit CliError)
| benchmark_machine_run (cmd : MachineCmd) (config : Configuration) : cliE (result unit CliError)
(** [run_node_until_exit]: keep the task manager until a signal or an essential task ends it *)
| wait_until_exit (tm : TaskManager) : cliE (result unit CliError).

(** Everything the program calls. *)
Inductive nodeE : Type -> Type :=
| cli_call {X} (e : cliE X) : nodeE X
| service_call {X} (e : serviceE X) : nodeE X.

Inductive NodeError : Type :=
| CliFailed (e : CliError)
| NodePanicked (message : string).

Definition start_error_into (e : StartError) : NodeError :=
  match e with
  | Service e => CliFailed (service_error_into e)
  | Panicked m => NodePanicked m
  end.

Definition node_prog : Type -> Type := fallible nodeE NodeError.

Definition call {X} (e : cliE X) : node_prog X := io (trigger (cli_call e)).
Definition call_try {X} (e : cliE (result X CliError)) : node_prog X :=
  prog_bind (fun r => match r with Ok x => ok x | Err e => fail (CliFailed e) end)
    (trigger (cli_call e)).
(** A start of the service inside a command, its error converted by [?]. *)
Definition serve {X} (p : fallible serviceE StartError X) : node_prog X :=
  prog_bind (fun r => match r with Ok x => ok x | Err e => fail (start_error_into e) end)
    (translate (@service_call) p).

(** [runner.sync_run(|config| body)] after [cli.create_runner(cmd)?] *)
Definition sync_run (c : CliConfiguration) (body : Configuration -> node_prog unit) : node_prog unit :=
  let? runner := call_try (create_runner c) in
  let? config := call (runner_config runner) in
  body config.

(** [runner.async_run(|config| { let PartialComponents { .. } = new_partial(&config)?; .. })] *)
Definition async_run (c : CliConfiguration)
    (future : Configuration -> PartialComponents -> CommandFuture) : node_prog unit :=
  sync_run c (fun config =>
    let? pc := serve (new_partial config) in
    call_try (drive (future config pc) (pc_task_manager pc))).

(** [inherent_benchmark_data] of [node/src/benchmarking.rs] *)
Definition inherent_benchmark_data : node_prog InherentData :=
  prog_bind (fun r =>
    match r with
    | Ok data => ok data
    | Err e => fail (CliFailed (str_into ("creating inherent data: " ++ e)))
    end) (trigger (cli_call (provide_inherent_data 0))).

(** The closure of [Subcommand::Benchmark]; [runtime_benchmarks] is the build feature. *)
Definition run_benchmark (runtime_benchmarks : bool) (cmd : BenchmarkCmd) (config : Configuration) :
    node_prog unit :=
  match cmd with
  | Pallet cmd =>
      if negb runtime_benchmarks then
        fail (CliFailed (str_into ("Runtime benchmarking wasn't enabled when building the node. " ++
          "You can enable it with `--features runtime-benchmarks`.")))
      else call_try (benchmark_pallet_run cmd (chain_spec config))
  | Block cmd =>
      let? pc := serve (new_partial config) in
      call_try (benchmark_block_run cmd (pc_client pc))
  | Storage cmd =>
      if negb runtime_benchmarks then
        fail (CliFailed (str_into
          "Storage benchmarking can be enabled with `--features runtime-benchmarks`."))
      else
        let? pc := serve (new_partial config) in
        call_try (benchmark_storage_run cmd config (pc_client pc) (pc_backend pc))
  | Overhead cmd =>
      let? pc := serve (new_partial config) in
      let? inherents := inherent_benchmark_data in
      call_try (benchmark_overhead_run cmd (chain_spec config) (pc_client pc) inherents
        (RemarkBuilder (pc_client pc)))
  | Extrinsic cmd =>
      let? pc := serve (new_partial config) in
      let factory := [RemarkBuilder (pc_client pc);
        TransferKeepAliveBuilder (pc_client pc) alice EXISTENTIAL_DEPOSIT] in
      let? inherents := inherent_benchmark_data in
      call_try (benchmark_extrinsic_run cmd (pc_client pc) inherents factory)
  | Machine cmd => call_try (benchmark_machine_run cmd config)
  end.

(** [run], once the arguments are parsed; [default_backend] is the network backend of
    [unwrap_or_default]. *)
Definition run_cli (runtime_benchmarks : bool) (default_backend : NetworkBackendType) (cli : Cli) :
    node_prog unit :=
  match subcommand cli with
  | Some s =>
      let c := OfSubcommand s in
      match s with
      | Key cmd => call_try (key_run cmd cli)
      | BuildSpec cmd =>
          sync_run c (fun config => call_try (build_spec_run cmd (chain_spec config) (network config)))
      | CheckBlock cmd =>
          async_run c (fun _ pc => CheckBlockRun cmd (pc_client pc) (pc_import_queue pc))
      | ExportBlocks cmd =>
          async_run c (fun config pc => ExportBlocksRun cmd (pc_client pc) (database config))
      | ExportState cmd =>
          async_run c (fun config pc => ExportStateRun cmd (pc_client pc) (chain_spec config))
      | ImportBlocks cmd =>
          async_run c (fun _ pc => ImportBlocksRun cmd (pc_client pc) (pc_import_queue pc))
      | PurgeChain cmd => sync_run c (fun config => call_try (purge_chain_run cmd (database config)))
      | Revert cmd => async_run c (fun _ pc => RevertRun cmd (pc_client pc) (pc_backend pc))
      | Benchmark cmd => sync_run c (run_benchmark runtime_benchmarks cmd)
      | ChainInfo cmd => sync_run c (fun config => call_try (chain_info_run cmd config))
      end
  | None =>
      sync_run (OfRun (cli_run cli)) (fun config =>
        let? tm := serve (new_full (default default_backend (network_backend config)) config) in
        call_try (wait_until_exit tm))
  end.

Definition run (runtime_benchmarks : bool) (default_backend : NetworkBackendType) : node_prog unit :=
  let? cli := call from_args in
  run_cli runtime_benchmarks default_backend cli.

(** [main.rs] *)
Definition main (runtime_benchmarks : bool) (default_backend : NetworkBackendType) : node_prog unit :=
  run runtime_benchmarks default_backend.

(** ** What a subcommand may do *)

(** Calls that take part in the network or in consensus. *)
Definition joins_network {X} (e : serviceE X) : bool :=
  match e with
  | register_notification_metrics _ _ | grandpa_peers_set_config _ _ _ | build_network _
  | offchain_workers_new _ | spawn_tasks _ | aura_slot_duration _ | start_aura _
  | run_grandpa_voter _ => true
  | _ => false
  end.

(** A call of a command that works on the database at most. *)
Definition offline (X : Type) (e : nodeE X) : Prop :=
  match e with
  | cli_call (wait_until_exit _) => False
  | cli_call _ => True
  | service_call e => joins_network e = false
  end.

(** A call of a command that does not even open the database. *)
Definition without_database (X : Type) (e : nodeE X) : Prop :=
  match e with service_call _ => False | _ => True end.

Definition needs_database (s : Subcommand) : bool :=
  match s with
  | Key _ | BuildSpec _ | PurgeChain _ | ChainInfo _ => false
  | Benchmark (Pallet _) | Benchmark (Machine _) => false
  | _ => true
  end.

Lemma all_calls_serve {X} (P : forall Y, nodeE Y -> Prop) (p : fallible serviceE StartError X) :
  all_calls (fun Y e => P Y (service_call e)) p -> all_calls P (serve p).
Proof.
  intros Hp. apply all_calls_bind; [by apply all_calls_translate|]. by intros [x|e].
Qed.

Lemma all_calls_call {X} (P : forall Y, nodeE Y -> Prop) (e : cliE X) :
  P X (cli_call e) -> all_calls P (call e).
Proof. intros He. by apply all_calls_io. Qed.

Lemma all_calls_call_try {X} (P : forall Y, nodeE Y -> Prop) (e : cliE (result X CliError)) :
  P _ (cli_call e) -> all_calls P (call_try e).
Proof. intros He. apply all_calls_bind; [by split|]. by intros [x|f]. Qed.

Lemma all_calls_sync_run (P : forall Y, nodeE Y -> Prop) c body :
  P _ (cli_call (create_runner c)) -> (forall r, P _ (cli_call (runner_config r))) ->
  (forall config, all_calls P (body config)) -> all_calls P (sync_run c body).
Proof.
  intros H1 H2 Hb. apply all_calls_and_then; [by apply all_calls_call_try|]. intros r.
  apply all_calls_and_then; [by apply all_calls_call | done].
Qed.

(** Opening the database joins nothing. *)
Lemma new_partial_offline config :
  all_calls (fun Y e => offline Y (service_call e)) (new_partial config).
Proof.
  unfold new_partial, start_telemetry, wire_components, spawn_task. calls.
Qed.

Lemma async_run_offline c future : all_calls offline (async_run c future).
Proof.
  apply all_calls_sync_run; [done | done|]. intros config. apply all_calls_and_then.
  - apply all_calls_serve, new_partial_offline.
  - intros pc. by apply all_calls_call_try.
Qed.

Lemma run_benchmark_offline feature cmd config : all_calls offline (run_benchmark feature cmd config).
Proof.
  assert (Hp := all_calls_serve offline _ (new_partial_offline config)).
  destruct cmd; cbn [run_benchmark]; try destruct (negb feature); try done;
    try (by apply all_calls_call_try); (apply all_calls_and_then; [exact Hp|]; intros pc);
    try (by apply all_calls_call_try);
    (apply all_calls_and_then; [apply all_calls_bind; [by split | by intros [d|e]]|]; intros d);
    by apply all_calls_call_try.
Qed.

(** C39: only a bare invocation joins the network. Whatever the libraries answer, a run of the node
    with a subcommand builds no network, starts no consensus, off-chain worker or RPC task and does
    not wait for an exit; and the subcommands that do not need the database make no call into the
    service at all. *)
Theorem subcommands_stay_offline feature backend cli env s :
  subcommand cli = Some s ->
  Forall (satisfies offline) (trace env (run_cli feature backend cli))
  /\ (needs_database s = false ->
      Forall (satisfies without_database) (trace env (run_cli feature backend cli))).
Proof.
  intros Hs. split; [|intros Hd]; apply trace_all_calls; unfold run_cli; rewrite Hs.
  - destruct s; try apply async_run_offline; try (by apply all_calls_call_try);
      (apply all_calls_sync_run; [done | done |]); intros config;
      try (by apply all_calls_call_try). apply run_benchmark_offline.
  - destruct s as [| | | | | | | |b|]; try done; try (by apply all_calls_call_try);
      (apply all_calls_sync_run; [done | done |]); intros config;
      try (by apply all_calls_call_try).
    destruct b; try done; cbn [run_benchmark]; [|by apply all_calls_call_try].
    destruct (negb feature); [done | by apply all_calls_call_try].
Qed.
End Command.

(** ** A concrete environment: every call succeeds *)

#[local] Existing Instance Stub.
#[local] Instance StubCommands : Commands := {|
  KeySubcommand := unit; BuildSpecCmd := unit; CheckBlockCmd := unit; ExportBlocksCmd := unit;
  ExportStateCmd := unit; ImportBlocksCmd := unit; PurgeChainCmd := unit; RevertCmd := unit;
  ChainInfoCmd := unit; RunCmd := unit; PalletCmd := unit; BlockCmd := unit; StorageCmd := unit;
  OverheadCmd := unit; ExtrinsicCmd := unit; MachineCmd := unit; Runner := unit;
  InherentData := unit; CliAccount := unit; alice := tt; CliError := string;
  service_error_into := fun _ _ => "service"%string;
  str_into := fun s => s;
|}.

Definition cli_succeeds (X : Type) (e : cliE X) : X :=
  match e with
  | from_args => mkCli None tt
  | create_runner _ => Ok tt
  | runner_config _ => stub_config true
  | provide_inherent_data _ => Ok tt
  | key_run _ _ | build_spec_run _ _ _ | purge_chain_run _ _ | chain_info_run _ _ | drive _ _
  | benchmark_pallet_run _ _ | benchmark_block_run _ _ | benchmark_storage_run _ _ _ _
  | benchmark_overhead_run _ _ _ _ _ | benchmark_extrinsic_run _ _ _ _
  | benchmark_machine_run _ _ | wait_until_exit _ => Ok tt
  end.

Definition node_succeeds : environment nodeE := fun X h e =>
  match e with
  | cli_call e => cli_succeeds _ e
  | service_call e => all_succeed _ [] e
  end.

Lemma subcommands_stay_offline_witness :
  Forall (satisfies offline)
    (trace node_succeeds (run_cli false false (mkCli (Some (CheckBlock tt)) tt)))
  /\ outcome_of node_succeeds (run_cli false false (mkCli (Some (CheckBlock tt)) tt)) = Ok tt
  /\ outcome_of node_succeeds (run false false) = Ok tt.
Proof.
  split; [|split; reflexivity].
  eapply (subcommands_stay_offline (S := Stub) (C := StubCommands)). reflexivity.
Defined.
