(* ===== verification/Apis.v ===== *)
(** * The runtime APIs

    [runtime/src/apis.rs] and [runtime/src/benchmarks.rs]: the functions through which the node
    calls the runtime. The runtime's executive, its pallets and its metadata are library code, so a
    call into them is a constructor of [frameE]; an API function is a constructor of [apiE] with the
    type of its answer, and [api] is its body. Functions of [try-runtime] that [unwrap] or [expect]
    a result panic when it is an error. *)
From stdpp Require Import prelude list strings.
From S2P Require Import Prelude Types Config Runtime Interaction Node.
#[local] Open Scope Z_scope.
#[local] Open Scope prog_scope.

(** The types of the chain and of the libraries. *)
Class Frame := {
  ApiBlock : Type;
  ApiHeader : Type;
  ApiExtrinsic : Type;
  ApiHash : Type;
  ApiCallType : Type;
  ApiAccount : Type;
  ApiBytes : Type;
  ApiWeight : Type;
  InclusionMode : Type;
  Metadata : Type;
  ViewFunctionId : Type;
  ViewFunctionError : Type;
  ApplyResult : Type;
  ApiInherentData : Type;
  CheckInherentsResult : Type;
  TransactionSource : Type;
  Validity : Type;
  ApiAuraId : Type;
  KeyTypeId : Type;
  ApiGrandpaId : Type;
  AuthorityList : Type;
  SetId : Type;
  EquivocationProof : Type;
  KeyOwnershipProof : Type;
  DispatchInfo : Type;
  FeeDetails : Type;
  UpgradeCheckSelect : Type;
  TryStateSelect : Type;
  TryError : Type;
  BenchmarkList : Type;
  StorageInfo : Type;
  BenchmarkConfig : Type;
  StorageKeys : Type;
  BenchmarkBatch : Type;
}.

(** The pallets of [define_benchmarks!] ([benchmarks.rs]), with what runs them. *)
Definition benchmarks : list (string * string) :=
  [("frame_benchmarking", "BaselineBench::<Runtime>"); ("frame_system", "SystemBench::<Runtime>");
   ("frame_system_extensions", "SystemExtensionsBench::<Runtime>"); ("pallet_balances", "Balances");
   ("pallet_timestamp", "Timestamp"); ("pallet_sudo", "Sudo")]%string.

Section Apis.
Context {F : Frame}.

(** ** The functions *)

Inductive paymentE : Type -> Type :=
(** [TransactionPaymentApi] *)
| query_info (uxt : ApiExtrinsic) (len : Z) : paymentE DispatchInfo
| query_fee_details (uxt : ApiExtrinsic) (len : Z) : paymentE FeeDetails
| query_weight_to_fee (w : ApiWeight) : paymentE Z
| query_length_to_fee (len : Z) : paymentE Z
(** [TransactionPaymentCallApi]; its two fee queries bear the names of the previous ones *)
| query_call_weight_to_fee (w : ApiWeight) : paymentE Z
| query_call_length_to_fee (len : Z) : paymentE Z
| query_call_info (c : ApiCallType) (len : Z) : paymentE DispatchInfo
| query_call_fee_details (c : ApiCallType) (len : Z) : paymentE FeeDetails.

Inductive apiE : Type -> Type :=
(** [sp_api::Core] *)
| version : apiE RuntimeVersion
| execute_block (block : ApiBlock) : apiE unit
| initialize_block (header : ApiHeader) : apiE InclusionMode
(** [sp_api::Metadata] *)
| metadata : apiE Metadata
| metadata_at_version (v : Z) : apiE (option Metadata)
| metadata_versions : apiE (list Z)
(** [RuntimeViewFunction] *)
| execute_view_function (id : ViewFunctionId) (input : ApiBytes) :
    apiE (result ApiBytes ViewFunctionError)
(** [sp_block_builder::BlockBuilder] *)
| apply_extrinsic (e : ApiExtrinsic) : apiE ApplyResult
| finalize_block : apiE ApiHeader
| inherent_extrinsics (data : ApiInherentData) : apiE (list ApiExtrinsic)
| check_inherents (block : ApiBlock) (data : ApiInherentData) : apiE CheckInherentsResult
(** [TaggedTransactionQueue] *)
| validate_transaction (s : TransactionSource) (tx : ApiExtrinsic) (block_hash : ApiHash) :
    apiE Validity
(** [sp_offchain::OffchainWorkerApi] *)
| offchain_worker (header : ApiHeader) : apiE unit
(** [sp_consensus_aura::AuraApi]; a slot duration is in milliseconds *)
| slot_duration : apiE Z
| authorities : apiE (list ApiAuraId)
(** [sp_session::SessionKeys] *)
| generate_session_keys (seed : option ApiBytes) : apiE ApiBytes
| decode_session_keys (encoded : ApiBytes) : apiE (option (list (ApiBytes * KeyTypeId)))
(** [sp_consensus_grandpa::GrandpaApi] *)
| grandpa_authorities : apiE AuthorityList
| current_set_id : apiE SetId
| submit_report_equivocation_unsigned_extrinsic (p : EquivocationProof) (k : KeyOwnershipProof) :
    apiE (option unit)
| generate_key_ownership_proof (set : SetId) (id : ApiGrandpaId) : apiE (option KeyOwnershipProof)
(** [AccountNonceApi] *)
| account_nonce (a : ApiAccount) : apiE Z
(** [TransactionPaymentApi] and [TransactionPaymentCallApi] *)
| payment {X} (f : paymentE X) : apiE X
(** [frame_benchmarking::Benchmark], in benchmarking builds *)
| benchmark_metadata (extra : bool) : apiE (list BenchmarkList * StorageInfo)
| dispatch_benchmark (config : BenchmarkConfig) : apiE (result (list BenchmarkBatch) string)
(** [frame_try_runtime::TryRuntime] *)
| on_runtime_upgrade (checks : UpgradeCheckSelect) : apiE (ApiWeight * ApiWeight)
| try_execute_block (block : ApiBlock) (state_root_check signature_check : bool)
    (select : TryStateSelect) : apiE ApiWeight
(** [sp_genesis_builder::GenesisBuilder] *)
| build_state (config : ApiBytes) : apiE (result unit string)
| genesis_preset (id : option string) : apiE (option ApiBytes)
| genesis_preset_names : apiE (list string).

(** ** What they call *)

Inductive frameE : Type -> Type :=
| Executive_execute_block (block : ApiBlock) : frameE unit
| Executive_initialize_block (header : ApiHeader) : frameE InclusionMode
| Executive_apply_extrinsic (e : ApiExtrinsic) : frameE ApplyResult
| Executive_finalize_block : frameE ApiHeader
| Executive_validate_transaction (s : TransactionSource) (tx : ApiExtrinsic) (h : ApiHash) :
    frameE Validity
| Executive_offchain_worker (header : ApiHeader) : frameE unit
| Executive_try_runtime_upgrade (checks : UpgradeCheckSelect) : frameE (result ApiWeight TryError)
| Executive_try_execute_block (block : ApiBlock) (state_root_check signature_check : bool)
    (select : TryStateSelect) : frameE (result ApiWeight TryError)
| Runtime_metadata : frameE Metadata
| Runtime_metadata_at_version (v : Z) : frameE (option Metadata)
| Runtime_metadata_versions : frameE (list Z)
| Runtime_execute_view_function (id : ViewFunctionId) (input : ApiBytes) :
    frameE (result ApiBytes ViewFunctionError)
| create_extrinsics (data : ApiInherentData) : frameE (list ApiExtrinsic)
| check_extrinsics (data : ApiInherentData) (block : ApiBlock) : frameE CheckInherentsResult
| Aura_Authorities : frameE (list ApiAuraId)
| SessionKeys_generate (seed : option ApiBytes) : frameE ApiBytes
| SessionKeys_decode (encoded : ApiBytes) : frameE (option (list (ApiBytes * KeyTypeId)))
| Grandpa_grandpa_authorities : frameE AuthorityList
| Grandpa_current_set_id : frameE SetId
| System_account_nonce (a : ApiAccount) : frameE Z
| TransactionPayment_query_info (uxt : ApiExtrinsic) (len : Z) : frameE DispatchInfo
| TransactionPayment_query_fee_details (uxt : ApiExtrinsic) (len : Z) : frameE FeeDetails
| TransactionPayment_query_call_info (c : ApiCallType) (len : Z) : frameE DispatchInfo
| TransactionPayment_query_call_fee_details (c : ApiCallType) (len : Z) : frameE FeeDetails
| TransactionPayment_weight_to_fee (w : ApiWeight) : frameE Z
| TransactionPayment_length_to_fee (len : Z) : frameE Z
| frame_build_state (config : ApiBytes) : frameE (result unit string)
(** the [list_benchmark!] and [add_benchmark!] of one benchmarked pallet *)
| list_benchmark (pallet : string * string) (extra : bool) : frameE (list BenchmarkList)
| add_benchmark (pallet : string * string) (config : BenchmarkConfig) (whitelist : StorageKeys) :
    frameE (result (list BenchmarkBatch) string)
| AllPallets_storage_info : frameE StorageInfo
| AllPallets_whitelisted_storage_keys : frameE StorageKeys.

(** ** Their bodies *)

(** [pallet_aura::MinimumPeriodTimesTwo], [frame_support]'s [get_preset], the maximum block weight,
    and the presets of [genesis_config_presets.rs]. *)
Context (MinimumPeriodTimesTwo : Z -> Z)
  (get_preset_helper : option string -> (string -> option ApiBytes) -> option ApiBytes)
  (max_block : ApiWeight) (preset : string -> option ApiBytes) (names : list string).

(** [type SlotDuration = pallet_aura::MinimumPeriodTimesTwo<Runtime>] *)
Definition Aura_SlotDuration : Z := aura_SlotDuration (pallet_aura_Config MinimumPeriodTimesTwo).

Definition delegate {X} (e : frameE X) : fallible frameE string X := io (trigger e).

(** [.unwrap()], [.expect(message)] *)
Definition unwrap {X} (message : string) (e : frameE (result X TryError)) : fallible frameE string X :=
  prog_bind (fun r => match r with Ok x => ok x | Err _ => fail message end) (trigger e).

(** [TryRuntime::on_runtime_upgrade] and [TryRuntime::execute_block] *)
Definition try_runtime_upgrade (checks : UpgradeCheckSelect) :
    fallible frameE string (ApiWeight * ApiWeight) :=
  prog_bind (fun r => match r with Ok w => ok (w, max_block) | Err e => fail e end)
    (unwrap "unwrap" (Executive_try_runtime_upgrade checks)).
Definition try_block (block : ApiBlock) (state_root_check signature_check : bool)
    (select : TryStateSelect) : fallible frameE string ApiWeight :=
  unwrap "execute-block failed"
    (Executive_try_execute_block block state_root_check signature_check select).

(** [list_benchmarks!] and [add_benchmarks!], which [define_benchmarks!] makes of its list: one entry
    after the other; an error returns at once. *)
Fixpoint list_benchmarks (pallets : list (string * string)) (extra : bool) :
    prog frameE (list BenchmarkList) :=
  match pallets with
  | [] => mret []
  | p :: pallets' =>
      l ← trigger (list_benchmark p extra);
      rest ← list_benchmarks pallets' extra;
      mret (l ++ rest)
  end.
Fixpoint add_benchmarks (pallets : list (string * string)) (config : BenchmarkConfig)
    (whitelist : StorageKeys) : fallible frameE string (list BenchmarkBatch) :=
  match pallets with
  | [] => ok []
  | p :: pallets' =>
      let? batches := trigger (add_benchmark p config whitelist) in
      let? rest := add_benchmarks pallets' config whitelist in
      ok (batches ++ rest)
  end.

(** [Benchmark::benchmark_metadata] and [Benchmark::dispatch_benchmark] *)
Definition benchmark_list (extra : bool) : prog frameE (list BenchmarkList * StorageInfo) :=
  list ← list_benchmarks benchmarks extra;
  storage_info ← trigger AllPallets_storage_info;
  mret (list, storage_info).
Definition benchmark_run (config : BenchmarkConfig) : fallible frameE string (list BenchmarkBatch) :=
  let! whitelist := trigger AllPallets_whitelisted_storage_keys in
  add_benchmarks benchmarks config whitelist.

(** The answers of the two payment APIs, for extrinsics and for calls. *)
Definition payment_api {X} (f : paymentE X) : fallible frameE string X :=
  match f in paymentE X return fallible frameE string X with
  | query_info uxt len => delegate (TransactionPayment_query_info uxt len)
  | query_fee_details uxt len => delegate (TransactionPayment_query_fee_details uxt len)
  | query_weight_to_fee w => delegate (TransactionPayment_weight_to_fee w)
  | query_length_to_fee len => delegate (TransactionPayment_length_to_fee len)
  | query_call_weight_to_fee w => delegate (TransactionPayment_weight_to_fee w)
  | query_call_length_to_fee len => delegate (TransactionPayment_length_to_fee len)
  | query_call_info c len => delegate (TransactionPayment_query_call_info c len)
  | query_call_fee_details c len => delegate (TransactionPayment_query_call_fee_details c len)
  end.

(** The answer of an API function, or the message it panics with. *)
Definition api {X} (f : apiE X) : fallible frameE string X :=
  match f in apiE X return fallible frameE string X with
  | version => ok VERSION
  | execute_block block => delegate (Executive_execute_block block)
  | initialize_block header => delegate (Executive_initialize_block header)
  | metadata => delegate Runtime_metadata
  | metadata_at_version v => delegate (Runtime_metadata_at_version v)
  | metadata_versions => delegate Runtime_metadata_versions
  | execute_view_function id input => delegate (Runtime_execute_view_function id input)
  | apply_extrinsic e => delegate (Executive_apply_extrinsic e)
  | finalize_block => delegate Executive_finalize_block
  | inherent_extrinsics data => delegate (create_extrinsics data)
  | check_inherents block data => delegate (check_extrinsics data block)
  | validate_transaction s tx h => delegate (Executive_validate_transaction s tx h)
  | offchain_worker header => delegate (Executive_offchain_worker header)
  | slot_duration => ok Aura_SlotDuration
  | authorities => delegate Aura_Authorities
  | generate_session_keys seed => delegate (SessionKeys_generate seed)
  | decode_session_keys encoded => delegate (SessionKeys_decode encoded)
  | grandpa_authorities => delegate Grandpa_grandpa_authorities
  | current_set_id => delegate Grandpa_current_set_id
  | submit_report_equivocation_unsigned_extrinsic _ _ => ok None
  | generate_key_ownership_proof _ _ => ok None
  | account_nonce a => delegate (System_account_nonce a)
  | payment f => payment_api f
  | benchmark_metadata extra => io (benchmark_list extra)
  | dispatch_benchmark config => io (benchmark_run config)
  | on_runtime_upgrade checks => try_runtime_upgrade checks
  | try_execute_block block root signature select => try_block block root signature select
  | build_state config => delegate (frame_build_state config)
  | genesis_preset id => ok (get_preset_helper id preset)
  | genesis_preset_names => ok names
  end.

(** ** What the node learns from them *)

(** Functions that execute transactions or write genesis. *)
Definition executes {X} (f : apiE X) : bool :=
  match f with
  | execute_block _ | initialize_block _ | apply_extrinsic _ | finalize_block
  | validate_transaction _ _ _ | offchain_worker _ | on_runtime_upgrade _
  | try_execute_block _ _ _ _ | build_state _ | generate_session_keys _
  | execute_view_function _ _ | dispatch_benchmark _ => true
  | _ => false
  end.

(** Calls that only read the state. *)
Definition reads (X : Type) (e : frameE X) : Prop :=
  match e with
  | Runtime_metadata | Runtime_metadata_at_version _ | Runtime_metadata_versions
  | create_extrinsics _ | check_extrinsics _ _ | Aura_Authorities | SessionKeys_decode _
  | Grandpa_grandpa_authorities | Grandpa_current_set_id | System_account_nonce _
  | TransactionPayment_query_info _ _ | TransactionPayment_query_fee_details _ _
  | TransactionPayment_query_call_info _ _ | TransactionPayment_query_call_fee_details _ _
  | TransactionPayment_weight_to_fee _ | TransactionPayment_length_to_fee _
  | list_benchmark _ _ | AllPallets_storage_info => True
  | _ => False
  end.

Lemma queries_read {X} (f : apiE X) : executes f = false -> all_calls reads (api f).
Proof.
  destruct f; intros Hf; try done; try (match goal with f : paymentE _ |- _ => destruct f end); by split.
Qed.
End Apis.

(** ** Booting a chain

    The node builds a chain specification, the runtime serves the genesis it names, and the node
    reads the slot duration from the runtime. *)
Section Boot.
Context {F : Frame}.
Context {Keyring AccountId AuraId GrandpaId : Type} `{EqDecision Keyring}.
Context (Alice Bob AliceStash BobStash One Two : Keyring) (keyring_iter : list Keyring)
  (to_account_id : Keyring -> AccountId) (aura_key : Keyring -> AuraId)
  (grandpa_key : Keyring -> GrandpaId) (serialize : GenesisPatch AccountId AuraId GrandpaId -> ApiBytes)
  (DEV_RUNTIME_PRESET LOCAL_TESTNET_RUNTIME_PRESET : string).
Context {Wasm File : Type} (WASM_BINARY : option Wasm) (from_json_file : string -> result File string).
Context (MinimumPeriodTimesTwo : Z -> Z)
  (get_preset_helper : option string -> (string -> option ApiBytes) -> option ApiBytes)
  (max_block : ApiWeight).

(** [get_preset] of the library asks the closure for a named preset. *)
Hypothesis get_preset_helper_named : forall id f, get_preset_helper (Some id) f = f id.
(** [MinimumPeriodTimesTwo] is twice the minimum period of [pallet_timestamp]. *)
Hypothesis MinimumPeriodTimesTwo_spec : forall p, MinimumPeriodTimesTwo p = 2 * p.

Definition runtime_api {X} : apiE X -> fallible frameE string X :=
  api MinimumPeriodTimesTwo get_preset_helper max_block
    (get_preset Alice Bob AliceStash BobStash One Two keyring_iter to_account_id aura_key grandpa_key
      serialize DEV_RUNTIME_PRESET LOCAL_TESTNET_RUNTIME_PRESET)
    (preset_names DEV_RUNTIME_PRESET LOCAL_TESTNET_RUNTIME_PRESET).

(** C36: every chain the node builds boots, and its quorums are exact. A specification the node builds
    names a preset for which the runtime's genesis API serves a serialized genesis; that genesis has
    authorities to author blocks, Alice as the root account, and an issuance for which Eq. 1 is
    decided exactly; and the slot duration the runtime's Aura API reports is the block time. *)
Theorem built_chains_boot id s env :
  Z.of_nat (length keyring_iter) <= 2 ^ 30 ->
  load_spec WASM_BINARY DEV_RUNTIME_PRESET LOCAL_TESTNET_RUNTIME_PRESET from_json_file id = Ok (Built s) ->
  exists g,
    outcome_of env (runtime_api (genesis_preset (Some (cs_preset s)))) = Ok (Some (serialize g))
    /\ gp_aura_authorities g <> [] /\ length (gp_aura_authorities g) = length (gp_grandpa_authorities g)
    /\ gp_sudo_key g = Some (to_account_id Alice)
    /\ genesis_issuance g * PERBILL_ACCURACY <= u128_max
    /\ outcome_of env (runtime_api slot_duration) = Ok MILLI_SECS_PER_BLOCK.
Proof using get_preset_helper_named MinimumPeriodTimesTwo_spec.
  intros Hlen Hs. apply built_specs_have_genesis in Hs as (_ & Hname & _).
  destruct (preset_issuance_exact Alice Bob AliceStash BobStash One Two keyring_iter to_account_id
    aura_key grandpa_key Hlen) as (_ & Hdev & Hlocal).
  assert (Hslot : Aura_SlotDuration MinimumPeriodTimesTwo = MILLI_SECS_PER_BLOCK)
    by (unfold Aura_SlotDuration; cbn; by rewrite MinimumPeriodTimesTwo_spec).
  unfold outcome_of, runtime_api. cbn [api]. rewrite get_preset_helper_named, Hslot. unfold get_preset.
  destruct (String.eqb_spec (cs_preset s) DEV_RUNTIME_PRESET) as [E1|E1].
  { eexists. split; [reflexivity|]. by split_and!. }
  destruct (String.eqb_spec (cs_preset s) LOCAL_TESTNET_RUNTIME_PRESET) as [E2|E2].
  { eexists. split; [reflexivity|]. by split_and!. }
  by apply elem_of_cons in Hname as [?|[?|?%not_elem_of_nil]%elem_of_cons].
Qed.
End Boot.

#[local] Instance StubFrame : Frame := {|
  ApiBlock := unit; ApiHeader := unit; ApiExtrinsic := unit; ApiHash := unit; ApiCallType := unit;
  ApiAccount := Z; ApiBytes := Z; ApiWeight := Z; InclusionMode := unit; Metadata := unit;
  ViewFunctionId := unit; ViewFunctionError := unit; ApplyResult := unit; ApiInherentData := unit;
  CheckInherentsResult := unit; TransactionSource := unit; Validity := unit; ApiAuraId := Z;
  KeyTypeId := Z; ApiGrandpaId := Z; AuthorityList := unit; SetId := Z; EquivocationProof := unit;
  KeyOwnershipProof := unit; DispatchInfo := unit; FeeDetails := unit; UpgradeCheckSelect := unit;
  TryStateSelect := unit; TryError := unit; BenchmarkList := unit; StorageInfo := unit;
  BenchmarkConfig := unit; StorageKeys := unit; BenchmarkBatch := unit;
|}.

Definition stub_frame : environment frameE := fun X _ e =>
  match e with
  | Executive_try_runtime_upgrade _ => Ok 0
  | Executive_try_execute_block _ _ _ _ => Ok 0
  | Runtime_metadata_at_version _ => None
  | Runtime_metadata_versions => []
  | Runtime_execute_view_function _ _ => Err tt
  | create_extrinsics _ => []
  | Aura_Authorities => []
  | SessionKeys_generate _ => 0
  | SessionKeys_decode _ => None
  | Grandpa_current_set_id => 0
  | System_account_nonce _ => 0
  | TransactionPayment_weight_to_fee _ => 0
  | TransactionPayment_length_to_fee _ => 0
  | frame_build_state _ => Ok tt
  | list_benchmark _ _ => []
  | add_benchmark _ _ _ => Ok []
  | Executive_execute_block _ | Executive_initialize_block _ | Executive_apply_extrinsic _
  | Executive_finalize_block | Executive_validate_transaction _ _ _ | Executive_offchain_worker _
  | Runtime_metadata | check_extrinsics _ _ | Grandpa_grandpa_authorities
  | TransactionPayment_query_info _ _ | TransactionPayment_query_fee_details _ _
  | TransactionPayment_query_call_info _ _ | TransactionPayment_query_call_fee_details _ _
  | AllPallets_storage_info | AllPallets_whitelisted_storage_keys => tt
  end.

Definition stub_helper (id : option string) (f : string -> option (@ApiBytes StubFrame)) :
    option (@ApiBytes StubFrame) :=
  match id with Some i => f i | None => None end.

Lemma built_chains_boot_witness :
  exists s, load_spec (Wasm := unit) (File := unit) (Some tt) "development" "local_testnet"
      (fun _ => Err "no such file"%string) "local" = Ok (Built s)
    /\ exists g, outcome_of stub_frame (runtime_api (1 : Z) 2 3 4 7 8 [1; 2; 3; 4; 5; 6; 7; 8]
        (fun k => k) (fun k => k) (fun k => k) (fun g => genesis_issuance g : @ApiBytes StubFrame)
        "development" "local_testnet" (fun p => 2 * p) stub_helper (0 : @ApiWeight StubFrame)
        (genesis_preset (Some (cs_preset s)))) = Ok (Some (6 * ENDOWMENT : @ApiBytes StubFrame))
      /\ genesis_issuance (AccountId := Z) (AuraId := Z) (GrandpaId := Z) g * PERBILL_ACCURACY <= u128_max.
Proof.
  eexists. split; [reflexivity|].
  destruct (built_chains_boot (1 : Z) 2 3 4 7 8 [1; 2; 3; 4; 5; 6; 7; 8] (fun k => k) (fun k => k)
    (fun k => k) (fun g => genesis_issuance g : @ApiBytes StubFrame) "development" "local_testnet" (Some tt)
    (fun _ => Err "no such file"%string : result unit string) (fun p => 2 * p)
    stub_helper (0 : @ApiWeight StubFrame)
    (fun id f => eq_refl) (fun p => eq_refl) "local" (mkChainSpec tt "Local Testnet" "local_testnet"
    Local "local_testnet")%string stub_frame) as (g & Hg & _ & _ & _ & Hi & _).
  - by vm_compute.
  - reflexivity.
  - exists g. split; [|exact Hi]. cbn in Hg |- *. reflexivity.
Defined.
