(* ===== verification/Tools.v ===== *)
(** * What the off-chain tools share

    [tools/lib/common.js]: hashing, commit identifiers, the payload a Build Service signs and the
    content-addressed store, and the calls the tools make: queries of the chain, the file system and the
    keyring. A tool is a program over these calls; its environment may answer anything. [Error]s thrown
    are the failures of [fallible]. JavaScript strings are ASCII here; the hash, the hexadecimal and
    address codecs, [JSON] and the signature check are library code. *)
From stdpp Require Import prelude gmap vector strings.
From Stdlib Require Import Init.Byte Strings.Ascii.
From S2P Require Import Prelude Types Config Interaction.
#[local] Open Scope Z_scope.
#[local] Open Scope prog_scope.

(** ** Strings *)

Definition lower (c : ascii) : ascii :=
  let n := nat_of_ascii c in
  if ((65 <=? n) && (n <=? 90))%nat then ascii_of_nat (n + 32) else c.
Fixpoint toLowerCase (s : string) : string :=
  match s with EmptyString => EmptyString | String c s' => String (lower c) (toLowerCase s') end.

(** [s.replace(/^0x/, '')] *)
Definition strip0x (s : string) : string :=
  match s with
  | String "0" (String "x" s') => s'
  | _ => s
  end.

(** [s.slice(2)] *)
Definition slice2 (s : string) : string :=
  match s with String _ (String _ s') => s' | _ => EmptyString end.

Lemma string_app_assoc (s1 s2 s3 : string) : (s1 +:+ s2) +:+ s3 = s1 +:+ s2 +:+ s3.
Proof. induction s1 as [|c s1 IH]; [done | exact (f_equal (String c) IH)]. Qed.
Lemma string_app_nil (s : string) : s +:+ EmptyString = s.
Proof. induction s as [|c s IH]; [done | exact (f_equal (String c) IH)]. Qed.

(** [/^[0-9a-f]+$/.test(clean)], and [clean.padEnd(64, '0')] *)
Definition is_hex_digit (c : ascii) : bool :=
  let n := N_of_ascii c in ((48 <=? n) && (n <=? 57) || (97 <=? n) && (n <=? 102))%N.
Fixpoint all_hex (s : string) : bool :=
  match s with EmptyString => true | String c s' => is_hex_digit c && all_hex s' end.
Fixpoint zeros (n : nat) : string :=
  match n with O => EmptyString | Datatypes.S n' => String "0" (zeros n') end.
Definition padEnd (n : nat) (s : string) : string := s +:+ zeros (n - String.length s).

(** ** Library code *)

(** The properties of the attestation file the client reads; [None] is [undefined]. *)
Record AttestationJson := mkAttestationJson {
  aj_source_commit_hash : option string;
  aj_source_tree_hash : option string;
  aj_build_environment_hash : option string;
  aj_output_binary_hash : option string;
  aj_builder : option string;
  aj_builder_signature : option string;
}.

Class JsLibs (T : Config) := {
  (** [createHash('sha256').update(buf).digest()] *)
  sha256 : list byte -> list byte;
  (** [@polkadot/util]: [hexToU8a] of [undefined] is empty *)
  u8aToHex : list byte -> string;
  hexToU8a : option string -> list byte;
  u8aToString : list byte -> string;
  (** [@polkadot/util-crypto]; an address that does not decode throws *)
  decodeAddress : option string -> option AccountId;
  (** a signature of the wrong length throws *)
  sr25519Verify : list byte -> list byte -> AccountId -> option bool;
  (** [JSON.parse(bytes.toString('utf8'))]; anything but an object throws *)
  json_parse : list byte -> option AttestationJson;
  (** [path.join], and the directories of [common.js] *)
  path_join : string -> string -> string;
  STORE_DIR : string;
  INSTALL_DIR : string;
}.

(** What the two hexadecimal functions promise each other. [hexToU8a] reads digits of either case after
    an optional ["0x"]. *)
Class JsLaws {T : Config} (J : JsLibs T) := {
  u8aToHex_inj a b : u8aToHex a = u8aToHex b -> a = b;
  hexToU8a_hex b : hexToU8a (Some (u8aToHex b)) = b;
  lower_hex b : toLowerCase (u8aToHex b) = u8aToHex b;
  u8aToHex_digits ds : all_hex ds = true -> Nat.even (String.length ds) = true ->
    u8aToHex (hexToU8a (Some ("0x" +:+ ds))) = "0x" +:+ ds;
  u8aToHex_0x b : exists ds, u8aToHex b = "0x" +:+ ds;
  hexToU8a_lower s b : toLowerCase s = u8aToHex b -> length (hexToU8a (Some s)) = length b ->
    hexToU8a (Some s) = b;
}.

Section Tools.
Context {T : Config} {J : JsLibs T}.

(** ** What the tools call *)

Inductive toolE : Type -> Type :=
(** [api.query.verigov.*] *)
| query_projects (pid : ProjectId) : toolE (result (option ProjectInfo) string)
| query_releaseCount (pid : ProjectId) : toolE (result Z string)
| query_releaseLog (pid : ProjectId) (i : Z) : toolE (result (option ReleaseEntry) string)
| query_stakeholders (pid : ProjectId) (who : option string) :
    toolE (result (option Stakeholder) string)
(** [node:fs] *)
| existsSync (path : string) : toolE bool
| readFileSync (path : string) : toolE (result (list byte) string)
| mkdirSync (path : string) : toolE (result unit string)
(** the entries of a directory: name and [isDirectory()] *)
| readdirSync (path : string) : toolE (result (list (string * bool)) string)
(** with [mode: 0o755] or without *)
| writeFileSync (path : string) (bytes : list byte) (executable : bool) : toolE (result unit string)
(** [keyring().addFromUri(uri)]: the address and the public key of the pair; and [pair.sign(message)] *)
| addFromUri (uri : string) : toolE (result (string * list byte) string)
| pair_sign (uri : string) (message : list byte) : toolE (list byte).

Definition tool : Type -> Type := fallible toolE string.

Definition throw_error {X} (message : string) : tool X := fail message.
(** A call that may throw. *)
Definition await {X} (e : toolE (result X string)) : tool X := trigger e.
(** A library function that may throw. *)
Definition returned {X} (o : option X) : tool X :=
  match o with Some x => ok x | None => throw_error "library error" end.
Definition throw_unless (c : bool) (message : string) : tool unit := if c then ok tt else throw_error message.

(** ** [common.js] *)

Definition sha256Hex (bytes : list byte) : string := u8aToHex (sha256 bytes).

(** [out.set(p, i * 32)] for the four digests, each checked to be 32 bytes long. *)
Definition digest32 (h : option string) : option (list byte) :=
  let u8 := hexToU8a h in if decide (length u8 = 32%nat) then Some u8 else None.
Definition signingPayload (att : AttestationJson) : option (list byte) :=
  a ← digest32 (aj_source_commit_hash att);
  b ← digest32 (aj_source_tree_hash att);
  c ← digest32 (aj_build_environment_hash att);
  d ← digest32 (aj_output_binary_hash att);
  let out := replicate 128 x00 in
  let out := copy_from_slice out 0 a in
  let out := copy_from_slice out 32 b in
  let out := copy_from_slice out 64 c in
  Some (copy_from_slice out 96 d).

Definition commitHash32 (shortHex : string) : option string :=
  let clean := toLowerCase (strip0x shortHex) in
  if negb (all_hex clean) || (String.length clean =? 0)%nat || (64 <? String.length clean)%nat then None
  else Some ("0x" +:+ padEnd 64 clean).

Definition storePath (cid : string) : string := path_join STORE_DIR (strip0x cid).

Definition storePut (bytes : list byte) : tool string :=
  let? _ := await (mkdirSync STORE_DIR) in
  let cid := sha256Hex bytes in
  let file := path_join STORE_DIR (slice2 cid) in
  let! present := trigger (existsSync file) in
  let? _ := if present : bool then ok tt else await (writeFileSync file bytes false) in
  ok cid.

Definition storeGet (cid : string) : tool (list byte) :=
  let file := path_join STORE_DIR (strip0x cid) in
  let! present := trigger (existsSync file) in
  let? _ := throw_unless present "artifact not found" in
  let? bytes := await (readFileSync file) in
  let? _ := throw_unless (bool_decide (sha256Hex bytes = toLowerCase cid)) "artifact store corruption" in
  ok bytes.

(** ** The payload *)

Lemma list_to_hash (l : list byte) : length l = 32%nat -> exists x : Hash32, vec_to_list x = l.
Proof. unfold Hash32. generalize 32%nat. intros n <-. exists (list_to_vec l). apply vec_to_list_to_vec. Qed.

Lemma digest32_Some h u : digest32 h = Some u -> hexToU8a h = u /\ length u = 32%nat.
Proof. unfold digest32. case_decide; [|done]. by intros [= <-]. Qed.

Lemma signingPayload_Some att payload :
  signingPayload att = Some payload ->
  exists a b c d, payload = a ++ b ++ c ++ d
    /\ hexToU8a (aj_source_commit_hash att) = a /\ hexToU8a (aj_source_tree_hash att) = b
    /\ hexToU8a (aj_build_environment_hash att) = c /\ hexToU8a (aj_output_binary_hash att) = d
    /\ length a = 32%nat /\ length b = 32%nat /\ length c = 32%nat /\ length d = 32%nat.
Proof.
  unfold signingPayload. intros H.
  destruct (digest32 (aj_source_commit_hash att)) as [a|] eqn:Ea; [|done]. cbn [mbind option_bind] in H.
  destruct (digest32 (aj_source_tree_hash att)) as [b|] eqn:Eb; [|done]. cbn [mbind option_bind] in H.
  destruct (digest32 (aj_build_environment_hash att)) as [c|] eqn:Ec; [|done]. cbn [mbind option_bind] in H.
  destruct (digest32 (aj_output_binary_hash att)) as [d|] eqn:Ed; [|done]. cbn [mbind option_bind] in H.
  apply digest32_Some in Ea as [? ?], Eb as [? ?], Ec as [? ?], Ed as [? ?].
  cbv zeta in H. rewrite copied_digests in H by done. injection H as <-. by exists a, b, c, d.
Qed.

(** C31: the tools and the pallet agree on what a Build Service signs. [signingPayload] returns exactly
    when [hexToU8a] yields 32 bytes for each of the four fields, and then it returns the payload the
    pallet computes for an attestation with these four digests. *)
Theorem tools_sign_the_pallet_payload (att : AttestationJson) (payload : list byte) (who : AccountId) :
  signingPayload att = Some payload <->
  exists A : BuildAttestation AccountId, builder A = who /\ payload = signing_payload A
    /\ hexToU8a (aj_source_commit_hash att) = vec_to_list (source_commit_hash A)
    /\ hexToU8a (aj_source_tree_hash att) = vec_to_list (source_tree_hash A)
    /\ hexToU8a (aj_build_environment_hash att) = vec_to_list (build_environment_hash A)
    /\ hexToU8a (aj_output_binary_hash att) = vec_to_list (output_binary_hash A).
Proof.
  split.
  - intros (a & b & c & d & -> & Ha & Hb & Hc & Hd & La & Lb & Lc & Ld)%signingPayload_Some.
    destruct (list_to_hash a La) as [x <-], (list_to_hash b Lb) as [y <-],
      (list_to_hash c Lc) as [z <-], (list_to_hash d Ld) as [t <-].
    exists (mkBuildAttestation x y z t who). by rewrite signing_payload_app.
  - intros ([x y z t w] & <- & -> & Ha & Hb & Hc & Hd). cbn in Ha, Hb, Hc, Hd. unfold signingPayload, digest32.
    rewrite Ha, Hb, Hc, Hd, !decide_True by apply length_vec_to_list.
    rewrite signing_payload_app. cbn [mbind option_bind]. cbv zeta.
    by rewrite copied_digests by apply length_vec_to_list.
Qed.

(** ** Programs that succeed, after any calls *)

Section Succeeds.
Context {env : environment toolE}.

Definition succeeds {A} (p : tool A) (Q : A -> Prop) : Prop :=
  forall h, exists a, snd (exec env h p) = Ok a /\ Q a.

Lemma succeeds_ok {A} (a : A) (Q : A -> Prop) : Q a -> succeeds (ok a) Q.
Proof. intros Ha h. by exists a. Qed.

Lemma succeeds_throw_unless c message : c = true -> succeeds (throw_unless c message) (fun _ => True).
Proof. intros ->. by apply succeeds_ok. Qed.

Lemma succeeds_then {A B} (p : tool A) (f : A -> tool B) Q1 Q :
  succeeds p Q1 -> (forall a, Q1 a -> succeeds (f a) Q) -> succeeds (and_then p f) Q.
Proof.
  intros Hp Hf h. rewrite exec_and_then. destruct (Hp h) as (a & Ha & HQ).
  destruct (exec env h p) as [h1 r]. cbn in Ha. subst r. by apply Hf.
Qed.

Lemma succeeds_mono {A} (p : tool A) (Q Q' : A -> Prop) :
  (forall a, Q a -> Q' a) -> succeeds p Q -> succeeds p Q'.
Proof. intros HQ Hp h. destruct (Hp h) as (a & Ha & H). exists a. auto. Qed.

Lemma succeeds_await {X} (e : toolE (result X string)) (Q : X -> Prop) :
  (forall h, exists x, env _ h e = Ok x /\ Q x) -> succeeds (await e) Q.
Proof. intros He h. apply He. Qed.

Lemma succeeds_io {X} (e : toolE X) (Q : X -> Prop) :
  (forall h, Q (env _ h e)) -> succeeds (io (trigger e)) Q.
Proof. intros He h. by eexists. Qed.
End Succeeds.
#[global] Arguments succeeds env {A} p Q.
End Tools.

(** ** The hexadecimal codec *)

Module Hex.
(** Hexadecimal digits. *)
Definition hex_char (n : N) : ascii := ascii_of_N (if n <? 10 then 48 + n else 87 + n)%N.
Fixpoint hex (l : list byte) : string :=
  match l with
  | [] => ""
  | x :: l' => String (hex_char (Byte.to_N x / 16)) (String (hex_char (Byte.to_N x mod 16)) (hex l'))
  end.
Definition digit (c : ascii) : N :=
  let n := N_of_ascii c in
  (if (97 <=? n) && (n <=? 102) then n - 87
   else if (65 <=? n) && (n <=? 70) then n - 55
   else if (48 <=? n) && (n <=? 57) then n - 48 else 0)%N.
Fixpoint unhex (s : string) : list byte :=
  match s with
  | String a (String b s') => default x00 (Byte.of_N (digit a * 16 + digit b)) :: unhex s'
  | _ => []
  end.

Lemma unhex_hex l : unhex (hex l) = l.
Proof. induction l as [|x l IH]; [done|]. cbn -[digit hex_char]. rewrite IH. by destruct x. Qed.

Lemma lower_hex l : toLowerCase (hex l) = hex l.
Proof. induction l as [|x l IH]; [done|]. cbn -[hex_char lower]. rewrite IH. by destruct x. Qed.

Lemma digit_lower c : digit (lower c) = digit c.
Proof. by destruct c as [[] [] [] [] [] [] [] []]. Qed.

Lemma unhex_lower s : unhex (toLowerCase s) = unhex s.
Proof.
  revert s. fix IH 1. intros [|a [|b s]]; [done..|]. cbn -[digit lower].
  by rewrite !digit_lower, (IH s).
Qed.

Lemma lower_0 c : lower c = "0"%char -> c = "0"%char.
Proof. by destruct c as [[] [] [] [] [] [] [] []]. Qed.
Lemma lower_x c : lower c = "x"%char -> c = "x"%char \/ c = "X"%char.
Proof. destruct c as [[] [] [] [] [] [] [] []]; cbn; intros H; try done; auto. Qed.

Definition hexToU8a (o : option string) : list byte :=
  match o with Some s => unhex (strip0x s) | None => [] end.
Definition u8aToHex (l : list byte) : string := "0x" +:+ hex l.

Lemma hexToU8a_of_lower s b :
  toLowerCase s = u8aToHex b -> length (hexToU8a (Some s)) = length b -> hexToU8a (Some s) = b.
Proof.
  destruct s as [|c1 [|c2 s]]; [done|by intros [=]|].
  unfold u8aToHex. cbn -[lower hexToU8a]. intros [= H1 H2 H3].
  assert (E : unhex s = b) by (rewrite <- unhex_lower, H3; apply unhex_hex).
  apply lower_0 in H1 as ->. apply lower_x in H2 as [->| ->]; [done|].
  cbn -[digit]. rewrite E. lia.
Qed.

Lemma hexToU8a_u8aToHex b : hexToU8a (Some (u8aToHex b)) = b.
Proof. apply unhex_hex. Qed.

Lemma hex_digit c : is_hex_digit c = true -> (digit c < 16)%N /\ hex_char (digit c) = c.
Proof. by destruct c as [[] [] [] [] [] [] [] []]. Qed.

Lemma byte_of_N n : (n < 256)%N -> exists b, Byte.of_N n = Some b /\ Byte.to_N b = n.
Proof.
  intros Hn. destruct (Byte.of_N n) as [b|] eqn:E.
  - exists b. split; [done|]. by apply Byte.to_of_N.
  - apply Byte.of_N_None_iff in E. lia.
Qed.

Lemma hex_unhex s : all_hex s = true -> Nat.even (String.length s) = true -> hex (unhex s) = s.
Proof.
  revert s. fix IH 1. intros [|a [|b s]]; [done | done|]. cbn -[hex_char digit is_hex_digit].
  intros [Ha [Hb Hs]%andb_true_iff]%andb_true_iff He.
  apply hex_digit in Ha as [Ha Ea], Hb as [Hb Eb].
  destruct (byte_of_N (digit a * 16 + digit b)) as (x & -> & Ex); [lia|].
  cbn -[hex_char digit is_hex_digit]. rewrite Ex, (IH s Hs He).
  rewrite N.div_add_l, N.div_small, N.add_0_r by lia.
  by rewrite N.add_comm, N.Div0.mod_add, N.mod_small, Ea, Eb by lia.
Qed.

Lemma laws {T : Config} (J : JsLibs T) :
  @Tools.u8aToHex T J = u8aToHex -> @Tools.hexToU8a T J = hexToU8a -> JsLaws J.
Proof.
  intros E1 E2. split; rewrite ?E1, ?E2.
  - intros a b E. by rewrite <- (hexToU8a_u8aToHex a), E, hexToU8a_u8aToHex.
  - apply hexToU8a_u8aToHex.
  - intros b. change (toLowerCase (u8aToHex b)) with ("0x" +:+ toLowerCase (hex b)).
    by rewrite lower_hex.
  - intros ds Hd He. unfold u8aToHex. cbn [hexToU8a strip0x String.app]. by rewrite hex_unhex.
  - intros b. by exists (hex b).
  - apply hexToU8a_of_lower.
Qed.
End Hex.
