(* ===== verification/Disk.v ===== *)
(** * The disk under the tools

    The files a tool writes are there afterwards. [disk d h] is what the disk [d] holds after the calls
    [h]; an environment [stores] its files when it answers from that disk, and [quiet] programs leave it
    alone. The rules are those of [Interaction.wp], with the disk read off the history. *)
From stdpp Require Import prelude gmap vector strings.
From Stdlib Require Import Init.Byte.
From S2P Require Import Prelude Types Config Interaction Tools.
#[local] Open Scope Z_scope.
#[local] Open Scope prog_scope.

(** The files of a machine, by path. *)
Abbreviation Disk := (gmap string (list byte)).

Section Disk.
Context {T : Config} {J : JsLibs T}.

(** A write that succeeds creates the file or replaces it; no other call of the tools changes a file. *)
Definition after (d : Disk) (c : called toolE) : Disk :=
  match c with
  | Called e x =>
      (match e in toolE X return X -> Disk with
       | writeFileSync path bytes _ => fun r => match r with Ok _ => <[path := bytes]> d | Err _ => d end
       | _ => fun _ => d
       end) x
  end.
Definition disk (d : Disk) (h : list (called toolE)) : Disk := foldl after d h.

Lemma disk_snoc d h c : disk d (h ++ [c]) = after (disk d h) c.
Proof. apply foldl_snoc. Qed.

(** The files of the store and of the installation directory. *)
Definition tool_file (path : string) : Prop :=
  exists name, path = path_join STORE_DIR name \/ path = path_join INSTALL_DIR name.

Lemma store_tool_file name : tool_file (path_join STORE_DIR name).
Proof. exists name. by left. Qed.
Lemma install_tool_file name : tool_file (path_join INSTALL_DIR name).
Proof. exists name. by right. Qed.

(** The environment answers from the disk [d] and from what has been written to it since. *)
Record stores (env : environment toolE) (d : Disk) : Prop := {
  st_exists path h : tool_file path ->
    env _ h (existsSync path) = bool_decide (is_Some (disk d h !! path));
  st_read path bytes h : disk d h !! path = Some bytes -> env _ h (readFileSync path) = Ok bytes;
}.

(** ** Programs that write nothing *)

Definition quiet_call (X : Type) (e : toolE X) : Prop :=
  match e with writeFileSync _ _ _ => False | _ => True end.

Lemma quiet_after d X (e : toolE X) x : quiet_call X e -> after d (Called e x) = d.
Proof. by destruct e. Qed.

Lemma exec_quiet {A} env d (p : prog toolE A) h :
  all_calls quiet_call p -> disk d (fst (exec env h p)) = disk d h.
Proof.
  revert h. induction p as [a|X e k IH]; intros h; cbn; [done|]. intros [He Hk].
  rewrite IH by apply Hk. by rewrite disk_snoc, quiet_after.
Qed.

Section Rules.
Context (env : environment toolE) (d : Disk) (R : string -> list (called toolE) -> Prop).
#[local] Abbreviation wp := (wp env).

Lemma wp_throw_unless c message (Q : unit -> list (called toolE) -> Prop) h :
  c = true -> Q tt h -> wp (throw_unless c message) Q R h.
Proof. by intros ->. Qed.

(** A quiet program returns what it returns, on the disk it was run on. *)
Lemma wp_quiet {A} (p : tool A) (Q : A -> list (called toolE) -> Prop) h :
  all_calls quiet_call p -> (forall a h', disk d h' = disk d h -> Q a h') -> wp p Q always h.
Proof.
  intros Hp HQ. unfold Interaction.wp. pose proof (exec_quiet env d p h Hp) as E.
  destruct (exec env h p) as [h' [a|e]]; [by apply HQ | done].
Qed.

(** A call that writes nothing and is answered with [a]. *)
Lemma wp_ask {X} (e : toolE (result X string)) a (Q : X -> list (called toolE) -> Prop) h :
  env _ h e = Ok a -> quiet_call _ e -> (forall h', disk d h' = disk d h -> Q a h') -> wp (await e) Q R h.
Proof.
  intros He Hq HQ. apply wp_trigger. rewrite He. apply HQ. by rewrite disk_snoc, quiet_after.
Qed.

Lemma wp_look {X} (e : toolE X) a (Q : X -> list (called toolE) -> Prop) h :
  env _ h e = a -> quiet_call _ e -> (forall h', disk d h' = disk d h -> Q a h') ->
  wp (io (trigger e)) Q R h.
Proof.
  intros He Hq HQ. apply wp_io. rewrite He. apply HQ. by rewrite disk_snoc, quiet_after.
Qed.

(** A write that succeeds. *)
Lemma wp_write path bytes x (Q : unit -> list (called toolE) -> Prop) h :
  env _ h (writeFileSync path bytes x) = Ok tt ->
  (forall h', disk d h' = <[path := bytes]> (disk d h) -> Q tt h') ->
  wp (await (writeFileSync path bytes x)) Q R h.
Proof. intros He HQ. apply wp_trigger. rewrite He. apply HQ. by rewrite disk_snoc. Qed.

(** ** The store *)

Context (Hd : stores env d).

(** [storeGet] finds a file that has the hash in its name. *)
Lemma wp_storeGet cid bytes (Q : list byte -> list (called toolE) -> Prop) h :
  disk d h !! path_join STORE_DIR (strip0x cid) = Some bytes -> sha256Hex bytes = toLowerCase cid ->
  (forall h', disk d h' = disk d h -> Q bytes h') -> wp (storeGet cid) Q R h.
Proof using Hd.
  intros Hfile Hhash HQ. unfold storeGet.
  apply wp_then, (wp_look _ true); [|done|intros h1 E1].
  { rewrite (st_exists _ _ Hd) by apply store_tool_file. apply bool_decide_eq_true. by exists bytes. }
  apply wp_then, wp_throw_unless; [done|].
  apply wp_then, (wp_ask _ bytes); [by apply (st_read _ _ Hd); rewrite E1 | done | intros h2 E2].
  apply wp_then, wp_throw_unless; [by apply bool_decide_eq_true|].
  apply wp_ok, HQ. congruence.
Qed.
End Rules.

Definition store_file (bytes : list byte) : string := path_join STORE_DIR (slice2 (sha256Hex bytes)).

(** [storePut] leaves a file of that name alone, whatever it holds; otherwise it writes it. *)
Lemma wp_storePut env d bytes (Q : string -> list (called toolE) -> Prop) h :
  stores env d ->
  (forall h', disk d h' = (if decide (is_Some (disk d h !! store_file bytes)) then disk d h
                           else <[store_file bytes := bytes]> (disk d h)) ->
     Q (sha256Hex bytes) h') ->
  wp env (storePut bytes) Q always h.
Proof.
  intros Hd HQ. unfold storePut.
  apply wp_then, (wp_quiet _ d); [done|]. intros _ h1 E1. cbv zeta. fold (store_file bytes).
  apply wp_then, (wp_look _ d _ _ (bool_decide (is_Some (disk d h !! store_file bytes)))); [|done|].
  { rewrite (st_exists _ _ Hd) by apply store_tool_file. by rewrite E1. }
  intros h2 E2. rewrite E1 in E2. apply wp_then. case_bool_decide as Hs.
  - apply wp_ok, wp_ok, HQ. by rewrite decide_True.
  - apply wp_trigger. destruct (env _ h2 _) as [[]|e]; [|done]. apply wp_ok, HQ.
    by rewrite decide_False, disk_snoc, E2 by done.
Qed.
End Disk.

(** ** A machine

    A machine with the disk [d]: what concerns no file is answered by [other]. *)
Definition machine {T : Config} (other : environment toolE) (d : Disk) : environment toolE :=
  fun X h e =>
    match e in toolE X return X with
    | existsSync path => bool_decide (is_Some (disk d h !! path))
    | readFileSync path => match disk d h !! path with Some bytes => Ok bytes | None => Err "ENOENT" end
    | mkdirSync _ | writeFileSync _ _ _ => Ok tt
    | e' => other _ h e'
    end.

Lemma machine_stores {T : Config} {J : JsLibs T} (other : environment toolE) d : stores (machine other d) d.
Proof. split; cbn; [done|]. by intros path bytes h ->. Qed.
