(* ===== verification/Client.v ===== *)
(** * The off-chain client

    [tools/client/client.js]: the client that follows the Official Release Log of a project and installs
    what it publishes. It trusts the log only: artifacts come from a content-addressed store it checks,
    so its file system and store may answer anything. A query of the chain answers from some state of
    it. *)
From stdpp Require Import prelude gmap vector strings.
From Stdlib Require Import Init.Byte Strings.Ascii.
From S2P Require Import Prelude Types Config Storage Pallet Chain Mock Scenarios Exec Effects.
From S2P Require Import Registry Ballots Schedule Log Invariants Runs Lifecycle Releases Escrow Interaction.
From S2P Require Import Tools.
#[local] Open Scope Z_scope.
#[local] Open Scope prog_scope.

Section Client.
Context {T : Config} {J : JsLibs T}.

(** ** [client.js] *)

Definition target (projectName : string) (entry : ReleaseEntry) : string :=
  path_join INSTALL_DIR (projectName +:+ "-" +:+ u8aToString (re_version entry)).

Record Installed := mkInstalled {
  in_version : string;
  in_path : string;
  in_hash : string;
  in_attestationCid : string;
}.

(** [x?.toLowerCase() === y] *)
Definition names (x : option string) (y : string) : bool := bool_decide (toLowerCase <$> x = Some y).

Definition verifyAndInstall (projectId : ProjectId) (projectName : string) (entry : ReleaseEntry) :
    tool Installed :=
  let onChainBinaryHash := u8aToHex (vec_to_list (re_output_binary_hash entry)) in
  let attestationCid := u8aToHex (vec_to_list (re_attestation_cid entry)) in
  let onChainCommit := u8aToHex (vec_to_list (re_source_commit_hash entry)) in
  let? attBytes := storeGet attestationCid in
  match json_parse attBytes with
  | None => throw_error "not an attestation"
  | Some att =>
      let? _ := throw_unless (names (aj_output_binary_hash att) onChainBinaryHash) "output_binary_hash" in
      let? _ := throw_unless (names (aj_source_commit_hash att) onChainCommit) "source_commit_hash" in
      let? builderInfo := await (query_stakeholders projectId (aj_builder att)) in
      let? _ := throw_unless (match builderInfo with
                       | Some sh => bool_decide (sh_role sh = BuildService)
                       | None => false
                       end) "not a registered Build Service" in
      match signingPayload att, decodeAddress (aj_builder att) with
      | Some payload, Some who =>
          let? sigOk := returned (sr25519Verify payload (hexToU8a (aj_builder_signature att)) who) in
          let? _ := throw_unless sigOk "builder_signature does not verify" in
          let? binary := storeGet onChainBinaryHash in
          let? _ := throw_unless (bool_decide (sha256Hex binary = onChainBinaryHash)) "binary hash" in
          let? _ := await (mkdirSync INSTALL_DIR) in
          let? _ := await (writeFileSync (target projectName entry) binary true) in
          let? _ := await (writeFileSync (target projectName entry +:+ ".attestation.json") attBytes false) in
          ok (mkInstalled (u8aToString (re_version entry)) (target projectName entry)
            onChainBinaryHash attestationCid)
      | _, _ => throw_error "malformed attestation"
      end
  end.

(** One turn of the loop of [syncProject]: what is on the disk already is skipped. *)
Inductive Synced : Type :=
| Skipped (version : string)
| NewlyInstalled (r : Installed).

Definition sync_entry (projectId : ProjectId) (projectName : string) (i : Z) : tool Synced :=
  let? entry := await (query_releaseLog projectId i) in
  match entry with
  | None => throw_error "Option: unwrapping a None value"
  | Some entry =>
      let! present := trigger (existsSync (target projectName entry)) in
      let? same :=
        if present : bool then
          let? bytes := await (readFileSync (target projectName entry)) in
          ok (bool_decide (sha256Hex bytes = u8aToHex (vec_to_list (re_output_binary_hash entry))))
        else ok false in
      if same : bool then ok (Skipped (u8aToString (re_version entry)))
      else let? r := verifyAndInstall projectId projectName entry in ok (NewlyInstalled r)
  end.

(** [for (let i = 0; i < count; i++)], with the number of entries left. *)
Fixpoint sync_entries (projectId : ProjectId) (projectName : string) (i : Z) (left : nat) :
    tool (list Synced) :=
  match left with
  | O => ok []
  | Datatypes.S left' =>
      let? r := sync_entry projectId projectName i in
      let? rest := sync_entries projectId projectName (i + 1) left' in
      ok (r :: rest)
  end.

Record SyncResult := mkSyncResult {
  sr_projectName : string;
  sr_count : Z;
  sr_installed : list Installed;
  sr_skipped : list string;
}.
Definition installed_part (s : Synced) : option Installed :=
  match s with NewlyInstalled r => Some r | Skipped _ => None end.
Definition skipped_part (s : Synced) : option string :=
  match s with Skipped v => Some v | NewlyInstalled _ => None end.

Definition syncProject (projectId : ProjectId) : tool SyncResult :=
  let? project := await (query_projects projectId) in
  match project with
  | None => throw_error "project not found on chain"
  | Some info =>
      let projectName := u8aToString (pi_name info) in
      let? count := await (query_releaseCount projectId) in
      let? l := sync_entries projectId projectName 0 (Z.to_nat count) in
      ok (mkSyncResult projectName count (omap installed_part l) (omap skipped_part l))
  end.

(** The loop of the command line: one turn without [--watch]; with it, turn after turn until one
    throws, of which these are the first. *)
Fixpoint polls (turns : nat) (projectId : ProjectId) : tool (list SyncResult) :=
  match turns with
  | O => ok []
  | Datatypes.S turns' =>
      let? r := syncProject projectId in
      let? rest := polls turns' projectId in
      ok (r :: rest)
  end.

(** ** Safe programs

    What an honest answer of the chain is, in terms of the states it may report; and programs that, as
    long as the chain's answers are honest, install good artifacts only. *)

Definition reports w {X} (e : toolE X) : X -> Prop :=
  match e in toolE X return X -> Prop with
  | query_projects pid => fun r => forall o, r = Ok o -> o = w_Projects w !! pid
  | query_releaseCount pid => fun r => forall n, r = Ok n -> n = release_count pid w
  | query_releaseLog pid i => fun r => forall o, r = Ok o -> o = w_ReleaseLog w !! (pid, i)
  | query_stakeholders pid who => fun r => forall o, r = Ok o ->
      o = match decodeAddress who with Some a => w_Stakeholders w !! (pid, a) | None => None end
  | _ => fun _ => True
  end.

Definition honest (states : World -> Prop) (c : called toolE) : Prop :=
  match c with Called e x => exists w, states w /\ reports w e x end.

(** An environment whose answers are honest gives honest traces. *)
Lemma honest_exec (states : World -> Prop) (env : environment toolE) :
  (forall X h (e : toolE X), exists w, states w /\ reports w e (env X h e)) ->
  forall A (p : prog toolE A) h, Forall (honest states) h -> Forall (honest states) (fst (exec env h p)).
Proof. intros Henv A p h. by apply exec_forall. Qed.

(** The executables written. *)
Definition install_of (c : called toolE) : option (string * list byte) :=
  match c with
  | Called (writeFileSync path bytes true) _ => Some (path, bytes)
  | _ => None
  end.
Definition installs (l : list (called toolE)) : list (string * list byte) := omap install_of l.

Section Safe.
Context (states : World -> Prop) (good : string * list byte -> Prop).

Definition safe {A} (p : tool A) (Q : A -> Prop) : Prop :=
  forall env h l, fst (exec env h p) = h ++ l -> Forall (honest states) l ->
    Forall good (installs l) /\ forall a, snd (exec env h p) = Ok a -> Q a.

Lemma safe_ok {A} (a : A) (Q : A -> Prop) : Q a -> safe (ok a) Q.
Proof.
  intros Ha env h l Hl _. cbn in *. rewrite <- (app_nil_r h) in Hl at 1. apply app_inv_head in Hl as <-.
  split; [constructor|]. by intros b [= <-].
Qed.

Lemma safe_throw_error {A} message (Q : A -> Prop) : safe (throw_error message) Q.
Proof.
  intros env h l Hl _. cbn in *. rewrite <- (app_nil_r h) in Hl at 1. apply app_inv_head in Hl as <-.
  split; [constructor | done].
Qed.

Lemma safe_throw_unless c message : safe (throw_unless c message) (fun _ => c = true).
Proof. destruct c; [by apply safe_ok | apply safe_throw_error]. Qed.

Lemma safe_returned {A} (o : option A) : safe (returned o) (fun a => o = Some a).
Proof. destruct o; [by apply safe_ok | apply safe_throw_error]. Qed.

Lemma safe_then {A B} (p : tool A) (f : A -> tool B) Q1 Q :
  safe p Q1 -> (forall a, Q1 a -> safe (f a) Q) -> safe (and_then p f) Q.
Proof.
  intros Hp Hf env h l. rewrite exec_and_then.
  destruct (exec_extends env h p) as [l1 E1]. specialize (Hp env h l1 E1).
  destruct (exec env h p) as [h1 [a|e]]; cbn in E1, Hp; subst h1.
  - destruct (exec_extends env (h ++ l1) (f a)) as [l2 E2]. rewrite E2, <- app_assoc.
    intros Hl%app_inv_head. subst l. intros [H1 H2]%Forall_app. destruct (Hp H1) as [G1 Ha].
    destruct (Hf a (Ha a eq_refl) env (h ++ l1) l2 E2 H2) as [G2 HQ]. split; [|done].
    unfold installs. rewrite omap_app. by apply Forall_app.
  - cbn. intros Hl%app_inv_head. subst l. intros H1. by destruct (Hp H1).
Qed.

Lemma safe_mono {A} (p : tool A) (Q Q' : A -> Prop) : (forall a, Q a -> Q' a) -> safe p Q -> safe p Q'.
Proof. intros HQ Hp env h l Hl Hh. destruct (Hp env h l Hl Hh) as [? Ha]. split; auto. Qed.

(** A call that installs nothing: what it answers is honest. *)
Lemma safe_await {X} (e : toolE (result X string)) :
  (forall x, install_of (Called e x) = None) ->
  safe (await e) (fun x => exists w, states w /\ reports w e (Ok x)).
Proof.
  intros He env h l Hl Hh. cbn in Hl. apply app_inv_head in Hl as <-. unfold installs.
  cbn -[install_of]. rewrite He. split; [constructor|]. intros x Hx. apply Forall_inv in Hh.
  cbn in Hh, Hx. by rewrite Hx in Hh.
Qed.

Lemma safe_io {X} (e : toolE X) :
  (forall x, install_of (Called e x) = None) -> safe (io (trigger e)) (fun _ => True).
Proof.
  intros He env h l Hl Hh. cbn in Hl. apply app_inv_head in Hl as <-. unfold installs.
  cbn -[install_of]. by rewrite He.
Qed.

Lemma safe_install path bytes :
  good (path, bytes) -> safe (await (writeFileSync path bytes true)) (fun _ => True).
Proof.
  intros Hg env h l Hl Hh. cbn in Hl. apply app_inv_head in Hl as <-. by repeat constructor.
Qed.

(** ** The client's programs *)

Lemma safe_storeGet cid : safe (storeGet cid) (fun bytes => sha256Hex bytes = toLowerCase cid).
Proof.
  unfold storeGet. eapply safe_then; [by apply safe_io|]. intros present _.
  eapply safe_then; [apply safe_throw_unless | intros ? _].
  eapply safe_then; [by apply safe_await | intros bytes _].
  eapply safe_then; [apply safe_throw_unless | intros ? H]. apply safe_ok.
  by apply bool_decide_eq_true in H.
Qed.

(** What [verifyAndInstall] has checked when it installs [bytes] for [entry]. *)
Record verified (pid : ProjectId) (entry : ReleaseEntry) (bytes : list byte) : Prop := {
  vf_hash : sha256Hex bytes = u8aToHex (vec_to_list (re_output_binary_hash entry));
  vf_attested : exists att who payload w sh, states w
    /\ toLowerCase <$> aj_output_binary_hash att
         = Some (u8aToHex (vec_to_list (re_output_binary_hash entry)))
    /\ toLowerCase <$> aj_source_commit_hash att
         = Some (u8aToHex (vec_to_list (re_source_commit_hash entry)))
    /\ decodeAddress (aj_builder att) = Some who
    /\ w_Stakeholders w !! (pid, who) = Some sh /\ sh_role sh = BuildService
    /\ signingPayload att = Some payload
    /\ sr25519Verify payload (hexToU8a (aj_builder_signature att)) who = Some true;
}.

Lemma safe_verifyAndInstall pid name entry :
  (forall bytes, verified pid entry bytes -> good (target name entry, bytes)) ->
  safe (verifyAndInstall pid name entry) (fun _ => True).
Proof.
  intros Hgood. unfold verifyAndInstall. eapply safe_then; [apply safe_storeGet | intros attBytes _].
  destruct (json_parse attBytes) as [att|]; [|apply safe_throw_error].
  eapply safe_then; [apply safe_throw_unless | intros ? Hbin%bool_decide_eq_true].
  eapply safe_then; [apply safe_throw_unless | intros ? Hcommit%bool_decide_eq_true].
  eapply safe_then; [by apply safe_await | intros o (w & Hw & Ho)].
  eapply safe_then; [apply safe_throw_unless | intros ? Hrole].
  destruct o as [sh|]; [|done]. apply bool_decide_eq_true in Hrole.
  destruct (signingPayload att) as [payload|] eqn:Hpay; [|apply safe_throw_error].
  destruct (decodeAddress (aj_builder att)) as [who|] eqn:Hwho; [|apply safe_throw_error].
  specialize (Ho _ eq_refl). rewrite Hwho in Ho.
  eapply safe_then; [apply safe_returned | intros sigOk Hsig].
  eapply safe_then; [apply safe_throw_unless | intros ? ->].
  eapply safe_then; [apply safe_storeGet | intros binary _].
  eapply safe_then; [apply safe_throw_unless | intros ? Hhash%bool_decide_eq_true].
  eapply safe_then; [by apply safe_await | intros ? _].
  eapply safe_then; [apply safe_install, Hgood | intros ? _].
  { split; [done|]. by exists att, who, payload, w, sh. }
  eapply safe_then; [by apply safe_await | intros ? _]. by apply safe_ok.
Qed.

Lemma safe_sync_entry pid name i :
  (forall w entry bytes, states w -> w_ReleaseLog w !! (pid, i) = Some entry ->
    verified pid entry bytes -> good (target name entry, bytes)) ->
  safe (sync_entry pid name i) (fun _ => True).
Proof.
  intros Hgood. unfold sync_entry. eapply safe_then; [by apply safe_await | intros o (w & Hw & Ho)].
  destruct o as [entry|]; [|apply safe_throw_error]. specialize (Ho _ eq_refl).
  eapply safe_then; [by apply safe_io | intros present _].
  apply safe_then with (fun _ => True).
  { destruct present; [|by apply safe_ok]. eapply safe_then; [by apply safe_await|].
    intros bytes _. by apply safe_ok. }
  intros [] _; [by apply safe_ok|].
  eapply safe_then; [|intros r _; by apply safe_ok].
  apply safe_verifyAndInstall. intros bytes Hv. by eapply Hgood.
Qed.

Lemma safe_sync_entries pid name i left :
  (forall w j entry bytes, states w -> w_ReleaseLog w !! (pid, j) = Some entry ->
    verified pid entry bytes -> good (target name entry, bytes)) ->
  safe (sync_entries pid name i left) (fun _ => True).
Proof.
  intros Hgood. revert i. induction left as [|left IH]; intros i; [by apply safe_ok|].
  cbn [sync_entries]. eapply safe_then; [apply safe_sync_entry; intros ???; apply Hgood | intros r _].
  eapply safe_then; [apply IH | intros rest _]. by apply safe_ok.
Qed.

Lemma safe_syncProject pid :
  (forall w w' j info entry bytes, states w -> states w' -> w_Projects w' !! pid = Some info ->
    w_ReleaseLog w !! (pid, j) = Some entry -> verified pid entry bytes ->
    good (target (u8aToString (pi_name info)) entry, bytes)) ->
  safe (syncProject pid) (fun _ => True).
Proof.
  intros Hgood. unfold syncProject. eapply safe_then; [by apply safe_await | intros o (w' & Hw' & Ho)].
  destruct o as [info|]; [|apply safe_throw_error]. specialize (Ho _ eq_refl).
  eapply safe_then; [by apply safe_await | intros count _]. cbv zeta.
  eapply safe_then; [|intros l _; by apply safe_ok].
  apply safe_sync_entries. intros w j entry bytes Hw He Hv. by apply (Hgood w w' j).
Qed.
End Safe.

(** ** What gets installed *)

Context {L : ConfigLaws T} {SL : StorageLayer T} {JL : JsLaws J}.

(** The states a run from [w0] to [w] goes through, among others. *)
Definition between (w0 w v : World) : Prop := rtc step w0 v /\ rtc step v w.

(** A hash the attestation names in any case of hexadecimal digits is the one on the chain. *)
Lemma named_hash o (x : Hash32) u :
  toLowerCase <$> o = Some (u8aToHex (vec_to_list x)) -> hexToU8a o = u -> length u = 32%nat ->
  u = vec_to_list x.
Proof.
  destruct o as [s|]; [|done]. intros [= Hs] <- Hlen. apply hexToU8a_lower; [done|].
  by rewrite length_vec_to_list.
Qed.

(** What an executable on the user's disk goes back to. *)
Definition official w (names : list byte -> Prop) (pid : ProjectId) (f : string * list byte) : Prop :=
  exists i e p name builder sh sig tree environment,
    w_ReleaseLog w !! (pid, i) = Some e
    /\ w_Proposals w !! re_proposal_id e = Some p /\ p_status p = Enacted /\ p_project_id p = pid
    /\ names name /\ f.1 = target (u8aToString name) e
    /\ sha256 f.2 = vec_to_list (re_output_binary_hash e)
    /\ w_Stakeholders w !! (pid, builder) = Some sh /\ sh_role sh = BuildService
    /\ length tree = 32%nat /\ length environment = 32%nat
    /\ sr25519Verify (vec_to_list (re_source_commit_hash e) ++ tree ++ environment
         ++ vec_to_list (re_output_binary_hash e)) sig builder = Some true.

(** The names the project has along the run. *)
Definition project_name w0 w (pid : ProjectId) (name : list byte) : Prop :=
  exists v info, between w0 w v /\ w_Projects v !! pid = Some info /\ name = pi_name info.

Lemma reachable_between w0 w v : reachable w0 -> between w0 w v -> reachable v.
Proof. intros (w1 & ? & ?) [Hv _]. exists w1. split; [done | by etrans]. Qed.

(** What the client has verified against some state of the run holds of the state at its end. *)
Lemma verified_official w0 w v v' pid i info e bytes :
  reachable w0 -> rtc step w0 w -> w_NextProposalId w < u32_max ->
  between w0 w v -> between w0 w v' -> w_Projects v' !! pid = Some info ->
  w_ReleaseLog v !! (pid, i) = Some e -> verified (between w0 w) pid e bytes ->
  official w (project_name w0 w pid) pid (target (u8aToString (pi_name info)) e, bytes).
Proof.
  intros H0 Hs Hn Hv Hv' Hinfo He [Hhash Hatt].
  assert (Hw : live w) by (split; [by apply (reachable_between w0 w) | done]).
  apply (log_keeps_run v w) in He; [|by apply (reachable_between w0 w) | apply Hv | done].
  destruct (lg_entry _ _ _ (inv_log _ (live_inv _ Hw)) _ _ _ He) as (p & Hp & Hst & Hpid & _).
  destruct Hatt as (att & who & payload & u & sh & Hu & Hbin & Hcommit & _ & Hsh & Hr & Hpay & Hsig).
  destruct (stakes_kept_run u w (reachable_between _ _ _ H0 Hu) (proj2 Hu) Hn _ _ Hsh)
    as (sh' & Hsh' & Hr' & _).
  apply signingPayload_Some in Hpay as (a & t & env' & d & -> & Ha & _ & _ & Hd & La & Lt & Le & Ld).
  apply (named_hash _ _ _ Hcommit) in Ha as ->; [|done].
  apply (named_hash _ _ _ Hbin) in Hd as ->; [|done].
  apply u8aToHex_inj in Hhash.
  exists i, e, p, (pi_name info), who, sh', (hexToU8a (aj_builder_signature att)), t, env'.
  split_and!; try done; [by exists v', info | congruence].
Qed.

Lemma safe_polls w0 w turns pid :
  reachable w0 -> rtc step w0 w -> w_NextProposalId w < u32_max ->
  safe (between w0 w) (official w (project_name w0 w pid) pid) (polls turns pid) (fun _ => True).
Proof.
  intros H0 Hs Hn. induction turns as [|turns IH]; [by apply safe_ok|]. cbn [polls].
  eapply safe_then; [|intros r _; eapply safe_then; [exact IH|]; intros rest _; by apply safe_ok].
  apply safe_syncProject. intros v v' i info e bytes. by apply verified_official.
Qed.

(** The same while it watches, for any number of turns. *)
Lemma watching_installs_only_releases env w0 w turns pid path bytes :
  reachable w0 -> rtc step w0 w -> w_NextProposalId w < u32_max ->
  Forall (honest (between w0 w)) (trace env (polls turns pid)) ->
  (path, bytes) ∈ installs (trace env (polls turns pid)) ->
  official w (project_name w0 w pid) pid (path, bytes).
Proof.
  intros H0 Hs Hn Hhonest Hin.
  destruct (safe_polls w0 w turns pid H0 Hs Hn env [] (trace env (polls turns pid))) as [Hgood _];
    [done..|]. by eapply Forall_forall in Hgood.
Qed.

(** C12: the client installs official releases only. Suppose the queries are answered from states the
    chain goes through while the client runs, in any order; the file system and the artifact store
    may answer anything. Then every executable [syncProject] writes has the binary hash of an entry
    of the project's release log, which records an enacted proposal; it is written under a name of the
    project and the version of that entry; and a Build Service of the project has signed the 128
    bytes that hold the commit hash and the binary hash of the entry. *)
Theorem client_installs_only_releases env w0 w pid path bytes :
  reachable w0 -> rtc step w0 w -> w_NextProposalId w < u32_max ->
  Forall (honest (between w0 w)) (trace env (syncProject pid)) ->
  (path, bytes) ∈ installs (trace env (syncProject pid)) ->
  official w (fun name => exists v info, between w0 w v /\ w_Projects v !! pid = Some info
    /\ name = pi_name info) pid (path, bytes).
Proof.
  intros H0 Hs Hn Hhonest Hin.
  destruct (safe_syncProject (between w0 w) (official w (project_name w0 w pid) pid) pid) with
    (env := env) (h := @nil (called toolE)) (l := trace env (syncProject pid)) as [Hgood _]; [|done..|].
  - intros v v' i info e b. by apply verified_official.
  - by eapply Forall_forall in Hgood.
Qed.
End Client.

(** ** A concrete client *)

Module Toy.
Import Hex.

(** A Build Service whose signature of a payload is the payload. *)
Definition release : BuildAttestation (@AccountId Test) := Scenarios.attestation (h xa1).
Definition file : AttestationJson :=
  let field x := Some (u8aToHex x) in
  mkAttestationJson (field (h xc0)) (field (h x51)) (field (h xde)) (field (h xa1))
    (Some "BuildService") (field (signing_payload release)).

#[global] Instance Js : JsLibs Test := {|
  sha256 := take 32;
  Tools.u8aToHex := u8aToHex;
  Tools.hexToU8a := hexToU8a;
  u8aToString := String.string_of_list_byte;
  decodeAddress := fun o => if decide (o = Some "BuildService") then Some BUILD_SERVICE else None;
  sr25519Verify := fun payload sig who => Some (bool_decide (payload = sig /\ who = BUILD_SERVICE));
  json_parse := fun bytes => if decide (bytes = h x42) then Some file else None;
  path_join := fun dir name => dir +:+ "/" +:+ name;
  STORE_DIR := "store";
  INSTALL_DIR := "install";
|}.

#[global] Instance Js_laws : JsLaws Js.
Proof. by apply Hex.laws. Qed.

(** A chain that does not move, a store that has everything. *)
Definition env (w : World) : environment toolE := fun X _ e =>
  match e in toolE X return X with
  | query_projects pid => Ok (w_Projects w !! pid)
  | query_releaseCount pid => Ok (release_count pid w)
  | query_releaseLog pid i => Ok (w_ReleaseLog w !! (pid, i))
  | query_stakeholders pid who =>
      Ok (match decodeAddress who with Some a => w_Stakeholders w !! (pid, a) | None => None end)
  | existsSync path => String.prefix "store" path
  | readFileSync path => Ok (unhex (String.substring 6 64 path))
  | mkdirSync _ => Ok tt
  | readdirSync _ => Ok []
  | addFromUri _ => Err "no keyring"
  | pair_sign _ _ => []
  | writeFileSync _ _ _ => Ok tt
  end.

Lemma env_honest w (X : Type) h (e : toolE X) : reports w e (env w X h e).
Proof. by destruct e; cbn; try intros ? [= <-]. Qed.
End Toy.

Lemma client_installs_only_releases_witness :
  let l := trace (Toy.env (world_of released)) (syncProject 0) in
  installs l = [("install/acme-utils-1.2.3", vec_to_list (h xa1))]
  /\ exists e, w_ReleaseLog (world_of released) !! (0, 0) = Some e
       /\ re_output_binary_hash e = h xa1
  /\ official (world_of released) (fun name => exists v info,
       between (world_of released) (world_of released) v /\ w_Projects v !! 0 = Some info
       /\ name = pi_name info) 0 ("install/acme-utils-1.2.3", vec_to_list (h xa1)).
Proof.
  assert (E : installs (trace (Toy.env (world_of released)) (syncProject 0))
    = [("install/acme-utils-1.2.3", vec_to_list (h xa1))]) by (vm_compute; reflexivity).
  split; [exact E|]. eexists. split; [vm_compute; reflexivity|]. split; [vm_compute; reflexivity|].
  apply (client_installs_only_releases (Toy.env (world_of released)) (world_of released)).
  - apply released_live.
  - apply rtc_refl.
  - vm_compute. reflexivity.
  - apply honest_exec; [|constructor]. intros X hist e. exists (world_of released).
    split; [split; apply rtc_refl | apply Toy.env_honest].
  - rewrite E. by left.
Defined.
