(* ===== verification/Install.v ===== *)
(** * What the client does install

    The other half of [Client]: when the chain can be queried, the disk works, and the artifacts of every
    entry of the log are in the store, [syncProject] returns, and the disk it leaves holds every release
    of the log that no later entry overwrites. The density of the log makes sure that no entry it asks
    for is missing. *)
From stdpp Require Import prelude gmap vector strings.
From Stdlib Require Import Init.Byte.
From S2P Require Import Prelude Types Config Storage Pallet Chain Mock Scenarios Exec Effects.
From S2P Require Import Registry Ballots Schedule Log Invariants Runs Lifecycle Releases Escrow Interaction.
From S2P Require Import Tools Disk Client.
#[local] Open Scope Z_scope.
#[local] Open Scope prog_scope.

Section Install.
Context {T : Config} {J : JsLibs T} {L : ConfigLaws T} {SL : StorageLayer T} {JL : JsLaws J}.

(** ** The environment: a chain in the state [w], a machine with the disk [d] *)

Record works (env : environment toolE) (w : World) (d : Disk) : Prop := {
  wk_project pid h : env _ h (query_projects pid) = Ok (w_Projects w !! pid);
  wk_count pid h : env _ h (query_releaseCount pid) = Ok (release_count pid w);
  wk_entry pid i h : env _ h (query_releaseLog pid i) = Ok (w_ReleaseLog w !! (pid, i));
  wk_stakeholder pid who a h : decodeAddress who = Some a ->
    env _ h (query_stakeholders pid who) = Ok (w_Stakeholders w !! (pid, a));
  wk_disk : stores env d;
  wk_mkdir path h : env _ h (mkdirSync path) = Ok tt;
  wk_write path bytes x h : env _ h (writeFileSync path bytes x) = Ok tt;
}.

(** Where the store keeps the content with a hash. *)
Definition store_at (x : Hash32) : string := path_join STORE_DIR (strip0x (u8aToHex (vec_to_list x))).

Definition stored (d : Disk) (x : Hash32) (bytes : list byte) : Prop :=
  sha256 bytes = vec_to_list x /\ d !! store_at x = Some bytes.

(** [binary] and the attestation [file] are the artifacts of an entry: [file] names the hash and the
    commit of the entry, and a Build Service of the project has signed it. *)
Definition artifacts (w : World) (d : Disk) (pid : ProjectId) (e : ReleaseEntry) (binary file : list byte) : Prop :=
  exists att who sh payload,
    stored d (re_output_binary_hash e) binary /\ stored d (re_attestation_cid e) file
    /\ json_parse file = Some att
    /\ toLowerCase <$> aj_output_binary_hash att = Some (u8aToHex (vec_to_list (re_output_binary_hash e)))
    /\ toLowerCase <$> aj_source_commit_hash att = Some (u8aToHex (vec_to_list (re_source_commit_hash e)))
    /\ decodeAddress (aj_builder att) = Some who
    /\ w_Stakeholders w !! (pid, who) = Some sh /\ sh_role sh = BuildService
    /\ signingPayload att = Some payload
    /\ sr25519Verify payload (hexToU8a (aj_builder_signature att)) who = Some true.

(** The artifacts of an entry are in the store. *)
Definition available (w : World) (d : Disk) (pid : ProjectId) (e : ReleaseEntry) : Prop :=
  exists binary file, artifacts w d pid e binary file.

(** The second file [verifyAndInstall] writes. *)
Definition attestation_path (name : string) (e : ReleaseEntry) : string := target name e +:+ ".attestation.json".

Definition written_for (name : string) (e : ReleaseEntry) (path : string) : Prop :=
  path = target name e \/ path = attestation_path name e.

Lemma target_attestation_ne name e : target name e <> attestation_path name e.
Proof.
  unfold attestation_path. generalize (target name e). intros s. induction s as [|c s IH]; [done|].
  intros [= E]. by apply IH.
Qed.

(** What [verifyAndInstall] reports for an entry. *)
Definition report (name : string) (e : ReleaseEntry) : Installed :=
  mkInstalled (u8aToString (re_version e)) (target name e)
    (u8aToHex (vec_to_list (re_output_binary_hash e))) (u8aToHex (vec_to_list (re_attestation_cid e))).

(** The disk has the binary of the entry where the client installs it. *)
Definition on_disk (d : Disk) (name : string) (e : ReleaseEntry) : Prop :=
  exists bytes, d !! target name e = Some bytes /\ sha256 bytes = vec_to_list (re_output_binary_hash e).

Definition synced_as (name : string) (e : ReleaseEntry) (s : Synced) : Prop :=
  s = NewlyInstalled (report name e) \/ s = Skipped (u8aToString (re_version e)).

Section Working.
Context {env : environment toolE} {w : World} {d : Disk} (Hworks : works env w d).
#[local] Abbreviation wp p Q := (wp env p Q never).

Lemma wp_stored (x : Hash32) bytes Q h :
  stored (disk d h) x bytes -> (forall h', disk d h' = disk d h -> Q bytes h') ->
  wp (storeGet (u8aToHex (vec_to_list x))) Q h.
Proof using Hworks JL.
  intros [Hh Hf] HQ. apply (wp_storeGet _ d _ (wk_disk _ _ _ Hworks) _ bytes); [done | | done].
  unfold sha256Hex. by rewrite Hh, lower_hex.
Qed.

(** With its artifacts in the store, an entry is installed: both files are written, and nothing else. *)
Lemma wp_verifyAndInstall pid name e binary file (Q : Installed -> list (called toolE) -> Prop) h :
  artifacts w (disk d h) pid e binary file ->
  (forall h', disk d h' = <[attestation_path name e := file]> (<[target name e := binary]> (disk d h)) ->
     Q (report name e) h') ->
  wp (verifyAndInstall pid name e) Q h.
Proof using Hworks JL.
  intros (att & who & sh & payload & Hb & Hfile & Hatt & Hbin & Hcommit & Hwho & Hsh & Hr & Hpay & Hsig) HQ.
  unfold verifyAndInstall, names.
  apply wp_then, (wp_stored _ file); [done | intros h1 E1]. rewrite Hatt.
  apply wp_then, wp_throw_unless; [by apply bool_decide_eq_true|].
  apply wp_then, wp_throw_unless; [by apply bool_decide_eq_true|].
  apply wp_then, (wp_ask _ d _ _ (Some sh)); [|done|intros h2 E2].
  { rewrite <- Hsh. by apply (wk_stakeholder _ _ _ Hworks). }
  apply wp_then, wp_throw_unless; [by apply bool_decide_eq_true|].
  rewrite Hpay, Hwho, Hsig. apply wp_then, wp_ok, wp_then, wp_throw_unless; [done|].
  apply wp_then, (wp_stored _ binary); [by rewrite E2, E1 | intros h3 E3].
  apply wp_then, wp_throw_unless; [apply bool_decide_eq_true; unfold sha256Hex; by rewrite (proj1 Hb)|].
  apply wp_then, (wp_ask _ d _ _ tt); [by apply (wk_mkdir _ _ _ Hworks) | done | intros h4 E4].
  apply wp_then, (wp_write _ d); [by apply (wk_write _ _ _ Hworks) | intros h5 E5].
  apply wp_then, (wp_write _ d); [by apply (wk_write _ _ _ Hworks) | intros h6 E6].
  apply wp_ok, HQ. by rewrite E6, E5, E4, E3, E2, E1.
Qed.

(** After a turn of the loop the binary of the entry is on the disk, installed or found there. *)
Lemma wp_sync_entry pid name i e h :
  w_ReleaseLog w !! (pid, i) = Some e -> available w (disk d h) pid e ->
  wp (sync_entry pid name i) (fun s h' => synced_as name e s /\ on_disk (disk d h') name e
    /\ forall path, ~ written_for name e path -> disk d h' !! path = disk d h !! path) h.
Proof using Hworks JL.
  intros He (binary & file & Ha). unfold sync_entry.
  apply wp_then, (wp_ask _ d _ _ (Some e)); [|done|intros h1 E1].
  { rewrite <- He. by apply (wk_entry _ _ _ Hworks). }
  apply wp_then, (wp_look _ d _ _ _ _ _ eq_refl); [done | intros h2 E2].
  rewrite (st_exists _ _ (wk_disk _ _ _ Hworks)) by apply install_tool_file. rewrite E1 in E2 |- *.
  assert (Hnew : forall h3, disk d h3 = disk d h ->
    wp (let? r := verifyAndInstall pid name e in ok (NewlyInstalled r)) (fun s h' => synced_as name e s
      /\ on_disk (disk d h') name e
      /\ forall path, ~ written_for name e path -> disk d h' !! path = disk d h !! path) h3).
  { intros h3 E3. apply wp_then, (wp_verifyAndInstall pid name e binary file); [by rewrite E3|].
    intros h4 E4. apply wp_ok. rewrite E3 in E4. split; [by left|]. split.
    - exists binary. rewrite E4, lookup_insert_ne, lookup_insert_eq by (symmetry; apply target_attestation_ne).
      split; [done|]. by destruct Ha as (? & ? & ? & ? & [Hh _] & _).
    - intros path Hpath. rewrite E4, !lookup_insert_ne; [done | |]; intros <-; apply Hpath; [by left | by right]. }
  destruct (disk d h !! target name e) as [bytes|] eqn:Hfs; [|by apply wp_then, wp_ok, Hnew].
  rewrite bool_decide_true by (by eexists).
  apply wp_then, wp_then, (wp_ask _ d _ _ bytes); [|done|intros h3 E3].
  { apply (st_read _ _ (wk_disk _ _ _ Hworks)). by rewrite E2. }
  apply wp_ok. rewrite E2 in E3. case_bool_decide as E; [|by apply Hnew].
  apply wp_ok. rewrite E3. split; [by right|]. split; [|done].
  exists bytes. split; [done|]. by apply u8aToHex_inj in E.
Qed.

(** ** The whole log *)

(** No file the client writes for one entry is an artifact of another, or of the same. *)
Definition store_apart (pid : ProjectId) (name : string) : Prop :=
  forall i j e e', w_ReleaseLog w !! (pid, i) = Some e -> w_ReleaseLog w !! (pid, j) = Some e' ->
    ~ written_for name e' (store_at (re_output_binary_hash e))
    /\ ~ written_for name e' (store_at (re_attestation_cid e)).

(** No later entry of the log is installed over the entry at index [i]: this is so when its version is
    not used again. *)
Definition not_replaced (pid : ProjectId) (name : string) (i : Z) (e : ReleaseEntry) : Prop :=
  forall j e', i < j -> w_ReleaseLog w !! (pid, j) = Some e' -> ~ written_for name e' (target name e).

Definition all_available (pid : ProjectId) (d' : Disk) : Prop :=
  forall i e, w_ReleaseLog w !! (pid, i) = Some e -> available w d' pid e.

Lemma all_available_kept pid name d' d'' e' j :
  store_apart pid name -> w_ReleaseLog w !! (pid, j) = Some e' ->
  (forall path, ~ written_for name e' path -> d'' !! path = d' !! path) ->
  all_available pid d' -> all_available pid d''.
Proof using.
  intros Hapart He' Hsame Hall i e He. destruct (Hapart i j e e' He He') as [N1 N2].
  destruct (Hall i e He) as (binary & file & att & who & sh & payload & [H1 F1] & [H2 F2] & H).
  exists binary, file, att, who, sh, payload. unfold stored.
  rewrite (Hsame _ N1), (Hsame _ N2). by split_and!; try apply H.
Qed.

Lemma wp_sync_entries pid name left i h :
  store_apart pid name -> all_available pid (disk d h) ->
  (forall j, i <= j < i + Z.of_nat left -> is_Some (w_ReleaseLog w !! (pid, j))) ->
  wp (sync_entries pid name i left) (fun l h' => length l = left
    /\ (forall (k : nat) e, (k < left)%nat -> w_ReleaseLog w !! (pid, i + Z.of_nat k) = Some e ->
         (exists s, l !! k = Some s /\ synced_as name e s)
         /\ (not_replaced pid name (i + Z.of_nat k) e -> on_disk (disk d h') name e))
    /\ forall path, (forall j e, i <= j -> w_ReleaseLog w !! (pid, j) = Some e -> ~ written_for name e path) ->
         disk d h' !! path = disk d h !! path) h.
Proof using Hworks JL.
  intros Hapart. revert i h. induction left as [|left IH]; intros i h Hall Hlog.
  { apply wp_ok. split_and!; [done | intros; lia | done]. }
  cbn [sync_entries]. destruct (Hlog i ltac:(lia)) as [e0 He0].
  apply wp_then. eapply wp_mono; [|by apply (wp_sync_entry pid name i e0), (Hall i)].
  intros s h1 (Hs & Hdisk & Hsame). apply wp_then. eapply wp_mono; [|apply (IH (i + 1) h1)].
  2:{ by eapply (all_available_kept pid name _ _ e0 i). }
  2:{ intros j Hj. apply Hlog. lia. }
  intros l h2 (Hlen & Hl & Hrest). apply wp_ok. split_and!; [cbn; lia | |].
  - intros [|k] e Hk He.
    + rewrite Z.add_0_r in *. assert (e = e0) as -> by congruence. split; [by exists s|].
      intros Hlast. destruct Hdisk as (bytes & Hb & Hh). exists bytes. split; [|done]. rewrite <- Hb.
      apply Hrest. intros j e' Hj. apply Hlast. lia.
    + replace (i + Z.of_nat (Datatypes.S k)) with (i + 1 + Z.of_nat k) in * by lia. apply Hl; [lia | done].
  - intros path Hpath. rewrite Hrest by (intros j e Hj; apply Hpath; lia). by apply Hsame, (Hpath i).
Qed.
End Working.
#[global] Arguments store_apart : clear implicits.
#[global] Arguments not_replaced : clear implicits.

Lemma synced_parts (l : list Synced) :
  (length (omap installed_part l) + length (omap skipped_part l) = length l)%nat.
Proof. induction l as [|[v|r] l IH]; cbn; lia. Qed.

(** C13: published releases reach the users. Suppose the chain answers from a live world, the machine has
    the disk [d] and its writes succeed, and the artifacts of every entry of the project's log are in
    the store on [d] - the binary, and an attestation that names its hash and commit and is signed by a
    Build Service of the project - under paths that the client does not install to. Then [syncProject]
    returns without an error and accounts for every entry of the log as installed or skipped;
    and on the disk it leaves, every entry that no later one is installed over - one whose version
    is not used again, say - has at its target path bytes with the hash the log gives. *)
Theorem published_releases_reach_users env w d pid info (name := u8aToString (pi_name info)) :
  works env w d -> live w -> w_Projects w !! pid = Some info ->
  store_apart w pid name ->
  (forall i e, w_ReleaseLog w !! (pid, i) = Some e -> available w d pid e) ->
  exists r, outcome_of env (syncProject pid) = Ok r
    /\ sr_count r = release_count pid w
    /\ Z.of_nat (length (sr_installed r)) + Z.of_nat (length (sr_skipped r)) = release_count pid w
    /\ forall i e, w_ReleaseLog w !! (pid, i) = Some e ->
         (report name e ∈ sr_installed r \/ u8aToString (re_version e) ∈ sr_skipped r)
         /\ (not_replaced w pid name i e -> on_disk (disk d (trace env (syncProject pid))) name e).
Proof using JL.
  intros Hworks Hw Hinfo Hapart Hall. pose proof (inv_log _ (live_inv _ Hw)) as HL.
  assert (Hn : 0 <= release_count pid w).
  { change (release_count pid w) with (count_in (w_ReleaseCount w) pid). rewrite (lg_count _ _ _ HL).
    apply msum_nonneg. intros k q _. apply enacted_part_range. }
  apply (wp_returns env _ (fun r h => sr_count r = release_count pid w
    /\ Z.of_nat (length (sr_installed r)) + Z.of_nat (length (sr_skipped r)) = release_count pid w
    /\ forall i e, w_ReleaseLog w !! (pid, i) = Some e ->
         (report name e ∈ sr_installed r \/ u8aToString (re_version e) ∈ sr_skipped r)
         /\ (not_replaced w pid name i e -> on_disk (disk d h) name e))).
  unfold syncProject.
  apply wp_then, (wp_ask _ d _ _ (Some info)); [|done|intros h1 E1].
  { rewrite <- Hinfo. by apply (wk_project _ _ _ Hworks). }
  apply wp_then, (wp_ask _ d _ _ _ _ _ (wk_count _ _ _ Hworks _ _)); [done | intros h2 E2].
  apply wp_then. eapply wp_mono; [|apply (wp_sync_entries Hworks pid name _ 0 h2 Hapart)].
  2:{ rewrite E2, E1. exact Hall. }
  2:{ intros j Hj. apply (lg_dense _ _ _ HL pid j).
      change (count_in (w_ReleaseCount w) pid) with (release_count pid w). lia. }
  intros l h3 (Hlen & Hl & _). apply wp_ok. cbn. pose proof (synced_parts l). split_and!; [done | lia|].
  intros i e He. pose proof (lg_range _ _ _ HL _ _ _ He) as Hi.
  change (count_in (w_ReleaseCount w) pid) with (release_count pid w) in Hi.
  destruct (Hl (Z.to_nat i) e) as [(s & Hs & Hsynced) Hdisk]; [lia | by rewrite Z2Nat.id by lia|].
  rewrite Z2Nat.id in Hdisk by lia. split; [|done]. apply list_elem_of_lookup_2 in Hs.
  destruct Hsynced as [-> | ->]; [left | right]; apply list_elem_of_omap; by eexists.
Qed.
End Install.

(** ** The theorem at the acme-utils project *)

(** The chain of [Toy], and a machine whose store has the two artifacts. *)
Definition toy_disk : Disk :=
  <[store_at (h xa1) := vec_to_list (h xa1)]> {[store_at (h x42) := vec_to_list (h x42)]}.
Definition toy_machine : environment toolE := machine (Toy.env (world_of released)) toy_disk.

Lemma toy_works : works toy_machine (world_of released) toy_disk.
Proof.
  split; try done; [|apply machine_stores].
  intros pid who a hist H. cbn. unfold decodeAddress in H. cbn in H. by rewrite H.
Qed.

Lemma toy_log : w_ReleaseLog (world_of released) = {[(0, 0) := release_entry 0 (acme_release (Approved 11)) 11]}.
Proof. vm_compute. reflexivity. Qed.

Lemma published_releases_reach_users_witness :
  exists r bytes, outcome_of toy_machine (syncProject 0) = Ok r
    /\ sr_installed r = [mkInstalled "1.2.3" "install/acme-utils-1.2.3" (Hex.u8aToHex (h xa1))
         (Hex.u8aToHex (h x42))]
    /\ sr_count r = 1
    /\ toy_disk !! "install/acme-utils-1.2.3" = None
    /\ disk toy_disk (trace toy_machine (syncProject 0)) !! "install/acme-utils-1.2.3" = Some bytes
    /\ Toy.Js.(sha256) bytes = vec_to_list (h xa1).
Proof.
  destruct (published_releases_reach_users toy_machine (world_of released) toy_disk 0 acme_info)
    as (r & Hr & Hc & _ & He).
  - exact toy_works.
  - apply released_live.
  - vm_compute. reflexivity.
  - intros i j e e' H1 H2. rewrite toy_log in H1, H2.
    apply lookup_singleton_Some in H1 as [_ <-], H2 as [_ <-].
    split; intros [H|H]; revert H; vm_compute; discriminate.
  - intros i e H1. rewrite toy_log in H1. apply lookup_singleton_Some in H1 as [_ <-].
    exists (vec_to_list (h xa1)), (vec_to_list (h x42)), Toy.file, BUILD_SERVICE,
      (mkStakeholder BuildService BUILD_STAKE), (signing_payload Toy.release).
    split_and!; try split; vm_compute; reflexivity.
  - destruct (He 0 (release_entry 0 (acme_release (Approved 11)) 11)) as [_ Hdisk].
    { rewrite toy_log. apply lookup_singleton_eq. }
    destruct Hdisk as (bytes & Hb & Hh).
    { intros j e' Hj H1. rewrite toy_log in H1. apply lookup_singleton_Some in H1 as [[=] _]. lia. }
    exists r, bytes. split; [exact Hr|]. split; [|split; [by rewrite Hc; vm_compute|]].
    + assert (E : outcome_of toy_machine (syncProject 0)
        = Ok (mkSyncResult "acme-utils" 1 [mkInstalled "1.2.3" "install/acme-utils-1.2.3"
            (Hex.u8aToHex (h xa1)) (Hex.u8aToHex (h x42))] [])) by (vm_compute; reflexivity).
      rewrite E in Hr. injection Hr as <-. reflexivity.
    + split; [vm_compute; reflexivity|]. split; [exact Hb | exact Hh].
Defined.
