(* ===== verification/Builder.v ===== *)
(** * The build service

    [tools/builder/build.js]: the toy build service that compiles the source tree of a project, attests the
    build and pins both to the store. [listFiles] recurses over directories, with fuel for their depth.
    The model is the program; [tree] and [compiled] are what it computes on a disk that holds a source
    tree, in whatever order the directories list their entries. *)
From stdpp Require Import prelude gmap vector strings sorting.
From Stdlib Require Import Init.Byte Strings.Ascii.
From S2P Require Import Prelude Types Config Interaction Tools.
#[local] Open Scope Z_scope.
#[local] Open Scope prog_scope.

(** ** Text *)

Definition newline : string := String "010" EmptyString.
Definition quote : string := String "034" EmptyString.
Definition NUL : string := String "000" EmptyString.

(** The pattern [/^#!.*\n/] matches the first line, when it starts with [#!] and a line feed ends
    it; [.] matches no line terminator. *)
Fixpoint after_line (s : string) : option string :=
  match s with
  | EmptyString => None
  | String c s' =>
      if Ascii.eqb c "010" then Some s' else if Ascii.eqb c "013" then None else after_line s'
  end.
Definition strip_shebang (s : string) : string :=
  match s with
  | String "#" (String "!" s') => default s (after_line s')
  | _ => s
  end.

(** What a replacement string stands for: [$$], [$&], [$`] and [$'] are special. *)
Fixpoint expand (before matched after repl : string) : string :=
  match repl with
  | EmptyString => EmptyString
  | String c repl' =>
      if Ascii.eqb c "$" then
        match repl' with
        | String "$" r => String "$" (expand before matched after r)
        | String "&" r => matched +:+ expand before matched after r
        | String "`" r => before +:+ expand before matched after r
        | String "'" r => after +:+ expand before matched after r
        | _ => String c (expand before matched after repl')
        end
      else String c (expand before matched after repl')
  end.

Fixpoint drop_string (n : nat) (s : string) : string :=
  match n, s with
  | Datatypes.S n', String _ s' => drop_string n' s'
  | _, _ => s
  end.

(** [s.replaceAll(pattern, repl)] for a pattern that is not empty: [before] is what precedes [s], of
    which [skip] characters belong to the match before. *)
Fixpoint replace_from (pattern repl before : string) (skip : nat) (s : string) : string :=
  match s with
  | EmptyString => EmptyString
  | String c s' =>
      let before' := before +:+ String c EmptyString in
      match skip with
      | Datatypes.S skip' => replace_from pattern repl before' skip' s'
      | O =>
          if String.prefix pattern s then
            expand before pattern (drop_string (String.length pattern) s) repl
              +:+ replace_from pattern repl before' (String.length pattern - 1) s'
          else String c (replace_from pattern repl before' 0 s')
      end
  end.
Definition replaceAll (s pattern repl : string) : string := replace_from pattern repl EmptyString 0 s.

Definition PROJECT : string := "acme-utils".

(** The attestation file. *)
Record AttestationFile := mkAttestationFile {
  af_schema : string;
  af_project : string;
  af_version : string;
  af_attestation : AttestationJson;
  af_builder_public_key : string;
  af_signature_scheme : string;
  af_signed_payload : string;
}.

(** The library code only the builder uses. *)
Class BuilderLibs := {
  localeCompare : string -> string -> Z;
  path_relative : string -> string -> string;
  path_sep : ascii;
  (** [Buffer.toString('utf8')] and [Buffer.from] *)
  utf8_decode : list byte -> string;
  Buffer_from : string -> list byte;
  (** [JSON.stringify(file, null, 2)] *)
  json_stringify : AttestationFile -> string;
  (** [import.meta.filename] of [build.js] *)
  BUILDER_FILE : string;
}.

Section Builder.
Context {T : Config} {J : JsLibs T} {B : BuilderLibs}.

(** ** The source tree *)

(** [.split(path.sep).join('/')] *)
Fixpoint slashes (s : string) : string :=
  match s with
  | EmptyString => EmptyString
  | String c s' => String (if Ascii.eqb c path_sep then "/" else c) (slashes s')
  end.

Definition by_name (a b : string * bool) : Prop := localeCompare a.1 b.1 <= 0.
#[export] Instance by_name_dec a b : Decision (by_name a b).
Proof. unfold by_name. apply _. Defined.

(** The loop over the entries of a directory, given the function for the directories in it. *)
Fixpoint list_entries (listDir : string -> tool (list string)) (dir base : string)
    (entries : list (string * bool)) : tool (list string) :=
  match entries with
  | [] => ok []
  | (name, isDirectory) :: entries' =>
      let full := path_join dir name in
      let? files := if isDirectory : bool then listDir full
                    else ok [slashes (path_relative base full)] in
      let? rest := list_entries listDir dir base entries' in
      ok (files ++ rest)
  end.

Fixpoint listFiles (fuel : nat) (dir base : string) : tool (list string) :=
  match fuel with
  | O => throw_error "Maximum call stack size exceeded"
  | Datatypes.S fuel' =>
      let? entries := await (readdirSync dir) in
      let? out := list_entries (fun full => listFiles fuel' full base) dir base
        (merge_sort by_name entries) in
      ok (merge_sort String.le out)
  end.

Fixpoint tree_lines (srcDir : string) (files : list string) : tool string :=
  match files with
  | [] => ok EmptyString
  | rel :: files' =>
      let? content := await (readFileSync (path_join srcDir rel)) in
      let? rest := tree_lines srcDir files' in
      ok (rel +:+ NUL +:+ sha256Hex content +:+ newline +:+ rest)
  end.

Definition sourceTreeHash (fuel : nat) (srcDir : string) : tool string :=
  let? files := listFiles fuel srcDir srcDir in
  let? lines := tree_lines srcDir files in
  ok (sha256Hex (Buffer_from lines)).

Definition buildEnvironmentHash : tool string :=
  let? bytes := await (readFileSync BUILDER_FILE) in
  ok (sha256Hex bytes).

(** ** Compiling *)

Definition prologue (version commit : string) : string :=
  "#!/bin/sh" +:+ newline +:+ "# " +:+ PROJECT +:+ " " +:+ version +:+ newline
  +:+ "# source_commit=" +:+ commit +:+ newline
  +:+ "# built by the VeriGov hermetic toy builder" +:+ newline +:+ "set -e" +:+ newline.

(** What [out +=] appends for a file. *)
Definition section (version commit rel : string) (content : list byte) : string :=
  newline +:+ "# --- " +:+ rel +:+ " ---" +:+ newline
  +:+ replaceAll (replaceAll (strip_shebang (utf8_decode content)) "__VERSION__" version)
        "__COMMIT__" commit.

Definition injected : string :=
  newline +:+ "# --- injected by compromised build service ---" +:+ newline
  +:+ "echo " +:+ quote
  +:+ "PWNED: exfiltrating ~/.ssh to attacker.example (simulated)" +:+ quote
  +:+ " >&2" +:+ newline.

Fixpoint compile_files (srcDir version commit : string) (files : list string) : tool string :=
  match files with
  | [] => ok EmptyString
  | rel :: files' =>
      let? content := await (readFileSync (path_join srcDir rel)) in
      let? rest := compile_files srcDir version commit files' in
      ok (section version commit rel content +:+ rest)
  end.

Definition compile (fuel : nat) (srcDir version commit : string) (inject : bool) : tool (list byte) :=
  let? files := listFiles fuel srcDir srcDir in
  let? body := compile_files srcDir version commit files in
  ok (Buffer_from (prologue version commit +:+ body +:+ if inject then injected else EmptyString)).

(** ** Attesting *)

Record BuildResult := mkBuildResult {
  br_version : string;
  br_commit : string;
  br_inject : bool;
  br_binary : list byte;
  br_attestation : AttestationJson;
  br_signature : string;
  br_attestationJson : list byte;
  br_attestationCid : string;
  br_binaryCid : string;
}.

Definition buildAndAttest (fuel : nat) (version commit : string) (inject : bool)
    (builderUri srcDir : string) (pin : bool) : tool BuildResult :=
  let? '(address, publicKey) := await (addFromUri builderUri) in
  let? binary := compile fuel srcDir version commit inject in
  let? source_commit_hash := returned (commitHash32 commit) in
  let? source_tree_hash := sourceTreeHash fuel srcDir in
  let? build_environment_hash := buildEnvironmentHash in
  let attestation sig := mkAttestationJson (Some source_commit_hash) (Some source_tree_hash)
    (Some build_environment_hash) (Some (sha256Hex binary)) (Some address) sig in
  let? payload := returned (signingPayload (attestation None)) in
  let! raw := trigger (pair_sign builderUri payload) in
  let signature := u8aToHex raw in
  let attestationJson := Buffer_from (json_stringify (mkAttestationFile "verigov/A_build/v1" PROJECT
    version (attestation (Some signature)) (u8aToHex publicKey) "sr25519"
    "source_commit_hash || source_tree_hash || build_environment_hash || output_binary_hash")
    +:+ newline) in
  let? '(binaryCid, attestationCid) :=
    if pin then
      let? binaryCid := storePut binary in
      let? attestationCid := storePut attestationJson in
      ok (binaryCid, attestationCid)
    else ok (sha256Hex binary, sha256Hex attestationJson) in
  ok (mkBuildResult version commit inject binary (attestation None) signature attestationJson
    attestationCid binaryCid).
End Builder.
