(* ===== verification/Reproducible.v ===== *)
(** * Reproducible builds

    What [Builder] computes on a disk that holds a source tree. A counter-attestation is only worth
    something if honest rebuilds agree: the binary and the tree hash depend on the files of the tree
    alone, not on where it lies or on the order in which directories list their entries. *)
From stdpp Require Import prelude gmap vector strings sorting.
From Stdlib Require Import Init.Byte Strings.Ascii.
From S2P Require Import Prelude Types Config Mock Interaction Tools Client Builder.
#[local] Open Scope Z_scope.
#[local] Open Scope prog_scope.

(** ** Source trees *)

#[warnings="-register-all"]
Inductive tree : Type :=
| File (content : list byte)
| Directory (entries : list (string * tree)).

Definition is_directory (t : tree) : bool := match t with Directory _ => true | File _ => false end.

(** The files of a tree: the names on the way, and the content. *)
Fixpoint files (t : tree) : list (list string * list byte) :=
  match t with
  | File content => [([], content)]
  | Directory entries =>
      flat_map (fun '(name, t') => (fun '(names, c) => (name :: names, c)) <$> files t') entries
  end.

Fixpoint depth (t : tree) : nat :=
  match t with
  | File _ => 0
  | Directory entries => S (fold_right (fun '(_, t') n => Nat.max (depth t') n) 0%nat entries)
  end.

Definition slashed (names : list string) : string := String.concat "/" names.
Definition path_of (f : list string * list byte) : string := slashed f.1.

Section Reproducible.
Context {T : Config} {J : JsLibs T} {B : BuilderLibs}.

(** Where a file of the tree at [dir] is. *)
Definition locate (dir : string) (names : list string) : string := fold_left path_join names dir.

(** The disk holds the tree at [dir]; the entries of a directory come in any order. *)
Fixpoint mounted (env : environment toolE) (dir : string) (t : tree) : Prop :=
  match t with
  | File content => forall h, env _ h (readFileSync dir) = Ok content
  | Directory entries =>
      (forall h, exists l, env _ h (readdirSync dir) = Ok l
        /\ l ≡ₚ (fun '(name, t') => (name, is_directory t')) <$> entries)
      /\ fold_right (fun '(name, t') P => mounted env (path_join dir name) t' /\ P) True entries
  end.

(** [path.relative] and [path.join] agree on the files of the tree at [dir]. *)
Definition plain (dir : string) (t : tree) : Prop :=
  forall f, f ∈ files t ->
    slashes (path_relative dir (locate dir f.1)) = path_of f /\ path_join dir (path_of f) = locate dir f.1.

(** No two files have the same path. *)
Definition distinct (t : tree) : Prop := NoDup (path_of <$> files t).

(** The files in the order the builder takes them. *)
Definition path_le (f g : list string * list byte) : Prop := String.le (path_of f) (path_of g).
#[local] Instance path_le_dec f g : Decision (path_le f g).
Proof. unfold path_le. apply _. Defined.
#[local] Instance path_le_total : Total path_le.
Proof. intros f g. apply String.le_total. Qed.
#[local] Instance path_le_trans : Transitive path_le.
Proof. intros f g k. unfold path_le. apply (transitivity (R := String.le)). Qed.

Definition sorted_files (t : tree) : list (list string * list byte) := merge_sort path_le (files t).

Definition joined : list string -> string := fold_right String.append EmptyString.

(** What [compile] and [sourceTreeHash] compute of the sorted files. *)
Definition compiled (version commit : string) (inject : bool) (fs : list (list string * list byte)) :
    list byte :=
  Buffer_from (prologue version commit
    +:+ joined ((fun f => section version commit (path_of f) f.2) <$> fs)
    +:+ if inject then injected else EmptyString).
Definition tree_hash (fs : list (list string * list byte)) : string :=
  sha256Hex (Buffer_from (joined
    ((fun f => path_of f +:+ NUL +:+ sha256Hex f.2 +:+ newline) <$> fs))).

(** ** The sorted list is determined by the set of files *)

Lemma sorted_files_unique t t' :
  files t ≡ₚ files t' -> distinct t -> sorted_files t = sorted_files t'.
Proof.
  intros HP HD. unfold sorted_files. apply (Sorted_unique_strong path_le).
  - intros f g Hf Hg Hfg Hgf. rewrite merge_sort_Permutation in Hf. rewrite merge_sort_Permutation, <- HP in Hg.
    assert (E : path_of f = path_of g) by (apply (anti_symm String.le); done).
    apply list_elem_of_lookup in Hf as [i Hi], Hg as [j Hj].
    assert (i = j) as ->; [|congruence]. eapply (NoDup_lookup (path_of <$> files t)); [exact HD | |].
    + by rewrite list_lookup_fmap, Hi.
    + by rewrite list_lookup_fmap, Hj, E.
  - apply Sorted_merge_sort, _.
  - apply Sorted_merge_sort, _.
  - by rewrite !merge_sort_Permutation.
Qed.

Lemma sorted_paths l t :
  l ≡ₚ path_of <$> files t -> merge_sort String.le l = path_of <$> sorted_files t.
Proof.
  intros HP. apply (Sorted_unique String.le).
  - apply Sorted_merge_sort, _.
  - apply (Sorted_fmap path_of path_le); [done|]. apply Sorted_merge_sort, _.
  - rewrite merge_sort_Permutation, HP. unfold sorted_files. by rewrite merge_sort_Permutation.
Qed.

(** ** Listing *)

(** The path [listFiles] pushes for each file of a tree below [names]. *)
Definition shown (base : string) (names : list string) (t : tree) : list string :=
  (fun f => slashes (path_relative base (locate base (names ++ f.1)))) <$> files t.

Definition entry_of (e : string * tree) : string * bool := (e.1, is_directory e.2).

Lemma locate_snoc dir names name : locate dir (names ++ [name]) = path_join (locate dir names) name.
Proof. unfold locate. by rewrite fold_left_app. Qed.

Lemma shown_cons base names name t es :
  shown base names (Directory ((name, t) :: es))
  = shown base (names ++ [name]) t ++ shown base names (Directory es).
Proof.
  unfold shown. cbn [files flat_map]. rewrite fmap_app, <- list_fmap_compose. f_equal.
  apply list_fmap_ext. intros i [ns c] _. cbn. by rewrite <- app_assoc.
Qed.

Lemma shown_permutation base names es es' :
  es ≡ₚ es' -> shown base names (Directory es) ≡ₚ shown base names (Directory es').
Proof. intros HP. unfold shown. cbn [files]. by rewrite (Permutation_flat_map _ HP). Qed.

Lemma mounted_entries env dir es :
  mounted env dir (Directory es) ->
  (forall h, exists es', env _ h (readdirSync dir) = Ok (entry_of <$> es') /\ es' ≡ₚ es)
  /\ Forall (fun e => mounted env (path_join dir e.1) e.2) es.
Proof.
  cbn [mounted]. intros [Hd He]. split.
  - intros h. destruct (Hd h) as (l & -> & HP).
    assert (E : (fun '(name, t') => (name, is_directory t')) <$> es = entry_of <$> es)
      by (apply list_fmap_ext; by intros ? [] _).
    rewrite E in HP. apply Permutation_map_inv in HP as (es' & -> & HP). by exists es'.
  - clear Hd. induction es as [|[name t] es IH]; [constructor|]. destruct He as [H1 H2].
    constructor; auto.
Qed.

Lemma succeeds_list_entries env listDir base names es :
  Forall (fun e => is_directory e.2 = true ->
    succeeds env (listDir (locate base (names ++ [e.1]))) (fun l => l ≡ₚ shown base (names ++ [e.1]) e.2)) es ->
  succeeds env (list_entries listDir (locate base names) base (entry_of <$> es))
    (fun l => l ≡ₚ shown base names (Directory es)).
Proof.
  induction 1 as [|[name t] es He _ IH]; [by apply succeeds_ok|].
  rewrite fmap_cons. cbn [list_entries entry_of fst snd] in *. cbv zeta. rewrite <- locate_snoc.
  apply succeeds_then with (fun l => l ≡ₚ shown base (names ++ [name]) t).
  - destruct t as [c|es0]; [|by apply He]. apply succeeds_ok. unfold shown. cbn. by rewrite app_nil_r.
  - intros l1 H1. eapply succeeds_then; [exact IH|]. intros l2 H2. apply succeeds_ok.
    by rewrite shown_cons, H1, H2.
Qed.

Lemma depth_entry e es : e ∈ es -> (depth e.2 < depth (Directory es))%nat.
Proof.
  cbn [depth]. induction 1 as [[n t] es|e [n t] es _ IH]; cbn in *; lia.
Qed.

Lemma succeeds_listFiles env fuel base names t :
  is_directory t = true -> (depth t <= fuel)%nat -> mounted env (locate base names) t ->
  succeeds env (listFiles fuel (locate base names) base)
    (fun l => l ≡ₚ shown base names t /\ Sorted String.le l).
Proof.
  revert names t. induction fuel as [|fuel IH]; intros names [c|es] Hdir Hdepth Hm; [done | cbn in Hdepth; lia | done |].
  apply mounted_entries in Hm as [Hread Hm]. cbn [listFiles].
  eapply succeeds_then; [apply (succeeds_await _ (fun l : list (string * bool) =>
    exists es' : list (string * tree), l = entry_of <$> es' /\ es' ≡ₚ es))|].
  { intros h. destruct (Hread h) as (es' & H1 & H2). exists (entry_of <$> es'). eauto. }
  intros ? (es' & -> & HP).
  pose proof (merge_sort_Permutation by_name (entry_of <$> es')) as E.
  apply Permutation_map_inv in E as (es2 & E & HP2).
  rewrite E. eapply succeeds_then.
  - apply (succeeds_list_entries env _ base names es2). apply Forall_forall. intros e He Hde.
    assert (Hin : e ∈ es) by (by rewrite <- HP, HP2).
    eapply succeeds_mono; [|apply IH; [exact Hde | |]]; [by intros l [H _] | |].
    + pose proof (depth_entry _ _ Hin). lia.
    + rewrite locate_snoc. rewrite Forall_forall in Hm. by apply Hm.
  - intros l Hl. apply succeeds_ok. split; [|apply Sorted_merge_sort, _].
    rewrite merge_sort_Permutation, Hl. apply shown_permutation. by rewrite <- HP2.
Qed.

(** ** Reading *)

Section Mounted.
Context (env : environment toolE) (dir : string) (t : tree) (fuel : nat).
Context (Hdir : is_directory t = true) (Hdepth : (depth t <= fuel)%nat) (Hm : mounted env dir t)
  (Hplain : plain dir t).

Lemma succeeds_list :
  succeeds env (listFiles fuel dir dir) (fun l => l = path_of <$> sorted_files t).
Proof using Hdir Hdepth Hm Hplain.
  eapply succeeds_mono; [|by apply (succeeds_listFiles env fuel dir [])]. intros l [HP HS].
  rewrite <- (sorted_paths l t).
  - apply (Sorted_unique String.le); [done | apply Sorted_merge_sort, _ |].
    by rewrite merge_sort_Permutation.
  - rewrite HP. unfold shown.
    erewrite list_fmap_ext; [reflexivity|]. intros i f Hf. apply list_elem_of_lookup_2 in Hf.
    by destruct (Hplain f Hf).
Qed.

Lemma read_file f h : f ∈ files t -> env _ h (readFileSync (path_join dir (path_of f))) = Ok f.2.
Proof using Hm Hplain.
  intros Hf. destruct (Hplain f Hf) as [_ ->]. clear Hplain Hdir Hdepth. destruct f as [names c]. cbn.
  revert dir t Hm Hf. induction names as [|name names IH]; intros d [c'|es] Hm Hf.
  - apply list_elem_of_singleton in Hf as [= ->]. apply Hm.
  - cbn [files] in Hf. apply list_elem_of_In, in_flat_map in Hf as ([n t'] & _ & Hin).
    apply list_elem_of_In, list_elem_of_fmap in Hin as ([ns c'] & [=] & _).
  - apply list_elem_of_singleton in Hf as [=].
  - cbn [files] in Hf. apply list_elem_of_In, in_flat_map in Hf as ([n t'] & He & Hin).
    apply list_elem_of_In, list_elem_of_fmap in Hin as ([ns c'] & [= -> -> ->] & Hin).
    apply mounted_entries in Hm as [_ Hm]. rewrite Forall_forall in Hm.
    apply list_elem_of_In in He. specialize (Hm _ He). by apply (IH _ t').
Qed.

Lemma succeeds_compile_files version commit fs :
  Forall (fun f => f ∈ files t) fs ->
  succeeds env (compile_files dir version commit (path_of <$> fs))
    (fun s => s = joined ((fun f => section version commit (path_of f) f.2) <$> fs)).
Proof using Hm Hplain.
  induction 1 as [|f fs Hf _ IH]; [by apply succeeds_ok|]. rewrite fmap_cons. cbn [compile_files].
  eapply succeeds_then; [apply (succeeds_await _ (fun c => c = f.2)); eauto using read_file | intros ? ->].
  eapply succeeds_then; [exact IH | intros ? ->]. by apply succeeds_ok.
Qed.

Lemma succeeds_tree_lines fs :
  Forall (fun f => f ∈ files t) fs ->
  succeeds env (tree_lines dir (path_of <$> fs))
    (fun s => s = joined ((fun f => path_of f +:+ NUL +:+ sha256Hex f.2 +:+ newline) <$> fs)).
Proof using Hm Hplain.
  induction 1 as [|f fs Hf _ IH]; [by apply succeeds_ok|]. rewrite fmap_cons. cbn [tree_lines].
  eapply succeeds_then; [apply (succeeds_await _ (fun c => c = f.2)); eauto using read_file | intros ? ->].
  eapply succeeds_then; [exact IH | intros ? ->]. apply succeeds_ok. cbn.
  by rewrite !string_app_assoc.
Qed.

Lemma sorted_in : Forall (fun f => f ∈ files t) (sorted_files t).
Proof using. apply Forall_forall. intros f. unfold sorted_files. by rewrite merge_sort_Permutation. Qed.

Lemma succeeds_compile version commit inject :
  succeeds env (compile fuel dir version commit inject)
    (fun b => b = compiled version commit inject (sorted_files t)).
Proof using Hdir Hdepth Hm Hplain.
  unfold compile. eapply succeeds_then; [apply succeeds_list | intros ? ->].
  eapply succeeds_then; [apply succeeds_compile_files, sorted_in | intros ? ->]. by apply succeeds_ok.
Qed.

Lemma succeeds_sourceTreeHash :
  succeeds env (sourceTreeHash fuel dir) (fun s => s = tree_hash (sorted_files t)).
Proof using Hdir Hdepth Hm Hplain.
  unfold sourceTreeHash. eapply succeeds_then; [apply succeeds_list | intros ? ->].
  eapply succeeds_then; [apply succeeds_tree_lines, sorted_in | intros ? ->]. by apply succeeds_ok.
Qed.
End Mounted.

(** The source tree [t] is on the disk at [dir], and the fuel is enough for its depth. *)
Record holds (env : environment toolE) (dir : string) (t : tree) (fuel : nat) : Prop := {
  ho_directory : is_directory t = true;
  ho_depth : (depth t <= fuel)%nat;
  ho_mounted : mounted env dir t;
  ho_plain : plain dir t;
}.

Lemma succeeds_outcome {A} env (p : tool A) (a : A) : succeeds env p (fun b => b = a) -> outcome_of env p = Ok a.
Proof. intros Hp. destruct (Hp []) as (b & Hb & ->). exact Hb. Qed.

Lemma injected_differs version commit inject fs :
  (forall s s', Buffer_from s = Buffer_from s' -> s = s') ->
  compiled version commit inject fs <> compiled version commit (negb inject) fs.
Proof.
  intros Hinj E. unfold compiled in E. apply Hinj, (inj (String.app _)), (inj (String.app _)) in E.
  by destruct inject.
Qed.

(** C15: independent rebuilds agree. Two machines that hold the same files - anywhere on their disks, in
    directories that list their entries in any order - build the same binary and compute the same
    source tree hash, so an honest attestation cannot be countered; and the binary of a builder that
    injects its payload is a different one, so a tampered build can be. *)
Theorem independent_rebuilds_agree env1 env2 dir1 dir2 t1 t2 fuel1 fuel2 version commit inject :
  (forall s s', Buffer_from s = Buffer_from s' -> s = s') ->
  holds env1 dir1 t1 fuel1 -> holds env2 dir2 t2 fuel2 -> files t1 ≡ₚ files t2 -> distinct t1 ->
  exists binary hash other,
    outcome_of env1 (compile fuel1 dir1 version commit inject) = Ok binary
    /\ outcome_of env2 (compile fuel2 dir2 version commit inject) = Ok binary
    /\ outcome_of env1 (sourceTreeHash fuel1 dir1) = Ok hash
    /\ outcome_of env2 (sourceTreeHash fuel2 dir2) = Ok hash
    /\ outcome_of env2 (compile fuel2 dir2 version commit (negb inject)) = Ok other
    /\ other <> binary.
Proof.
  intros Hinj [] [] HP HD. pose proof (sorted_files_unique _ _ HP HD) as E.
  exists (compiled version commit inject (sorted_files t1)), (tree_hash (sorted_files t1)),
    (compiled version commit (negb inject) (sorted_files t1)).
  split_and!; [| rewrite E | | rewrite E | rewrite E |]; try (apply succeeds_outcome);
    auto using succeeds_compile, succeeds_sourceTreeHash.
  intros E'. by apply (injected_differs version commit inject (sorted_files t1) Hinj).
Qed.
End Reproducible.

(** ** Two machines *)

Module ToyBuilder.
Definition text : string -> list byte := String.list_byte_of_string.

#[global] Instance Libs : BuilderLibs := {|
  localeCompare := fun a b => if String.leb a b then 0 else 1;
  path_relative := fun base full => drop_string (String.length base + 1) full;
  path_sep := "/";
  utf8_decode := String.string_of_list_byte;
  Buffer_from := text;
  json_stringify := fun f => af_version f;
  BUILDER_FILE := "build.js";
|}.

Lemma text_inj s s' : text s = text s' -> s = s'.
Proof.
  unfold text. intros E. rewrite <- (String.string_of_list_byte_of_string s), E.
  apply String.string_of_list_byte_of_string.
Qed.

Definition main_sh : list byte := text "echo __VERSION__ $(util)".
Definition util_sh : list byte := text "util() { echo __COMMIT__; }".
Definition here : tree := Directory [("main.sh", File main_sh); ("lib", Directory [("util.sh", File util_sh)])].
Definition there : tree := Directory [("lib", Directory [("util.sh", File util_sh)]); ("main.sh", File main_sh)].

(** A disk with the tree at [dir], its root listed in order or backwards. *)
Definition disk (dir : string) (backwards : bool) : environment toolE := fun X _ e =>
  match e in toolE X return X with
  | readdirSync path =>
      if decide (path = dir) then
        Ok ((if backwards then reverse else id) [("main.sh", false); ("lib", true)])
      else if decide (path = dir +:+ "/lib") then Ok [("util.sh", false)] else Err "ENOTDIR"
  | readFileSync path =>
      if decide (path = dir +:+ "/main.sh") then Ok main_sh
      else if decide (path = dir +:+ "/lib/util.sh") then Ok util_sh else Err "ENOENT"
  | existsSync _ => false
  | query_projects _ | query_releaseCount _ | query_releaseLog _ _ | query_stakeholders _ _
  | mkdirSync _ | writeFileSync _ _ _ | addFromUri _ => Err "not connected"
  | pair_sign _ _ => []
  end.
End ToyBuilder.

Lemma independent_rebuilds_agree_witness :
  exists binary hash,
    outcome_of (ToyBuilder.disk "src" false) (compile 2 "src" "1.2.3" "c0ff33d" false) = Ok binary
    /\ outcome_of (ToyBuilder.disk "tmp" true) (compile 2 "tmp" "1.2.3" "c0ff33d" false) = Ok binary
    /\ outcome_of (ToyBuilder.disk "tmp" true) (sourceTreeHash 2 "tmp") = Ok hash.
Proof.
  destruct (independent_rebuilds_agree (ToyBuilder.disk "src" false) (ToyBuilder.disk "tmp" true) "src" "tmp"
    ToyBuilder.here ToyBuilder.there 2 2 "1.2.3" "c0ff33d" false) as (binary & hash & other & H1 & H2 & H3 & H4 & _).
  - exact ToyBuilder.text_inj.
  - split; [done | vm_compute; lia | |].
    + cbn [mounted fold_right ToyBuilder.here ToyBuilder.there]. split_and!; try exact I; intros hist;
        first [vm_compute; reflexivity
              | eexists; split; [vm_compute; reflexivity | first [reflexivity | apply Permutation_swap]]].
    + intros f Hf. repeat (apply elem_of_cons in Hf as [->|Hf]; [by vm_compute|]). by apply not_elem_of_nil in Hf.
  - split; [done | vm_compute; lia | |].
    + cbn [mounted fold_right ToyBuilder.here ToyBuilder.there]. split_and!; try exact I; intros hist;
        first [vm_compute; reflexivity
              | eexists; split; [vm_compute; reflexivity | first [reflexivity | apply Permutation_swap]]].
    + intros f Hf. repeat (apply elem_of_cons in Hf as [->|Hf]; [by vm_compute|]). by apply not_elem_of_nil in Hf.
  - apply Permutation_swap.
  - unfold distinct. apply (bool_decide_unpack _). by vm_compute.
  - exists binary, hash. split_and!; [exact H1 | exact H2 | exact H4].
Defined.
