(* ===== verification/Supply.v ===== *)
(** * From the build to the user

    What the builder attests is what the client installs: once a proposal with the digests of a build
    is in the log, a client whose store has the two files [buildAndAttest] left there accepts
    the entry and writes the binary that was built. *)
From stdpp Require Import prelude gmap vector strings.
From Stdlib Require Import Init.Byte Strings.Ascii.
From S2P Require Import Prelude Types Config Storage Pallet Chain Mock Scenarios Exec Effects.
From S2P Require Import Runs Interaction Tools Disk Client Install Builder Reproducible.
#[local] Open Scope Z_scope.
#[local] Open Scope prog_scope.

Section Supply.
Context {T : Config} {J : JsLibs T} {B : BuilderLibs} {JL : JsLaws J}.

(** [JSON.parse] reads back what the builder wrote. *)
Hypothesis json_roundtrip : forall f,
  json_parse (Buffer_from (json_stringify f +:+ newline)) = Some (af_attestation f).

(** ** Commit identifiers *)

Lemma all_hex_zeros n : all_hex (zeros n) = true.
Proof. by induction n. Qed.
Lemma length_zeros n : String.length (zeros n) = n.
Proof. induction n as [|n IH]; [done|]. exact (f_equal Datatypes.S IH). Qed.
Lemma all_hex_app s s' : all_hex (s +:+ s') = all_hex s && all_hex s'.
Proof.
  induction s as [|c s IH]; [done|]. change (String c s +:+ s') with (String c (s +:+ s')).
  cbn [all_hex]. by rewrite IH, andb_assoc.
Qed.
Lemma length_app_string (s s' : string) :
  String.length (s +:+ s') = (String.length s + String.length s')%nat.
Proof. induction s as [|c s IH]; [done|]. exact (f_equal Datatypes.S IH). Qed.

(** A commit identifier that is accepted becomes 64 lower-case hexadecimal digits. *)
Lemma commitHash32_Some short h :
  commitHash32 short = Some h ->
  exists ds, h = "0x" +:+ ds /\ all_hex ds = true /\ String.length ds = 64%nat.
Proof.
  unfold commitHash32. set (clean := toLowerCase (strip0x short)).
  destruct (all_hex clean) eqn:Ha; [|done]. destruct (String.length clean =? 0)%nat; [done|]. cbn [negb orb].
  destruct (Nat.ltb_spec 64 (String.length clean)); [done|]. intros [= <-].
  exists (padEnd 64 clean). split; [done|]. unfold padEnd.
  rewrite all_hex_app, Ha, all_hex_zeros, length_app_string, length_zeros. split; [done | lia].
Qed.

Lemma commitHash32_hex short h :
  commitHash32 short = Some h -> u8aToHex (hexToU8a (Some h)) = h /\ toLowerCase h = h.
Proof using JL.
  intros (ds & -> & Ha & Hl)%commitHash32_Some.
  assert (E : u8aToHex (hexToU8a (Some ("0x" +:+ ds))) = "0x" +:+ ds)
    by (apply u8aToHex_digits; [done | by rewrite Hl]).
  split; [exact E|]. rewrite <- E at 1. by rewrite lower_hex, E.
Qed.

(** ** What a run of the builder leaves behind *)

(** The keyring gives the pair of [who] for [uri], and signs with it. *)
Record keyring (env : environment toolE) (uri : string) (who : AccountId) : Prop := {
  kr_pair h address pk : env _ h (addFromUri uri) = Ok (address, pk) -> decodeAddress (Some address) = Some who;
  kr_sign h message : sr25519Verify message (env _ h (pair_sign uri message)) who = Some true;
}.

(** The result is signed by [who]; it carries the commit and the hash of the binary, and its text reads
    back as its fields. *)
Record attested (commit : string) (who : AccountId) (r : BuildResult) : Prop := {
  at_builder : exists address, aj_builder (br_attestation r) = Some address
    /\ decodeAddress (Some address) = Some who;
  at_signature : exists payload, signingPayload (br_attestation r) = Some payload
    /\ sr25519Verify payload (hexToU8a (Some (br_signature r))) who = Some true;
  at_commit : exists h, commitHash32 commit = Some h
    /\ aj_source_commit_hash (br_attestation r) = Some h;
  at_binary : aj_output_binary_hash (br_attestation r) = Some (sha256Hex (br_binary r));
  at_json : json_parse (br_attestationJson r) = Some (mkAttestationJson
    (aj_source_commit_hash (br_attestation r)) (aj_source_tree_hash (br_attestation r))
    (aj_build_environment_hash (br_attestation r)) (aj_output_binary_hash (br_attestation r))
    (aj_builder (br_attestation r)) (Some (br_signature r)));
  at_cid : br_attestationCid r = sha256Hex (br_attestationJson r);
}.

(** The disk after [storePut] of [bytes]. *)
Definition put (bytes : list byte) (d : Disk) : Disk :=
  if decide (is_Some (d !! store_file bytes)) then d else <[store_file bytes := bytes]> d.

(** Reading the sources writes nothing. *)
Lemma quiet_list_entries listDir dir base entries :
  (forall full, all_calls quiet_call (listDir full)) ->
  all_calls quiet_call (list_entries listDir dir base entries).
Proof.
  intros H. induction entries as [|[name [|]] entries IH]; cbn [list_entries]; calls; apply H || apply IH.
Qed.

Lemma quiet_listFiles fuel dir base : all_calls quiet_call (listFiles fuel dir base).
Proof.
  revert dir. induction fuel as [|fuel IH]; intros dir; cbn [listFiles]; [done|]. calls.
  by apply quiet_list_entries.
Qed.

Lemma quiet_compile_files dir version commit fs : all_calls quiet_call (compile_files dir version commit fs).
Proof. induction fs as [|f fs IH]; cbn [compile_files]; calls; apply IH. Qed.

Lemma quiet_tree_lines dir fs : all_calls quiet_call (tree_lines dir fs).
Proof. induction fs as [|f fs IH]; cbn [tree_lines]; calls; apply IH. Qed.

Lemma quiet_compile fuel dir version commit inject : all_calls quiet_call (compile fuel dir version commit inject).
Proof. unfold compile. calls; [apply quiet_listFiles | apply quiet_compile_files]. Qed.

Lemma quiet_sourceTreeHash fuel dir : all_calls quiet_call (sourceTreeHash fuel dir).
Proof. unfold sourceTreeHash. calls; [apply quiet_listFiles | apply quiet_tree_lines]. Qed.

Lemma wp_returned_value {A} env (o : option A) (Q : A -> list (called toolE) -> Prop) h :
  (forall a, o = Some a -> Q a h) -> wp env (returned o) Q always h.
Proof. destruct o as [a|]; intros HQ; [by apply HQ | done]. Qed.

(** If the builder returns, its result is attested, and the disk has had both artifacts put to the store,
    the binary first. *)
Lemma wp_buildAndAttest env d fuel version commit inject uri srcDir who h :
  stores env d -> keyring env uri who ->
  wp env (buildAndAttest fuel version commit inject uri srcDir true) (fun r h' => attested commit who r
    /\ disk d h' = put (br_attestationJson r) (put (br_binary r) (disk d h))) always h.
Proof using JL json_roundtrip.
  intros Hd Hk. unfold buildAndAttest.
  apply wp_then, wp_trigger. destruct (env _ h (addFromUri uri)) as [[address pk]|] eqn:Hpair; [|done].
  assert (E1 : disk d (h ++ [Called (addFromUri uri) (Ok (address, pk))]) = disk d h) by apply disk_snoc.
  revert E1. generalize (h ++ [Called (addFromUri uri) (Ok (address, pk))]). intros h1 E1.
  apply wp_then, (wp_quiet _ d); [apply quiet_compile | intros binary h2 E2].
  apply wp_then, wp_returned_value. intros ch Hch.
  apply wp_then, (wp_quiet _ d); [apply quiet_sourceTreeHash | intros tree h3 E3].
  apply wp_then, (wp_quiet _ d); [unfold buildEnvironmentHash; by calls | intros environment h4 E4].
  cbv zeta. apply wp_then, wp_returned_value. intros payload Hpay.
  apply wp_then, (wp_look _ d _ _ _ _ _ eq_refl); [done | intros h5 E5].
  set (json := Buffer_from _).
  apply wp_then, wp_then, (wp_storePut _ d _ _ _ Hd). intros h6 E6.
  apply wp_then, (wp_storePut _ d _ _ _ Hd). intros h7 E7.
  apply wp_ok, wp_ok. split.
  - split; cbn.
    + exists address. split; [done|]. by eapply kr_pair.
    + exists payload. split; [exact Hpay|]. rewrite hexToU8a_hex. by apply kr_sign.
    + by exists ch.
    + done.
    + unfold json. by rewrite json_roundtrip.
    + done.
  - cbn. rewrite E7, E6, E5, E4, E3, E2, E1. reflexivity.
Qed.

(** The store does not already have other files under the names of the two artifacts, and the two
    do not get the same name: [storePut] would leave the file it finds alone, whatever it holds. *)
Record free (d : Disk) (r : BuildResult) : Prop := {
  fr_binary : default (br_binary r) (d !! store_file (br_binary r)) = br_binary r;
  fr_json : default (br_attestationJson r) (d !! store_file (br_attestationJson r)) = br_attestationJson r;
  fr_names : store_file (br_binary r) = store_file (br_attestationJson r) -> br_binary r = br_attestationJson r;
}.

Lemma put_lookup bytes d : default bytes (d !! store_file bytes) = bytes -> put bytes d !! store_file bytes = Some bytes.
Proof. unfold put. case_decide as Hs; intros E; [|apply lookup_insert_eq]. destruct Hs as [c Hc]. rewrite Hc in *. by f_equal. Qed.

Lemma put_keeps bytes path c d : d !! path = Some c -> put bytes d !! path = Some c.
Proof.
  intros Hc. unfold put. case_decide as Hs; [done|]. rewrite lookup_insert_ne; [done|].
  intros <-. apply Hs. by eexists.
Qed.

Lemma put_both d r :
  free d r ->
  let d' := put (br_attestationJson r) (put (br_binary r) d) in
  d' !! store_file (br_binary r) = Some (br_binary r)
  /\ d' !! store_file (br_attestationJson r) = Some (br_attestationJson r).
Proof.
  intros [H1 H2 H3]. split; [by apply put_keeps, put_lookup|]. apply put_lookup.
  destruct (decide (store_file (br_binary r) = store_file (br_attestationJson r))) as [E|E].
  - rewrite <- E, put_lookup by done. by apply H3.
  - unfold put. case_decide; [done|]. by rewrite lookup_insert_ne.
Qed.

(** ** Acceptance *)

(** The entry of the log carries what the builder made: its digests are those of the attestation. *)
Definition publishes (e : ReleaseEntry) (r : BuildResult) : Prop :=
  vec_to_list (re_output_binary_hash e) = hexToU8a (aj_output_binary_hash (br_attestation r))
  /\ vec_to_list (re_source_commit_hash e) = hexToU8a (aj_source_commit_hash (br_attestation r))
  /\ vec_to_list (re_attestation_cid e) = hexToU8a (Some (br_attestationCid r)).

Lemma store_at_file bytes (x : Hash32) : vec_to_list x = sha256 bytes -> store_at x = store_file bytes.
Proof using JL.
  unfold store_at, store_file, sha256Hex. intros ->. by destruct (u8aToHex_0x (sha256 bytes)) as [ds ->].
Qed.

Lemma signingPayload_unsigned a b c d builder sig :
  signingPayload (mkAttestationJson a b c d builder sig) = signingPayload (mkAttestationJson a b c d builder None).
Proof. done. Qed.

Lemma attested_artifacts commit who r (w : World) d pid e sh :
  attested commit who r ->
  d !! store_file (br_binary r) = Some (br_binary r) ->
  d !! store_file (br_attestationJson r) = Some (br_attestationJson r) ->
  publishes e r -> w_Stakeholders w !! (pid, who) = Some sh -> sh_role sh = BuildService ->
  artifacts w d pid e (br_binary r) (br_attestationJson r).
Proof using JL.
  intros [(address & Hb & Hwho) (payload & Hpay & Hv) (ch & Hch & Hcommit) Hbin Hjson Hcid] F1 F2 (E1 & E2 & E3)
    Hsh Hr.
  rewrite Hbin in E1. rewrite Hcommit in E2. rewrite Hcid in E3. unfold sha256Hex in E1, E3.
  rewrite hexToU8a_hex in E1, E3. destruct (commitHash32_hex _ _ Hch) as [Hhex Hlow].
  eexists _, who, sh, payload. split_and!.
  - split; [done|]. by rewrite (store_at_file (br_binary r)).
  - split; [done|]. by rewrite (store_at_file (br_attestationJson r)).
  - exact Hjson.
  - cbn. rewrite Hbin, E1. cbn. unfold sha256Hex. by rewrite lower_hex.
  - cbn. rewrite Hcommit, E2. cbn. by rewrite Hlow, Hhex.
  - cbn. by rewrite Hb.
  - done.
  - done.
  - rewrite <- Hpay. destruct (br_attestation r). apply signingPayload_unsigned.
  - exact Hv.
Qed.

(** C14: what the builder attests, the client installs. Suppose [buildAndAttest] returns on a machine with
    the disk [d] and a keyring that signs for the account [who], where no other file has the name of one of
    the two artifacts in the store. Take a client whose store has, under these two names, what
    the build has left there, and whose chain has an entry with the digests of the result, in a project
    with [who] as a Build Service. Then [verifyAndInstall] accepts the entry, and the file it installs
    is the binary that was built, whatever that is. *)
Theorem attested_builds_are_installed env d fuel version commit inject uri srcDir who r env' (w : World) d' pid name e sh :
  stores env d -> keyring env uri who ->
  let build := buildAndAttest fuel version commit inject uri srcDir true in
  outcome_of env build = Ok r -> free d r ->
  works env' w d' ->
  (forall b, b = br_binary r \/ b = br_attestationJson r ->
    d' !! store_file b = disk d (trace env build) !! store_file b) ->
  publishes e r -> w_Stakeholders w !! (pid, who) = Some sh -> sh_role sh = BuildService ->
  outcome_of env' (verifyAndInstall pid name e) = Ok (report name e)
  /\ disk d' (trace env' (verifyAndInstall pid name e)) !! target name e = Some (br_binary r).
Proof using JL json_roundtrip.
  intros Hd Hk build Hrun Hfree Hworks Hsame He Hsh Hrole.
  destruct (wp_returned env build _ r
    (wp_buildAndAttest env d fuel version commit inject uri srcDir who [] Hd Hk) Hrun) as [Hatt Hdisk].
  destruct (put_both d r Hfree) as [F1 F2].
  assert (Ha : artifacts w d' pid e (br_binary r) (br_attestationJson r)).
  { apply (attested_artifacts commit who r w d' pid e sh); try done; rewrite Hsame by auto;
      by rewrite Hdisk. }
  destruct (wp_returns env' (verifyAndInstall pid name e) (fun i h => i = report name e
    /\ disk d' h !! target name e = Some (br_binary r))) as (i & Hi & -> & Hfile); [|by split].
  apply (wp_verifyAndInstall Hworks pid name e _ _ _ [] Ha). intros h E. split; [done|].
  by rewrite E, lookup_insert_ne, lookup_insert_eq by (symmetry; apply target_attestation_ne).
Qed.
End Supply.

(** ** A build of the toy machine *)

Module ToySupply.
(** A JSON text: the bits of an encoding. *)
Fixpoint bits (p : positive) : string :=
  match p with
  | xH => EmptyString
  | xO p' => String "0" (bits p')
  | xI p' => String "1" (bits p')
  end.
Fixpoint parse_bits (s : string) : positive :=
  match s with
  | String "0" s' => xO (parse_bits s')
  | String "1" s' => xI (parse_bits s')
  | _ => xH
  end.
Lemma parse_bits_line p : parse_bits (bits p +:+ newline) = p.
Proof.
  induction p as [p IH|p IH|]; [| |done].
  - exact (f_equal xI IH).
  - exact (f_equal xO IH).
Qed.

Definition fields (a : AttestationJson) : list (option string) :=
  [aj_source_commit_hash a; aj_source_tree_hash a; aj_build_environment_hash a; aj_output_binary_hash a;
   aj_builder a; aj_builder_signature a].
Definition of_fields (l : list (option string)) : option AttestationJson :=
  match l with [a; b; c; d; e; f] => Some (mkAttestationJson a b c d e f) | _ => None end.

Definition Libs : BuilderLibs := {|
  localeCompare := fun a b => if String.leb a b then 0 else 1;
  path_relative := fun base full => drop_string (String.length base + 1) full;
  path_sep := "/";
  utf8_decode := String.string_of_list_byte;
  Buffer_from := ToyBuilder.text;
  json_stringify := fun f => bits (encode (fields (af_attestation f)));
  BUILDER_FILE := "build.js";
|}.

(** The builder signs a payload with itself; a digest is the first 32 bytes. *)
Definition Js : JsLibs Test := {|
  sha256 := fun l => take 32 (l ++ replicate 32 x00);
  u8aToHex := Hex.u8aToHex;
  hexToU8a := Hex.hexToU8a;
  u8aToString := String.string_of_list_byte;
  decodeAddress := fun o => if decide (o = Some "BuildService") then Some BUILD_SERVICE else None;
  sr25519Verify := fun payload sig who => Some (bool_decide (payload = sig /\ who = BUILD_SERVICE));
  json_parse := fun bytes => decode (parse_bits (String.string_of_list_byte bytes)) ≫= of_fields;
  path_join := fun dir name => dir +:+ "/" +:+ name;
  STORE_DIR := "store";
  INSTALL_DIR := "install";
|}.

Lemma json_roundtrip f :
  @json_parse _ Js (@Buffer_from Libs (@json_stringify Libs f +:+ newline)) = Some (af_attestation f).
Proof.
  change (decode (parse_bits (String.string_of_list_byte (String.list_byte_of_string
    (bits (encode (fields (af_attestation f))) +:+ newline)))) ≫= of_fields = Some (af_attestation f)).
  rewrite String.string_of_list_byte_of_string, parse_bits_line, decode_encode.
  by destruct (af_attestation f).
Qed.

(** The sources of [ToyBuilder] and the builder's own code, and no store yet; the keyring. *)
Definition sources : Disk :=
  <["build.js" := [x01]]> (<["src/main.sh" := ToyBuilder.main_sh]> {["src/lib/util.sh" := ToyBuilder.util_sh]}).
Definition builder_env : environment toolE := machine (fun X h e =>
  match e in toolE X return X with
  | addFromUri _ => Ok ("BuildService", [])
  | pair_sign _ message => message
  | e' => ToyBuilder.disk "src" false _ h e'
  end) sources.

Definition run : tool BuildResult :=
  @buildAndAttest _ Js Libs 2 "1.2.3" "c0ff33d" false "//BuildService" "src" true.
Definition no_attestation : AttestationJson := mkAttestationJson None None None None None None.
Definition result : BuildResult :=
  match outcome_of builder_env run with
  | Ok r => r
  | Err _ => mkBuildResult "" "" false [] no_attestation "" [] "" ""
  end.

(** A client on the same machine, after the build, whose chain knows the Build Service. *)
Definition left : Disk := disk sources (trace builder_env run).
Definition client_env : environment toolE := machine (Toy.env (world_of founded)) left.

Lemma client_works : @works Test Js client_env (world_of founded) left.
Proof.
  split; try done; [|apply machine_stores].
  intros pid who a hist H. cbn. unfold decodeAddress in H. cbn in H. by rewrite H.
Qed.

(** The first 32 bytes, as a digest. *)
Definition to_hash (l : list byte) : Hash32 := fun_to_vec (fun i : fin 32 => nth i l x00).

(** The entry that publishes the result. *)
Definition entry (r : BuildResult) : ReleaseEntry :=
  mkReleaseEntry 0 v1_2_3 (to_hash (Hex.hexToU8a (aj_source_commit_hash (br_attestation r))))
    (to_hash (Hex.hexToU8a (aj_output_binary_hash (br_attestation r))))
    (to_hash (Hex.hexToU8a (Some (br_attestationCid r)))) 11.
End ToySupply.

Lemma attested_builds_are_installed_witness :
  String.length (br_attestationCid ToySupply.result) = 66%nat
  /\ size (ToySupply.left) = 5%nat
  /\ let install := @verifyAndInstall Test ToySupply.Js 0 "acme-utils" (ToySupply.entry ToySupply.result) in
     outcome_of ToySupply.client_env install
       = Ok (@report Test ToySupply.Js "acme-utils" (ToySupply.entry ToySupply.result))
     /\ disk ToySupply.left (trace ToySupply.client_env install)
          !! @target Test ToySupply.Js "acme-utils" (ToySupply.entry ToySupply.result)
        = Some (br_binary ToySupply.result).
Proof.
  split; [by vm_compute|]. split; [by vm_compute|].
  apply (@attested_builds_are_installed Test ToySupply.Js ToySupply.Libs
    (Hex.laws ToySupply.Js eq_refl eq_refl) ToySupply.json_roundtrip ToySupply.builder_env ToySupply.sources
    2 "1.2.3" "c0ff33d" false "//BuildService" "src" BUILD_SERVICE ToySupply.result ToySupply.client_env
    (world_of founded) ToySupply.left 0 "acme-utils" (ToySupply.entry ToySupply.result)
    (mkStakeholder BuildService BUILD_STAKE)).
  - apply machine_stores.
  - split; [by intros hist address pk [= <- <-]|]. intros hist message. cbn. by rewrite bool_decide_true.
  - vm_compute. reflexivity.
  - split; [vm_compute; reflexivity.. |]. vm_compute. discriminate.
  - apply ToySupply.client_works.
  - done.
  - split_and!; vm_compute; reflexivity.
  - vm_compute. reflexivity.
  - reflexivity.
Defined.
