(* ===== verification/UnitTests.v ===== *)
(** * The unit tests pass

    [Scenarios] translates [pallets/verigov/src/tests.rs]; here the scripts are evaluated on the model. *)
From stdpp Require Import prelude.
From S2P Require Import Prelude Types Config Storage Pallet Chain Mock Scenarios.

(** The unit tests pass. Every one of the eighteen unit tests of the pallet, run as a script of
    calls, block advances and assertions from the externalities of the mock runtime, goes through on
    the model. *)
Theorem unit_tests_pass : forallb passes unit_tests = true.
Proof. vm_compute. reflexivity. Qed.
